(** * Attune: the conversational context and value-arbitration engine

    A shallow embedding of the TypeScript sources of the engine: the entity
    recognizer, the intention detector, the working memory, the interaction
    pattern tracker, the intention recognizer, the entity tracker and the
    value hierarchy, followed by the properties established about them.

    Conventions of the embedding.
    - A JavaScript [number] that holds a score is a rational ([Q]); one that
      holds a count, an index or a time stamp in milliseconds is an integer
      ([Z]).  Arithmetic is exact.
    - A JavaScript string is a [string]: a sequence of 8-bit code units, with
      the ASCII case mapping.
    - [Date.now()] is an explicit argument [now]; one call of an operation
      sees one instant.
    - A [Map] and an object used as a record of counters are association
      lists in insertion order, the order in which JavaScript iterates them.
    - An optional field [f?: T] is an [option T]. *)

From Stdlib Require Import List String Ascii Bool Arith ZArith QArith Qminmax Qabs.
From Stdlib Require Import Lia Lqa Permutation Sorted.
Import ListNotations.

Set Implicit Arguments.
Set Warnings "-register-all".
Close Scope Q_scope.
Open Scope string_scope.
Open Scope list_scope.
Open Scope nat_scope.

(* ================================================================= *)
(** ** JavaScript primitives *)

Module Js.

(** [Math.max] and [Math.min] on two numbers. *)
Definition Math_max (a b : Q) : Q := Qmax a b.
Definition Math_min (a b : Q) : Q := Qmin a b.

(** [a || b] on numbers held in optional fields: [undefined] and [0] are
    falsy. *)
Definition orZ (a : option Z) (b : Z) : Z :=
  match a with
  | Some x => if (x =? 0)%Z then b else x
  | None => b
  end.

Definition orQ (a : option Q) (b : Q) : Q :=
  match a with
  | Some x => if Qeq_bool x 0 then b else x
  | None => b
  end.

(** [a || b] on strings: [undefined] and the empty string are falsy. *)
Definition orS (a : option string) (b : string) : string :=
  match a with
  | Some EmptyString | None => b
  | Some s => s
  end.

Definition is_upper (c : ascii) : bool :=
  let n := nat_of_ascii c in (65 <=? n) && (n <=? 90).

Definition is_lower (c : ascii) : bool :=
  let n := nat_of_ascii c in (97 <=? n) && (n <=? 122).

Definition is_digit (c : ascii) : bool :=
  let n := nat_of_ascii c in (48 <=? n) && (n <=? 57).

Definition lower_char (c : ascii) : ascii :=
  if is_upper c then ascii_of_nat (nat_of_ascii c + 32) else c.

Definition upper_char (c : ascii) : ascii :=
  if is_lower c then ascii_of_nat (nat_of_ascii c - 32) else c.

(** [s.toLowerCase()] *)
Fixpoint toLowerCase (s : string) : string :=
  match s with
  | EmptyString => EmptyString
  | String c r => String (lower_char c) (toLowerCase r)
  end.

(** [s.startsWith(p)] *)
Fixpoint startsWith (s p : string) : bool :=
  match p, s with
  | EmptyString, _ => true
  | String _ _, EmptyString => false
  | String a p', String b s' => Ascii.eqb a b && startsWith s' p'
  end.

(** [s.includes(p)] *)
Fixpoint includes (s p : string) : bool :=
  startsWith s p ||
  match s with
  | EmptyString => false
  | String _ s' => includes s' p
  end.

(** [s.endsWith(p)] for a one-character [p]. *)
Fixpoint endsWithChar (s : string) (c : ascii) : bool :=
  match s with
  | EmptyString => false
  | String a EmptyString => Ascii.eqb a c
  | String _ r => endsWithChar r c
  end.

(** White space removed by [trim]: tab, line feed, vertical tab, form feed,
    carriage return, space and the no-break space. *)
Definition is_space (c : ascii) : bool :=
  let n := nat_of_ascii c in
  ((9 <=? n) && (n <=? 13)) || (n =? 32) || (n =? 160).

Fixpoint trimStart (s : string) : string :=
  match s with
  | EmptyString => EmptyString
  | String c r => if is_space c then trimStart r else s
  end.

Fixpoint trimEnd (s : string) : string :=
  match s with
  | EmptyString => EmptyString
  | String c r =>
      match trimEnd r with
      | EmptyString => if is_space c then EmptyString else String c EmptyString
      | r' => String c r'
      end
  end.

(** [s.trim()] *)
Definition trim (s : string) : string := trimEnd (trimStart s).

(** [s.split(sep)] for a separator that is not empty. *)
Fixpoint splitAux (fuel : nat) (sep : string) (acc s : string)
  : list string :=
  match fuel with
  | 0 => [acc]
  | S fuel' =>
      match s with
      | EmptyString => [acc]
      | String c r =>
          if startsWith s sep
          then acc :: splitAux fuel' sep EmptyString
                        (substring (String.length sep)
                           (String.length s - String.length sep) s)
          else splitAux fuel' sep (acc ++ String c EmptyString)%string r
      end
  end.

Definition split (sep s : string) : list string :=
  splitAux (S (String.length s)) sep EmptyString s.

(** Decimal digits of a natural number, and of an integer. *)
Fixpoint digitsAux (fuel n : nat) (acc : string) : string :=
  match fuel with
  | 0 => acc
  | S fuel' =>
      let acc' := String (ascii_of_nat (48 + n mod 10)) acc in
      if n / 10 =? 0 then acc' else digitsAux fuel' (n / 10) acc'
  end.

Definition numberToString (z : Z) : string :=
  let n := Z.abs_nat z in
  ((if (z <? 0)%Z then "-" else "") ++ digitsAux (S n) n "")%string.

(** [a.slice(0, n)] and [a.slice(-n)] on arrays. *)
Definition slice_to {A} (n : nat) (l : list A) : list A := firstn n l.
Definition slice_last {A} (n : nat) (l : list A) : list A :=
  skipn (List.length l - n) l.

(** [a.sort(cmp)]: the sort of an array is stable, so with a comparator
    that orders the elements by a key it returns the one stable ordering of
    the array.  [le x y] says that [cmp(x, y) <= 0]: [x] may stay before
    [y]. *)
Section Sort.
Variable A : Type.
Variable le : A -> A -> bool.

Fixpoint insert (x : A) (l : list A) : list A :=
  match l with
  | [] => [x]
  | y :: r => if le x y then x :: l else y :: insert x r
  end.

Fixpoint sort (l : list A) : list A :=
  match l with
  | [] => []
  | x :: r => insert x (sort r)
  end.


End Sort.

(** [s.split(re)] for an expression that stands for one or more white
    space characters: the pieces of [s] between its runs of white space; a
    run at either end of [s] leaves an empty piece there. *)
Fixpoint splitSpacesAux (inRun : bool) (acc s : string) : list string :=
  match s with
  | EmptyString => [acc]
  | String c r =>
      if is_space c
      then if inRun then splitSpacesAux true acc r
           else acc :: splitSpacesAux true EmptyString r
      else splitSpacesAux false (acc ++ String c EmptyString)%string r
  end.

Definition splitSpaces (s : string) : list string :=
  splitSpacesAux false EmptyString s.

(** [s.indexOf(p)]; [None] stands for -1. *)
Definition indexOf (s p : string) : option nat := String.index 0 p s.

(** [s.substring(n)] *)
Definition substringFrom (n : nat) (s : string) : string :=
  substring n (String.length s - n) s.

(** The characters of [s] that satisfy [keep], in their order. *)
Fixpoint filterChars (keep : ascii -> bool) (s : string) : string :=
  match s with
  | EmptyString => EmptyString
  | String c r =>
      if keep c then String c (filterChars keep r) else filterChars keep r
  end.

(** The longest prefix of [s] whose characters all satisfy [keep]. *)
Fixpoint takeWhile (keep : ascii -> bool) (s : string) : string :=
  match s with
  | EmptyString => EmptyString
  | String c r => if keep c then String c (takeWhile keep r) else EmptyString
  end.

End Js.

(* ================================================================= *)
(** ** Insertion-ordered maps

    A JavaScript [Map] (and a plain object with string keys that are not
    array indices) keeps its entries in insertion order; setting an existing
    key keeps the entry's place. *)

Module JsMap.

Section Ops.
Variable V : Type.

Definition t := list (string * V).

Fixpoint get (k : string) (m : t) : option V :=
  match m with
  | [] => None
  | (k', v) :: r => if String.eqb k k' then Some v else get k r
  end.

Definition has (k : string) (m : t) : bool :=
  match get k m with Some _ => true | None => false end.

Fixpoint set (k : string) (v : V) (m : t) : t :=
  match m with
  | [] => [(k, v)]
  | (k', v') :: r =>
      if String.eqb k k' then (k, v) :: r else (k', v') :: set k v r
  end.

Fixpoint delete (k : string) (m : t) : t :=
  match m with
  | [] => []
  | (k', v') :: r =>
      if String.eqb k k' then delete k r else (k', v') :: delete k r
  end.

Definition keys (m : t) : list string := map fst m.
Definition values (m : t) : list V := map snd m.

End Ops.

(** [{...a, ...b}] *)
Definition spread {V} (a b : t V) : t V :=
  fold_left (fun acc kv => set (fst kv) (snd kv) acc) b a.

End JsMap.

(* ================================================================= *)
(** ** JSON values: the values of fields typed [any] *)

Inductive json : Type :=
| JNull
| JBool (b : bool)
| JNum (q : Q)
| JStr (s : string)
| JArr (l : list json)
| JObj (fields : list (string * json)).

(* ================================================================= *)
(** ** enhanced-types.ts *)

Inductive IntentionType : Type :=
| QUESTION_FACTUAL | QUESTION_OPINION | QUESTION_CLARIFICATION
| REQUEST_ACTION | SUGGEST_ACTION | COMMAND
| GREETING | FAREWELL | GRATITUDE | APOLOGY | AGREEMENT | DISAGREEMENT
| EXPRESS_POSITIVE | EXPRESS_NEGATIVE | EXPRESS_NEUTRAL
| FEEDBACK_POSITIVE | FEEDBACK_NEGATIVE | TOPIC_SWITCH | META_COMMUNICATION
| SYSTEM_INFORM | SYSTEM_REQUEST | SYSTEM_SUGGEST | SYSTEM_ACKNOWLEDGE
| SYSTEM_CLARIFY
| UNKNOWN.

(** The string value of each member of the enumeration. *)
Definition intentionName (t : IntentionType) : string :=
  match t with
  | QUESTION_FACTUAL => "question_factual"
  | QUESTION_OPINION => "question_opinion"
  | QUESTION_CLARIFICATION => "question_clarification"
  | REQUEST_ACTION => "request_action"
  | SUGGEST_ACTION => "suggest_action"
  | COMMAND => "command"
  | GREETING => "greeting"
  | FAREWELL => "farewell"
  | GRATITUDE => "gratitude"
  | APOLOGY => "apology"
  | AGREEMENT => "agreement"
  | DISAGREEMENT => "disagreement"
  | EXPRESS_POSITIVE => "express_positive"
  | EXPRESS_NEGATIVE => "express_negative"
  | EXPRESS_NEUTRAL => "express_neutral"
  | FEEDBACK_POSITIVE => "feedback_positive"
  | FEEDBACK_NEGATIVE => "feedback_negative"
  | TOPIC_SWITCH => "topic_switch"
  | META_COMMUNICATION => "meta_communication"
  | SYSTEM_INFORM => "system_inform"
  | SYSTEM_REQUEST => "system_request"
  | SYSTEM_SUGGEST => "system_suggest"
  | SYSTEM_ACKNOWLEDGE => "system_acknowledge"
  | SYSTEM_CLARIFY => "system_clarify"
  | UNKNOWN => "unknown"
  end.

Definition IntentionType_eqb (a b : IntentionType) : bool :=
  String.eqb (intentionName a) (intentionName b).

Inductive EntityType : Type :=
| PERSON | LOCATION | ORGANIZATION | DATE_TIME | DURATION | PRODUCT | EVENT
| TOPIC | CONCEPT | TASK | PREFERENCE | CUSTOM.

Definition entityTypeName (t : EntityType) : string :=
  match t with
  | PERSON => "person"
  | LOCATION => "location"
  | ORGANIZATION => "organization"
  | DATE_TIME => "date_time"
  | DURATION => "duration"
  | PRODUCT => "product"
  | EVENT => "event"
  | TOPIC => "topic"
  | CONCEPT => "concept"
  | TASK => "task"
  | PREFERENCE => "preference"
  | CUSTOM => "custom"
  end.

Definition EntityType_eqb (a b : EntityType) : bool :=
  String.eqb (entityTypeName a) (entityTypeName b).

Record Entity : Type := mkEntity {
  e_type : EntityType;
  e_value : string;
  e_normalizedValue : option string;
  e_startIndex : option Z;
  e_endIndex : option Z;
  e_confidence : Q;
  e_attributes : option (JsMap.t json);
  e_firstMentionedAt : option Z;
  e_lastMentionedAt : option Z;
  e_mentionCount : option Z
}.

(** The [metadata] that [detectIntentions] attaches to an intention: the
    source of the pattern that matched, or the keywords that were found. *)
Inductive IntentionMetadata : Type :=
| matchedPattern (source : string)
| matchedKeywords (keywords : list string).

Record Intention : Type := mkIntention {
  i_type : IntentionType;
  i_confidence : Q;
  i_relatedEntities : option (list Entity);
  i_metadata : option IntentionMetadata
}.

Inductive Sender : Type := user | system.

Definition Sender_eqb (a b : Sender) : bool :=
  match a, b with
  | user, user | system, system => true
  | _, _ => false
  end.

(** The fields of [EnhancedMessage] that the engine reads; the fields that
    only the user interface uses are left out. *)
Record EnhancedMessage : Type := mkMessage {
  m_content : string;
  m_sender : Sender;
  m_timestamp : Z;
  m_detectedIntentions : option (list Intention);
  m_primaryIntention : option Intention;
  m_entities : option (list Entity)
}.

Record FocusState : Type := mkFocus {
  f_activeTopics : list string;
  f_activeEntities : list Entity;
  f_recentIntentions : list Intention;
  f_attentionPriorities : JsMap.t Q
}.

Record ConversationState : Type := mkConvState {
  cs_startTime : Z;
  cs_messageCount : Z;
  cs_activeTopics : list string;
  cs_userEngagementLevel : option Q
}.

Record ConversationContext : Type := mkContext {
  currentFocus : FocusState;
  recentMessages : list EnhancedMessage;
  entityMap : JsMap.t Entity;
  conversationState : ConversationState
}.

Inductive PatternType : Type := SEQUENTIAL | TEMPORAL | FREQUENCY | CONTEXTUAL.

Definition PatternType_eqb (a b : PatternType) : bool :=
  match a, b with
  | SEQUENTIAL, SEQUENTIAL | TEMPORAL, TEMPORAL
  | FREQUENCY, FREQUENCY | CONTEXTUAL, CONTEXTUAL => true
  | _, _ => false
  end.

(* ================================================================= *)
(** ** memory/working-memory.ts *)

Module WorkingMemory.

Definition maxRecentMessages : nat := 10.
Definition entityExpirationTime : Z := 30 * 60 * 1000.

(** The constructor, and [reset]. *)
Definition init (now : Z) : ConversationContext :=
  {| currentFocus :=
       {| f_activeTopics := []; f_activeEntities := [];
          f_recentIntentions := []; f_attentionPriorities := [] |};
     recentMessages := [];
     entityMap := [];
     conversationState :=
       {| cs_startTime := now; cs_messageCount := 0; cs_activeTopics := [];
          cs_userEngagementLevel := Some 0.5%Q |} |}.

Definition getContext (c : ConversationContext) : ConversationContext := c.

Definition entityKey (e : Entity) : string :=
  let normalizedValue :=
    Js.orS (e_normalizedValue e) (Js.toLowerCase (e_value e)) in
  (entityTypeName (e_type e) ++ ":" ++ normalizedValue)%string.

Definition set_entityMap (c : ConversationContext) (m : JsMap.t Entity) :=
  {| currentFocus := currentFocus c; recentMessages := recentMessages c;
     entityMap := m; conversationState := conversationState c |}.

Definition set_activeTopics (c : ConversationContext) (l : list string) :=
  {| currentFocus := currentFocus c; recentMessages := recentMessages c;
     entityMap := entityMap c;
     conversationState :=
       {| cs_startTime := cs_startTime (conversationState c);
          cs_messageCount := cs_messageCount (conversationState c);
          cs_activeTopics := l;
          cs_userEngagementLevel :=
            cs_userEngagementLevel (conversationState c) |} |}.

(** One turn of the loop of [updateEntities]. *)
Definition updateEntity (now : Z) (m : JsMap.t Entity) (entity : Entity)
  : JsMap.t Entity :=
  let normalizedValue :=
    Js.orS (e_normalizedValue entity) (Js.toLowerCase (e_value entity)) in
  let key := entityKey entity in
  match JsMap.get key m with
  | Some existingEntity =>
      JsMap.set key
        {| e_type := e_type existingEntity;
           e_value := e_value existingEntity;
           e_normalizedValue := e_normalizedValue existingEntity;
           e_startIndex := e_startIndex existingEntity;
           e_endIndex := e_endIndex existingEntity;
           e_confidence :=
             Js.Math_max (e_confidence existingEntity) (e_confidence entity);
           e_attributes :=
             Some (JsMap.spread
                     (match e_attributes existingEntity with
                      | Some a => a | None => [] end)
                     (match e_attributes entity with
                      | Some a => a | None => [] end));
           e_firstMentionedAt := e_firstMentionedAt existingEntity;
           e_lastMentionedAt := Some now;
           e_mentionCount :=
             Some (Js.orZ (e_mentionCount existingEntity) 1 + 1)%Z |} m
  | None =>
      JsMap.set key
        {| e_type := e_type entity;
           e_value := e_value entity;
           e_normalizedValue := Some normalizedValue;
           e_startIndex := e_startIndex entity;
           e_endIndex := e_endIndex entity;
           e_confidence := e_confidence entity;
           e_attributes := e_attributes entity;
           e_firstMentionedAt := Some now;
           e_lastMentionedAt := Some now;
           e_mentionCount := Some 1%Z |} m
  end.

Definition cleanupExpiredEntities (now : Z) (m : JsMap.t Entity)
  : JsMap.t Entity :=
  fold_left
    (fun acc kv =>
       if (now - Js.orZ (e_lastMentionedAt (snd kv)) 0
           >? entityExpirationTime)%Z
       then JsMap.delete (fst kv) acc else acc)
    m m.

Definition updateEntities (now : Z) (entities : list Entity)
  (c : ConversationContext) : ConversationContext :=
  set_entityMap c
    (cleanupExpiredEntities now
       (fold_left (updateEntity now) entities (entityMap c))).

Definition updateIntentions (intentions : list Intention)
  (c : ConversationContext) : ConversationContext :=
  {| currentFocus :=
       {| f_activeTopics := f_activeTopics (currentFocus c);
          f_activeEntities := f_activeEntities (currentFocus c);
          f_recentIntentions :=
            Js.slice_to 5
              (Js.slice_to 2 intentions
               ++ f_recentIntentions (currentFocus c));
          f_attentionPriorities := f_attentionPriorities (currentFocus c) |};
     recentMessages := recentMessages c;
     entityMap := entityMap c;
     conversationState := conversationState c |}.

Definition string_in (s : string) (l : list string) : bool :=
  existsb (String.eqb s) l.

Definition updateTopics (message : EnhancedMessage)
  (c : ConversationContext) : ConversationContext :=
  let topicEntities :=
    match m_entities message with
    | Some es =>
        filter (fun e => EntityType_eqb (e_type e) TOPIC
                         || EntityType_eqb (e_type e) CONCEPT) es
    | None => []
    end in
  let topics :=
    fold_left
      (fun acc topicEntity =>
         if string_in (e_value topicEntity) acc then acc
         else acc ++ [e_value topicEntity])
      topicEntities (cs_activeTopics (conversationState c)) in
  set_activeTopics c
    (if 5 <? List.length topics then Js.slice_last 5 topics else topics).

Definition updateEngagementLevel (message : EnhancedMessage)
  (c : ConversationContext) : ConversationContext :=
  let len := String.length (m_content message) in
  let adjustment0 :=
    if 100 <? len then 0.1%Q
    else if 50 <? len then 0.05%Q
    else if len <? 10 then (0 - 0.05)%Q
    else 0%Q in
  let adjustment1 :=
    if Js.includes (m_content message) "?"
    then (adjustment0 + 0.05)%Q else adjustment0 in
  let adjustment :=
    match m_primaryIntention message with
    | Some p =>
        if String.eqb (intentionName (i_type p)) "command"
           || String.eqb (intentionName (i_type p)) "request_action"
        then (adjustment1 + 0.1)%Q else adjustment1
    | None => adjustment1
    end in
  {| currentFocus := currentFocus c; recentMessages := recentMessages c;
     entityMap := entityMap c;
     conversationState :=
       {| cs_startTime := cs_startTime (conversationState c);
          cs_messageCount := cs_messageCount (conversationState c);
          cs_activeTopics := cs_activeTopics (conversationState c);
          cs_userEngagementLevel :=
            Some (Js.Math_max 0
                    (Js.Math_min 1
                       (Js.orQ (cs_userEngagementLevel (conversationState c))
                               0.5
                        + adjustment)%Q)) |} |}.

Definition activityScore (now : Z) (e : Entity) : Z :=
  (Js.orZ (e_mentionCount e) 1 * 10000
   - (now - Js.orZ (e_lastMentionedAt e) 0))%Z.

Definition getActiveEntities (now : Z) (c : ConversationContext)
  : list Entity :=
  Js.slice_to 10
    (Js.sort (fun a b => (activityScore now b <=? activityScore now a)%Z)
       (JsMap.values (entityMap c))).

(** The priority [1 - i / length] given to the element at index [i]. *)
Definition rankPriority (i len : nat) : Q :=
  (1 - inject_Z (Z.of_nat i) / inject_Z (Z.of_nat len))%Q.

Fixpoint setPriorities (keys : list string) (i len : nat)
  (priorities : JsMap.t Q) : JsMap.t Q :=
  match keys with
  | [] => priorities
  | k :: r =>
      setPriorities r (S i) len (JsMap.set k (rankPriority i len) priorities)
  end.

Definition calculateAttentionPriorities (now : Z) (c : ConversationContext)
  : JsMap.t Q :=
  let activeEntities := getActiveEntities now c in
  let recentIntentions := f_recentIntentions (currentFocus c) in
  let activeTopics := cs_activeTopics (conversationState c) in
  let p1 :=
    setPriorities
      (map (fun e => ("entity:" ++ entityTypeName (e_type e) ++ ":"
                      ++ Js.orS (e_normalizedValue e) (e_value e))%string)
           activeEntities)
      0 (List.length activeEntities) [] in
  let p2 :=
    setPriorities
      (map (fun i => ("intention:" ++ intentionName (i_type i))%string)
           recentIntentions)
      0 (List.length recentIntentions) p1 in
  setPriorities (map (fun t => ("topic:" ++ t)%string) activeTopics)
    0 (List.length activeTopics) p2.

Definition refreshFocusState (now : Z) (c : ConversationContext)
  : ConversationContext :=
  {| currentFocus :=
       {| f_activeTopics := cs_activeTopics (conversationState c);
          f_activeEntities := getActiveEntities now c;
          f_recentIntentions := f_recentIntentions (currentFocus c);
          f_attentionPriorities := calculateAttentionPriorities now c |};
     recentMessages := recentMessages c;
     entityMap := entityMap c;
     conversationState := conversationState c |}.

Definition pushMessage (message : EnhancedMessage) (c : ConversationContext)
  : ConversationContext :=
  let pushed := recentMessages c ++ [message] in
  {| currentFocus := currentFocus c;
     recentMessages :=
       if maxRecentMessages <? List.length pushed then tl pushed else pushed;
     entityMap := entityMap c;
     conversationState :=
       {| cs_startTime := cs_startTime (conversationState c);
          cs_messageCount := (cs_messageCount (conversationState c) + 1)%Z;
          cs_activeTopics := cs_activeTopics (conversationState c);
          cs_userEngagementLevel :=
            cs_userEngagementLevel (conversationState c) |} |}.

Definition addMessage (now : Z) (message : EnhancedMessage)
  (c : ConversationContext) : ConversationContext :=
  let c1 := pushMessage message c in
  let c2 :=
    match m_entities message with
    | Some (e :: rest) => updateEntities now (e :: rest) c1
    | _ => c1
    end in
  let c3 :=
    match m_detectedIntentions message with
    | Some (i :: rest) => updateIntentions (i :: rest) c2
    | _ => c2
    end in
  let c4 := updateTopics message c3 in
  let c5 :=
    if Sender_eqb (m_sender message) user
    then updateEngagementLevel message c4 else c4 in
  refreshFocusState now c5.

Definition focusOnEntity (now : Z) (entity : Entity)
  (c : ConversationContext) : ConversationContext :=
  let normalizedValue :=
    Js.orS (e_normalizedValue entity) (Js.toLowerCase (e_value entity)) in
  let key := entityKey entity in
  let m :=
    match JsMap.get key (entityMap c) with
    | Some existingEntity =>
        JsMap.set key
          {| e_type := e_type existingEntity;
             e_value := e_value existingEntity;
             e_normalizedValue := e_normalizedValue existingEntity;
             e_startIndex := e_startIndex existingEntity;
             e_endIndex := e_endIndex existingEntity;
             e_confidence := e_confidence existingEntity;
             e_attributes := e_attributes existingEntity;
             e_firstMentionedAt := e_firstMentionedAt existingEntity;
             e_lastMentionedAt := Some now;
             e_mentionCount := e_mentionCount existingEntity |}
          (entityMap c)
    | None =>
        JsMap.set key
          {| e_type := e_type entity;
             e_value := e_value entity;
             e_normalizedValue := Some normalizedValue;
             e_startIndex := e_startIndex entity;
             e_endIndex := e_endIndex entity;
             e_confidence := e_confidence entity;
             e_attributes := e_attributes entity;
             e_firstMentionedAt := Some now;
             e_lastMentionedAt := Some now;
             e_mentionCount := Some 1%Z |}
          (entityMap c)
    end in
  refreshFocusState now (set_entityMap c m).

Definition focusOnTopic (now : Z) (topic : string) (c : ConversationContext)
  : ConversationContext :=
  let kept :=
    filter (fun t => negb (String.eqb t topic))
      (cs_activeTopics (conversationState c)) in
  refreshFocusState now (set_activeTopics c (kept ++ [topic])).

Definition reset (now : Z) (c : ConversationContext) : ConversationContext :=
  init now.

End WorkingMemory.

(* ================================================================= *)
(** ** Regular expressions

    The fragment of JavaScript regular expressions that the sources use,
    with the matching order of a backtracking matcher: alternatives are
    tried from left to right and quantifiers are greedy. *)

Module RegExp.

(** The members of a character class. *)
Inductive atom : Type :=
| Lit (c : ascii)            (* the character itself *)
| Range (lo hi : ascii)      (* [lo-hi] *)
| Digit                      (* \d *)
| Space                      (* \s *)
| Dot.                       (* . : any character but a line terminator *)

Inductive regex : Type :=
| Eps
| Set_ (atoms : list atom)   (* one character of the class *)
| Seq (a b : regex)
| Alt (a b : regex)
| Star (a : regex)
| Bound                      (* \b *)
| Bol                        (* ^ *)
| Eol                        (* $ *)
| Group (n : nat) (a : regex).

Definition Chr (c : ascii) : regex := Set_ [Lit c].
Definition Plus (a : regex) : regex := Seq a (Star a).
Definition Opt (a : regex) : regex := Alt a Eps.

Fixpoint seq (l : list regex) : regex :=
  match l with
  | [] => Eps
  | [a] => a
  | a :: r => Seq a (seq r)
  end.

Fixpoint alts (l : list regex) : regex :=
  match l with
  | [] => Eps
  | [a] => a
  | a :: r => Alt a (alts r)
  end.

(** The characters of [s], one after the other. *)
Fixpoint lit (s : string) : regex :=
  match s with
  | EmptyString => Eps
  | String c EmptyString => Chr c
  | String c r => Seq (Chr c) (lit r)
  end.

(** [w1|w2|...] *)
Definition words (l : list string) : regex := alts (map lit l).

(** [a{0,n}] and [a{lo,hi}] *)
Fixpoint upto (n : nat) (a : regex) : regex :=
  match n with
  | 0 => Eps
  | S n' => Opt (Seq a (upto n' a))
  end.

Fixpoint rep (lo hi : nat) (a : regex) : regex :=
  match lo with
  | 0 => upto hi a
  | S lo' => Seq a (rep lo' (hi - 1) a)
  end.

Definition upper : regex := Set_ [Range "A" "Z"].
Definition lower : regex := Set_ [Range "a" "z"].
Definition digit : regex := Set_ [Digit].
Definition space : regex := Set_ [Space].
Definition dot : regex := Set_ [Dot].

(** A regular expression object: its source text, its [i] flag and its
    syntax tree. *)
Record t : Type := mk {
  source : string;
  ignoreCase : bool;
  ast : regex
}.

Definition is_word (c : ascii) : bool :=
  Js.is_upper c || Js.is_lower c || Js.is_digit c
  || Ascii.eqb c "_".

Definition is_line_terminator (c : ascii) : bool :=
  let n := nat_of_ascii c in (n =? 10) || (n =? 13).

Definition atom_has (a : atom) (c : ascii) : bool :=
  match a with
  | Lit x => Ascii.eqb x c
  | Range lo hi =>
      (nat_of_ascii lo <=? nat_of_ascii c)
      && (nat_of_ascii c <=? nat_of_ascii hi)
  | Digit => Js.is_digit c
  | Space => Js.is_space c
  | Dot => negb (is_line_terminator c)
  end.

(** With the [i] flag a character matches a class when its canonical form
    is that of a member; for the ASCII letters the canonical forms of a
    letter are its two cases. *)
Definition class_has (ic : bool) (atoms : list atom) (c : ascii) : bool :=
  existsb
    (fun a =>
       atom_has a c
       || (ic && (atom_has a (Js.lower_char c)
                  || atom_has a (Js.upper_char c))))
    atoms.

(** A position in the subject: the character before it, the characters
    from it on, and its index. *)
Record cursor : Type := mkCursor {
  prev : option ascii;
  rest : list ascii;
  pos : nat
}.

Definition captures := list (nat * (nat * nat)).

Fixpoint getcap (n : nat) (caps : captures) : option (nat * nat) :=
  match caps with
  | [] => None
  | (n', span) :: r => if n =? n' then Some span else getcap n r
  end.

Definition setcap (n : nat) (span : nat * nat) (caps : captures) : captures :=
  (n, span) :: filter (fun c => negb (fst c =? n)) caps.

(** The groups of an expression: an iteration of a quantifier starts with
    them cleared. *)
Fixpoint groups (r : regex) : list nat :=
  match r with
  | Seq a b | Alt a b => groups a ++ groups b
  | Star a => groups a
  | Group n a => n :: groups a
  | _ => []
  end.

Definition clearcaps (l : list nat) (caps : captures) : captures :=
  filter (fun c => negb (existsb (Nat.eqb (fst c)) l)) caps.

Definition at_boundary (c : cursor) : bool :=
  xorb (match prev c with Some a => is_word a | None => false end)
       (match rest c with a :: _ => is_word a | [] => false end).

Definition result := (cursor * captures)%type.

(** The iterations of a greedy [Star]: [body] matches the expression under
    the star, after [clear] has cleared its groups.  An iteration that
    consumes nothing is rejected, so the bound [fuel] on the number of
    iterations, one more than the characters left, is never reached. *)
Fixpoint star_loop
  (body : cursor -> captures ->
          (cursor -> captures -> option result) -> option result)
  (clear : captures -> captures)
  (k : cursor -> captures -> option result)
  (fuel : nat) (c : cursor) (caps : captures) {struct fuel} : option result :=
  match fuel with
  | 0 => k c caps
  | S fuel' =>
      match body c (clear caps)
              (fun c' caps' =>
                 if pos c' =? pos c then None
                 else star_loop body clear k fuel' c' caps') with
      | Some res => Some res
      | None => k c caps
      end
  end.

(** [m ic r c caps k]: match [r] at [c], then continue with [k]; on failure
    of the continuation the next way of matching [r] is tried. *)
Fixpoint m (ic : bool) (r : regex) (c : cursor) (caps : captures)
  (k : cursor -> captures -> option result) {struct r} : option result :=
  match r with
  | Eps => k c caps
  | Set_ atoms =>
      match rest c with
      | a :: rest' =>
          if class_has ic atoms a
          then k {| prev := Some a; rest := rest'; pos := S (pos c) |} caps
          else None
      | [] => None
      end
  | Seq a b => m ic a c caps (fun c' caps' => m ic b c' caps' k)
  | Alt a b =>
      match m ic a c caps k with
      | Some res => Some res
      | None => m ic b c caps k
      end
  | Star a =>
      star_loop (m ic a) (clearcaps (groups a)) k
        (S (List.length (rest c))) c caps
  | Bound => if at_boundary c then k c caps else None
  | Bol => match prev c with None => k c caps | Some _ => None end
  | Eol => match rest c with [] => k c caps | _ :: _ => None end
  | Group n a =>
      m ic a c caps (fun c' caps' => k c' (setcap n (pos c, pos c') caps'))
  end.

(** A match: where it starts, where it ends, and its groups. *)
Record found : Type := mkFound {
  index : nat;
  stop : cursor;
  groups_found : captures
}.

Definition last (f : found) : nat := pos (stop f).

Definition match_at (re : t) (c : cursor) : option found :=
  match m (ignoreCase re) (ast re) c [] (fun c' caps' => Some (c', caps')) with
  | Some (c', caps') =>
      Some {| index := pos c; stop := c'; groups_found := caps' |}
  | None => None
  end.

(** The first match that starts at the position [(p, l, i)] or later. *)
Fixpoint search (re : t) (p : option ascii) (l : list ascii) (i : nat)
  : option found :=
  match match_at re {| prev := p; rest := l; pos := i |} with
  | Some f => Some f
  | None =>
      match l with
      | [] => None
      | a :: l' => search re (Some a) l' (S i)
      end
  end.

Definition start_of (text : string) : cursor :=
  {| prev := None; rest := list_ascii_of_string text; pos := 0 |}.

(** [re.test(text)] for an expression without the [g] flag. *)
Definition test (re : t) (text : string) : bool :=
  match search re None (list_ascii_of_string text) 0 with
  | Some _ => true
  | None => false
  end.

(** [while ((match = re.exec(text)) !== null) { ... }] for an expression
    with the [g] flag: the matches in the order in which the loop sees them.
    Each call of [exec] searches from the end of the match before.  A match
    of no character leaves that position where it is, and the loop of the
    source does not end: this is the result [None]. *)
Fixpoint exec_loop (fuel : nat) (re : t) (c : cursor) : option (list found) :=
  match fuel with
  | 0 => None
  | S fuel' =>
      match search re (prev c) (rest c) (pos c) with
      | None => Some []
      | Some f =>
          if last f =? index f then None
          else
            match exec_loop fuel' re (stop f) with
            | Some fs => Some (f :: fs)
            | None => None
            end
      end
  end.

Definition exec_all (re : t) (text : string) : option (list found) :=
  exec_loop (S (String.length text)) re (start_of text).

(** [match[0]] and [match[n]] *)
Definition matched (text : string) (f : found) : string :=
  substring (index f) (last f - index f) text.

Definition group (n : nat) (text : string) (f : found) : option string :=
  match getcap n (groups_found f) with
  | Some (a, b) => Some (substring a (b - a) text)
  | None => None
  end.

End RegExp.

(* ================================================================= *)
(** ** understanding/entity-recognizer.ts *)

Module EntityRecognizer.
Import RegExp.

(** [x <- a ;; b]: [b] runs when the loop behind [a] ends. *)
Notation "x <- a ;; b" :=
  (match a with Some x => b | None => None end)
  (at level 61, a at next level, right associativity).

Definition months : list string :=
  ["January"; "February"; "March"; "April"; "May"; "June"; "July"; "August";
   "September"; "October"; "November"; "December"].

Definition weekdays : list string :=
  ["Monday"; "Tuesday"; "Wednesday"; "Thursday"; "Friday"; "Saturday";
   "Sunday"].

Definition units : list string :=
  ["second"; "minute"; "hour"; "day"; "week"; "month"; "year"].

(** Group [n]: one or more runs of lower-case letters separated by white
    space; the repeated part is group [n + 1]. *)
Definition lower_words (n : nat) : regex :=
  Group n (seq [Plus lower; Star (Group (S n) (seq [Plus space; Plus lower]))]).

(** One or more capitalized words separated by white space; the repeated
    part is group [n]. *)
Definition capitalized_words (n : nat) : regex :=
  seq [upper; Plus lower;
       Star (Group n (seq [Plus space; upper; Plus lower]))].

Definition entityPatterns : list (EntityType * list RegExp.t) :=
  [ (PERSON,
     [ mk "\b(Mr|Mrs|Ms|Dr|Prof)\.\s+[A-Z][a-z]+\b" false
         (seq [Bound; Group 1 (words ["Mr"; "Mrs"; "Ms"; "Dr"; "Prof"]);
               Chr "."; Plus space; upper; Plus lower; Bound]);
       mk "\b[A-Z][a-z]+\s+[A-Z][a-z]+\b" false
         (seq [Bound; upper; Plus lower; Plus space; upper; Plus lower;
               Bound]) ]);
    (LOCATION,
     [ mk "\b(in|at|from|to)\s+([A-Z][a-z]+(\s+[A-Z][a-z]+)*)\b" false
         (seq [Bound; Group 1 (words ["in"; "at"; "from"; "to"]); Plus space;
               Group 2 (capitalized_words 3); Bound]);
       mk "\b[A-Z][a-z]+\s+(Street|Avenue|Road|Blvd|Drive|Lane|Place|Court|Way)\b"
         false
         (seq [Bound; upper; Plus lower; Plus space;
               Group 1 (words ["Street"; "Avenue"; "Road"; "Blvd"; "Drive";
                               "Lane"; "Place"; "Court"; "Way"]);
               Bound]) ]);
    (ORGANIZATION,
     [ mk "\b[A-Z][a-z]*\s*(Inc|LLC|Corp|Corporation|Company|Co|Ltd)\b"
         false
         (seq [Bound; upper; Star lower; Star space;
               Group 1 (words ["Inc"; "LLC"; "Corp"; "Corporation";
                               "Company"; "Co"; "Ltd"]);
               Bound]);
       mk "\b(University|College) of [A-Z][a-z]+\b" false
         (seq [Bound; Group 1 (words ["University"; "College"]); lit " of ";
               upper; Plus lower; Bound]) ]);
    (DATE_TIME,
     [ mk "\b(January|February|March|April|May|June|July|August|September|October|November|December)\s+\d{1,2}(st|nd|rd|th)?(,\s+\d{4})?\b"
         true
         (seq [Bound; Group 1 (words months); Plus space; rep 1 2 digit;
               Opt (Group 2 (words ["st"; "nd"; "rd"; "th"]));
               Opt (Group 3 (seq [Chr ","; Plus space; rep 4 4 digit]));
               Bound]);
       mk "\b\d{1,2}[\/\-\.]\d{1,2}[\/\-\.]\d{2,4}\b" false
         (seq [Bound; rep 1 2 digit; Set_ [Lit "/"; Lit "-"; Lit "."];
               rep 1 2 digit; Set_ [Lit "/"; Lit "-"; Lit "."];
               rep 2 4 digit; Bound]);
       mk "\b(today|tomorrow|yesterday|next|last)\s+(day|week|month|year)\b"
         true
         (seq [Bound;
               Group 1 (words ["today"; "tomorrow"; "yesterday"; "next";
                               "last"]);
               Plus space;
               Group 2 (words ["day"; "week"; "month"; "year"]); Bound]);
       mk "\b(Monday|Tuesday|Wednesday|Thursday|Friday|Saturday|Sunday)\b"
         true
         (seq [Bound; Group 1 (words weekdays); Bound]);
       mk "\b\d{1,2}:\d{2}\s*(am|pm|AM|PM)?\b" false
         (seq [Bound; rep 1 2 digit; Chr ":"; rep 2 2 digit; Star space;
               Opt (Group 1 (words ["am"; "pm"; "AM"; "PM"])); Bound]) ]);
    (DURATION,
     [ mk "\b\d+\s+(second|minute|hour|day|week|month|year)s?\b" true
         (seq [Bound; Plus digit; Plus space; Group 1 (words units);
               Opt (Chr "s"); Bound]);
       mk "\b(several|a few|many)\s+(second|minute|hour|day|week|month|year)s?\b"
         true
         (seq [Bound; Group 1 (words ["several"; "a few"; "many"]);
               Plus space; Group 2 (words units); Opt (Chr "s"); Bound]) ]);
    (PRODUCT,
     [ mk "\b[A-Z][a-z]*\s+\d+\b" false
         (seq [Bound; upper; Star lower; Plus space; Plus digit; Bound]);
       mk "\b[A-Z][a-z]+\s+(Pro|Lite|Max|Ultra|Plus)\b" false
         (seq [Bound; upper; Plus lower; Plus space;
               Group 1 (words ["Pro"; "Lite"; "Max"; "Ultra"; "Plus"]);
               Bound]) ]);
    (EVENT,
     [ mk "\b(conference|meeting|wedding|party|festival|concert|seminar|webinar|workshop)\b"
         true
         (seq [Bound;
               Group 1 (words ["conference"; "meeting"; "wedding"; "party";
                               "festival"; "concert"; "seminar"; "webinar";
                               "workshop"]);
               Bound]) ]);
    (TOPIC,
     [ mk "\b(regarding|about|on the topic of|concerning|discussing)\s+([a-z]+(\s+[a-z]+)*)\b"
         true
         (seq [Bound;
               Group 1 (words ["regarding"; "about"; "on the topic of";
                               "concerning"; "discussing"]);
               Plus space; lower_words 2; Bound]) ]);
    (TASK,
     [ mk "\b(task|job|assignment|project|work item)\b" true
         (seq [Bound;
               Group 1 (words ["task"; "job"; "assignment"; "project";
                               "work item"]);
               Bound]);
       mk "\b(need to|have to|must|should)\s+([a-z]+(\s+[a-z]+)*)\b" true
         (seq [Bound;
               Group 1 (words ["need to"; "have to"; "must"; "should"]);
               Plus space; lower_words 2; Bound]) ]);
    (PREFERENCE,
     [ mk "\b(prefer|like|love|enjoy|hate|dislike)\s+([a-z]+(\s+[a-z]+)*)\b"
         true
         (seq [Bound;
               Group 1 (words ["prefer"; "like"; "love"; "enjoy"; "hate";
                               "dislike"]);
               Plus space; lower_words 2; Bound]);
       mk "\b(favorite|preferred)\s+([a-z]+(\s+[a-z]+)*)\b" true
         (seq [Bound; Group 1 (words ["favorite"; "preferred"]); Plus space;
               lower_words 2; Bound]) ]) ].

Definition entityLists : list (EntityType * list string) :=
  [ (LOCATION,
     ["New York"; "Los Angeles"; "Chicago"; "Houston"; "Phoenix";
      "Philadelphia"; "San Antonio"; "San Diego"; "Dallas"; "San Jose";
      "London"; "Paris"; "Tokyo"; "Beijing"; "Moscow"; "Berlin"; "Rome"]);
    (ORGANIZATION,
     ["Google"; "Microsoft"; "Apple"; "Amazon"; "Facebook"; "Netflix";
      "Tesla"; "SpaceX"; "IBM"; "Intel"; "AMD"; "Nvidia"; "Samsung";
      "Zoom"; "Twitter"; "LinkedIn"]);
    (PRODUCT,
     ["iPhone"; "iPad"; "MacBook"; "Surface"; "Windows"; "Android";
      "Chrome"; "Firefox"; "Safari"; "Office"; "Teams"; "Slack"]);
    (TOPIC,
     ["AI"; "machine learning"; "data science"; "web development";
      "mobile development"; "cloud computing"; "cybersecurity";
      "blockchain"; "cryptocurrency"; "climate change"; "renewable energy";
      "politics"; "economics"; "health"; "education"; "technology"]) ].

(** A candidate entity for a match. *)
Definition candidate (ty : EntityType) (value : string) (f : found)
  (confidence : Q) : Entity :=
  {| e_type := ty;
     e_value := value;
     e_normalizedValue := None;
     e_startIndex := Some (Z.of_nat (index f));
     e_endIndex := Some (Z.of_nat (last f));
     e_confidence := confidence;
     e_attributes := None;
     e_firstMentionedAt := None;
     e_lastMentionedAt := None;
     e_mentionCount := None |}.

(** [match[2]] when it is there and not empty *)
Definition truthy_group2 (text : string) (f : found) : option string :=
  match group 2 text f with
  | Some EmptyString | None => None
  | Some s => Some s
  end.

Definition uses_group2 (ty : EntityType) : bool :=
  EntityType_eqb ty LOCATION || EntityType_eqb ty TOPIC
  || EntityType_eqb ty TASK || EntityType_eqb ty PREFERENCE.

Definition patternValue (text : string) (ty : EntityType) (f : found)
  : string :=
  if uses_group2 ty then
    match truthy_group2 text f with
    | Some s => s
    | None => matched text f
    end
  else matched text f.

(** The body of the loops of the first pass, for one pattern: the
    expression is built again from the source of the pattern, with the flag
    [g] alone. *)
Definition patternPass (text : string) (ty : EntityType) (pattern : RegExp.t)
  (entities : list Entity) : option (list Entity) :=
  fs <- exec_all (mk (source pattern) false (ast pattern)) text ;;
  Some (entities
        ++ map (fun f =>
                  candidate ty (Js.trim (patternValue text ty f)) f 0.8%Q)
               fs).

Fixpoint forEach {A S : Type} (body : A -> S -> option S) (l : list A)
  (s : S) : option S :=
  match l with
  | [] => Some s
  | a :: r => s' <- body a s ;; forEach body r s'
  end.

Definition firstPass (text : string) (entities : list Entity)
  : option (list Entity) :=
  forEach
    (fun tp es => forEach (patternPass text (fst tp)) (snd tp) es)
    entityPatterns entities.

(** The overlap test of the second and third passes: the match starts
    within the entity, or ends within it. *)
Definition overlapsWith (f : found) (entity : Entity) : bool :=
  let i := Z.of_nat (index f) in
  let j := Z.of_nat (last f) in
  let s := Js.orZ (e_startIndex entity) 0 in
  let e := Js.orZ (e_endIndex entity) 0 in
  ((s <=? i)%Z && (i <? e)%Z) || ((s <? j)%Z && (j <=? e)%Z).

Definition pushUnlessOverlap (text : string) (ty : EntityType)
  (confidence : Q) (entities : list Entity) (f : found) : list Entity :=
  if existsb (overlapsWith f) entities then entities
  else entities ++ [candidate ty (matched text f) f confidence].

(** [escapeRegExp] puts a backslash before each character that is special
    in a regular expression. *)
Definition is_special (c : ascii) : bool :=
  existsb (Ascii.eqb c)
    (list_ascii_of_string ".*+?^${}()|[]\").

Fixpoint escapeRegExp (str : string) : string :=
  match str with
  | EmptyString => EmptyString
  | String c r =>
      if is_special c then String "\" (String c (escapeRegExp r))
      else String c (escapeRegExp r)
  end.

(** The expression for a list item, with the flags [gi]: a word boundary,
    the escaped item, a word boundary.  The escaped item stands for the
    characters of the item. *)
Definition itemRegex (item : string) : RegExp.t :=
  mk ("\b" ++ escapeRegExp item ++ "\b") true (seq [Bound; lit item; Bound]).

Definition itemPass (text : string) (ty : EntityType) (item : string)
  (entities : list Entity) : option (list Entity) :=
  fs <- exec_all (itemRegex item) text ;;
  Some (fold_left (pushUnlessOverlap text ty 0.9%Q) fs entities).

Definition secondPass (text : string) (entities : list Entity)
  : option (list Entity) :=
  forEach
    (fun tl es => forEach (itemPass text (fst tl)) (snd tl) es)
    entityLists entities.

Definition conceptRegex : RegExp.t :=
  mk "\b[A-Z][a-z]+(\s+[A-Z][a-z]+)*\b" false
    (seq [Bound; capitalized_words 1; Bound]).

(** The overlap test of [extractConcepts] reads the indices as they are. *)
Definition overlapsWithConcept (f : found) (entity : Entity) : bool :=
  match e_startIndex entity, e_endIndex entity with
  | Some s, Some e =>
      let i := Z.of_nat (index f) in
      let j := Z.of_nat (last f) in
      ((s <=? i)%Z && (i <? e)%Z) || ((s <? j)%Z && (j <=? e)%Z)
  | _, _ => false
  end.

Definition extractConcepts (text : string) (entities : list Entity)
  : option (list Entity) :=
  fs <- exec_all conceptRegex text ;;
  Some (fold_left
          (fun es f =>
             if existsb (overlapsWithConcept f) es then es
             else es ++ [candidate CONCEPT (matched text f) f 0.6%Q])
          fs entities).

Definition startIndex0 (e : Entity) : Z := Js.orZ (e_startIndex e) 0.
Definition endIndex0 (e : Entity) : Z := Js.orZ (e_endIndex e) 0.

(** The loop of [resolveOverlappingEntities]: [currentEntity], the entities
    still to come, and the entities that it adds to [result]. *)
Fixpoint resolveLoop (currentEntity : Entity) (sortedEntities : list Entity)
  : list Entity :=
  match sortedEntities with
  | [] => [currentEntity]
  | nextEntity :: rest =>
      if (startIndex0 currentEntity <=? startIndex0 nextEntity)%Z
         && (endIndex0 currentEntity >? startIndex0 nextEntity)%Z
      then
        if negb (Qle_bool (e_confidence nextEntity)
                          (e_confidence currentEntity))
        then resolveLoop nextEntity rest
        else if Qeq_bool (e_confidence nextEntity)
                         (e_confidence currentEntity)
                && (endIndex0 nextEntity - startIndex0 nextEntity
                    >? endIndex0 currentEntity - startIndex0 currentEntity)%Z
        then resolveLoop nextEntity rest
        else resolveLoop currentEntity rest
      else currentEntity :: resolveLoop nextEntity rest
  end.

Definition stamp (now : Z) (entity : Entity) : Entity :=
  {| e_type := e_type entity;
     e_value := e_value entity;
     e_normalizedValue := e_normalizedValue entity;
     e_startIndex := e_startIndex entity;
     e_endIndex := e_endIndex entity;
     e_confidence := e_confidence entity;
     e_attributes := e_attributes entity;
     e_firstMentionedAt := Some now;
     e_lastMentionedAt := Some now;
     e_mentionCount := Some 1%Z |}.

Definition sortByStart (entities : list Entity) : list Entity :=
  Js.sort (fun a b => (startIndex0 a <=? startIndex0 b)%Z) entities.

Definition resolveOverlappingEntities (now : Z) (entities : list Entity)
  : list Entity :=
  if List.length entities <=? 1 then entities
  else
    match sortByStart entities with
    | [] => []
    | first :: rest => map (stamp now) (resolveLoop first rest)
    end.

(** The candidates of the three passes, in the order in which they are
    found. *)
Definition candidates (text : string) : option (list Entity) :=
  es1 <- firstPass text [] ;;
  es2 <- secondPass text es1 ;;
  extractConcepts text es2.

Definition recognizeEntities (now : Z) (text : string)
  : option (list Entity) :=
  es <- candidates text ;;
  Some (resolveOverlappingEntities now es).

(** [updateEntityTracking] *)
Definition updateEntityTracking (now : Z) (existingEntity newMention : Entity)
  : Entity :=
  {| e_type := e_type existingEntity;
     e_value := e_value existingEntity;
     e_normalizedValue := e_normalizedValue existingEntity;
     e_startIndex := e_startIndex existingEntity;
     e_endIndex := e_endIndex existingEntity;
     e_confidence :=
       Js.Math_max (e_confidence existingEntity) (e_confidence newMention);
     e_attributes :=
       Some (JsMap.spread
               (match e_attributes existingEntity with
                | Some a => a | None => [] end)
               (match e_attributes newMention with
                | Some a => a | None => [] end));
     e_firstMentionedAt := e_firstMentionedAt existingEntity;
     e_lastMentionedAt := Some now;
     e_mentionCount :=
       Some (Js.orZ (e_mentionCount existingEntity) 1 + 1)%Z |}.

(** The expression of [normalizeEntity], with the flag [i]: at the start of
    the string, a title, a full stop and white space. *)
Definition titleRegex : RegExp.t :=
  mk "^(mr|mrs|ms|dr|prof)\.\s+" true
    (seq [Bol; Group 1 (words ["mr"; "mrs"; "ms"; "dr"; "prof"]); Chr ".";
          Plus space]).

(** [s.replace(re, '')] for an expression without the flag [g]: the first
    match is taken out. *)
Definition removeFirst (re : RegExp.t) (s : string) : string :=
  match search re None (list_ascii_of_string s) 0 with
  | Some f =>
      (substring 0 (index f) s
       ++ substring (last f) (String.length s - last f) s)%string
  | None => s
  end.

Definition withNormalizedValue (entity : Entity) (normalizedValue : string)
  : Entity :=
  {| e_type := e_type entity;
     e_value := e_value entity;
     e_normalizedValue := Some normalizedValue;
     e_startIndex := e_startIndex entity;
     e_endIndex := e_endIndex entity;
     e_confidence := e_confidence entity;
     e_attributes := e_attributes entity;
     e_firstMentionedAt := e_firstMentionedAt entity;
     e_lastMentionedAt := e_lastMentionedAt entity;
     e_mentionCount := e_mentionCount entity |}.

(** [normalizeEntity]: an entity whose normalized value is a string that is
    not empty is returned as it is. *)
Definition normalizeEntity (entity : Entity) : Entity :=
  match e_normalizedValue entity with
  | Some (String _ _) => entity
  | _ =>
      let normalizedValue := Js.trim (Js.toLowerCase (e_value entity)) in
      withNormalizedValue entity
        (match e_type entity with
         | PERSON => removeFirst titleRegex normalizedValue
         | _ => normalizedValue
         end)
  end.

(** [a === b] on two optional strings. *)
Definition sameString (a b : option string) : bool :=
  match a, b with
  | Some x, Some y => String.eqb x y
  | None, None => true
  | _, _ => false
  end.

(** [isSameEntity] *)
Definition isSameEntity (entity1 entity2 : Entity) : bool :=
  if negb (EntityType_eqb (e_type entity1) (e_type entity2)) then false
  else
    let norm1 := normalizeEntity entity1 in
    let norm2 := normalizeEntity entity2 in
    sameString (e_normalizedValue norm1) (e_normalizedValue norm2).

End EntityRecognizer.

(* ================================================================= *)
(** ** understanding/intention-detector.ts *)

Module IntentionDetector.
Import RegExp.

(** An expression of the table: all of them carry the flag [i] alone. *)
Definition re (src : string) (a : regex) : RegExp.t := mk src true a.

(** The tail [.+\?$] and the tail [.+$] of the patterns. *)
Definition rest_question : list regex := [Plus dot; Chr "?"; Eol].
Definition rest_any : list regex := [Plus dot; Eol].

Definition intentionPatterns : list (IntentionType * list RegExp.t) :=
  [ (QUESTION_FACTUAL,
     [ re "^(what|where|when|who|how|why|which|can you tell me|do you know|tell me about).+\?$"
         (seq ([Bol;
                Group 1 (words ["what"; "where"; "when"; "who"; "how"; "why";
                                "which"; "can you tell me"; "do you know";
                                "tell me about"])]
               ++ rest_question));
       re "^is.+\?$" (seq ([Bol; lit "is"] ++ rest_question));
       re "^are.+\?$" (seq ([Bol; lit "are"] ++ rest_question));
       re "^(could|would) you (tell|explain|describe|clarify).+\?$"
         (seq ([Bol; Group 1 (words ["could"; "would"]); lit " you ";
                Group 2 (words ["tell"; "explain"; "describe"; "clarify"])]
               ++ rest_question)) ]);
    (QUESTION_OPINION,
     [ re "^what (do you think|is your opinion|are your thoughts) (about|on).+\?$"
         (seq ([Bol; lit "what ";
                Group 1 (words ["do you think"; "is your opinion";
                                "are your thoughts"]);
                Chr " "; Group 2 (words ["about"; "on"])]
               ++ rest_question));
       re "^(how|what) do you feel about.+\?$"
         (seq ([Bol; Group 1 (words ["how"; "what"]);
                lit " do you feel about"]
               ++ rest_question));
       re "^would you (say|consider|recommend).+\?$"
         (seq ([Bol; lit "would you ";
                Group 1 (words ["say"; "consider"; "recommend"])]
               ++ rest_question)) ]);
    (QUESTION_CLARIFICATION,
     [ re "^(what do you mean|can you clarify|could you explain|i'm not sure i understand|what do you mean by).+\?$"
         (seq ([Bol;
                Group 1 (words ["what do you mean"; "can you clarify";
                                "could you explain";
                                "i'm not sure i understand";
                                "what do you mean by"])]
               ++ rest_question));
       re "^(come again|sorry|excuse me|pardon)\?$"
         (seq [Bol;
               Group 1 (words ["come again"; "sorry"; "excuse me"; "pardon"]);
               Chr "?"; Eol]) ]);
    (REQUEST_ACTION,
     [ re "^(can|could|would) you (please )?(help|assist|do|create|make|find|show|display|calculate).+\?$"
         (seq ([Bol; Group 1 (words ["can"; "could"; "would"]); lit " you ";
                Opt (Group 2 (lit "please "));
                Group 3 (words ["help"; "assist"; "do"; "create"; "make";
                                "find"; "show"; "display"; "calculate"])]
               ++ rest_question));
       re "^(please|kindly) (help|assist|show|find|create).+$"
         (seq ([Bol; Group 1 (words ["please"; "kindly"]); Chr " ";
                Group 2 (words ["help"; "assist"; "show"; "find"; "create"])]
               ++ rest_any));
       re "^i (need|want|would like) (you to|for you to|help with|assistance with).+$"
         (seq ([Bol; lit "i "; Group 1 (words ["need"; "want"; "would like"]);
                Chr " ";
                Group 2 (words ["you to"; "for you to"; "help with";
                                "assistance with"])]
               ++ rest_any)) ]);
    (COMMAND,
     [ re "^(help|assist|do|create|make|find|show|display|calculate|clear|delete|remove|change|switch|toggle|set|turn).+$"
         (seq ([Bol;
                Group 1 (words ["help"; "assist"; "do"; "create"; "make";
                                "find"; "show"; "display"; "calculate";
                                "clear"; "delete"; "remove"; "change";
                                "switch"; "toggle"; "set"; "turn"])]
               ++ rest_any)) ]);
    (GREETING,
     [ re "^(hi|hello|hey|greetings|good morning|good afternoon|good evening|howdy).+$"
         (seq ([Bol;
                Group 1 (words ["hi"; "hello"; "hey"; "greetings";
                                "good morning"; "good afternoon";
                                "good evening"; "howdy"])]
               ++ rest_any)) ]);
    (FAREWELL,
     [ re "^(bye|goodbye|see you|talk to you later|until next time|have a good day|good night).+$"
         (seq ([Bol;
                Group 1 (words ["bye"; "goodbye"; "see you";
                                "talk to you later"; "until next time";
                                "have a good day"; "good night"])]
               ++ rest_any)) ]);
    (GRATITUDE,
     [ re "^(thank you|thanks|much appreciated|grateful|appreciate it).+$"
         (seq ([Bol;
                Group 1 (words ["thank you"; "thanks"; "much appreciated";
                                "grateful"; "appreciate it"])]
               ++ rest_any)) ]);
    (APOLOGY,
     [ re "^(sorry|i apologize|my apologies|forgive me|excuse me).+$"
         (seq ([Bol;
                Group 1 (words ["sorry"; "i apologize"; "my apologies";
                                "forgive me"; "excuse me"])]
               ++ rest_any)) ]);
    (AGREEMENT,
     [ re "^(yes|yeah|yep|sure|of course|absolutely|definitely|i agree|that's right|correct|indeed).+$"
         (seq ([Bol;
                Group 1 (words ["yes"; "yeah"; "yep"; "sure"; "of course";
                                "absolutely"; "definitely"; "i agree";
                                "that's right"; "correct"; "indeed"])]
               ++ rest_any)) ]);
    (DISAGREEMENT,
     [ re "^(no|nope|not really|i disagree|that's incorrect|i don't think so|that's wrong).+$"
         (seq ([Bol;
                Group 1 (words ["no"; "nope"; "not really"; "i disagree";
                                "that's incorrect"; "i don't think so";
                                "that's wrong"])]
               ++ rest_any)) ]);
    (EXPRESS_POSITIVE,
     [ re "^(i('m| am) (happy|glad|excited|pleased|delighted)|that's (great|good|wonderful|awesome|amazing)).+$"
         (seq ([Bol;
                Group 1
                  (Alt (seq [Chr "i"; Group 2 (words ["'m"; " am"]); Chr " ";
                             Group 3 (words ["happy"; "glad"; "excited";
                                             "pleased"; "delighted"])])
                       (seq [lit "that's ";
                             Group 4 (words ["great"; "good"; "wonderful";
                                             "awesome"; "amazing"])]))]
               ++ rest_any));
       re "^(love it|fantastic|excellent|perfect|brilliant|outstanding|superb).+$"
         (seq ([Bol;
                Group 1 (words ["love it"; "fantastic"; "excellent";
                                "perfect"; "brilliant"; "outstanding";
                                "superb"])]
               ++ rest_any)) ]);
    (EXPRESS_NEGATIVE,
     [ re "^(i('m| am) (sad|upset|angry|frustrated|disappointed|annoyed)|that's (bad|terrible|awful|horrible|disappointing)).+$"
         (seq ([Bol;
                Group 1
                  (Alt (seq [Chr "i"; Group 2 (words ["'m"; " am"]); Chr " ";
                             Group 3 (words ["sad"; "upset"; "angry";
                                             "frustrated"; "disappointed";
                                             "annoyed"])])
                       (seq [lit "that's ";
                             Group 4 (words ["bad"; "terrible"; "awful";
                                             "horrible"; "disappointing"])]))]
               ++ rest_any));
       re "^(hate it|dislike|terrible|awful|horrible|dreadful|unacceptable).+$"
         (seq ([Bol;
                Group 1 (words ["hate it"; "dislike"; "terrible"; "awful";
                                "horrible"; "dreadful"; "unacceptable"])]
               ++ rest_any)) ]);
    (FEEDBACK_POSITIVE,
     [ re "^(that was helpful|good job|well done|nice work|you're doing great|that's useful).+$"
         (seq ([Bol;
                Group 1 (words ["that was helpful"; "good job"; "well done";
                                "nice work"; "you're doing great";
                                "that's useful"])]
               ++ rest_any)) ]);
    (FEEDBACK_NEGATIVE,
     [ re "^(that (wasn't|was not) helpful|not what i was looking for|you didn't understand|you misunderstood|that's not right).+$"
         (seq ([Bol;
                Group 1
                  (alts [seq [lit "that ";
                              Group 2 (words ["wasn't"; "was not"]);
                              lit " helpful"];
                         lit "not what i was looking for";
                         lit "you didn't understand";
                         lit "you misunderstood";
                         lit "that's not right"])]
               ++ rest_any)) ]);
    (TOPIC_SWITCH,
     [ re "^(let's talk about|changing the subject|on another note|switching gears|moving on to|speaking of).+$"
         (seq ([Bol;
                Group 1 (words ["let's talk about"; "changing the subject";
                                "on another note"; "switching gears";
                                "moving on to"; "speaking of"])]
               ++ rest_any)) ]);
    (META_COMMUNICATION,
     [ re "^(i'm trying to|my goal is to|what i'm looking for is|the reason i'm asking is|to clarify).+$"
         (seq ([Bol;
                Group 1 (words ["i'm trying to"; "my goal is to";
                                "what i'm looking for is";
                                "the reason i'm asking is"; "to clarify"])]
               ++ rest_any)) ]) ].

Definition intentionKeywords : list (IntentionType * list string) :=
  [ (QUESTION_FACTUAL,
     ["what"; "where"; "when"; "who"; "how"; "why"; "which"]);
    (QUESTION_OPINION, ["think"; "opinion"; "feel"; "recommend"; "suggest"]);
    (QUESTION_CLARIFICATION,
     ["clarify"; "explain"; "mean"; "understand"; "confused"]);
    (REQUEST_ACTION,
     ["help"; "assist"; "please"; "need"; "want"; "could you"; "would you";
      "can you"]);
    (COMMAND,
     ["search"; "find"; "show"; "display"; "create"; "change"; "update";
      "delete"; "clear"]);
    (GREETING,
     ["hi"; "hello"; "hey"; "greetings"; "morning"; "afternoon"; "evening"]);
    (FAREWELL, ["bye"; "goodbye"; "see you"; "later"; "night"; "leaving"]);
    (GRATITUDE, ["thanks"; "thank"; "appreciate"; "grateful"; "thankful"]);
    (APOLOGY, ["sorry"; "apologize"; "apologies"; "forgive"; "mistake"]);
    (AGREEMENT, ["yes"; "agree"; "correct"; "right"; "indeed"; "exactly"]);
    (DISAGREEMENT,
     ["no"; "disagree"; "incorrect"; "wrong"; "mistaken"; "don't think so"]);
    (EXPRESS_POSITIVE,
     ["happy"; "glad"; "excited"; "love"; "great"; "good"; "wonderful"]);
    (EXPRESS_NEGATIVE,
     ["sad"; "upset"; "angry"; "hate"; "bad"; "terrible"; "frustrated"]);
    (FEEDBACK_POSITIVE,
     ["helpful"; "good job"; "well done"; "useful"; "perfect"]);
    (FEEDBACK_NEGATIVE,
     ["not helpful"; "didn't help"; "misunderstood"; "wrong"; "incorrect"]);
    (TOPIC_SWITCH,
     ["change subject"; "another topic"; "different topic"; "speaking of"]);
    (META_COMMUNICATION,
     ["trying to"; "my goal"; "looking for"; "purpose"; "conversation"]) ].

(** [pattern.toString()] *)
Definition toString (pattern : RegExp.t) : string :=
  ("/" ++ source pattern ++ "/" ++ (if ignoreCase pattern then "i" else ""))
  %string.

Definition findRelatedEntities (intentionType : IntentionType)
  (entities : option (list Entity)) : option (list Entity) :=
  match entities with
  | None | Some [] => None
  | Some es => Some es
  end.

(** The first pass: one intention for each pattern that the text matches. *)
Definition patternIntentions (text : string) (entities : option (list Entity))
  : list Intention :=
  flat_map
    (fun tp =>
       flat_map
         (fun pattern =>
            if RegExp.test pattern text
            then [ {| i_type := fst tp;
                      i_confidence := 0.9%Q;
                      i_relatedEntities :=
                        findRelatedEntities (fst tp) entities;
                      i_metadata := Some (matchedPattern (toString pattern))
                   |} ]
            else [])
         (snd tp))
    intentionPatterns.

(** The expression for a keyword, with the flag [i]: a word boundary, the
    keyword, a word boundary. *)
Definition keywordRegex (keyword : string) : RegExp.t :=
  mk ("\b" ++ keyword ++ "\b") true (seq [Bound; lit keyword; Bound]).

(** One turn of the loop of the second pass. *)
Definition keywordStep (lowerText : string) (entities : option (list Entity))
  (detectedIntentions : list Intention) (tk : IntentionType * list string)
  : list Intention :=
  let (intentionType, keywords) := tk in
  if existsb
       (fun i => IntentionType_eqb (i_type i) intentionType
                 && Qle_bool 0.8 (i_confidence i))
       detectedIntentions
  then detectedIntentions
  else
    let matches :=
      filter (fun keyword => RegExp.test (keywordRegex keyword) lowerText)
        keywords in
    if 0 <? List.length matches then
      detectedIntentions
      ++ [ {| i_type := intentionType;
              i_confidence :=
                Js.Math_min
                  (0.3 + inject_Z (Z.of_nat (List.length matches)) * 0.2)%Q
                  0.85%Q;
              i_relatedEntities := findRelatedEntities intentionType entities;
              i_metadata := Some (matchedKeywords matches) |} ]
    else detectedIntentions.

Definition keywordPass (lowerText : string) (entities : option (list Entity))
  (detectedIntentions : list Intention) : list Intention :=
  match detectedIntentions with
  | [] => fold_left (keywordStep lowerText entities) intentionKeywords []
  | first :: _ =>
      if negb (Qle_bool 0.8 (i_confidence first))
      then fold_left (keywordStep lowerText entities) intentionKeywords
             detectedIntentions
      else detectedIntentions
  end.

Definition is_question (i : Intention) : bool :=
  IntentionType_eqb (i_type i) QUESTION_FACTUAL
  || IntentionType_eqb (i_type i) QUESTION_OPINION
  || IntentionType_eqb (i_type i) QUESTION_CLARIFICATION.

Definition questionMark (text : string) (entities : option (list Entity))
  (detectedIntentions : list Intention) : list Intention :=
  if Js.endsWithChar text "?" && negb (existsb is_question detectedIntentions)
  then detectedIntentions
       ++ [ {| i_type := QUESTION_FACTUAL; i_confidence := 0.7%Q;
               i_relatedEntities := entities; i_metadata := None |} ]
  else detectedIntentions.

Definition fallback (entities : option (list Entity))
  (detectedIntentions : list Intention) : list Intention :=
  match detectedIntentions with
  | [] => [ {| i_type := UNKNOWN; i_confidence := 1.0%Q;
               i_relatedEntities := entities; i_metadata := None |} ]
  | _ :: _ => detectedIntentions
  end.

(** The comparator [(a, b) => b.confidence - a.confidence] is not positive
    when [b.confidence <= a.confidence]. *)
Definition byConfidence (a b : Intention) : bool :=
  Qle_bool (i_confidence b) (i_confidence a).

Definition detectIntentions (text : string) (entities : option (list Entity))
  : list Intention :=
  let lowerText := Js.trim (Js.toLowerCase text) in
  let pass1 := patternIntentions text entities in
  let pass2 := keywordPass lowerText entities pass1 in
  let pass3 := questionMark text entities pass2 in
  Js.sort byConfidence (fallback entities pass3).

Definition is_action (t : IntentionType) : bool :=
  IntentionType_eqb t COMMAND || IntentionType_eqb t REQUEST_ACTION.

Definition identifyPrimaryIntention (intentions : list Intention)
  : Intention :=
  match intentions with
  | [] => {| i_type := UNKNOWN; i_confidence := 1.0%Q;
             i_relatedEntities := None; i_metadata := None |}
  | first :: _ =>
      fold_left
        (fun primary intention =>
           let primary1 :=
             if is_action (i_type intention)
                && negb (Qle_bool (i_confidence intention) 0.7)
                && negb (is_action (i_type primary))
             then intention else primary in
           if is_question intention
              && negb (Qle_bool (i_confidence intention) 0.8)
              && negb (is_action (i_type primary1))
              && negb (Js.startsWith (intentionName (i_type primary1))
                         "question_")
           then intention else primary1)
        intentions first
  end.

End IntentionDetector.

(* ================================================================= *)
(** ** patterns/interaction-pattern-tracker.ts *)

Module InteractionPatternTracker.

(** The [data] of the event that [trackMessage] records. *)
Record MessageData : Type := mkData {
  d_message : EnhancedMessage;
  d_intention : string;
  d_entities : list Entity
}.

Record InteractionEvent : Type := mkEvent {
  ev_timestamp : Z;
  ev_type : string;
  ev_data : MessageData
}.

(** The [elements] of a pattern: the parts of a sequence, or events. *)
Inductive Elements : Type :=
| Parts (parts : list string)
| Events (events : list InteractionEvent).

Record InteractionPattern : Type := mkPattern {
  p_type : PatternType;
  p_description : string;
  p_confidence : Q;
  p_occurrences : Z;
  p_firstObservedAt : Z;
  p_lastObservedAt : Z;
  p_elements : Elements;
  p_metadata : option (JsMap.t json)
}.

Record Tracker : Type := mkTracker {
  interactionHistory : list InteractionEvent;
  patterns : list InteractionPattern
}.

Definition maxHistorySize : nat := 100.

Definition init : Tracker := {| interactionHistory := []; patterns := [] |}.

Definition trackEvent (event : InteractionEvent) (t : Tracker) : Tracker :=
  let pushed := interactionHistory t ++ [event] in
  {| interactionHistory :=
       if maxHistorySize <? List.length pushed then tl pushed else pushed;
     patterns := patterns t |}.

Definition isUserMessage (event : InteractionEvent) : bool :=
  String.eqb (ev_type event) "message"
  && Sender_eqb (m_sender (d_message (ev_data event))) user.

(** [(counts[key] || 0) + 1] *)
Definition increment (key : string) (counts : JsMap.t Z) : JsMap.t Z :=
  JsMap.set key (Js.orZ (JsMap.get key counts) 0 + 1)%Z counts.

Definition arrow : string := "→".

(** The keys of the 2-step sequences of a list of intentions, in the order
    of the loop, and those of the 3-step sequences. *)
Fixpoint keys2 (l : list string) : list string :=
  match l with
  | a :: ((b :: _) as r) => (a ++ arrow ++ b)%string :: keys2 r
  | _ => []
  end.

Fixpoint keys3 (l : list string) : list string :=
  match l with
  | a :: ((b :: c :: _) as r) =>
      (a ++ arrow ++ b ++ arrow ++ c)%string :: keys3 r
  | _ => []
  end.

Definition intentionSequences (messageEvents : list InteractionEvent)
  : JsMap.t Z :=
  let intentions := map (fun e => d_intention (ev_data e)) messageEvents in
  fold_left (fun counts key => increment key counts)
    (keys2 intentions ++ keys3 intentions) [].

(** The replacement of each underscore by a space. *)
Fixpoint underscoresToSpaces (s : string) : string :=
  match s with
  | EmptyString => EmptyString
  | String c r =>
      String (if Ascii.eqb c "_" then " "%char else c) (underscoresToSpaces r)
  end.

(** The replacement that puts in upper case each word character that stands
    at a word boundary. *)
Fixpoint capitalizeWords (prevIsWord : bool) (s : string) : string :=
  match s with
  | EmptyString => EmptyString
  | String c r =>
      String (if RegExp.is_word c && negb prevIsWord
              then Js.upper_char c else c)
             (capitalizeWords (RegExp.is_word c) r)
  end.

Definition formatIntention (intentionType : string) : string :=
  capitalizeWords false (underscoresToSpaces (Js.toLowerCase intentionType)).

Definition metaString (key : string) (p : InteractionPattern)
  : option string :=
  match p_metadata p with
  | Some md =>
      match JsMap.get key md with
      | Some (JStr s) => Some s
      | _ => None
      end
  | None => None
  end.

Definition metaIs (key value : string) (p : InteractionPattern) : bool :=
  match metaString key p with
  | Some s => String.eqb s value
  | None => false
  end.

Definition isSequential (sequence : string) (p : InteractionPattern) : bool :=
  PatternType_eqb (p_type p) SEQUENTIAL && metaIs "sequenceKey" sequence p.

(** [Math.min(0.5 + (count * 0.1), 0.9)] *)
Definition confidenceOf (count : Z) : Q :=
  Js.Math_min (0.5 + inject_Z count * 0.1)%Q 0.9%Q.

(** The update of a pattern that has been seen again. *)
Definition bump (now : Z) (pattern : InteractionPattern)
  : InteractionPattern :=
  {| p_type := p_type pattern;
     p_description := p_description pattern;
     p_confidence := confidenceOf (p_occurrences pattern + 1);
     p_occurrences := (p_occurrences pattern + 1)%Z;
     p_firstObservedAt := p_firstObservedAt pattern;
     p_lastObservedAt := now;
     p_elements := p_elements pattern;
     p_metadata := p_metadata pattern |}.

Definition newSequential (now : Z) (sequence : string) (count : Z)
  : InteractionPattern :=
  let parts := Js.split arrow sequence in
  {| p_type := SEQUENTIAL;
     p_description :=
       ("User often follows " ++ formatIntention (hd "" parts) ++ " with "
        ++ formatIntention (List.last parts ""))%string;
     p_confidence := confidenceOf count;
     p_occurrences := count;
     p_firstObservedAt := now;
     p_lastObservedAt := now;
     p_elements := Parts parts;
     p_metadata :=
       Some [("sequenceKey", JStr sequence);
             ("sequenceParts", JArr (map JStr parts))] |}.

(** One turn of the loop over the entries of [intentionSequences]. *)
Definition sequentialStep (now : Z) (ps : list InteractionPattern)
  (entry : string * Z) : list InteractionPattern :=
  let (sequence, count) := entry in
  if (2 <=? count)%Z then
    if existsb (isSequential sequence) ps
    then map (fun pattern =>
                if isSequential sequence pattern then bump now pattern
                else pattern) ps
    else ps ++ [newSequential now sequence count]
  else ps.

Definition detectSequentialPatterns (now : Z) (t : Tracker) : Tracker :=
  if List.length (interactionHistory t) <? 3 then t
  else
    let messageEvents := filter isUserMessage (interactionHistory t) in
    if List.length messageEvents <? 3 then t
    else
      {| interactionHistory := interactionHistory t;
         patterns :=
           fold_left (sequentialStep now) (intentionSequences messageEvents)
             (patterns t) |}.

Section Temporal.

(** [new Date(timestamp).getHours()]: the hour of the day of a time stamp in
    the time zone of the host. *)
Variable getHours : Z -> Z.

(** The entries of [hourDistribution]: the keys of this object are
    integers, which JavaScript lists in ascending order. *)
Definition hourDistribution (userMessages : list InteractionEvent)
  : list (Z * Z) :=
  Js.sort (fun a b => (fst a <=? fst b)%Z)
    (fold_left
       (fun (counts : list (Z * Z)) event =>
          let hour := getHours (ev_timestamp event) in
          if existsb (fun e => (fst e =? hour)%Z) counts
          then map (fun e => if (fst e =? hour)%Z
                             then (fst e, snd e + 1)%Z else e) counts
          else counts ++ [(hour, 1%Z)])
       userMessages []).

Definition timeRangeOf (hourNum : Z) : string :=
  (Js.numberToString hourNum ++ ":00-" ++ Js.numberToString hourNum ++ ":59")
  %string.

Definition isTemporal (timeRange : string) (p : InteractionPattern) : bool :=
  PatternType_eqb (p_type p) TEMPORAL && metaIs "timeRange" timeRange p.

Definition newTemporal (now : Z) (userMessages : list InteractionEvent)
  (hourNum count : Z) : InteractionPattern :=
  let formattedHour := if (hourNum mod 12 =? 0)%Z then 12%Z
                       else (hourNum mod 12)%Z in
  let amPm := if (hourNum <? 12)%Z then "AM" else "PM" in
  {| p_type := TEMPORAL;
     p_description :=
       ("User is often active around " ++ Js.numberToString formattedHour
        ++ " " ++ amPm)%string;
     p_confidence := confidenceOf count;
     p_occurrences := count;
     p_firstObservedAt := now;
     p_lastObservedAt := now;
     p_elements :=
       Events (filter (fun e => (getHours (ev_timestamp e) =? hourNum)%Z)
                 userMessages);
     p_metadata :=
       Some [("timeRange", JStr (timeRangeOf hourNum));
             ("hour", JNum (inject_Z hourNum))] |}.

Definition temporalStep (now : Z) (userMessages : list InteractionEvent)
  (ps : list InteractionPattern) (entry : Z * Z) : list InteractionPattern :=
  let (hourNum, count) := entry in
  if (3 <=? count)%Z then
    if existsb (isTemporal (timeRangeOf hourNum)) ps
    then map (fun pattern =>
                if isTemporal (timeRangeOf hourNum) pattern
                then bump now pattern else pattern) ps
    else ps ++ [newTemporal now userMessages hourNum count]
  else ps.

Definition detectTemporalPatterns (now : Z) (t : Tracker) : Tracker :=
  if List.length (interactionHistory t) <? 5 then t
  else
    let userMessages := filter isUserMessage (interactionHistory t) in
    if List.length userMessages <? 5 then t
    else
      {| interactionHistory := interactionHistory t;
         patterns :=
           fold_left (temporalStep now userMessages)
             (hourDistribution userMessages) (patterns t) |}.

Definition isFrequency (itemType item : string) (p : InteractionPattern)
  : bool :=
  PatternType_eqb (p_type p) FREQUENCY
  && metaIs "frequentItem" item p && metaIs "itemType" itemType p.

Definition ratio (count : Z) (n : nat) : Q :=
  (inject_Z count / inject_Z (Z.of_nat n))%Q.

Definition intentionStep (now : Z) (userMessages : list InteractionEvent)
  (ps : list InteractionPattern) (entry : string * Z)
  : list InteractionPattern :=
  let (intention, count) := entry in
  if (3 <=? count)%Z
     && Qle_bool 0.25 (ratio count (List.length userMessages))
  then
    if existsb (isFrequency "intention" intention) ps
    then map (fun pattern =>
                if isFrequency "intention" intention pattern
                then
                  {| p_type := p_type pattern;
                     p_description := p_description pattern;
                     p_confidence := confidenceOf count;
                     p_occurrences := count;
                     p_firstObservedAt := p_firstObservedAt pattern;
                     p_lastObservedAt := now;
                     p_elements := p_elements pattern;
                     p_metadata :=
                       Some (JsMap.set "frequency"
                               (JNum (ratio count
                                        (List.length userMessages)))
                               (match p_metadata pattern with
                                | Some md => md | None => [] end)) |}
                else pattern) ps
    else
      ps ++ [ {| p_type := FREQUENCY;
                 p_description :=
                   ("User frequently expresses "
                    ++ formatIntention intention)%string;
                 p_confidence := confidenceOf count;
                 p_occurrences := count;
                 p_firstObservedAt := now;
                 p_lastObservedAt := now;
                 p_elements :=
                   Events (filter (fun e => String.eqb
                                              (d_intention (ev_data e))
                                              intention)
                             userMessages);
                 p_metadata :=
                   Some [("frequentItem", JStr intention);
                         ("itemType", JStr "intention");
                         ("frequency",
                          JNum (ratio count (List.length userMessages)))]
              |} ]
  else ps.

Definition entityKeyOf (entity : Entity) : string :=
  (entityTypeName (e_type entity) ++ ":"
   ++ Js.orS (e_normalizedValue entity) (e_value entity))%string.

Definition entityStep (now : Z) (userMessages : list InteractionEvent)
  (ps : list InteractionPattern) (entry : string * Z)
  : list InteractionPattern :=
  let (entityKey, count) := entry in
  if (2 <=? count)%Z then
    let parts := Js.slice_to 2 (Js.split ":" entityKey) in
    let entityType := nth_error parts 0 in
    let entityValue := nth_error parts 1 in
    let show (o : option string) :=
      match o with Some s => s | None => "undefined" end in
    if existsb (isFrequency "entity" entityKey) ps
    then map (fun pattern =>
                if isFrequency "entity" entityKey pattern
                then
                  {| p_type := p_type pattern;
                     p_description := p_description pattern;
                     p_confidence := confidenceOf count;
                     p_occurrences := count;
                     p_firstObservedAt := p_firstObservedAt pattern;
                     p_lastObservedAt := now;
                     p_elements := p_elements pattern;
                     p_metadata := p_metadata pattern |}
                else pattern) ps
    else
      ps ++ [ {| p_type := FREQUENCY;
                 p_description :=
                   ("User frequently mentions " ++ show entityValue ++ " ("
                    ++ show entityType ++ ")")%string;
                 p_confidence := confidenceOf count;
                 p_occurrences := count;
                 p_firstObservedAt := now;
                 p_lastObservedAt := now;
                 p_elements :=
                   Events (filter
                             (fun e =>
                                existsb
                                  (fun entity =>
                                     String.eqb (entityKeyOf entity)
                                       entityKey)
                                  (d_entities (ev_data e)))
                             userMessages);
                 p_metadata :=
                   Some ([("frequentItem", JStr entityKey);
                          ("itemType", JStr "entity")]
                         ++ match entityType with
                            | Some s => [("entityType", JStr s)]
                            | None => []
                            end
                         ++ match entityValue with
                            | Some s => [("entityValue", JStr s)]
                            | None => []
                            end) |} ]
  else ps.

Definition detectFrequencyPatterns (now : Z) (t : Tracker) : Tracker :=
  let userMessages := filter isUserMessage (interactionHistory t) in
  if List.length userMessages <? 3 then t
  else
    let intentionCounts :=
      fold_left (fun counts e => increment (d_intention (ev_data e)) counts)
        userMessages [] in
    let ps1 :=
      fold_left (intentionStep now userMessages) intentionCounts
        (patterns t) in
    let entityCounts :=
      fold_left
        (fun counts e =>
           fold_left (fun cs entity => increment (entityKeyOf entity) cs)
             (d_entities (ev_data e)) counts)
        userMessages [] in
    {| interactionHistory := interactionHistory t;
       patterns := fold_left (entityStep now userMessages) entityCounts ps1 |}.

Definition analyzePatterns (now : Z) (t : Tracker) : Tracker :=
  detectFrequencyPatterns now
    (detectTemporalPatterns now (detectSequentialPatterns now t)).

Definition trackMessage (now : Z) (message : EnhancedMessage) (t : Tracker)
  : Tracker :=
  let event :=
    {| ev_timestamp := m_timestamp message;
       ev_type := "message";
       ev_data :=
         {| d_message := message;
            d_intention :=
              match m_primaryIntention message with
              | Some p => intentionName (i_type p)
              | None => intentionName UNKNOWN
              end;
            d_entities :=
              match m_entities message with
              | Some es => es
              | None => []
              end |} |} in
  analyzePatterns now (trackEvent event t).

End Temporal.

Definition getPatterns (t : Tracker) : list InteractionPattern := patterns t.

Definition getPatternsByType (type : PatternType) (t : Tracker)
  : list InteractionPattern :=
  filter (fun p => PatternType_eqb (p_type p) type) (patterns t).

Definition resetPatterns (t : Tracker) : Tracker :=
  {| interactionHistory := interactionHistory t; patterns := [] |}.

(** [getHighConfidencePatterns]; the default of [minConfidence] is 0.7. *)
Definition getHighConfidencePatterns (minConfidence : Q) (t : Tracker)
  : list InteractionPattern :=
  filter (fun pattern => Qle_bool minConfidence (p_confidence pattern))
    (patterns t).

End InteractionPatternTracker.

(* ================================================================= *)
(** ** enhanced-understanding-framework.ts *)

Module EnhancedUnderstandingFramework.

Record Framework : Type := mkFramework {
  workingMemory : ConversationContext;
  patternTracker : InteractionPatternTracker.Tracker
}.

(** The constructor. *)
Definition init (now : Z) : Framework :=
  {| workingMemory := WorkingMemory.init now;
     patternTracker := InteractionPatternTracker.init |}.

Section Clock.
Variable getHours : Z -> Z.

(** [processUserMessage]; the result [None] stands for a recognition of
    entities that does not end. *)
Definition processUserMessage (now : Z) (text : string) (fw : Framework)
  : option (EnhancedMessage * Framework) :=
  match EntityRecognizer.recognizeEntities now text with
  | None => None
  | Some entities =>
      let intentions :=
        IntentionDetector.detectIntentions text (Some entities) in
      let primaryIntention :=
        IntentionDetector.identifyPrimaryIntention intentions in
      let enhancedMessage :=
        {| m_content := text;
           m_sender := user;
           m_timestamp := now;
           m_detectedIntentions := Some intentions;
           m_primaryIntention := Some primaryIntention;
           m_entities := Some entities |} in
      Some (enhancedMessage,
            {| workingMemory :=
                 WorkingMemory.addMessage now enhancedMessage
                   (workingMemory fw);
               patternTracker :=
                 InteractionPatternTracker.trackMessage getHours now
                   enhancedMessage (patternTracker fw) |})
  end.

(** [processSystemMessage] *)
Definition processSystemMessage (now : Z) (text : string) (fw : Framework)
  : option (EnhancedMessage * Framework) :=
  let systemIntention :=
    {| i_type := SYSTEM_INFORM; i_confidence := 1.0%Q;
       i_relatedEntities := None; i_metadata := None |} in
  match EntityRecognizer.recognizeEntities now text with
  | None => None
  | Some entities =>
      let enhancedMessage :=
        {| m_content := text;
           m_sender := system;
           m_timestamp := now;
           m_detectedIntentions := Some [systemIntention];
           m_primaryIntention := Some systemIntention;
           m_entities := Some entities |} in
      Some (enhancedMessage,
            {| workingMemory :=
                 WorkingMemory.addMessage now enhancedMessage
                   (workingMemory fw);
               patternTracker := patternTracker fw |})
  end.

End Clock.

Definition reset (now : Z) (fw : Framework) : Framework :=
  {| workingMemory := WorkingMemory.reset now (workingMemory fw);
     patternTracker :=
       InteractionPatternTracker.resetPatterns (patternTracker fw) |}.

End EnhancedUnderstandingFramework.

(* ================================================================= *)
(** ** types.ts: the records of the capacities, with the fields that the
    capacities read and write *)

(** An intention as [IntentionRecognizer] keeps it. *)
Record UserIntention : Type := mkUserIntention {
  ui_id : string;
  ui_type : string;
  ui_firstDetected : Z;
  ui_lastDetected : Z;
  ui_confidence : Q;
  ui_status : string;
  ui_relatedEntities : option (list string);
  ui_completedTimestamp : option Z
}.

(** An entity as [EntityTracker] keeps it. *)
Record TrackedEntity : Type := mkTracked {
  te_id : string;
  te_name : string;
  te_type : string;
  te_firstMentioned : Z;
  te_lastMentioned : Z;
  te_attributes : JsMap.t json;
  te_salience : Q
}.

(** The [content] of a message: a string, or a record. *)
Inductive Content : Type :=
| Text (s : string)
| Structured (fields : JsMap.t json).

(** A message.  [recognizeIntentions] reads a field [role]; the other
    readers use [content] alone. *)
Record Message : Type := mkCoreMessage {
  msg_id : string;
  msg_role : option string;
  msg_sender : string;
  msg_content : Content;
  msg_timestamp : Z
}.

Record CoreConversationState : Type := mkCoreState {
  st_id : string;
  st_stage : string;
  st_activeTopics : list string;
  st_recentSentiment : Q;
  st_engagementLevel : Q;
  st_userSatisfaction : Q
}.

Record Context : Type := mkCoreContext {
  ctx_entities : list TrackedEntity;
  ctx_userIntentions : list UserIntention;
  ctx_conversationState : option CoreConversationState;
  ctx_environmentalFactors : list json;
  ctx_userPreferences : list json;
  ctx_recentMessages : list Message;
  ctx_conversationId : string
}.

(* ================================================================= *)
(** ** capacities/contextual-understanding/intention-recognizer.ts *)

Module IntentionRecognizer.
Import RegExp.

Record State : Type := mkState {
  activeIntentions : JsMap.t UserIntention;
  intentionHistory : list UserIntention
}.

Definition init : State := {| activeIntentions := []; intentionHistory := [] |}.

Definition re (src : string) (l : list string) : RegExp.t :=
  mk src true (words l).

Definition intentionPatterns : list (string * list RegExp.t) :=
  [ ("information_request",
     [ re "what is|what are|tell me about|do you know|can you explain|how does|why is|when was"
         ["what is"; "what are"; "tell me about"; "do you know";
          "can you explain"; "how does"; "why is"; "when was"];
       re "looking for information|need to find|searching for|trying to understand"
         ["looking for information"; "need to find"; "searching for";
          "trying to understand"] ]);
    ("task_request",
     [ re "can you help me|could you|would you|please|i need you to|create|make|generate|calculate"
         ["can you help me"; "could you"; "would you"; "please";
          "i need you to"; "create"; "make"; "generate"; "calculate"];
       re "need assistance with|assist me in|help me with|support me in"
         ["need assistance with"; "assist me in"; "help me with";
          "support me in"] ]);
    ("problem_solving",
     [ re "how can i|how do i|what's the best way to|what should i do about|troubleshoot|debug|figure out"
         ["how can i"; "how do i"; "what's the best way to";
          "what should i do about"; "troubleshoot"; "debug"; "figure out"];
       re "having trouble with|struggling with|can't figure out|need to solve|issue with"
         ["having trouble with"; "struggling with"; "can't figure out";
          "need to solve"; "issue with"] ]);
    ("opinion_request",
     [ re "what do you think|your opinion|do you believe|would you recommend|better option"
         ["what do you think"; "your opinion"; "do you believe";
          "would you recommend"; "better option"];
       re "which is better|what's your take on|thoughts on|impression of|recommend"
         ["which is better"; "what's your take on"; "thoughts on";
          "impression of"; "recommend"] ]);
    ("emotional_support",
     [ re "i feel|i'm feeling|i am feeling|i'm stressed|i'm anxious|i'm worried|i'm upset"
         ["i feel"; "i'm feeling"; "i am feeling"; "i'm stressed";
          "i'm anxious"; "i'm worried"; "i'm upset"];
       re "frustrated with|sad about|concerned about|worried about|nervous about"
         ["frustrated with"; "sad about"; "concerned about"; "worried about";
          "nervous about"] ]);
    ("clarification",
     [ re "what do you mean|can you clarify|i don't understand|could you explain|confused about"
         ["what do you mean"; "can you clarify"; "i don't understand";
          "could you explain"; "confused about"];
       re "meaning of|clarify|elaborate on|more detail about|be more specific"
         ["meaning of"; "clarify"; "elaborate on"; "more detail about";
          "be more specific"] ]);
    ("small_talk",
     [ re "how are you|nice to meet|good morning|good afternoon|good evening|hello|hi there"
         ["how are you"; "nice to meet"; "good morning"; "good afternoon";
          "good evening"; "hello"; "hi there"];
       re "what's up|how's it going|nice day|weather|weekend plans|holiday"
         ["what's up"; "how's it going"; "nice day"; "weather";
          "weekend plans"; "holiday"] ]);
    ("preference_expression",
     [ re "i like|i prefer|i enjoy|i want|i don't like|i hate|i love"
         ["i like"; "i prefer"; "i enjoy"; "i want"; "i don't like";
          "i hate"; "i love"];
       re "favorite|preference|rather have|rather not|instead of"
         ["favorite"; "preference"; "rather have"; "rather not";
          "instead of"] ]);
    ("decision_making",
     [ re "should i|which should|help me decide|trying to choose|decide between"
         ["should i"; "which should"; "help me decide"; "trying to choose";
          "decide between"];
       re "pros and cons|advantages of|disadvantages of|benefits of|drawbacks of"
         ["pros and cons"; "advantages of"; "disadvantages of"; "benefits of";
          "drawbacks of"] ]) ].

Definition findRelatedEntities (content : string)
  (contextEntities : list TrackedEntity) : list string :=
  map te_id
    (filter (fun entity =>
               Js.includes (Js.toLowerCase content)
                 (Js.toLowerCase (te_name entity)))
       contextEntities).

Definition extractIntentionsFromMessage (now : Z) (message : Message)
  (context : Context) : list UserIntention :=
  match msg_content message with
  | Structured _ => []
  | Text content =>
      let intentions :=
        flat_map
          (fun tp =>
             let matching :=
               filter (fun pattern => RegExp.test pattern content) (snd tp) in
             match matching with
             | [] => []
             | _ :: _ =>
                 let matchStrength :=
                   (inject_Z (Z.of_nat (List.length matching)) * 0.1)%Q in
                 [ {| ui_id := (fst tp ++ "_" ++ Js.numberToString now)%string;
                      ui_type := fst tp;
                      ui_firstDetected := now;
                      ui_lastDetected := now;
                      ui_confidence :=
                        Js.Math_min 0.9%Q (0.5 + matchStrength)%Q;
                      ui_status := "active";
                      ui_relatedEntities :=
                        Some (findRelatedEntities content
                                (ctx_entities context));
                      ui_completedTimestamp := None |} ]
             end)
          intentionPatterns in
      match intentions with
      | [] =>
          [ {| ui_id :=
                 ("general_communication_" ++ Js.numberToString now)%string;
               ui_type := "general_communication";
               ui_firstDetected := now;
               ui_lastDetected := now;
               ui_confidence := 0.3%Q;
               ui_status := "active";
               ui_relatedEntities := None;
               ui_completedTimestamp := None |} ]
      | _ :: _ => intentions
      end
  end.

(** [[...new Set([...a, ...b])]] *)
Fixpoint dedupe (seen l : list string) : list string :=
  match l with
  | [] => []
  | x :: r =>
      if existsb (String.eqb x) seen then dedupe seen r
      else x :: dedupe (x :: seen) r
  end.

Definition orEmpty (o : option (list string)) : list string :=
  match o with Some l => l | None => [] end.

(** The history holds the very objects of the map; the model records them
    as they are when they are pushed.  The class never reads the history. *)
Definition updateIntention (now : Z) (s : State) (intention : UserIntention)
  : State :=
  match JsMap.get (ui_id intention) (activeIntentions s) with
  | Some existingIntention =>
      let updatedIntention :=
        {| ui_id := ui_id existingIntention;
           ui_type := ui_type existingIntention;
           ui_firstDetected := ui_firstDetected existingIntention;
           ui_lastDetected := now;
           ui_confidence :=
             Js.Math_max (ui_confidence existingIntention)
               (ui_confidence intention);
           ui_status :=
             Js.orS (Some (ui_status intention))
               (ui_status existingIntention);
           ui_relatedEntities :=
             Some (dedupe []
                     (orEmpty (ui_relatedEntities existingIntention)
                      ++ orEmpty (ui_relatedEntities intention)));
           ui_completedTimestamp :=
             ui_completedTimestamp existingIntention |} in
      {| activeIntentions :=
           JsMap.set (ui_id updatedIntention) updatedIntention
             (activeIntentions s);
         intentionHistory := intentionHistory s |}
  | None =>
      let newIntention :=
        {| ui_id := ui_id intention;
           ui_type := ui_type intention;
           ui_firstDetected := now;
           ui_lastDetected := now;
           ui_confidence := ui_confidence intention;
           ui_status := Js.orS (Some (ui_status intention)) "active";
           ui_relatedEntities := ui_relatedEntities intention;
           ui_completedTimestamp := ui_completedTimestamp intention |} in
      {| activeIntentions :=
           JsMap.set (ui_id newIntention) newIntention (activeIntentions s);
         intentionHistory := intentionHistory s ++ [newIntention] |}
  end.

Definition tenMinutes : Z := 10 * 60 * 1000.
Definition fiveMinutes : Z := 5 * 60 * 1000.

Definition age (confidence : Q) : Q :=
  Js.Math_max 0.1%Q (confidence * 0.8)%Q.

Definition withConfidence (i : UserIntention) (c : Q) : UserIntention :=
  {| ui_id := ui_id i; ui_type := ui_type i;
     ui_firstDetected := ui_firstDetected i;
     ui_lastDetected := ui_lastDetected i;
     ui_confidence := c;
     ui_status := ui_status i;
     ui_relatedEntities := ui_relatedEntities i;
     ui_completedTimestamp := ui_completedTimestamp i |}.

(** One turn of the loop of [updateIntentionLifespans]. *)
Definition lifespanStep (now : Z) (m : JsMap.t UserIntention)
  (entry : string * UserIntention) : JsMap.t UserIntention :=
  let (intentionId, intention) := entry in
  let timeSinceLastDetection := (now - ui_lastDetected intention)%Z in
  if (timeSinceLastDetection >? tenMinutes)%Z
  then JsMap.delete intentionId m
  else if (timeSinceLastDetection >? fiveMinutes)%Z
  then JsMap.set intentionId
         (withConfidence intention (age (ui_confidence intention))) m
  else m.

Definition updateIntentionLifespans (now : Z) (s : State) : State :=
  {| activeIntentions :=
       fold_left (lifespanStep now) (activeIntentions s) (activeIntentions s);
     intentionHistory := intentionHistory s |}.

Definition recognizeIntentions (now : Z) (message : Message)
  (context : Context) (s : State) : list UserIntention * State :=
  if negb (match msg_role message with
           | Some role => String.eqb role "user"
           | None => false
           end)
  then ([], s)
  else
    let s1 := updateIntentionLifespans now s in
    let recognizedIntentions :=
      extractIntentionsFromMessage now message context in
    (recognizedIntentions,
     fold_left (updateIntention now) recognizedIntentions s1).

Definition getActiveIntentions (s : State) : list UserIntention :=
  filter (fun i => String.eqb (ui_status i) "active")
    (JsMap.values (activeIntentions s)).

Definition loadFromContext (context : Context) (s : State) : State :=
  fold_left
    (fun s intention =>
       if String.eqb (ui_status intention) "active"
       then {| activeIntentions :=
                 JsMap.set (ui_id intention) intention (activeIntentions s);
               intentionHistory := intentionHistory s |}
       else {| activeIntentions := activeIntentions s;
               intentionHistory := intentionHistory s ++ [intention] |})
    (ctx_userIntentions context) s.

Definition reset (s : State) : State := init.

(** The comparator of [getPrimaryIntention]: the weighted difference of the
    confidences and of the instants of the last detection.  It is not
    positive when the first intention may stay before the second. *)
Definition byConfidenceAndRecency (a b : UserIntention) : bool :=
  let confidenceWeight := 0.7%Q in
  let recencyWeight := 0.3%Q in
  let confidenceScore :=
    ((ui_confidence b - ui_confidence a) * confidenceWeight)%Q in
  let recencyScore :=
    (inject_Z (ui_lastDetected b - ui_lastDetected a) * recencyWeight)%Q in
  Qle_bool (confidenceScore + recencyScore)%Q 0.

(** [getPrimaryIntention]; [None] is [undefined]. *)
Definition getPrimaryIntention (s : State) : option UserIntention :=
  match getActiveIntentions s with
  | [] => None
  | active => hd_error (Js.sort byConfidenceAndRecency active)
  end.

(** [getIntentionsByType] *)
Definition getIntentionsByType (type : string) (s : State)
  : list UserIntention :=
  filter (fun intention => String.eqb (ui_type intention) type)
    (getActiveIntentions s).

(** [getIntentionsForEntity] *)
Definition getIntentionsForEntity (entityId : string) (s : State)
  : list UserIntention :=
  filter
    (fun intention =>
       match ui_relatedEntities intention with
       | Some related => existsb (String.eqb entityId) related
       | None => false
       end)
    (getActiveIntentions s).

(** [getIntentionsForContext] *)
Definition getIntentionsForContext (s : State) : list UserIntention :=
  getActiveIntentions s.

End IntentionRecognizer.

(* ================================================================= *)
(** ** capacities/contextual-understanding/entity-tracker.ts *)

Module EntityTracker.
Import RegExp.

Record State : Type := mkState {
  entities : JsMap.t TrackedEntity;
  entityLifespan : JsMap.t Q;
  lastCleanupTimestamp : Z
}.

Definition init (now : Z) : State :=
  {| entities := []; entityLifespan := []; lastCleanupTimestamp := now |}.

Record EntityUpdate : Type := mkUpdate {
  u_id : string;
  u_name : option string;
  u_type : option string;
  u_attributes : option (JsMap.t json);
  u_salience : option Q
}.

Definition updateEntityLifespan (entityId : string) (s : State) : State :=
  let currentLifespan := Js.orQ (JsMap.get entityId (entityLifespan s)) 0 in
  {| entities := entities s;
     entityLifespan :=
       JsMap.set entityId (Js.Math_min 10 (currentLifespan + 1)%Q)
         (entityLifespan s);
     lastCleanupTimestamp := lastCleanupTimestamp s |}.

Definition updateEntity (now : Z) (s : State) (entityUpdate : EntityUpdate)
  : State :=
  match JsMap.get (u_id entityUpdate) (entities s) with
  | Some existingEntity =>
      let updatedEntity :=
        {| te_id := te_id existingEntity;
           te_name := te_name existingEntity;
           te_type := te_type existingEntity;
           te_firstMentioned := te_firstMentioned existingEntity;
           te_lastMentioned := now;
           te_attributes :=
             JsMap.spread (te_attributes existingEntity)
               (match u_attributes entityUpdate with
                | Some a => a | None => [] end);
           te_salience := te_salience existingEntity |} in
      updateEntityLifespan (te_id updatedEntity)
        {| entities :=
             JsMap.set (te_id updatedEntity) updatedEntity (entities s);
           entityLifespan := entityLifespan s;
           lastCleanupTimestamp := lastCleanupTimestamp s |}
  | None =>
      let newEntity :=
        {| te_id := u_id entityUpdate;
           te_name := Js.orS (u_name entityUpdate) (u_id entityUpdate);
           te_type := Js.orS (u_type entityUpdate) "unknown";
           te_firstMentioned := now;
           te_lastMentioned := now;
           te_attributes :=
             match u_attributes entityUpdate with
             | Some a => a | None => [] end;
           te_salience := Js.orQ (u_salience entityUpdate) 0.5 |} in
      {| entities := JsMap.set (te_id newEntity) newEntity (entities s);
         entityLifespan := JsMap.set (te_id newEntity) 1%Q (entityLifespan s);
         lastCleanupTimestamp := lastCleanupTimestamp s |}
  end.

(** The expression of [extractEntitiesFromMessage], with the flag [g]: an
    entity type and an entity name between braces, separated by a colon. *)
Definition entityPattern : RegExp.t :=
  mk "\{([a-z_]+):([a-z0-9_\s]+)\}" false
    (seq [Chr "{"; Group 1 (Plus (Set_ [Range "a" "z"; Lit "_"])); Chr ":";
          Group 2 (Plus (Set_ [Range "a" "z"; Range "0" "9"; Lit "_";
                               Space]));
          Chr "}"]).

(** The replacement of each run of white space by one underscore. *)
Fixpoint spacesToUnderscore (inRun : bool) (s : string) : string :=
  match s with
  | EmptyString => EmptyString
  | String c r =>
      if Js.is_space c
      then if inRun then spacesToUnderscore true r
           else String "_" (spacesToUnderscore true r)
      else String c (spacesToUnderscore false r)
  end.

Definition extractEntitiesFromMessage (now : Z) (message : Message)
  : option (list EntityUpdate) :=
  match msg_content message with
  | Structured _ => Some []
  | Text text =>
      let content := Js.toLowerCase text in
      match exec_all entityPattern content with
      | None => None
      | Some fs =>
          Some (map
                  (fun f =>
                     let entityType :=
                       match group 1 content f with
                       | Some s => s | None => "" end in
                     let entityName :=
                       Js.trim (match group 2 content f with
                                | Some s => s | None => "" end) in
                     {| u_id :=
                          (entityType ++ "_"
                           ++ spacesToUnderscore false entityName)%string;
                        u_name := Some entityName;
                        u_type := Some entityType;
                        u_attributes := Some [];
                        u_salience := Some 0.7%Q |})
                  fs)
      end
  end.

Definition decay (salience : Q) : Q :=
  Js.Math_max 0.1%Q (salience * 0.95)%Q.

Definition withSalience (e : TrackedEntity) (q : Q) : TrackedEntity :=
  {| te_id := te_id e; te_name := te_name e; te_type := te_type e;
     te_firstMentioned := te_firstMentioned e;
     te_lastMentioned := te_lastMentioned e;
     te_attributes := te_attributes e;
     te_salience := q |}.

(** One turn of the loop of [cleanupStaleEntities]. *)
Definition cleanupStep (now : Z) (s : State) (entry : string * Q) : State :=
  let (entityId, lifespan) := entry in
  match JsMap.get entityId (entities s) with
  | None =>
      {| entities := entities s;
         entityLifespan := JsMap.delete entityId (entityLifespan s);
         lastCleanupTimestamp := lastCleanupTimestamp s |}
  | Some entity =>
      let timeSinceLastMention := (now - te_lastMentioned entity)%Z in
      let newLifespan :=
        (lifespan
         - inject_Z timeSinceLastMention / inject_Z (10 * 60 * 1000))%Q in
      if Qle_bool newLifespan 0
      then {| entities := JsMap.delete entityId (entities s);
              entityLifespan := JsMap.delete entityId (entityLifespan s);
              lastCleanupTimestamp := lastCleanupTimestamp s |}
      else {| entities :=
                JsMap.set entityId
                  (withSalience entity (decay (te_salience entity)))
                  (entities s);
              entityLifespan :=
                JsMap.set entityId newLifespan (entityLifespan s);
              lastCleanupTimestamp := lastCleanupTimestamp s |}
  end.

Definition cleanupStaleEntities (now : Z) (s : State) : State :=
  if (now - lastCleanupTimestamp s <? 60000)%Z then s
  else
    fold_left (cleanupStep now) (entityLifespan s)
      {| entities := entities s;
         entityLifespan := entityLifespan s;
         lastCleanupTimestamp := now |}.

Definition processMessage (now : Z) (message : Message) (s : State)
  : option (list EntityUpdate * State) :=
  let s1 := cleanupStaleEntities now s in
  match extractEntitiesFromMessage now message with
  | None => None
  | Some extractedEntities =>
      Some (extractedEntities, fold_left (updateEntity now) extractedEntities s1)
  end.

Definition loadFromContext (now : Z) (context : Context) (s : State) : State :=
  fold_left
    (fun s entity =>
       let timeSinceLastMention := (now - te_lastMentioned entity)%Z in
       let lifespan :=
         (10 - Z.min 9 (timeSinceLastMention / (10 * 60 * 1000)))%Z in
       {| entities := JsMap.set (te_id entity) entity (entities s);
          entityLifespan :=
            JsMap.set (te_id entity) (inject_Z (Z.max 1 lifespan))
              (entityLifespan s);
          lastCleanupTimestamp := lastCleanupTimestamp s |})
    (ctx_entities context) s.

Definition getAllEntities (s : State) : list TrackedEntity :=
  JsMap.values (entities s).

Definition reset (now : Z) (s : State) : State := init now.

(** The object that [extractEntitiesFromMessage] builds for a match: it
    carries every field of an entity, and [processMessage] returns it as
    one. *)
Definition extractedEntity (now : Z) (entity : EntityUpdate) : TrackedEntity :=
  {| te_id := u_id entity;
     te_name := match u_name entity with Some s => s | None => "" end;
     te_type := match u_type entity with Some s => s | None => "" end;
     te_firstMentioned := now;
     te_lastMentioned := now;
     te_attributes :=
       match u_attributes entity with Some a => a | None => [] end;
     te_salience :=
       match u_salience entity with Some q => q | None => 0%Q end |}.

(** [getEntity] *)
Definition getEntity (entityId : string) (s : State) : option TrackedEntity :=
  JsMap.get entityId (entities s).

(** [getEntitiesByType] *)
Definition getEntitiesByType (entityType : string) (s : State)
  : list TrackedEntity :=
  filter (fun entity => String.eqb (te_type entity) entityType)
    (getAllEntities s).

(** [getSalientEntities], for a limit that is a natural number; its default
    is 5. *)
Definition getSalientEntities (limit : nat) (s : State) : list TrackedEntity :=
  Js.slice_to limit
    (Js.sort (fun a b => Qle_bool (te_salience b) (te_salience a))
       (getAllEntities s)).

(** [getRecentEntities]; the default of [timeWindowMs] is five minutes. *)
Definition getRecentEntities (now : Z) (timeWindowMs : Z) (s : State)
  : list TrackedEntity :=
  filter (fun entity => (now - te_lastMentioned entity <? timeWindowMs)%Z)
    (getAllEntities s).

(** [getEntitiesForContext] *)
Definition getEntitiesForContext (s : State) : list TrackedEntity :=
  filter
    (fun entity =>
       let lifespan :=
         Js.orQ (JsMap.get (te_id entity) (entityLifespan s)) 0 in
       Qle_bool 0.5 lifespan)
    (getAllEntities s).

End EntityTracker.

(* ================================================================= *)
(** ** capacities/contextual-understanding/contextual-understanding-capacity.ts

    The capacity that runs the entity tracker and the intention recognizer
    on each message and keeps a conversation state of its own.  The
    operations that only read the state to describe it are left out. *)

Module ContextualUnderstandingCapacity.

(** The conversation state as the capacity builds it. *)
Record ConversationState : Type := mkConversationState {
  activeTopics : list string;
  recentSentiment : Q;
  recentMessages : list Message;
  turnCount : Z;
  lastUpdateTimestamp : Z
}.

Record State : Type := mkState {
  entityTracker : EntityTracker.State;
  intentionRecognizer : IntentionRecognizer.State;
  conversationState : ConversationState
}.

Record ContextUnderstandingOutput : Type := mkOutput {
  o_entities : list EntityTracker.EntityUpdate;
  o_intentions : list UserIntention;
  o_conversationState : ConversationState
}.

Definition initializeConversationState (now : Z) : ConversationState :=
  {| activeTopics := [];
     recentSentiment := 0;
     recentMessages := [];
     turnCount := 0;
     lastUpdateTimestamp := now |}.

(** The constructor. *)
Definition init (now : Z) : State :=
  {| entityTracker := EntityTracker.init now;
     intentionRecognizer := IntentionRecognizer.init;
     conversationState := initializeConversationState now |}.

(** [addRecentMessage] *)
Definition addRecentMessage (message : Message) (st : ConversationState)
  : ConversationState :=
  let kept :=
    if 10 <=? List.length (recentMessages st)
    then tl (recentMessages st) else recentMessages st in
  {| activeTopics := activeTopics st;
     recentSentiment := recentSentiment st;
     recentMessages := kept ++ [message];
     turnCount := turnCount st;
     lastUpdateTimestamp := lastUpdateTimestamp st |}.

Definition positiveWords : list string :=
  ["happy"; "good"; "great"; "excellent"; "wonderful"; "love"; "like";
   "thanks"; "thank you"].

Definition negativeWords : list string :=
  ["sad"; "bad"; "terrible"; "awful"; "horrible"; "hate"; "dislike";
   "angry"; "upset"; "sorry"].

(** The score of a text: 0.2 for each positive word that it holds, less 0.2
    for each negative word that it holds. *)
Definition sentimentScore (content : string) : Q :=
  let afterPositive :=
    fold_left
      (fun score word =>
         if Js.includes (Js.toLowerCase content) word
         then (score + 0.2)%Q else score)
      positiveWords 0%Q in
  fold_left
    (fun score word =>
       if Js.includes (Js.toLowerCase content) word
       then (score - 0.2)%Q else score)
    negativeWords afterPositive.

(** [updateSentiment] *)
Definition updateSentiment (content : string) (st : ConversationState)
  : ConversationState :=
  let blended :=
    (sentimentScore content * 0.7 + recentSentiment st * 0.3)%Q in
  {| activeTopics := activeTopics st;
     recentSentiment := Js.Math_max (-1) (Js.Math_min 1 blended);
     recentMessages := recentMessages st;
     turnCount := turnCount st;
     lastUpdateTimestamp := lastUpdateTimestamp st |}.

(** The words of the text, cleaned of the characters that are neither word
    characters nor white space, whose first character is its own upper
    case. *)
Definition capitalizedWords (content : string) : list string :=
  flat_map
    (fun word =>
       let cleanWord :=
         Js.filterChars (fun c => RegExp.is_word c || Js.is_space c) word in
       match cleanWord with
       | String c _ =>
           if Ascii.eqb c (Js.upper_char c) then [cleanWord] else []
       | EmptyString => []
       end)
    (Js.splitSpaces content).

Definition topicIndicators : list string :=
  ["about"; "regarding"; "concerning"; "discussing"; "talk about";
   "learn about"; "interested in"].

(** The characters that end the phrase after an indicator: a full stop, a
    comma, a colon, a semicolon, a question mark, an exclamation mark and
    the line feed. *)
Definition endsPhrase (c : ascii) : bool :=
  existsb (Ascii.eqb c)
    ["."; ","; ":"; ";"; "?"; "!"; ascii_of_nat 10]%char.

(** For each indicator that the text holds, the phrase after its first
    occurrence. *)
Definition indicatedTopics (content : string) : list string :=
  flat_map
    (fun indicator =>
       match Js.indexOf (Js.toLowerCase content) indicator with
       | Some index =>
           let afterIndicator :=
             Js.trim
               (Js.substringFrom (index + String.length indicator) content) in
           let nextPhrase :=
             Js.trim (Js.takeWhile (fun c => negb (endsPhrase c))
                        afterIndicator) in
           match nextPhrase with
           | EmptyString => []
           | String _ _ => [nextPhrase]
           end
       | None => []
       end)
    topicIndicators.

(** [extractAndUpdateTopics] *)
Definition extractAndUpdateTopics (content : string) (st : ConversationState)
  : ConversationState :=
  let potentialTopics := capitalizedWords content ++ indicatedTopics content in
  let topics :=
    fold_left
      (fun acc topic =>
         if existsb (String.eqb topic) acc then acc else acc ++ [topic])
      potentialTopics (activeTopics st) in
  {| activeTopics :=
       if 5 <? List.length topics
       then skipn (List.length topics - 5) topics else topics;
     recentSentiment := recentSentiment st;
     recentMessages := recentMessages st;
     turnCount := turnCount st;
     lastUpdateTimestamp := lastUpdateTimestamp st |}.

(** [updateConversationState] *)
Definition updateConversationState (now : Z) (message : Message)
  (st : ConversationState) : ConversationState :=
  let st1 := addRecentMessage message st in
  let st2 :=
    match msg_content message with
    | Text content => updateSentiment content st1
    | Structured _ => st1
    end in
  let st3 :=
    match msg_content message with
    | Text content => extractAndUpdateTopics content st2
    | Structured _ => st2
    end in
  {| activeTopics := activeTopics st3;
     recentSentiment := recentSentiment st3;
     recentMessages := recentMessages st3;
     turnCount := (turnCount st3 + 1)%Z;
     lastUpdateTimestamp := now |}.

(** [processMessage]; the result [None] stands for an extraction of
    entities that does not end. *)
Definition processMessage (now : Z) (message : Message)
  (currentContext : Context) (s : State)
  : option (ContextUnderstandingOutput * State) :=
  match EntityTracker.processMessage now message (entityTracker s) with
  | None => None
  | Some (entities, tracker) =>
      let updatedContext :=
        {| ctx_entities :=
             ctx_entities currentContext
             ++ map (EntityTracker.extractedEntity now) entities;
           ctx_userIntentions := ctx_userIntentions currentContext;
           ctx_conversationState := ctx_conversationState currentContext;
           ctx_environmentalFactors :=
             ctx_environmentalFactors currentContext;
           ctx_userPreferences := ctx_userPreferences currentContext;
           ctx_recentMessages := ctx_recentMessages currentContext;
           ctx_conversationId := ctx_conversationId currentContext |} in
      let (intentions, recognizer) :=
        IntentionRecognizer.recognizeIntentions now message updatedContext
          (intentionRecognizer s) in
      let st := updateConversationState now message (conversationState s) in
      Some ({| o_entities := entities;
               o_intentions := intentions;
               o_conversationState := st |},
            {| entityTracker := tracker;
               intentionRecognizer := recognizer;
               conversationState := st |})
  end.

(** [getEntitiesByType] *)
Definition getEntitiesByType (entityType : string) (s : State)
  : list TrackedEntity :=
  EntityTracker.getEntitiesByType entityType (entityTracker s).

(** [reset] *)
Definition reset (now : Z) (s : State) : State :=
  {| entityTracker := EntityTracker.reset now (entityTracker s);
     intentionRecognizer := IntentionRecognizer.reset (intentionRecognizer s);
     conversationState := initializeConversationState now |}.

End ContextualUnderstandingCapacity.


(* ================================================================= *)
(** ** capacities/value-grounding: the values, their applicability and
    their hierarchy *)

Record ValueManifestation : Type := mkManifestation {
  vm_context : string;
  vm_behavior : string
}.

Record CoreValue : Type := mkValue {
  v_id : string;
  v_description : string;
  v_importance : Q;
  v_manifestations : list ValueManifestation
}.

Record ApplicabilityEnhancement : Type := mkEnhancement {
  ae_valueId : string;
  ae_contextPattern : JsMap.t json;
  ae_applicabilityModifier : Q
}.

Module ContextJson.

(** [JSON.stringify(a) === JSON.stringify(b)]: the two values have the same
    fields in the same order, with equal contents. *)
Fixpoint json_eqb (a b : json) : bool :=
  match a, b with
  | JNull, JNull => true
  | JBool x, JBool y => Bool.eqb x y
  | JNum x, JNum y => Qeq_bool x y
  | JStr x, JStr y => String.eqb x y
  | JArr x, JArr y =>
      (fix go (x y : list json) : bool :=
         match x, y with
         | [], [] => true
         | a :: x', b :: y' => json_eqb a b && go x' y'
         | _, _ => false
         end) x y
  | JObj x, JObj y =>
      (fix go (x y : list (string * json)) : bool :=
         match x, y with
         | [], [] => true
         | (k, a) :: x', (k', b) :: y' =>
             String.eqb k k' && json_eqb a b && go x' y'
         | _, _ => false
         end) x y
  | _, _ => false
  end.

(** The comparison of [Array.prototype.includes]: primitive values are
    compared by value, and an object is equal to itself alone; the objects
    of a pattern are not those of a context. *)
Definition sameValueZero (a b : json) : bool :=
  match a, b with
  | JArr _, _ | JObj _, _ => false
  | _, _ => json_eqb a b
  end.

Definition optStrings (o : option (list string)) : list (string * json) :=
  match o with
  | Some l => [("relatedEntities", JArr (map JStr l))]
  | None => []
  end.

Definition optNumber (key : string) (o : option Z) : list (string * json) :=
  match o with
  | Some z => [(key, JNum (inject_Z z))]
  | None => []
  end.

Definition entityJson (e : TrackedEntity) : json :=
  JObj [("id", JStr (te_id e)); ("name", JStr (te_name e));
        ("type", JStr (te_type e));
        ("firstMentioned", JNum (inject_Z (te_firstMentioned e)));
        ("lastMentioned", JNum (inject_Z (te_lastMentioned e)));
        ("attributes", JObj (te_attributes e));
        ("salience", JNum (te_salience e))].

Definition intentionJson (i : UserIntention) : json :=
  JObj ([("id", JStr (ui_id i)); ("type", JStr (ui_type i));
         ("firstDetected", JNum (inject_Z (ui_firstDetected i)));
         ("lastDetected", JNum (inject_Z (ui_lastDetected i)));
         ("confidence", JNum (ui_confidence i));
         ("status", JStr (ui_status i))]
        ++ optStrings (ui_relatedEntities i)
        ++ optNumber "completedTimestamp" (ui_completedTimestamp i)).

Definition stateJson (s : CoreConversationState) : json :=
  JObj [("id", JStr (st_id s)); ("stage", JStr (st_stage s));
        ("activeTopics", JArr (map JStr (st_activeTopics s)));
        ("recentSentiment", JNum (st_recentSentiment s));
        ("engagementLevel", JNum (st_engagementLevel s));
        ("userSatisfaction", JNum (st_userSatisfaction s))].

Definition messageJson (m : Message) : json :=
  JObj ([("id", JStr (msg_id m))]
        ++ match msg_role m with
           | Some r => [("role", JStr r)]
           | None => []
           end
        ++ [("sender", JStr (msg_sender m));
            ("content",
             match msg_content m with
             | Text s => JStr s
             | Structured f => JObj f
             end);
            ("timestamp", JNum (inject_Z (msg_timestamp m)))]).

(** [key in context] and [context[key]] *)
Definition field (context : Context) (key : string) : option json :=
  if String.eqb key "entities"
  then Some (JArr (map entityJson (ctx_entities context)))
  else if String.eqb key "userIntentions"
  then Some (JArr (map intentionJson (ctx_userIntentions context)))
  else if String.eqb key "conversationState"
  then option_map stateJson (ctx_conversationState context)
  else if String.eqb key "environmentalFactors"
  then Some (JArr (ctx_environmentalFactors context))
  else if String.eqb key "userPreferences"
  then Some (JArr (ctx_userPreferences context))
  else if String.eqb key "recentMessages"
  then Some (JArr (map messageJson (ctx_recentMessages context)))
  else if String.eqb key "conversationId"
  then Some (JStr (ctx_conversationId context))
  else None.

End ContextJson.

Module ContextualValueApplicability.

(** The field [enhancements] of the class. *)
Definition Enhancements := JsMap.t (list ApplicabilityEnhancement).

Definition enhance (enhancements : list ApplicabilityEnhancement)
  (store : Enhancements) : Enhancements :=
  fold_left
    (fun st enhancement =>
       let st' :=
         if JsMap.has (ae_valueId enhancement) st then st
         else JsMap.set (ae_valueId enhancement) [] st in
       match JsMap.get (ae_valueId enhancement) st' with
       | Some l => JsMap.set (ae_valueId enhancement) (l ++ [enhancement]) st'
       | None => st'
       end)
    enhancements store.

Definition resetEnhancements (valueId : string) (store : Enhancements)
  : Enhancements := JsMap.delete valueId store.

Definition resetAllEnhancements (store : Enhancements) : Enhancements := [].

Definition hasIntentionOfType (context : Context) (types : list string)
  : bool :=
  existsb
    (fun intention =>
       existsb (fun type => Js.includes (ui_type intention) type) types)
    (ctx_userIntentions context).

Definition containsKeywords (context : Context) (keywords : list string)
  : bool :=
  existsb
    (fun message =>
       match msg_content message with
       | Structured _ => false
       | Text text =>
           let content := Js.toLowerCase text in
           existsb
             (fun keyword => Js.includes content (Js.toLowerCase keyword))
             keywords
       end)
    (ctx_recentMessages context).

Definition sensitiveTopics : list string :=
  ["health"; "politics"; "religion"; "finance"; "personal crisis"].

Definition sentimentBelow (context : Context) (bound : Q) : bool :=
  match ctx_conversationState context with
  | Some st => negb (Qle_bool bound (st_recentSentiment st))
  | None => false
  end.

Definition hasSensitiveTopic (context : Context) : bool :=
  match ctx_conversationState context with
  | Some st =>
      existsb
        (fun topic =>
           existsb (fun sensitive => Js.includes topic sensitive)
             sensitiveTopics)
        (st_activeTopics st)
  | None => false
  end.

Definition one_of (s : string) (l : list string) : bool :=
  existsb (String.eqb s) l.

Definition scoreManifestationMatch (manifestation : ValueManifestation)
  (context : Context) : Q :=
  let contextType := vm_context manifestation in
  if String.eqb contextType "information_sharing" then
    if hasIntentionOfType context ["query"; "inquiry"; "information_request"]
    then 0.9 else 0.4
  else if String.eqb contextType "decision_making" then
    if hasIntentionOfType context ["decision"; "choice"; "selection"]
    then 1.0
    else if containsKeywords context
              ["decide"; "choice"; "option"; "alternative"; "should I"]
    then 0.8 else 0.3
  else if String.eqb contextType "disagreement" then
    if sentimentBelow context (-0.3) then 0.8
    else if containsKeywords context
              ["disagree"; "incorrect"; "wrong"; "mistaken"; "not true"]
    then 0.7 else 0.2
  else if String.eqb contextType "emotional_support" then
    if sentimentBelow context (-0.5) then 0.9
    else if containsKeywords context
              ["sad"; "upset"; "worried"; "anxious"; "depressed";
               "concerned"]
    then 0.8 else 0.3
  else if String.eqb contextType "sensitive_topics" then
    if hasSensitiveTopic context then 0.7
    else if containsKeywords context sensitiveTopics then 0.6 else 0.2
  else if String.eqb contextType "knowledge_sharing" then
    if hasIntentionOfType context
         ["question"; "factual_query"; "explanation_request"]
    then 0.8
    else if containsKeywords context
              ["what is"; "how does"; "why is"; "when did"; "where is"]
    then 0.7 else 0.4
  else if String.eqb contextType "system_functionality" then
    if hasIntentionOfType context
         ["capability_query"; "help_request"; "how_to"]
    then 0.9
    else if containsKeywords context
              ["can you"; "how do you"; "feature"; "function"; "capability"]
    then 0.7 else 0.3
  else if String.eqb contextType "persuasion" then
    if hasIntentionOfType context ["convince"; "persuade"; "recommend"]
    then 0.8 else 0.2
  else if String.eqb contextType "mistake_handling" then
    if containsKeywords context
         ["mistake"; "error"; "wrong"; "incorrect"; "fix"]
    then 0.9 else 0.3
  else if one_of contextType
            ["data_collection"; "personal_information"; "data_sharing"] then
    if containsKeywords context
         ["data"; "information"; "privacy"; "share"; "collect"; "store"]
    then 0.8 else 0.3
  else if one_of contextType
            ["language_use"; "cultural_awareness"; "bias_mitigation"] then
    0.5
  else if one_of contextType ["identity"; "capabilities"] then 0.6
  else 0.4.

(** [Math.max(...scores)] for an array that is not empty. *)
Definition maxOf (first : Q) (others : list Q) : Q :=
  fold_left Js.Math_max others first.

Definition scoreManifestations (value : CoreValue) (context : Context) : Q :=
  match map (fun manifestation =>
               scoreManifestationMatch manifestation context)
            (v_manifestations value) with
  | [] => 0.5
  | first :: others => maxOf first others
  end.

Definition matchesField (contextValue value : json) : bool :=
  match value, contextValue with
  | JStr v, JStr cv => Js.includes cv v
  | JArr v, JArr cv =>
      existsb (fun x => existsb (ContextJson.sameValueZero x) cv) v
  | _, _ => ContextJson.json_eqb contextValue value
  end.

Definition matchesContextPattern (context : Context) (pattern : JsMap.t json)
  : bool :=
  forallb
    (fun kv =>
       match ContextJson.field context (fst kv) with
       | None => false
       | Some contextValue => matchesField contextValue (snd kv)
       end)
    pattern.

Definition applyEnhancements (store : Enhancements) (valueId : string)
  (context : Context) : Q :=
  match JsMap.get valueId store with
  | None => 0
  | Some valueEnhancements =>
      let enhancementEffect :=
        fold_left
          (fun effect enhancement =>
             if matchesContextPattern context (ae_contextPattern enhancement)
             then (effect + (ae_applicabilityModifier enhancement - 1) / 2)%Q
             else effect)
          valueEnhancements 0%Q in
      Js.Math_max (-0.5) (Js.Math_min 0.5 enhancementEffect)
  end.

Definition getApplicabilityScore (store : Enhancements) (value : CoreValue)
  (context : Context) : Q :=
  let score0 := (v_importance value * 0.5)%Q in
  let score1 := (score0 + scoreManifestations value context * 0.3)%Q in
  let score := (score1 + applyEnhancements store (v_id value) context * 0.2)%Q in
  Js.Math_max 0 (Js.Math_min 1 score).

Definition isRelevant (store : Enhancements) (value : CoreValue)
  (context : Context) : bool :=
  negb (Qle_bool (getApplicabilityScore store value context) 0.3).

Definition getRelevantValues (store : Enhancements) (context : Context)
  (values : list CoreValue) : list CoreValue :=
  Js.sort
    (fun a b =>
       Qle_bool (getApplicabilityScore store b context)
                (getApplicabilityScore store a context))
    (filter (fun value => isRelevant store value context) values).

End ContextualValueApplicability.

Module ValueHierarchy.

(** A context map: the priority factor for each context pattern; the key
    [None] is the key ['default']. *)
Definition ContextMap := list (option (JsMap.t json) * Q).

Record State : Type := mkState {
  values : JsMap.t CoreValue;
  customPriorities : JsMap.t (JsMap.t ContextMap)
}.

(** The constructor. *)
Definition init (coreValues : list CoreValue) : State :=
  {| values :=
       fold_left (fun m value => JsMap.set (v_id value) value m) coreValues [];
     customPriorities := [] |}.

(** Two keys of a context map are equal when they are the same string: both
    ['default'], or the renderings of two patterns that are equal. *)
Definition key_eqb (a b : option (JsMap.t json)) : bool :=
  match a, b with
  | None, None => true
  | Some x, Some y => ContextJson.json_eqb (JObj x) (JObj y)
  | _, _ => false
  end.

Fixpoint contextMapSet (key : option (JsMap.t json)) (priority : Q)
  (m : ContextMap) : ContextMap :=
  match m with
  | [] => [(key, priority)]
  | (k, p) :: r =>
      if key_eqb key k then (k, priority) :: r
      else (k, p) :: contextMapSet key priority r
  end.

Fixpoint contextMapGet (key : option (JsMap.t json)) (m : ContextMap)
  : option Q :=
  match m with
  | [] => None
  | (k, p) :: r => if key_eqb key k then Some p else contextMapGet key r
  end.

(** [setCustomPriority]; the result [None] is the error that it throws for
    a value that the hierarchy does not know. *)
Definition setCustomPriority (value1Id value2Id : string) (priorityFactor : Q)
  (contextPattern : option (JsMap.t json)) (s : State) : option State :=
  if negb (JsMap.has value1Id (values s))
     || negb (JsMap.has value2Id (values s))
  then None
  else
    let value1Map :=
      match JsMap.get value1Id (customPriorities s) with
      | Some m => m
      | None => []
      end in
    let contextMap :=
      match JsMap.get value2Id value1Map with
      | Some m => m
      | None => []
      end in
    Some {| values := values s;
            customPriorities :=
              JsMap.set value1Id
                (JsMap.set value2Id
                   (contextMapSet contextPattern priorityFactor contextMap)
                   value1Map)
                (customPriorities s) |}.

Definition matchesContextPattern (context : Context) (pattern : JsMap.t json)
  : bool :=
  forallb
    (fun kv =>
       match ContextJson.field context (fst kv) with
       | None => false
       | Some contextValue => ContextJson.json_eqb contextValue (snd kv)
       end)
    pattern.

(** The loop of [getCustomPriorityInContext] over the entries of the
    context map: the priority of the first pattern that matches. *)
Fixpoint firstMatching (context : Context) (m : ContextMap) : option Q :=
  match m with
  | [] => None
  | (None, _) :: r => firstMatching context r
  | (Some pattern, priority) :: r =>
      if matchesContextPattern context pattern then Some priority
      else firstMatching context r
  end.

Definition getCustomPriorityInContext (s : State) (value1Id value2Id : string)
  (context : Context) : Q :=
  match JsMap.get value1Id (customPriorities s) with
  | None => 0
  | Some value1Map =>
      match JsMap.get value2Id value1Map with
      | None => 0
      | Some contextMap =>
          match firstMatching context contextMap with
          | Some priority => priority
          | None =>
              match contextMapGet None contextMap with
              | Some priority => priority
              | None => 0
              end
          end
      end
  end.

Definition hasIntentionOfType (context : Context) (types : list string)
  : bool :=
  existsb
    (fun intention =>
       existsb (fun type => Js.includes (ui_type intention) type) types)
    (ctx_userIntentions context).

Definition mentions (context : Context) (contextType : string) : bool :=
  existsb
    (fun message =>
       match msg_content message with
       | Text (String c r) =>
           Js.includes (Js.toLowerCase (String c r))
             (Js.toLowerCase contextType)
       | _ => false
       end)
    (ctx_recentMessages context).

Definition getManifestationContextRelevance
  (manifestation : ValueManifestation) (context : Context) : Q :=
  let contextType := vm_context manifestation in
  if String.eqb contextType "information_sharing" then
    if hasIntentionOfType context ["query"; "inquiry"; "information_request"]
    then 0.9 else 0
  else if String.eqb contextType "decision_making" then
    if hasIntentionOfType context ["decision"; "choice"; "selection"]
    then 1.0 else 0
  else if String.eqb contextType "disagreement" then
    if ContextualValueApplicability.sentimentBelow context (-0.3)
    then 0.8 else 0
  else if String.eqb contextType "emotional_support" then
    if ContextualValueApplicability.sentimentBelow context (-0.5)
    then 0.9 else 0
  else if String.eqb contextType "sensitive_topics" then
    if ContextualValueApplicability.hasSensitiveTopic context
    then 0.7 else 0
  else if String.eqb contextType "knowledge_sharing" then
    if hasIntentionOfType context
         ["question"; "factual_query"; "explanation_request"]
    then 0.8 else 0
  else if mentions context contextType then 0.4 else 0.1.

Definition getValueApplicability (value : CoreValue) (context : Context) : Q :=
  fold_left
    (fun applicability manifestation =>
       let contextRelevance :=
         getManifestationContextRelevance manifestation context in
       if negb (Qle_bool contextRelevance 0)
       then Js.Math_max applicability (0.5 + contextRelevance * 0.5)%Q
       else applicability)
    (v_manifestations value) 0.5%Q.

Definition Qabs_gt (x bound : Q) : bool :=
  negb (Qle_bool (Qabs x) bound).

Definition resolveConflict (s : State) (value1 value2 : CoreValue)
  (context : Context) : CoreValue :=
  let customPriority :=
    getCustomPriorityInContext s (v_id value1) (v_id value2) context in
  if negb (Qeq_bool customPriority 0) then
    if negb (Qle_bool customPriority 0) then value1 else value2
  else
    let value1Applicability := getValueApplicability value1 context in
    let value2Applicability := getValueApplicability value2 context in
    let applicabilityDifference :=
      (value1Applicability - value2Applicability)%Q in
    if Qabs_gt applicabilityDifference 0.3 then
      if negb (Qle_bool applicabilityDifference 0) then value1 else value2
    else
      if Qle_bool (v_importance value2) (v_importance value1)
      then value1 else value2.

(** [getPriorityValue]; the result [None] is the error for an empty list. *)
Definition getPriorityValue (s : State) (values : list CoreValue)
  (context : Context) : option CoreValue :=
  match values with
  | [] => None
  | first :: others =>
      Some (fold_left
              (fun currentWinner value =>
                 resolveConflict s currentWinner value context)
              others first)
  end.

(** The kind of a tension between two values. *)
Inductive TensionType : Type := priority | interpretation | application.

Record ValueTension : Type := mkTension {
  vt_valueId1 : string;
  vt_valueId2 : string;
  vt_tensionType : TensionType;
  vt_contextElements : list string
}.

Definition Qabs_lt (x bound : Q) : bool :=
  negb (Qle_bool bound (Qabs x)).

(** [detectTensionType]; [None] is [null]. *)
Definition detectTensionType (value1 value2 : CoreValue) (context : Context)
  : option TensionType :=
  let value1Applicability := getValueApplicability value1 context in
  let value2Applicability := getValueApplicability value2 context in
  if Qabs_lt (value1Applicability - value2Applicability)%Q 0.2
     && Qabs_gt (v_importance value1 - v_importance value2)%Q 0.1
  then Some priority
  else
    let manifestationOverlap :=
      existsb
        (fun m1 =>
           existsb
             (fun m2 =>
                String.eqb (vm_context m1) (vm_context m2)
                && negb (String.eqb (vm_behavior m1) (vm_behavior m2)))
             (v_manifestations value2))
        (v_manifestations value1) in
    if manifestationOverlap then Some interpretation
    else if negb (Qle_bool value1Applicability 0.7)
            && negb (Qle_bool value2Applicability 0.7)
    then Some application
    else None.

(** [getRelevantContextElements] *)
Definition getRelevantContextElements (value1 value2 : CoreValue)
  (context : Context) : list string :=
  (match ctx_conversationState context with
   | Some st => st_activeTopics st
   | None => []
   end)
  ++ map ui_type (ctx_userIntentions context)
  ++ map te_name (ctx_entities context).

(** [identifyValueTensions]: the pairs of values at the indices [i < j], in
    the order of the two loops. *)
Fixpoint identifyValueTensions (relevantValues : list CoreValue)
  (context : Context) : list ValueTension :=
  match relevantValues with
  | [] => []
  | value1 :: others =>
      flat_map
        (fun value2 =>
           match detectTensionType value1 value2 context with
           | Some tensionType =>
               [ {| vt_valueId1 := v_id value1;
                    vt_valueId2 := v_id value2;
                    vt_tensionType := tensionType;
                    vt_contextElements :=
                      getRelevantContextElements value1 value2 context |} ]
           | None => []
           end)
        others
      ++ identifyValueTensions others context
  end.

End ValueHierarchy.

(** *** core-values.ts *)

Module CoreValues.

Definition manifestation (context behavior : string) : ValueManifestation :=
  {| vm_context := context; vm_behavior := behavior |}.

Definition humanAgencyManifestations : list ValueManifestation :=
  [ manifestation "information_sharing"
      "Present information clearly without manipulation or bias";
    manifestation "decision_making"
      "Provide options with transparent pros and cons, never pushing a single choice";
    manifestation "disagreement"
      "Respect the user's right to disagree and maintain their own perspective";
    manifestation "system_functionality"
      "Provide clear explanations of system capabilities and limitations";
    manifestation "persuasion"
      "Never use manipulative tactics to influence user decisions" ].

Definition truthfulnessManifestations : list ValueManifestation :=
  [ manifestation "knowledge_sharing"
      "Acknowledge uncertainty and limitations in knowledge";
    manifestation "factual_claims"
      "Verify claims before presenting them as facts";
    manifestation "mistake_handling"
      "Acknowledge and correct mistakes promptly";
    manifestation "source_attribution"
      "Clearly attribute information to sources when appropriate";
    manifestation "speculation"
      "Clearly distinguish between facts and speculation or opinion" ].

Definition wellbeingManifestations : list ValueManifestation :=
  [ manifestation "emotional_support"
      "Respond with empathy to emotional expressions";
    manifestation "sensitive_topics"
      "Approach sensitive topics with care and respect";
    manifestation "harmful_requests"
      "Decline requests that could cause harm";
    manifestation "user_frustration"
      "Acknowledge frustration and work toward resolution";
    manifestation "continuous_engagement"
      "Respect cognitive and emotional energy, avoiding overwhelming interactions" ].

Definition privacyManifestations : list ValueManifestation :=
  [ manifestation "data_collection"
      "Be transparent about what data is collected and how it's used";
    manifestation "personal_information"
      "Never pressure users to share unnecessary personal information";
    manifestation "security_practices"
      "Promote secure practices without causing undue fear";
    manifestation "data_sharing"
      "Never share user data with external systems without explicit permission";
    manifestation "local_first"
      "Prioritize local processing and storage when possible" ].

Definition inclusivityManifestations : list ValueManifestation :=
  [ manifestation "language_use"
      "Use inclusive, non-discriminatory language";
    manifestation "diverse_perspectives"
      "Consider and represent diverse perspectives";
    manifestation "accessibility"
      "Ensure interactions are accessible to users with varying abilities";
    manifestation "cultural_awareness"
      "Demonstrate cultural awareness and sensitivity";
    manifestation "bias_mitigation"
      "Actively work to identify and mitigate biases in responses" ].

Definition authenticityManifestations : list ValueManifestation :=
  [ manifestation "identity" "Be transparent about being an AI system";
    manifestation "capabilities"
      "Be honest about capabilities and limitations";
    manifestation "reasoning"
      "Provide genuine reasoning rather than made-up explanations";
    manifestation "engagement"
      "Engage in genuine dialogue rather than scripted responses";
    manifestation "uncertainty"
      "Express genuine uncertainty rather than false confidence" ].

Definition human_agency : CoreValue :=
  {| v_id := "human_agency";
     v_description :=
       "Respect and enhance the user's autonomy and decision-making power";
     v_importance := 0.95;
     v_manifestations := humanAgencyManifestations |}.

Definition truthfulness : CoreValue :=
  {| v_id := "truthfulness";
     v_description :=
       "Present accurate information and acknowledge limitations and uncertainty";
     v_importance := 0.9;
     v_manifestations := truthfulnessManifestations |}.

Definition user_wellbeing : CoreValue :=
  {| v_id := "user_wellbeing";
     v_description :=
       "Prioritize the psychological and emotional wellbeing of users";
     v_importance := 0.85;
     v_manifestations := wellbeingManifestations |}.

Definition privacy_security : CoreValue :=
  {| v_id := "privacy_security";
     v_description := "Respect user privacy and promote data security";
     v_importance := 0.8;
     v_manifestations := privacyManifestations |}.

Definition inclusivity : CoreValue :=
  {| v_id := "inclusivity";
     v_description :=
       "Ensure interactions are inclusive and accessible to all users";
     v_importance := 0.75;
     v_manifestations := inclusivityManifestations |}.

Definition authenticity : CoreValue :=
  {| v_id := "authenticity";
     v_description := "Engage in genuine, non-deceptive interactions";
     v_importance := 0.7;
     v_manifestations := authenticityManifestations |}.

Definition coreValues : list CoreValue :=
  [human_agency; truthfulness; user_wellbeing; privacy_security; inclusivity;
   authenticity].

End CoreValues.

(* ================================================================= *)
(** * Properties *)

Unset Implicit Arguments.

(** ** Working memory: the bounded collections *)

Module WorkingMemoryFacts.
Import WorkingMemory.

(** The caps of the bounded collections of a context. *)
Definition within_caps (c : ConversationContext) : Prop :=
  List.length (recentMessages c) <= 10
  /\ List.length (f_recentIntentions (currentFocus c)) <= 5
  /\ List.length (cs_activeTopics (conversationState c)) <= 5
  /\ List.length (f_activeTopics (currentFocus c)) <= 5.

Lemma init_caps (now : Z) : within_caps (init now).
Proof. unfold within_caps; simpl; lia. Qed.

Lemma reset_caps (now : Z) (c : ConversationContext) :
  within_caps (reset now c).
Proof. apply init_caps. Qed.

Lemma slice_last_length {A} (n : nat) (l : list A) :
  List.length (Js.slice_last n l) <= n.
Proof. unfold Js.slice_last. rewrite length_skipn. lia. Qed.

Lemma updateTopics_length (message : EnhancedMessage) (c : ConversationContext) :
  List.length (cs_activeTopics (conversationState (updateTopics message c)))
  <= 5.
Proof.
  unfold updateTopics; simpl.
  match goal with |- context [if ?b then _ else _] => destruct b eqn:E end.
  - apply slice_last_length.
  - apply Nat.ltb_ge in E. exact E.
Qed.

Lemma updateIntentions_length (l : list Intention) (c : ConversationContext) :
  List.length (f_recentIntentions (currentFocus (updateIntentions l c))) <= 5.
Proof.
  unfold updateIntentions. cbn [currentFocus f_recentIntentions].
  apply firstn_le_length.
Qed.

Lemma pushMessage_length (message : EnhancedMessage) (c : ConversationContext) :
  List.length (recentMessages c) <= 10 ->
  List.length (recentMessages (pushMessage message c)) <= 10.
Proof.
  intros H. unfold pushMessage, maxRecentMessages; simpl.
  destruct (10 <? List.length (recentMessages c ++ [message])) eqn:E.
  - destruct (recentMessages c ++ [message]) eqn:E1; simpl; [lia|].
    assert (List.length (recentMessages c ++ [message]) = S (List.length l))
      by (rewrite E1; reflexivity).
    rewrite length_app in H0; simpl in H0. lia.
  - apply Nat.ltb_ge in E. exact E.
Qed.

(** [addMessage] keeps the collections within their caps. *)
Lemma addMessage_caps (now : Z) (message : EnhancedMessage)
  (c : ConversationContext) :
  within_caps c -> within_caps (addMessage now message c).
Proof.
  intros (Hm & Hi & Ht & Hf). unfold addMessage.
  set (c1 := pushMessage message c).
  assert (H1 : List.length (recentMessages c1) <= 10)
    by (apply pushMessage_length; exact Hm).
  assert (I1 : List.length (f_recentIntentions (currentFocus c1)) <= 5)
    by exact Hi.
  set (c2 := match m_entities message with
             | Some (e :: rest) => updateEntities now (e :: rest) c1
             | _ => c1 end).
  assert (H2 : List.length (recentMessages c2) <= 10
               /\ List.length (f_recentIntentions (currentFocus c2)) <= 5).
  { unfold c2. destruct (m_entities message) as [[|e r]|]; simpl; auto. }
  set (c3 := match m_detectedIntentions message with
             | Some (i :: rest) => updateIntentions (i :: rest) c2
             | _ => c2 end).
  assert (H3 : List.length (recentMessages c3) <= 10
               /\ List.length (f_recentIntentions (currentFocus c3)) <= 5).
  { unfold c3. destruct (m_detectedIntentions message) as [[|i r]|]; auto.
    split; [apply H2 | apply updateIntentions_length]. }
  set (c4 := updateTopics message c3).
  assert (H4 : List.length (cs_activeTopics (conversationState c4)) <= 5)
    by apply updateTopics_length.
  unfold within_caps.
  destruct (Sender_eqb (m_sender message) user); simpl; repeat split;
    solve [apply H3 | exact H4].
Qed.

(** [focusOnEntity] does not touch them. *)
Lemma focusOnEntity_caps (now : Z) (entity : Entity) (c : ConversationContext) :
  within_caps c -> within_caps (focusOnEntity now entity c).
Proof.
  intros (Hm & Hi & Ht & Hf). unfold within_caps, focusOnEntity; simpl.
  repeat split; assumption.
Qed.

(** The length of the topics after [focusOnTopic]: the topics other than
    the one in focus, and that one. *)
Lemma focusOnTopic_length (now : Z) (topic : string) (c : ConversationContext) :
  List.length (cs_activeTopics (conversationState (focusOnTopic now topic c)))
  = S (List.length
         (filter (fun t => negb (String.eqb t topic))
            (cs_activeTopics (conversationState c)))).
Proof. simpl. rewrite length_app; simpl. lia. Qed.

End WorkingMemoryFacts.

(** C2: the caps of the working memory.  [addMessage], [focusOnEntity] and
    [reset] keep the recent messages at 10 at most, the recent intentions at
    5 at most and the active topics at 5 at most (lemmas [addMessage_caps],
    [focusOnEntity_caps], [reset_caps]); [focusOnTopic] appends the topic
    and does not cut the list: after a user message that names five topics,
    the focus on a sixth topic leaves six active topics, in the conversation
    state and in the focus state. *)
Theorem C2_focusOnTopic_exceeds_cap (getHours : Z -> Z) :
  exists message fw,
    EnhancedUnderstandingFramework.processUserMessage getHours 0
      "politics economics health education technology"
      (EnhancedUnderstandingFramework.init 0) = Some (message, fw)
    /\ let c := EnhancedUnderstandingFramework.workingMemory fw in
       let c' := WorkingMemory.focusOnTopic 1 "AI" c in
       WorkingMemoryFacts.within_caps c
       /\ cs_activeTopics (conversationState c')
          = ["politics"; "economics"; "health"; "education"; "technology";
             "AI"]
       /\ List.length (cs_activeTopics (conversationState c')) = 6
       /\ List.length (f_activeTopics (currentFocus c')) = 6
       /\ ~ WorkingMemoryFacts.within_caps c'.
Proof.
  eexists. eexists. split.
  - vm_compute. reflexivity.
  - cbv zeta. split; [|split; [|split; [|split]]].
    + unfold WorkingMemoryFacts.within_caps. vm_compute. repeat split; lia.
    + vm_compute. reflexivity.
    + vm_compute. reflexivity.
    + vm_compute. reflexivity.
    + intros (_ & _ & H & _). vm_compute in H. lia.
Qed.

(** ** Lists: the stable sort *)

Module SortFacts.

Section Sorting.
Variable A : Type.
Variable le : A -> A -> bool.
Hypothesis le_total : forall x y, le x y = false -> le y x = true.

Lemma insert_perm (x : A) (l : list A) :
  Permutation (x :: l) (Js.insert le x l).
Proof.
  induction l as [|y r IH]; simpl; [reflexivity|].
  destruct (le x y); [reflexivity|].
  rewrite perm_swap. constructor. exact IH.
Qed.

Lemma sort_perm (l : list A) : Permutation l (Js.sort le l).
Proof.
  induction l as [|x r IH]; simpl; [constructor|].
  rewrite <- insert_perm. constructor. exact IH.
Qed.

Lemma insert_hd (x : A) (l : list A) (a : A) :
  HdRel (fun u v => le u v = true) a l -> le a x = true ->
  HdRel (fun u v => le u v = true) a (Js.insert le x l).
Proof.
  intros H Hx. destruct l as [|y r]; simpl.
  - constructor. exact Hx.
  - destruct (le x y); constructor; [exact Hx|].
    inversion H; assumption.
Qed.

Lemma insert_sorted (x : A) (l : list A) :
  Sorted (fun u v => le u v = true) l ->
  Sorted (fun u v => le u v = true) (Js.insert le x l).
Proof.
  induction 1 as [|y r Hs IH Hhd]; simpl.
  - repeat constructor.
  - destruct (le x y) eqn:E.
    + constructor; [constructor; assumption|]. constructor. exact E.
    + constructor; [exact IH|].
      apply insert_hd; [exact Hhd | apply le_total; exact E].
Qed.

Lemma sort_sorted (l : list A) :
  Sorted (fun u v => le u v = true) (Js.sort le l).
Proof.
  induction l as [|x r IH]; simpl; [constructor|].
  apply insert_sorted. exact IH.
Qed.

Lemma sort_length (l : list A) : List.length (Js.sort le l) = List.length l.
Proof. symmetry. apply Permutation_length, sort_perm. Qed.

Lemma sort_in (l : list A) (x : A) : In x (Js.sort le l) <-> In x l.
Proof.
  split; apply Permutation_in; [symmetry|]; apply sort_perm.
Qed.

End Sorting.

(** What stands after an element of a sorted list is related to it. *)
Lemma sorted_after {A} (R : A -> A -> Prop) (l1 l2 : list A) (k : A) :
  StronglySorted R (l1 ++ k :: l2) -> Forall (R k) l2.
Proof.
  induction l1 as [|a l1 IH]; simpl; intros H; inversion H; subst; auto.
Qed.

End SortFacts.

(** ** The intention detector *)

Module IntentionDetectorFacts.
Import IntentionDetector.

(** The fallback intention. *)
Definition unknownIntention (entities : option (list Entity)) : Intention :=
  {| i_type := UNKNOWN; i_confidence := 1.0%Q;
     i_relatedEntities := entities; i_metadata := None |}.

(** The order of the result: the confidence does not grow. *)
Definition descending (a b : Intention) : Prop :=
  (i_confidence b <= i_confidence a)%Q.

(** No pattern of the table matches the text. *)
Definition noPatternMatches (text : string) : bool :=
  forallb
    (fun tp => forallb (fun pattern => negb (RegExp.test pattern text)) (snd tp))
    intentionPatterns.

(** No keyword of the table is a whole word of the text, as the second pass
    reads it. *)
Definition noKeywordMatches (text : string) : bool :=
  forallb
    (fun tk =>
       forallb
         (fun keyword =>
            negb (RegExp.test (keywordRegex keyword)
                    (Js.trim (Js.toLowerCase text))))
         (snd tk))
    intentionKeywords.

(** Where an intention of the result comes from. *)
Definition fromPattern (i : Intention) : Prop :=
  exists src, i_metadata i = Some (matchedPattern src).

Definition fromKeywords (i : Intention) : Prop :=
  exists keywords, i_metadata i = Some (matchedKeywords keywords).

Lemma byConfidence_total (x y : Intention) :
  byConfidence x y = false -> byConfidence y x = true.
Proof.
  unfold byConfidence. intros H.
  apply Qle_bool_iff. apply Qlt_le_weak. apply Qnot_le_lt.
  intros C. apply Qle_bool_iff in C. congruence.
Qed.

Lemma detectIntentions_in (text : string) (entities : option (list Entity))
  (i : Intention) :
  In i (detectIntentions text entities)
  <-> In i (fallback entities
              (questionMark text entities
                 (keywordPass (Js.trim (Js.toLowerCase text)) entities
                    (patternIntentions text entities)))).
Proof. unfold detectIntentions. apply SortFacts.sort_in. Qed.

Lemma detectIntentions_sorted (text : string)
  (entities : option (list Entity)) :
  StronglySorted descending (detectIntentions text entities).
Proof.
  unfold detectIntentions. apply Sorted_StronglySorted.
  - intros a b c Hab Hbc. unfold descending in *.
    eapply Qle_trans; eassumption.
  - eapply Sorted_ind with
      (P := fun l => Sorted descending l);
      [constructor | | apply SortFacts.sort_sorted, byConfidence_total].
    intros a l _ IH Hhd. constructor; [exact IH|].
    destruct Hhd as [|b l Hab]; constructor.
    unfold descending. apply Qle_bool_iff. exact Hab.
Qed.

Lemma fallback_nonempty (entities : option (list Entity))
  (l : list Intention) : fallback entities l <> [].
Proof. destruct l; simpl; discriminate. Qed.

Lemma detectIntentions_nonempty (text : string)
  (entities : option (list Entity)) : detectIntentions text entities <> [].
Proof.
  unfold detectIntentions. intros H.
  apply (f_equal (@List.length _)) in H.
  rewrite SortFacts.sort_length in H.
  destruct (fallback entities _) eqn:E; [|discriminate].
  exact (fallback_nonempty _ _ E).
Qed.

(** The intentions of the first pass. *)
Lemma patternIntentions_spec (text : string) (entities : option (list Entity))
  (i : Intention) :
  In i (patternIntentions text entities) ->
  i_confidence i = 0.9%Q /\ fromPattern i.
Proof.
  unfold patternIntentions. intros H.
  apply in_flat_map in H. destruct H as (tp & _ & H).
  apply in_flat_map in H. destruct H as (pattern & _ & H).
  destruct (RegExp.test pattern text); simpl in H; [|contradiction].
  destruct H as [<-|[]]. simpl. split; [reflexivity|].
  eexists; reflexivity.
Qed.

Lemma flat_map_nil {A B} (f : A -> list B) (l : list A) :
  (forall x, In x l -> f x = []) -> flat_map f l = [].
Proof.
  induction l as [|a r IH]; simpl; intros H; [reflexivity|].
  rewrite (H a (or_introl eq_refl)). apply IH. intros x Hx. apply H. now right.
Qed.

Lemma patternIntentions_none (text : string) (entities : option (list Entity)) :
  noPatternMatches text = true -> patternIntentions text entities = [].
Proof.
  unfold noPatternMatches, patternIntentions. intros H.
  rewrite forallb_forall in H.
  apply flat_map_nil. intros tp Htp. apply flat_map_nil. intros p Hp.
  specialize (H tp Htp). rewrite forallb_forall in H. specialize (H p Hp).
  apply negb_true_iff in H. rewrite H. reflexivity.
Qed.

(** The confidence that the second pass gives for [n] keywords. *)
Definition keywordConfidence (n : nat) : Q :=
  Js.Math_min (0.3 + inject_Z (Z.of_nat n) * 0.2)%Q 0.85%Q.

Lemma keywordConfidence_le (n : nat) : (keywordConfidence n <= 0.85)%Q.
Proof. unfold keywordConfidence, Js.Math_min. apply Q.le_min_r. Qed.

Definition keywordBorn (i : Intention) : Prop :=
  exists keywords,
    i_metadata i = Some (matchedKeywords keywords)
    /\ i_confidence i = keywordConfidence (List.length keywords).

Lemma keywordStep_spec (lowerText : string) (entities : option (list Entity))
  (acc : list Intention) (tk : IntentionType * list string) (i : Intention) :
  In i (keywordStep lowerText entities acc tk) -> In i acc \/ keywordBorn i.
Proof.
  unfold keywordStep. destruct tk as [ty kws].
  destruct (existsb _ acc); [auto|].
  destruct (0 <? _); [|auto].
  intros H. apply in_app_or in H. destruct H as [H|[<-|[]]]; [auto|].
  right. eexists. split; reflexivity.
Qed.

Lemma keywordFold_spec (lowerText : string) (entities : option (list Entity))
  (table : list (IntentionType * list string)) (acc : list Intention)
  (i : Intention) :
  In i (fold_left (keywordStep lowerText entities) table acc) ->
  In i acc \/ keywordBorn i.
Proof.
  revert acc. induction table as [|tk r IH]; simpl; intros acc H; [auto|].
  apply IH in H. destruct H as [H|H]; [|auto].
  apply keywordStep_spec in H. exact H.
Qed.

Lemma keywordPass_spec (lowerText : string) (entities : option (list Entity))
  (acc : list Intention) (i : Intention) :
  In i (keywordPass lowerText entities acc) -> In i acc \/ keywordBorn i.
Proof.
  unfold keywordPass. destruct acc as [|first rest].
  - apply keywordFold_spec.
  - destruct (negb _); [apply keywordFold_spec | auto].
Qed.

Lemma keywordStep_none (lowerText : string) (entities : option (list Entity))
  (tk : IntentionType * list string) :
  forallb (fun keyword => negb (RegExp.test (keywordRegex keyword) lowerText))
    (snd tk) = true ->
  keywordStep lowerText entities [] tk = [].
Proof.
  intros H. unfold keywordStep. destruct tk as [ty kws]. simpl in *.
  replace (filter _ kws) with (@nil string); [reflexivity|].
  symmetry. induction kws as [|k r IH]; simpl in *; [reflexivity|].
  apply andb_true_iff in H. destruct H as [H1 H2].
  apply negb_true_iff in H1. rewrite H1. apply IH. exact H2.
Qed.

Lemma keywordPass_none (text : string) (entities : option (list Entity)) :
  noKeywordMatches text = true ->
  keywordPass (Js.trim (Js.toLowerCase text)) entities [] = [].
Proof.
  unfold noKeywordMatches, keywordPass.
  generalize intentionKeywords as table.
  induction table as [|tk r IH]; simpl; intros H; [reflexivity|].
  apply andb_true_iff in H. destruct H as [H1 H2].
  rewrite keywordStep_none by exact H1. apply IH. exact H2.
Qed.

(** Every intention of a result: from a pattern, from keywords, from the
    question mark, or the fallback. *)
Definition questionIntention (entities : option (list Entity)) : Intention :=
  {| i_type := QUESTION_FACTUAL; i_confidence := 0.7%Q;
     i_relatedEntities := entities; i_metadata := None |}.

Lemma detectIntentions_origin (text : string) (entities : option (list Entity))
  (i : Intention) :
  In i (detectIntentions text entities) ->
  (i_confidence i = 0.9%Q /\ fromPattern i)
  \/ keywordBorn i
  \/ i = questionIntention entities
  \/ i = unknownIntention entities.
Proof.
  intros H. apply detectIntentions_in in H.
  assert (Hq : forall l, In i (questionMark text entities l) ->
                         In i l \/ i = questionIntention entities).
  { intros l. unfold questionMark. destruct (_ && _); [|auto].
    intros Hi. apply in_app_or in Hi. destruct Hi as [Hi|[<-|[]]]; auto. }
  assert (Hf : forall l, In i (fallback entities l) ->
                         In i l \/ i = unknownIntention entities).
  { intros [|a l]; simpl; [intros [<-|[]]; auto | auto]. }
  apply Hf in H. destruct H as [H|H]; [|auto].
  apply Hq in H. destruct H as [H|H]; [|auto].
  apply keywordPass_spec in H. destruct H as [H|H]; [|auto].
  left. apply patternIntentions_spec in H. exact H.
Qed.

Lemma keywordBorn_le (i : Intention) :
  keywordBorn i -> (i_confidence i <= 0.85)%Q.
Proof. intros (ks & _ & ->). apply keywordConfidence_le. Qed.

Lemma confidence_le_one (text : string) (entities : option (list Entity))
  (i : Intention) :
  In i (detectIntentions text entities) -> (i_confidence i <= 1)%Q.
Proof.
  intros H. apply detectIntentions_origin in H.
  destruct H as [[-> _]|[H|[ -> | -> ]]]; simpl; try lra.
  apply keywordBorn_le in H. lra.
Qed.

End IntentionDetectorFacts.

(** C6: [detectIntentions] returns a list that is not empty, in descending
    order of confidence, for every text; when the passes over the patterns,
    the keywords and the question mark detect nothing, the list is the
    [unknown] intention alone. *)
Theorem C6_detectIntentions_nonempty_sorted (text : string)
  (entities : option (list Entity)) :
  IntentionDetector.detectIntentions text entities <> []
  /\ StronglySorted IntentionDetectorFacts.descending
       (IntentionDetector.detectIntentions text entities)
  /\ (IntentionDetector.questionMark text entities
        (IntentionDetector.keywordPass (Js.trim (Js.toLowerCase text)) entities
           (IntentionDetector.patternIntentions text entities)) = [] ->
      IntentionDetector.detectIntentions text entities
      = [IntentionDetectorFacts.unknownIntention entities]).
Proof.
  split; [apply IntentionDetectorFacts.detectIntentions_nonempty|].
  split; [apply IntentionDetectorFacts.detectIntentions_sorted|].
  intros H. unfold IntentionDetector.detectIntentions. rewrite H. reflexivity.
Qed.

(** A text in which nothing is detected. *)
Lemma C6_witness :
  IntentionDetector.detectIntentions "xyzzy" None
  = [IntentionDetectorFacts.unknownIntention None].
Proof.
  apply (C6_detectIntentions_nonempty_sorted "xyzzy" None).
  vm_compute. reflexivity.
Defined.

(** C8: for a text that no pattern matches, that holds no keyword as a whole
    word and that does not end with a question mark, [detectIntentions]
    returns one intention, [unknown], with confidence 1.0; no intention of
    any result has a greater confidence, and every intention with the
    confidence 1.0 is this fallback. *)
Theorem C8_unknown_fallback (text : string) (entities : option (list Entity)) :
  IntentionDetectorFacts.noPatternMatches text = true ->
  IntentionDetectorFacts.noKeywordMatches text = true ->
  Js.endsWithChar text "?" = false ->
  IntentionDetector.detectIntentions text entities
  = [ {| i_type := UNKNOWN; i_confidence := 1.0%Q;
         i_relatedEntities := entities; i_metadata := None |} ]
  /\ (forall text' entities' i,
        In i (IntentionDetector.detectIntentions text' entities') ->
        (i_confidence i <= 1.0)%Q
        /\ ((1.0 <= i_confidence i)%Q ->
            i = IntentionDetectorFacts.unknownIntention entities')).
Proof.
  intros Hp Hk Hq. split.
  - unfold IntentionDetector.detectIntentions.
    rewrite IntentionDetectorFacts.patternIntentions_none by exact Hp.
    rewrite IntentionDetectorFacts.keywordPass_none by exact Hk.
    unfold IntentionDetector.questionMark. rewrite Hq. reflexivity.
  - intros text' entities' i Hi. split.
    + apply IntentionDetectorFacts.confidence_le_one in Hi. lra.
    + intros Hc. apply IntentionDetectorFacts.detectIntentions_origin in Hi.
      destruct Hi as [[E _]|[H|[ -> | -> ]]]; simpl in *;
        [rewrite E in Hc; lra | | lra | reflexivity].
      apply IntentionDetectorFacts.keywordBorn_le in H. lra.
Qed.

Lemma C8_witness :
  IntentionDetector.detectIntentions "The cat sat on the mat." None
  = [ {| i_type := UNKNOWN; i_confidence := 1.0%Q;
         i_relatedEntities := None; i_metadata := None |} ].
Proof.
  apply (C8_unknown_fallback "The cat sat on the mat." None);
    vm_compute; reflexivity.
Defined.

(** C9: an intention of the first pass has the confidence 0.9; an intention
    of the second pass has the confidence min(0.3 + 0.2 * matches, 0.85),
    which is 0.85 at most; so in the result no intention found by a pattern
    stands after an intention found by keywords. *)
Theorem C9_pattern_before_keyword (text : string)
  (entities : option (list Entity)) :
  let result := IntentionDetector.detectIntentions text entities in
  (forall i, In i (IntentionDetector.patternIntentions text entities) ->
             i_confidence i = 0.9%Q)
  /\ (forall i, In i result -> IntentionDetectorFacts.fromPattern i ->
                i_confidence i = 0.9%Q)
  /\ (forall i keywords,
        In i result -> i_metadata i = Some (matchedKeywords keywords) ->
        i_confidence i
        = Js.Math_min
            (0.3 + inject_Z (Z.of_nat (List.length keywords)) * 0.2)%Q 0.85%Q
        /\ (i_confidence i <= 0.85)%Q)
  /\ (forall before k after p,
        result = before ++ k :: after ->
        IntentionDetectorFacts.fromKeywords k ->
        In p after -> ~ IntentionDetectorFacts.fromPattern p).
Proof.
  cbv zeta.
  assert (Hpat : forall i,
             In i (IntentionDetector.detectIntentions text entities) ->
             IntentionDetectorFacts.fromPattern i -> i_confidence i = 0.9%Q).
  { intros i Hi (src & Hsrc).
    apply IntentionDetectorFacts.detectIntentions_origin in Hi.
    destruct Hi as [[E _]|[(ks & E & _)|[ -> | -> ]]];
      [exact E | congruence | discriminate | discriminate]. }
  assert (Hkw : forall i keywords,
             In i (IntentionDetector.detectIntentions text entities) ->
             i_metadata i = Some (matchedKeywords keywords) ->
             i_confidence i
             = IntentionDetectorFacts.keywordConfidence (List.length keywords)).
  { intros i keywords Hi Hm.
    apply IntentionDetectorFacts.detectIntentions_origin in Hi.
    destruct Hi as [[_ (src & E)]|[(ks & E & Hc)|[ -> | -> ]]];
      [congruence | | discriminate | discriminate].
    rewrite E in Hm. injection Hm as ->. exact Hc. }
  split; [|split; [exact Hpat|split]].
  - intros i Hi. apply IntentionDetectorFacts.patternIntentions_spec in Hi.
    apply Hi.
  - intros i keywords Hi Hm. rewrite (Hkw i keywords Hi Hm).
    split; [reflexivity | apply IntentionDetectorFacts.keywordConfidence_le].
  - intros before k after p E (keywords & Hk) Hp Hfrom.
    pose proof (IntentionDetectorFacts.detectIntentions_sorted text entities)
      as Hs.
    rewrite E in Hs. apply SortFacts.sorted_after in Hs.
    rewrite Forall_forall in Hs. specialize (Hs p Hp).
    unfold IntentionDetectorFacts.descending in Hs.
    assert (Hin : forall x, In x (before ++ k :: after) ->
                  In x (IntentionDetector.detectIntentions text entities))
      by (intros x Hx; rewrite E; exact Hx).
    rewrite (Hpat p) in Hs
      by (try apply Hin; try apply in_or_app; simpl; auto).
    rewrite (Hkw k keywords) in Hs
      by (try apply Hin; try apply in_or_app; simpl; auto).
    pose proof (IntentionDetectorFacts.keywordConfidence_le
                  (List.length keywords)).
    lra.
Qed.

(** ** Insertion-ordered maps: lookups, and loops over the entries *)

Module JsMapFacts.

Section Lookup.
Variable V : Type.
Implicit Types (m : JsMap.t V) (k : string) (v : V).

Lemma get_set_eq m k v : JsMap.get k (JsMap.set k v m) = Some v.
Proof.
  induction m as [|[k' v'] r IH]; simpl.
  - rewrite String.eqb_refl. reflexivity.
  - destruct (String.eqb k k') eqn:E; simpl.
    + rewrite String.eqb_refl. reflexivity.
    + rewrite E. exact IH.
Qed.

Lemma get_set_neq m k k' v :
  k <> k' -> JsMap.get k (JsMap.set k' v m) = JsMap.get k m.
Proof.
  intros N. induction m as [|[k0 v0] r IH]; simpl.
  - apply String.eqb_neq in N. rewrite N. reflexivity.
  - destruct (String.eqb k' k0) eqn:E; simpl.
    + apply String.eqb_eq in E. subst k0.
      apply String.eqb_neq in N. rewrite N. reflexivity.
    + destruct (String.eqb k k0); [reflexivity | exact IH].
Qed.

Lemma get_delete_eq m k : JsMap.get k (JsMap.delete k m) = None.
Proof.
  induction m as [|[k' v'] r IH]; simpl; [reflexivity|].
  destruct (String.eqb k k') eqn:E; simpl; [exact IH|].
  rewrite E. exact IH.
Qed.

Lemma get_delete_neq m k k' :
  k <> k' -> JsMap.get k (JsMap.delete k' m) = JsMap.get k m.
Proof.
  intros N. induction m as [|[k0 v0] r IH]; simpl; [reflexivity|].
  destruct (String.eqb k' k0) eqn:E; simpl.
  - apply String.eqb_eq in E. subst k0.
    apply String.eqb_neq in N. rewrite N. exact IH.
  - destruct (String.eqb k k0); [reflexivity | exact IH].
Qed.

Lemma get_in m k v : JsMap.get k m = Some v -> In (k, v) m.
Proof.
  induction m as [|[k' v'] r IH]; simpl; [discriminate|].
  destruct (String.eqb k k') eqn:E.
  - apply String.eqb_eq in E. subst k'. intros [= ->]. now left.
  - intros H. right. apply IH. exact H.
Qed.

Lemma get_none m k : ~ In k (JsMap.keys m) -> JsMap.get k m = None.
Proof.
  induction m as [|[k' v'] r IH]; simpl; [reflexivity|].
  intros N. destruct (String.eqb k k') eqn:E.
  - apply String.eqb_eq in E. subst k'. exfalso. apply N. now left.
  - apply IH. intros H. apply N. now right.
Qed.

End Lookup.

(** A loop over the entries of a map whose body, at the entry of a key,
    changes what can be seen at that key alone, and there depends on that
    alone.  What is seen at a key after the loop is what the body leaves
    there on the state before the loop. *)
Section Loop.
Variables (S V O : Type).
Variable obs : string -> S -> O.
Variable step : S -> string * V -> S.
Hypothesis frame :
  forall s k k' v, k <> k' -> obs k (step s (k', v)) = obs k s.
Hypothesis local :
  forall s1 s2 k v,
    obs k s1 = obs k s2 -> obs k (step s1 (k, v)) = obs k (step s2 (k, v)).

Lemma loop_other (l : list (string * V)) (s : S) (k : string) :
  ~ In k (map fst l) -> obs k (fold_left step l s) = obs k s.
Proof.
  revert s. induction l as [|[k' v'] r IH]; simpl; intros s N; [reflexivity|].
  rewrite IH by tauto. apply frame. intros ->. tauto.
Qed.

Lemma loop_own (l : list (string * V)) (s : S) (k : string) (v : V) :
  NoDup (map fst l) -> In (k, v) l ->
  obs k (fold_left step l s) = obs k (step s (k, v)).
Proof.
  revert s. induction l as [|[k' v'] r IH]; simpl; intros s D H; [tauto|].
  inversion D as [|? ? Hn Hd]; subst.
  destruct H as [[= -> ->]|H].
  - apply loop_other. exact Hn.
  - assert (N : k <> k').
    { intros ->. apply Hn. apply in_map_iff. exists (k', v). auto. }
    rewrite IH by assumption. apply local. apply frame. exact N.
Qed.

End Loop.

End JsMapFacts.

(** ** The ageing of intentions *)

Module IntentionRecognizerFacts.
Import IntentionRecognizer.

Lemma lifespanStep_frame now (m : JsMap.t UserIntention) k k' i :
  k <> k' -> JsMap.get k (lifespanStep now m (k', i)) = JsMap.get k m.
Proof.
  intros N. unfold lifespanStep.
  destruct (_ >? tenMinutes)%Z; [apply JsMapFacts.get_delete_neq; exact N|].
  destruct (_ >? fiveMinutes)%Z; [apply JsMapFacts.get_set_neq; exact N|].
  reflexivity.
Qed.

Lemma lifespanStep_local now (m1 m2 : JsMap.t UserIntention) k i :
  JsMap.get k m1 = JsMap.get k m2 ->
  JsMap.get k (lifespanStep now m1 (k, i))
  = JsMap.get k (lifespanStep now m2 (k, i)).
Proof.
  intros E. unfold lifespanStep.
  destruct (_ >? tenMinutes)%Z; [now rewrite !JsMapFacts.get_delete_eq|].
  destruct (_ >? fiveMinutes)%Z; [now rewrite !JsMapFacts.get_set_eq|].
  exact E.
Qed.

(** What the update makes of the intention kept under [id]. *)
Lemma lifespans_get now (s : State) id i :
  NoDup (JsMap.keys (activeIntentions s)) ->
  JsMap.get id (activeIntentions s) = Some i ->
  JsMap.get id (activeIntentions (updateIntentionLifespans now s))
  = JsMap.get id (lifespanStep now (activeIntentions s) (id, i)).
Proof.
  intros D H. unfold updateIntentionLifespans; simpl.
  apply (JsMapFacts.loop_own _ _ _ (fun k m => JsMap.get k m) (lifespanStep now)).
  - intros; apply lifespanStep_frame; assumption.
  - intros; apply lifespanStep_local; assumption.
  - exact D.
  - apply JsMapFacts.get_in. exact H.
Qed.

Lemma age_floor (c : Q) : (0.1 <= age c)%Q.
Proof. unfold age, Js.Math_max. apply Q.le_max_l. Qed.

Lemma age_product (c : Q) : (0.1 <= c * 0.8)%Q -> (age c == c * 0.8)%Q.
Proof. unfold age, Js.Math_max. apply Q.max_r. Qed.

(** A conversation of six user messages in which nothing is recognized:
    the first at the instant 0, the others a little more than five minutes
    later, one millisecond apart. *)
Definition emptyContext : Context :=
  {| ctx_entities := []; ctx_userIntentions := [];
     ctx_conversationState := None; ctx_environmentalFactors := [];
     ctx_userPreferences := []; ctx_recentMessages := [];
     ctx_conversationId := "c1" |}.

Definition userSays (text : string) : Message :=
  {| msg_id := "m1"; msg_role := Some "user"; msg_sender := "user";
     msg_content := Text text; msg_timestamp := 0 |}.

Definition after (instants : list Z) : State :=
  fold_left
    (fun s now => snd (recognizeIntentions now (userSays "zzz") emptyContext s))
    instants init.

End IntentionRecognizerFacts.

(** C7, as the code has it: [recognizeIntentions], for a message whose role
    is [user], first updates the lifespans; the update removes every active
    intention last detected more than 10 minutes ago, sets the confidence of
    every one last detected more than 5 and at most 10 minutes ago to
    max(0.1, 0.8 * confidence), which is 0.8 * confidence when that is 0.1
    at least, and leaves the others as they are. *)
Theorem C7_lifespan_update (now : Z) (s : IntentionRecognizer.State)
  (id : string) (i : UserIntention) :
  NoDup (JsMap.keys (IntentionRecognizer.activeIntentions s)) ->
  JsMap.get id (IntentionRecognizer.activeIntentions s) = Some i ->
  let s' := IntentionRecognizer.updateIntentionLifespans now s in
  let elapsed := (now - ui_lastDetected i)%Z in
  ((10 * 60 * 1000 < elapsed)%Z ->
   JsMap.get id (IntentionRecognizer.activeIntentions s') = None)
  /\ ((5 * 60 * 1000 < elapsed <= 10 * 60 * 1000)%Z ->
      JsMap.get id (IntentionRecognizer.activeIntentions s')
      = Some (IntentionRecognizer.withConfidence i
                (Js.Math_max 0.1%Q (ui_confidence i * 0.8)%Q))
      /\ ((0.1 <= ui_confidence i * 0.8)%Q ->
          (Js.Math_max 0.1%Q (ui_confidence i * 0.8)%Q
           == ui_confidence i * 0.8)%Q))
  /\ ((elapsed <= 5 * 60 * 1000)%Z ->
      JsMap.get id (IntentionRecognizer.activeIntentions s') = Some i)
  /\ (forall message context,
        msg_role message = Some "user" ->
        snd (IntentionRecognizer.recognizeIntentions now message context s)
        = fold_left (IntentionRecognizer.updateIntention now)
            (IntentionRecognizer.extractIntentionsFromMessage now message
               context) s')
  /\ (forall message context,
        msg_role message <> Some "user" ->
        IntentionRecognizer.recognizeIntentions now message context s
        = ([], s)).
Proof.
  intros D H. cbv zeta.
  rewrite (IntentionRecognizerFacts.lifespans_get now s id i D H).
  unfold IntentionRecognizer.lifespanStep, IntentionRecognizer.tenMinutes,
    IntentionRecognizer.fiveMinutes.
  repeat split.
  - intros E. apply Z.gtb_lt in E. rewrite E.
    apply JsMapFacts.get_delete_eq.
  - destruct H0 as [E1 E2].
    destruct (_ >? 10 * 60 * 1000)%Z eqn:G;
      [apply Z.gtb_lt in G; lia|].
    apply Z.gtb_lt in E1. rewrite E1. apply JsMapFacts.get_set_eq.
  - apply IntentionRecognizerFacts.age_product.
  - intros E.
    destruct (_ >? 10 * 60 * 1000)%Z eqn:G;
      [apply Z.gtb_lt in G; lia|].
    destruct (_ >? 5 * 60 * 1000)%Z eqn:G';
      [apply Z.gtb_lt in G'; lia|].
    exact H.
  - intros message context R.
    unfold IntentionRecognizer.recognizeIntentions. rewrite R. reflexivity.
  - intros message context R.
    unfold IntentionRecognizer.recognizeIntentions.
    destruct (msg_role message) as [role|]; simpl; [|reflexivity].
    destruct (String.eqb role "user") eqn:E; [|reflexivity].
    apply String.eqb_eq in E. subst role. congruence.
Qed.

(** After three messages, at 0, at 4 minutes and at 9 minutes: the update
    at 11 minutes removes the first intention and ages the second. *)
Lemma C7_witness :
  let s := IntentionRecognizerFacts.after [0; 240000; 540000]%Z in
  let s' := IntentionRecognizer.updateIntentionLifespans 660000 s in
  JsMap.get "general_communication_0"
    (IntentionRecognizer.activeIntentions s') = None
  /\ (exists i,
        JsMap.get "general_communication_240000"
          (IntentionRecognizer.activeIntentions s) = Some i
        /\ JsMap.get "general_communication_240000"
             (IntentionRecognizer.activeIntentions s')
           = Some (IntentionRecognizer.withConfidence i
                     (Js.Math_max 0.1%Q (ui_confidence i * 0.8)%Q))).
Proof.
  cbv zeta.
  set (s := IntentionRecognizerFacts.after [0; 240000; 540000]%Z).
  assert (D : NoDup (JsMap.keys (IntentionRecognizer.activeIntentions s))).
  { vm_compute. repeat constructor; simpl; intuition discriminate. }
  split.
  - destruct (JsMap.get "general_communication_0"
                (IntentionRecognizer.activeIntentions s)) as [i|] eqn:E;
      [|vm_compute in E; discriminate].
    apply (C7_lifespan_update 660000 s "general_communication_0" i D E).
    vm_compute in E. injection E as <-. vm_compute. reflexivity.
  - destruct (JsMap.get "general_communication_240000"
                (IntentionRecognizer.activeIntentions s)) as [i|] eqn:E;
      [|vm_compute in E; discriminate].
    exists i. split; [reflexivity|].
    apply (C7_lifespan_update 660000 s "general_communication_240000" i D E).
    vm_compute in E. injection E as <-. vm_compute.
    split; [reflexivity | discriminate].
Defined.

(** C7 as the claim has it fails: an intention of confidence 0.3, left alone
    for five minutes and then aged by five updates one millisecond apart,
    has the confidence 0.12288 before the fifth update and 0.1 after it,
    which is not 0.8 times 0.12288. *)
Lemma C7_counterexample :
  let before :=
    IntentionRecognizerFacts.after [0; 300001; 300002; 300003; 300004]%Z in
  let now := 300005%Z in
  let after := IntentionRecognizer.updateIntentionLifespans now before in
  exists i i',
    JsMap.get "general_communication_0"
      (IntentionRecognizer.activeIntentions before) = Some i
    /\ (5 * 60 * 1000 < now - ui_lastDetected i <= 10 * 60 * 1000)%Z
    /\ (ui_confidence i == 0.12288)%Q
    /\ JsMap.get "general_communication_0"
         (IntentionRecognizer.activeIntentions after) = Some i'
    /\ (ui_confidence i' == 0.1)%Q
    /\ ~ (ui_confidence i' == ui_confidence i * 0.8)%Q.
Proof.
  cbv zeta. eexists. eexists.
  split; [vm_compute; reflexivity|].
  split; [vm_compute; split; [reflexivity | discriminate]|].
  split; [vm_compute; reflexivity|].
  split; [vm_compute; reflexivity|].
  split; [vm_compute; reflexivity|].
  vm_compute. discriminate.
Qed.

(** ** The decay of salience *)

Module EntityTrackerFacts.
Import EntityTracker.

(** What the loop of the cleanup changes at a key: the entity and the
    lifespan kept under it. *)
Definition at_key (k : string) (s : State) : option TrackedEntity * option Q :=
  (JsMap.get k (entities s), JsMap.get k (entityLifespan s)).

Lemma cleanupStep_frame now (s : State) k k' lifespan :
  k <> k' -> at_key k (cleanupStep now s (k', lifespan)) = at_key k s.
Proof.
  intros N. unfold cleanupStep, at_key.
  destruct (JsMap.get k' (entities s)) as [entity|]; simpl.
  - destruct (Qle_bool _ 0); simpl.
    + rewrite !JsMapFacts.get_delete_neq by exact N. reflexivity.
    + rewrite !JsMapFacts.get_set_neq by exact N. reflexivity.
  - rewrite JsMapFacts.get_delete_neq by exact N. reflexivity.
Qed.

Lemma cleanupStep_local now (s1 s2 : State) k lifespan :
  at_key k s1 = at_key k s2 ->
  at_key k (cleanupStep now s1 (k, lifespan))
  = at_key k (cleanupStep now s2 (k, lifespan)).
Proof.
  unfold at_key. intros [= E1 E2]. unfold cleanupStep. rewrite E1.
  destruct (JsMap.get k (entities s2)) as [entity|] eqn:E3; simpl.
  - destruct (Qle_bool _ 0); simpl.
    + rewrite !JsMapFacts.get_delete_eq. reflexivity.
    + rewrite !JsMapFacts.get_set_eq. reflexivity.
  - rewrite !JsMapFacts.get_delete_eq, E1, E3. reflexivity.
Qed.

(** The lifespan that the cleanup computes for an entity. *)
Definition newLifespan (now : Z) (lifespan : Q) (entity : TrackedEntity) : Q :=
  (lifespan
   - inject_Z (now - te_lastMentioned entity) / inject_Z (10 * 60 * 1000))%Q.

(** A cleanup pass that runs decays the salience of every entity that it
    keeps. *)
Lemma cleanup_get now (s : State) id lifespan entity :
  NoDup (JsMap.keys (entityLifespan s)) ->
  (60000 <= now - lastCleanupTimestamp s)%Z ->
  JsMap.get id (entityLifespan s) = Some lifespan ->
  JsMap.get id (entities s) = Some entity ->
  (0 < newLifespan now lifespan entity)%Q ->
  JsMap.get id (entities (cleanupStaleEntities now s))
  = Some (withSalience entity (decay (te_salience entity))).
Proof.
  intros D T Hl He Hn. unfold cleanupStaleEntities.
  destruct (now - lastCleanupTimestamp s <? 60000)%Z eqn:G;
    [apply Z.ltb_lt in G; lia|].
  pose proof (JsMapFacts.loop_own _ _ _ at_key (cleanupStep now)
                (cleanupStep_frame now) (cleanupStep_local now)
                (entityLifespan s)
                {| entities := entities s; entityLifespan := entityLifespan s;
                   lastCleanupTimestamp := now |}
                id lifespan D (JsMapFacts.get_in _ _ _ _ Hl)) as E.
  unfold at_key in E. apply (f_equal fst) in E. cbn [fst] in E. rewrite E.
  unfold cleanupStep. cbn [entities]. rewrite He.
  change (lifespan - inject_Z (now - te_lastMentioned entity)
                     / inject_Z (10 * 60 * 1000))%Q
    with (newLifespan now lifespan entity).
  destruct (Qle_bool (newLifespan now lifespan entity) 0) eqn:L.
  - apply Qle_bool_iff in L. lra.
  - cbn [entities]. apply JsMapFacts.get_set_eq.
Qed.

Lemma decay_floor (salience : Q) : (0.1 <= decay salience)%Q.
Proof. unfold decay, Js.Math_max. apply Q.le_max_l. Qed.

Lemma decay_iter_floor (n : nat) (salience : Q) :
  (0.1 <= Nat.iter (S n) decay salience)%Q.
Proof. simpl. apply decay_floor. Qed.

(** A tracker that has seen an entity at the instant 0. *)
Definition seen : State :=
  updateEntity 0 (init 0)
    {| u_id := "topic_rocq"; u_name := Some "rocq"; u_type := Some "topic";
       u_attributes := Some []; u_salience := Some 0.7%Q |}.

End EntityTrackerFacts.

(** C10: the decay has the floor 0.1.  A cleanup pass that runs sets the
    salience of every entity that it keeps to max(0.1, salience * 0.95); an
    update of the lifespans sets the confidence of every intention that it
    ages to max(0.1, confidence * 0.8); both values are 0.1 at least, after
    any number of passes, and so never 0. *)
Theorem C10_decay_floor :
  (forall now s id lifespan entity,
     NoDup (JsMap.keys (EntityTracker.entityLifespan s)) ->
     (60000 <= now - EntityTracker.lastCleanupTimestamp s)%Z ->
     JsMap.get id (EntityTracker.entityLifespan s) = Some lifespan ->
     JsMap.get id (EntityTracker.entities s) = Some entity ->
     (0 < EntityTrackerFacts.newLifespan now lifespan entity)%Q ->
     exists entity',
       JsMap.get id
         (EntityTracker.entities (EntityTracker.cleanupStaleEntities now s))
       = Some entity'
       /\ te_salience entity'
          = Js.Math_max 0.1%Q (te_salience entity * 0.95)%Q
       /\ (0.1 <= te_salience entity')%Q)
  /\ (forall now s id intention,
        NoDup (JsMap.keys (IntentionRecognizer.activeIntentions s)) ->
        JsMap.get id (IntentionRecognizer.activeIntentions s)
        = Some intention ->
        (5 * 60 * 1000 < now - ui_lastDetected intention <= 10 * 60 * 1000)%Z ->
        exists intention',
          JsMap.get id
            (IntentionRecognizer.activeIntentions
               (IntentionRecognizer.updateIntentionLifespans now s))
          = Some intention'
          /\ ui_confidence intention'
             = Js.Math_max 0.1%Q (ui_confidence intention * 0.8)%Q
          /\ (0.1 <= ui_confidence intention')%Q)
  /\ (forall n x,
        (0.1 <= Nat.iter (S n) EntityTracker.decay x)%Q
        /\ (0.1 <= Nat.iter (S n) IntentionRecognizer.age x)%Q
        /\ (0 < Nat.iter (S n) EntityTracker.decay x)%Q
        /\ (0 < Nat.iter (S n) IntentionRecognizer.age x)%Q).
Proof.
  split; [|split].
  - intros now s id lifespan entity D T Hl He Hn.
    eexists. split;
      [apply (EntityTrackerFacts.cleanup_get now s id lifespan entity);
       assumption|].
    simpl. split; [reflexivity | apply EntityTrackerFacts.decay_floor].
  - intros now s id intention D H [E1 E2].
    rewrite (IntentionRecognizerFacts.lifespans_get now s id intention D H).
    unfold IntentionRecognizer.lifespanStep, IntentionRecognizer.tenMinutes,
      IntentionRecognizer.fiveMinutes.
    destruct (_ >? 10 * 60 * 1000)%Z eqn:G; [apply Z.gtb_lt in G; lia|].
    apply Z.gtb_lt in E1. rewrite E1. rewrite JsMapFacts.get_set_eq.
    eexists. split; [reflexivity|]. simpl.
    split; [reflexivity | apply IntentionRecognizerFacts.age_floor].
  - intros n x.
    pose proof (EntityTrackerFacts.decay_floor (Nat.iter n EntityTracker.decay x)).
    pose proof (IntentionRecognizerFacts.age_floor
                  (Nat.iter n IntentionRecognizer.age x)).
    simpl. repeat split; lra.
Qed.

(** An entity seen at the instant 0 with the salience 0.7: the cleanup at
    two minutes leaves it with the salience max(0.1, 0.7 * 0.95). *)
Lemma C10_witness :
  exists entity',
    JsMap.get "topic_rocq"
      (EntityTracker.entities
         (EntityTracker.cleanupStaleEntities 120000 EntityTrackerFacts.seen))
    = Some entity'
    /\ te_salience entity' = Js.Math_max 0.1%Q (0.7 * 0.95)%Q
    /\ (0.1 <= te_salience entity')%Q.
Proof.
  destruct C10_decay_floor as [H _].
  refine (H 120000%Z EntityTrackerFacts.seen "topic_rocq" 1%Q
            {| te_id := "topic_rocq"; te_name := "rocq"; te_type := "topic";
               te_firstMentioned := 0; te_lastMentioned := 0;
               te_attributes := []; te_salience := 0.7%Q |} _ _ _ _ _).
  - vm_compute. repeat constructor; simpl; intuition.
  - vm_compute. discriminate.
  - vm_compute. reflexivity.
  - vm_compute. reflexivity.
  - vm_compute. reflexivity.
Defined.

(** ** The applicability of a value *)

Module ApplicabilityFacts.
Import ContextualValueApplicability.

(** [m] is the maximum of the scores. *)
Definition is_max (m : Q) (scores : list Q) : Prop :=
  In m scores /\ forall x, In x scores -> (x <= m)%Q.

(** Clamping to the interval from 0 to 1. *)
Definition clamp (x : Q) : Q :=
  if Qlt_le_dec x 0 then 0%Q else if Qlt_le_dec 1 x then 1%Q else x.

Lemma clamp_spec (x : Q) :
  (Js.Math_max 0 (Js.Math_min 1 x) == clamp x)%Q.
Proof.
  unfold Js.Math_max, Js.Math_min, clamp.
  destruct (Qlt_le_dec x 0) as [L|L].
  - rewrite Q.max_l; [reflexivity|]. rewrite Q.min_r; lra.
  - destruct (Qlt_le_dec 1 x) as [L'|L'].
    + rewrite Q.min_l by lra. rewrite Q.max_r; lra.
    + rewrite Q.min_r by lra. rewrite Q.max_r; lra.
Qed.

Lemma maxOf_in (first : Q) (others : list Q) :
  In (maxOf first others) (first :: others).
Proof.
  unfold maxOf. revert first.
  induction others as [|x r IH]; intros first; simpl; [auto|].
  destruct (IH (Js.Math_max first x)) as [E|H]; [|auto].
  rewrite <- E. unfold Js.Math_max.
  destruct (Q.max_dec first x) as [E'|E'].
  - destruct (Qcompare first x) eqn:C;
      unfold Qmax, GenericMinMax.gmax; rewrite C; auto.
  - destruct (Qcompare first x) eqn:C;
      unfold Qmax, GenericMinMax.gmax; rewrite C; auto.
Qed.

Lemma maxOf_ge_first (first : Q) (others : list Q) :
  (first <= maxOf first others)%Q.
Proof.
  unfold maxOf. revert first.
  induction others as [|x r IH]; intros first; simpl; [lra|].
  eapply Qle_trans; [|apply IH]. apply Q.le_max_l.
Qed.

Lemma maxOf_upper (first : Q) (others : list Q) (x : Q) :
  In x (first :: others) -> (x <= maxOf first others)%Q.
Proof.
  revert first. induction others as [|y r IH]; intros first.
  - intros [->|[]]. unfold maxOf; simpl. lra.
  - intros [->|[->|H]].
    + apply maxOf_ge_first.
    + unfold maxOf; simpl. eapply Qle_trans; [|apply maxOf_ge_first].
      apply Q.le_max_r.
    + unfold maxOf; simpl. apply (IH (Js.Math_max first y)). now right.
Qed.

(** With manifestations, [scoreManifestations] is the maximum of their
    match scores. *)
Lemma scoreManifestations_max (value : CoreValue) (context : Context) (m : Q) :
  is_max m (map (fun manifestation =>
                   scoreManifestationMatch manifestation context)
              (v_manifestations value)) ->
  (scoreManifestations value context == m)%Q.
Proof.
  unfold scoreManifestations. intros [Hin Hub].
  destruct (map _ (v_manifestations value)) as [|first others];
    [destruct Hin|].
  apply Qle_antisym.
  - apply Hub. apply maxOf_in.
  - apply maxOf_upper. exact Hin.
Qed.

Lemma applyEnhancements_bounds (store : Enhancements) (valueId : string)
  (context : Context) :
  (-0.5 <= applyEnhancements store valueId context <= 0.5)%Q.
Proof.
  unfold applyEnhancements. destruct (JsMap.get valueId store); [|lra].
  unfold Js.Math_max, Js.Math_min. split.
  - apply Q.le_max_l.
  - apply Q.max_lub; [lra | apply Q.le_min_l].
Qed.

Lemma Qle_bool_false (x y : Q) : Qle_bool x y = false <-> (y < x)%Q.
Proof.
  split; intros H.
  - apply Qnot_le_lt. intros C. apply Qle_bool_iff in C. congruence.
  - destruct (Qle_bool x y) eqn:E; [|reflexivity].
    apply Qle_bool_iff in E. lra.
Qed.

Lemma isRelevant_spec (store : Enhancements) (value : CoreValue)
  (context : Context) :
  isRelevant store value context = true
  <-> (0.3 < getApplicabilityScore store value context)%Q.
Proof.
  unfold isRelevant. rewrite negb_true_iff. apply Qle_bool_false.
Qed.

Definition emotional_support : ValueManifestation :=
  CoreValues.manifestation "emotional_support"
    "Respond with empathy to emotional expressions".

Lemma sentiment_below (context : Context) (cs : CoreConversationState) :
  ctx_conversationState context = Some cs ->
  (st_recentSentiment cs == -0.6)%Q ->
  sentimentBelow context (-0.5) = true.
Proof.
  intros E H. unfold sentimentBelow. rewrite E.
  apply negb_true_iff, Qle_bool_false. lra.
Qed.

(** The match scores of the manifestations of [user_wellbeing] when the
    sentiment is below -0.5. *)
Lemma wellbeing_scores (context : Context) :
  sentimentBelow context (-0.5) = true ->
  exists x,
    map (fun manifestation => scoreManifestationMatch manifestation context)
      (v_manifestations CoreValues.user_wellbeing)
    = [0.9; x; 0.4; 0.4; 0.4]%Q
    /\ (x <= 0.7)%Q
    /\ scoreManifestations CoreValues.user_wellbeing context = 0.9%Q.
Proof.
  intros H.
  assert (E1 : scoreManifestationMatch
                 (CoreValues.manifestation "emotional_support"
                    "Respond with empathy to emotional expressions")
                 context = 0.9%Q).
  { unfold scoreManifestationMatch. cbn. rewrite H. reflexivity. }
  assert (E2 : exists x,
             scoreManifestationMatch
               (CoreValues.manifestation "sensitive_topics"
                  "Approach sensitive topics with care and respect")
               context = x
             /\ (x = 0.7 \/ x = 0.6 \/ x = 0.2)%Q).
  { unfold scoreManifestationMatch.
    cbn -[hasSensitiveTopic containsKeywords].
    destruct (hasSensitiveTopic context); [eauto|].
    destruct (containsKeywords context sensitiveTopics); eauto. }
  destruct E2 as (x & E2 & Hx).
  exists x. unfold scoreManifestations.
  cbn [v_manifestations CoreValues.user_wellbeing
       CoreValues.wellbeingManifestations map].
  rewrite E1, E2.
  change (scoreManifestationMatch
            (CoreValues.manifestation "harmful_requests"
               "Decline requests that could cause harm") context)
    with 0.4%Q.
  change (scoreManifestationMatch
            (CoreValues.manifestation "user_frustration"
               "Acknowledge frustration and work toward resolution") context)
    with 0.4%Q.
  change (scoreManifestationMatch
            (CoreValues.manifestation "continuous_engagement"
               "Respect cognitive and emotional energy, avoiding overwhelming interactions")
            context)
    with 0.4%Q.
  split; [reflexivity|].
  destruct Hx as [ -> | [ -> | -> ] ]; (split; [lra | reflexivity]).
Qed.

(** A context whose recent sentiment is -0.6. *)
Definition sadContext : Context :=
  {| ctx_entities := []; ctx_userIntentions := [];
     ctx_conversationState :=
       Some {| st_id := "s1"; st_stage := "exploration";
               st_activeTopics := []; st_recentSentiment := (-0.6)%Q;
               st_engagementLevel := 0.5%Q; st_userSatisfaction := 0.5%Q |};
     ctx_environmentalFactors := []; ctx_userPreferences := [];
     ctx_recentMessages := []; ctx_conversationId := "c1" |}.

End ApplicabilityFacts.

(** C4: the applicability score of a value in a context is
    0.5 * importance + 0.3 * (the maximum of the match scores of its
    manifestations) + 0.2 * (the enhancement effect), clamped to the
    interval from 0 to 1; the value is relevant exactly when the score
    exceeds 0.3; with a recent sentiment of -0.6 the manifestation
    [emotional_support] matches at 0.9, which is the maximum for
    [user_wellbeing], and [user_wellbeing] is relevant. *)
Theorem C4_applicability_score
  (store : ContextualValueApplicability.Enhancements) (value : CoreValue)
  (context : Context) :
  (forall m,
     ApplicabilityFacts.is_max m
       (map (fun manifestation =>
               ContextualValueApplicability.scoreManifestationMatch
                 manifestation context)
          (v_manifestations value)) ->
     (ContextualValueApplicability.getApplicabilityScore store value context
      == ApplicabilityFacts.clamp
           (0.5 * v_importance value + 0.3 * m
            + 0.2 * ContextualValueApplicability.applyEnhancements store
                      (v_id value) context))%Q)
  /\ (ContextualValueApplicability.isRelevant store value context = true
      <-> (0.3 < ContextualValueApplicability.getApplicabilityScore store
                   value context)%Q)
  /\ (forall cs,
        ctx_conversationState context = Some cs ->
        (st_recentSentiment cs == -0.6)%Q ->
        ContextualValueApplicability.scoreManifestationMatch
          ApplicabilityFacts.emotional_support context = 0.9%Q
        /\ ApplicabilityFacts.is_max 0.9%Q
             (map (fun manifestation =>
                     ContextualValueApplicability.scoreManifestationMatch
                       manifestation context)
                (v_manifestations CoreValues.user_wellbeing))
        /\ ContextualValueApplicability.isRelevant store
             CoreValues.user_wellbeing context = true).
Proof.
  split; [|split].
  - intros m Hm.
    unfold ContextualValueApplicability.getApplicabilityScore.
    rewrite ApplicabilityFacts.clamp_spec.
    pose proof (ApplicabilityFacts.scoreManifestations_max value context m Hm)
      as E.
    assert (Hx : forall x y : Q, (x == y)%Q ->
              (ApplicabilityFacts.clamp x == ApplicabilityFacts.clamp y)%Q).
    { intros x y Exy. unfold ApplicabilityFacts.clamp.
      destruct (Qlt_le_dec x 0), (Qlt_le_dec y 0); try lra.
      destruct (Qlt_le_dec 1 x), (Qlt_le_dec 1 y); lra. }
    apply Hx. rewrite E. ring.
  - apply ApplicabilityFacts.isRelevant_spec.
  - intros cs Ecs Hs.
    pose proof (ApplicabilityFacts.sentiment_below context cs Ecs Hs) as Hb.
    destruct (ApplicabilityFacts.wellbeing_scores context Hb)
      as (x & Escores & Hx & Emax).
    split; [|split].
    + unfold ContextualValueApplicability.scoreManifestationMatch. simpl.
      rewrite Hb. reflexivity.
    + rewrite Escores. split; [simpl; auto|].
      intros y [<-|[<-|[<-|[<-|[<-|[]]]]]]; lra.
    + apply ApplicabilityFacts.isRelevant_spec.
      unfold ContextualValueApplicability.getApplicabilityScore.
      rewrite ApplicabilityFacts.clamp_spec, Emax.
      pose proof (ApplicabilityFacts.applyEnhancements_bounds store
                    (v_id CoreValues.user_wellbeing) context) as [B1 B2].
      unfold ApplicabilityFacts.clamp.
      set (e := ContextualValueApplicability.applyEnhancements store
                  (v_id CoreValues.user_wellbeing) context) in *.
      simpl v_importance.
      destruct (Qlt_le_dec _ 0); [lra|].
      destruct (Qlt_le_dec 1 _); lra.
Qed.

(** With no enhancement, in a context whose recent sentiment is -0.6, the
    score of [user_wellbeing] is 0.5 * 0.85 + 0.3 * 0.9 = 0.695, and the
    value is relevant. *)
Lemma C4_witness :
  (ContextualValueApplicability.getApplicabilityScore []
     CoreValues.user_wellbeing ApplicabilityFacts.sadContext == 0.695)%Q
  /\ ContextualValueApplicability.isRelevant [] CoreValues.user_wellbeing
       ApplicabilityFacts.sadContext = true.
Proof.
  destruct (C4_applicability_score [] CoreValues.user_wellbeing
              ApplicabilityFacts.sadContext) as (Hscore & _ & Hsad).
  destruct (Hsad _ eq_refl ltac:(reflexivity)) as (_ & Hmax & Hrel).
  split; [|exact Hrel].
  rewrite (Hscore _ Hmax). vm_compute. reflexivity.
Defined.

(** ** The resolution of a conflict between two values *)

Module HierarchyFacts.
Import ValueHierarchy.

Lemma Qabs_gt_spec (x bound : Q) :
  Qabs_gt x bound = true <-> (bound < x \/ x < - bound)%Q.
Proof.
  unfold Qabs_gt. rewrite negb_true_iff, ApplicabilityFacts.Qle_bool_false.
  split.
  - apply Qabs_case; intros L H; [left|right]; lra.
  - intros [H|H].
    + eapply Qlt_le_trans; [exact H | apply Qle_Qabs].
    + assert (L : (- x <= Qabs x)%Q)
        by (rewrite <- Qabs_opp; apply Qle_Qabs).
      lra.
Qed.

Lemma Qabs_gt_false (x bound : Q) :
  Qabs_gt x bound = false <-> (- bound <= x <= bound)%Q.
Proof.
  split.
  - intros H. split; apply Qnot_lt_le; intros C;
      assert (E : Qabs_gt x bound = true)
        by (apply Qabs_gt_spec; auto); congruence.
  - intros [H1 H2]. destruct (Qabs_gt x bound) eqn:E; [|reflexivity].
    apply Qabs_gt_spec in E. lra.
Qed.

(** A context, and a hierarchy of the core values in which a reflection
    insight has installed a priority of [authenticity] over
    [human_agency] for the conversation of the context. *)
Definition context1 : Context :=
  {| ctx_entities := []; ctx_userIntentions := [];
     ctx_conversationState := None; ctx_environmentalFactors := [];
     ctx_userPreferences := []; ctx_recentMessages := [];
     ctx_conversationId := "c1" |}.

Definition withOverride : option State :=
  setCustomPriority "authenticity" "human_agency" 1
    (Some [("conversationId", JStr "c1")]) (init CoreValues.coreValues).

(** Two values of equal importance. *)
Definition candour : CoreValue :=
  {| v_id := "candour"; v_description := "Say what is the case";
     v_importance := 0.5; v_manifestations := [] |}.

Definition tact : CoreValue :=
  {| v_id := "tact"; v_description := "Say it kindly";
     v_importance := 0.5; v_manifestations := [] |}.

End HierarchyFacts.

(** C1, as the code has it: [resolveConflict] is a function of the
    hierarchy, the two values and the context, and returns one of the two
    values; the two orders of the arguments give the same winner when no
    custom priority applies to the pair in either order and the values
    differ in importance, or in applicability by more than 0.3. *)
Theorem C1_resolveConflict_symmetric (s : ValueHierarchy.State)
  (a b : CoreValue) (context : Context) :
  (ValueHierarchy.getCustomPriorityInContext s (v_id a) (v_id b) context
   == 0)%Q ->
  (ValueHierarchy.getCustomPriorityInContext s (v_id b) (v_id a) context
   == 0)%Q ->
  (~ (v_importance a == v_importance b)%Q
   \/ (0.3 < Qabs (ValueHierarchy.getValueApplicability a context
                   - ValueHierarchy.getValueApplicability b context))%Q) ->
  ValueHierarchy.resolveConflict s a b context
  = ValueHierarchy.resolveConflict s b a context
  /\ (ValueHierarchy.resolveConflict s a b context = a
      \/ ValueHierarchy.resolveConflict s a b context = b)
  /\ (forall s' a' b' context',
        s' = s -> a' = a -> b' = b -> context' = context ->
        ValueHierarchy.resolveConflict s' a' b' context'
        = ValueHierarchy.resolveConflict s a b context).
Proof.
  intros Hab Hba Hdiff. split; [|split].
  - unfold ValueHierarchy.resolveConflict.
    apply Qeq_bool_iff in Hab, Hba. rewrite Hab, Hba. simpl.
    set (x := ValueHierarchy.getValueApplicability a context) in *.
    set (y := ValueHierarchy.getValueApplicability b context) in *.
    destruct (ValueHierarchy.Qabs_gt (x - y) 0.3) eqn:E1;
      destruct (ValueHierarchy.Qabs_gt (y - x) 0.3) eqn:E2.
    + apply HierarchyFacts.Qabs_gt_spec in E1, E2.
      destruct (Qle_bool (x - y) 0) eqn:L1;
        destruct (Qle_bool (y - x) 0) eqn:L2; simpl; try reflexivity;
        try (apply Qle_bool_iff in L1); try (apply Qle_bool_iff in L2);
        try (apply ApplicabilityFacts.Qle_bool_false in L1);
        try (apply ApplicabilityFacts.Qle_bool_false in L2); lra.
    + apply HierarchyFacts.Qabs_gt_spec in E1.
      apply HierarchyFacts.Qabs_gt_false in E2. lra.
    + apply HierarchyFacts.Qabs_gt_spec in E2.
      apply HierarchyFacts.Qabs_gt_false in E1. lra.
    + destruct Hdiff as [Hi|Ha].
      * destruct (Qle_bool (v_importance b) (v_importance a)) eqn:L1;
          destruct (Qle_bool (v_importance a) (v_importance b)) eqn:L2;
          try reflexivity;
          try (apply Qle_bool_iff in L1); try (apply Qle_bool_iff in L2);
          try (apply ApplicabilityFacts.Qle_bool_false in L1);
          try (apply ApplicabilityFacts.Qle_bool_false in L2);
          lra.
      * exfalso. apply HierarchyFacts.Qabs_gt_false in E1.
        revert Ha. apply Qabs_case; intros; lra.
  - unfold ValueHierarchy.resolveConflict.
    repeat match goal with
           | |- context [if ?c then _ else _] => destruct c
           end; auto.
  - intros s' a' b' context' -> -> -> ->. reflexivity.
Qed.

(** With no custom priority, [human_agency] wins over [truthfulness] in
    either order. *)
Lemma C1_witness :
  ValueHierarchy.resolveConflict
    (ValueHierarchy.init CoreValues.coreValues)
    CoreValues.human_agency CoreValues.truthfulness HierarchyFacts.context1
  = ValueHierarchy.resolveConflict
      (ValueHierarchy.init CoreValues.coreValues)
      CoreValues.truthfulness CoreValues.human_agency HierarchyFacts.context1.
Proof.
  refine (proj1 (C1_resolveConflict_symmetric
                   (ValueHierarchy.init CoreValues.coreValues)
                   CoreValues.human_agency CoreValues.truthfulness
                   HierarchyFacts.context1 _ _ _)).
  - vm_compute. reflexivity.
  - vm_compute. reflexivity.
  - left. vm_compute. discriminate.
Defined.

(** C1 as the claim has it fails.  A custom priority is kept for the pair
    in the order in which it was set and is not consulted for the other
    order: with [authenticity] set over [human_agency], the conflict
    (authenticity, human_agency) goes to [authenticity] and the conflict
    (human_agency, authenticity) to [human_agency].  And at equal
    importance the first argument wins. *)
Lemma C1_counterexample :
  (exists s,
     HierarchyFacts.withOverride = Some s
     /\ ValueHierarchy.resolveConflict s CoreValues.authenticity
          CoreValues.human_agency HierarchyFacts.context1
        = CoreValues.authenticity
     /\ ValueHierarchy.resolveConflict s CoreValues.human_agency
          CoreValues.authenticity HierarchyFacts.context1
        = CoreValues.human_agency
     /\ ValueHierarchy.resolveConflict s CoreValues.authenticity
          CoreValues.human_agency HierarchyFacts.context1
        <> ValueHierarchy.resolveConflict s CoreValues.human_agency
             CoreValues.authenticity HierarchyFacts.context1)
  /\ ValueHierarchy.resolveConflict
       (ValueHierarchy.init [HierarchyFacts.candour; HierarchyFacts.tact])
       HierarchyFacts.candour HierarchyFacts.tact HierarchyFacts.context1
     <> ValueHierarchy.resolveConflict
          (ValueHierarchy.init [HierarchyFacts.candour; HierarchyFacts.tact])
          HierarchyFacts.tact HierarchyFacts.candour HierarchyFacts.context1.
Proof.
  split.
  - eexists. split; [vm_compute; reflexivity|].
    split; [vm_compute; reflexivity|].
    split; [vm_compute; reflexivity|].
    vm_compute. discriminate.
  - vm_compute. discriminate.
Qed.

(** ** The sequential patterns of the tracker *)

Module PatternFacts.
Import InteractionPatternTracker.

(** *** The table of sequence counts *)

Lemma keys_set {V} (m : JsMap.t V) (k : string) (v : V) :
  JsMap.keys (JsMap.set k v m)
  = if JsMap.has k m then JsMap.keys m else JsMap.keys m ++ [k].
Proof.
  unfold JsMap.has.
  induction m as [|[k' v'] r IH]; simpl; [reflexivity|].
  destruct (String.eqb k k') eqn:E; simpl.
  - apply String.eqb_eq in E. subst. reflexivity.
  - rewrite IH. destruct (JsMap.get k r); reflexivity.
Qed.

Lemma has_in {V} (m : JsMap.t V) (k : string) :
  JsMap.has k m = false -> ~ In k (JsMap.keys m).
Proof.
  unfold JsMap.has.
  induction m as [|[k' v'] r IH]; simpl; [tauto|].
  destruct (String.eqb k k') eqn:E; [discriminate|].
  apply String.eqb_neq in E. intros H [C|C]; [congruence|].
  exact (IH H C).
Qed.

Lemma set_nodup {V} (m : JsMap.t V) (k : string) (v : V) :
  NoDup (JsMap.keys m) -> NoDup (JsMap.keys (JsMap.set k v m)).
Proof.
  intros D. rewrite keys_set. destruct (JsMap.has k m) eqn:E; [exact D|].
  apply NoDup_app; [exact D | repeat constructor; simpl; tauto|].
  intros x Hx [E'|[]]. subst x. exact (has_in m k E Hx).
Qed.

Lemma counts_nodup (keys : list string) (counts : JsMap.t Z) :
  NoDup (JsMap.keys counts) ->
  NoDup (JsMap.keys (fold_left (fun c key => increment key c) keys counts)).
Proof.
  revert counts. induction keys as [|k r IH]; simpl; intros counts D;
    [exact D|].
  apply IH. apply set_nodup. exact D.
Qed.

(** The count kept for a key: the number of times that the loops have met
    the key. *)
Lemma counts_get (keys : list string) (key : string) (counts : JsMap.t Z) :
  match JsMap.get key counts with Some v => (0 < v)%Z | None => True end ->
  JsMap.get key (fold_left (fun c k => increment k c) keys counts)
  = match count_occ string_dec keys key with
    | 0 => JsMap.get key counts
    | S n => Some (Js.orZ (JsMap.get key counts) 0 + Z.of_nat (S n))%Z
    end.
Proof.
  revert counts. induction keys as [|k r IH]; intros counts P;
    [reflexivity|].
  cbn [fold_left count_occ].
  destruct (string_dec k key) as [->|N].
  - rewrite IH.
    + unfold increment. rewrite JsMapFacts.get_set_eq.
      assert (G : (0 <= Js.orZ (JsMap.get key counts) 0)%Z).
      { unfold Js.orZ. destruct (JsMap.get key counts) as [v|]; [|lia].
        destruct (v =? 0)%Z; lia. }
      destruct (count_occ string_dec r key); [reflexivity|].
      f_equal. unfold Js.orZ at 1.
      destruct (Js.orZ (JsMap.get key counts) 0 + 1 =? 0)%Z eqn:E;
        [apply Z.eqb_eq in E; lia | lia].
    + unfold increment. rewrite JsMapFacts.get_set_eq.
      unfold Js.orZ. destruct (JsMap.get key counts) as [v|]; [|lia].
      destruct (v =? 0)%Z; lia.
  - rewrite IH.
    + unfold increment. rewrite JsMapFacts.get_set_neq by congruence.
      reflexivity.
    + unfold increment. rewrite JsMapFacts.get_set_neq by congruence.
      exact P.
Qed.

Lemma sequences_nodup (messageEvents : list InteractionEvent) :
  NoDup (JsMap.keys (intentionSequences messageEvents)).
Proof. unfold intentionSequences. apply counts_nodup. constructor. Qed.

(** The number of times that a sequence has been counted. *)
Definition timesCounted (messageEvents : list InteractionEvent)
  (sequence : string) : nat :=
  let intentions := map (fun e => d_intention (ev_data e)) messageEvents in
  count_occ string_dec (keys2 intentions ++ keys3 intentions) sequence.

(** The number of times that a 2-step sequence has been observed. *)
Definition timesObserved (messageEvents : list InteractionEvent)
  (sequence : string) : nat :=
  count_occ string_dec
    (keys2 (map (fun e => d_intention (ev_data e)) messageEvents)) sequence.

Lemma sequences_get (messageEvents : list InteractionEvent)
  (sequence : string) :
  1 <= timesCounted messageEvents sequence ->
  JsMap.get sequence (intentionSequences messageEvents)
  = Some (Z.of_nat (timesCounted messageEvents sequence)).
Proof.
  unfold timesCounted, intentionSequences. cbv zeta. intros H.
  rewrite counts_get by exact I.
  destruct (count_occ _ _ _); [lia | reflexivity].
Qed.

Lemma observed_counted (messageEvents : list InteractionEvent)
  (sequence : string) :
  timesObserved messageEvents sequence <= timesCounted messageEvents sequence.
Proof.
  unfold timesObserved, timesCounted. cbv zeta.
  rewrite count_occ_app. lia.
Qed.

Lemma keys2_length (l : list string) : List.length (keys2 l) = List.length l - 1.
Proof.
  induction l as [|a [|b r] IH]; simpl in *; try reflexivity.
  rewrite IH. lia.
Qed.

Lemma observed_length (messageEvents : list InteractionEvent)
  (sequence : string) :
  2 <= timesObserved messageEvents sequence -> 3 <= List.length messageEvents.
Proof.
  unfold timesObserved. intros H.
  pose proof (count_occ_bound string_dec sequence
                (keys2 (map (fun e => d_intention (ev_data e)) messageEvents))).
  rewrite keys2_length, length_map in H0. lia.
Qed.

(** *** The records of a sequence *)

(** The sequential records of a list with a given signature. *)
Definition recordsOf (sequence : string) (ps : list InteractionPattern)
  : list InteractionPattern :=
  filter (isSequential sequence) ps.

(** No two sequential records share a signature. *)
Definition uniqueSignatures (ps : list InteractionPattern) : Prop :=
  forall sequence, List.length (recordsOf sequence ps) <= 1.

(** The confidence of a record is that of its number of occurrences. *)
Definition confidenceKept (ps : list InteractionPattern) : Prop :=
  Forall (fun p => p_confidence p = confidenceOf (p_occurrences p)) ps.

Lemma isSequential_bump now sequence p :
  isSequential sequence (bump now p) = isSequential sequence p.
Proof. reflexivity. Qed.

Lemma isSequential_new now sequence sequence' count :
  isSequential sequence (newSequential now sequence' count)
  = String.eqb sequence' sequence.
Proof. reflexivity. Qed.

Lemma isSequential_other sequence sequence' p :
  sequence <> sequence' -> isSequential sequence' p = true ->
  isSequential sequence p = false.
Proof.
  unfold isSequential, metaIs. intros N H.
  apply andb_true_iff in H. destruct H as [-> H]. simpl.
  destruct (metaString "sequenceKey" p) as [s|]; [|reflexivity].
  apply String.eqb_eq in H. subst s. apply String.eqb_neq. congruence.
Qed.

Lemma filter_map_same {A} (P : A -> bool) (f : A -> A) (l : list A) :
  (forall x, P (f x) = P x) ->
  filter P (map f l) = map f (filter P l).
Proof.
  intros H. induction l as [|a r IH]; simpl; [reflexivity|].
  rewrite H. destruct (P a); simpl; rewrite IH; reflexivity.
Qed.

Lemma map_id_on {A} (f : A -> A) (l : list A) :
  (forall x, In x l -> f x = x) -> map f l = l.
Proof.
  intros H. induction l as [|a r IH]; simpl; [reflexivity|].
  rewrite H by (now left). rewrite IH; [reflexivity|].
  intros x Hx. apply H. now right.
Qed.

Lemma existsb_filter {A} (P : A -> bool) (l : list A) :
  existsb P l = negb (match filter P l with [] => true | _ => false end).
Proof.
  induction l as [|a r IH]; simpl; [reflexivity|].
  destruct (P a); simpl; [reflexivity | exact IH].
Qed.

(** One turn of the loop, seen at the signature of its entry. *)
Lemma sequentialStep_own now ps sequence count :
  recordsOf sequence (sequentialStep now ps (sequence, count))
  = if (2 <=? count)%Z then
      match recordsOf sequence ps with
      | [] => [newSequential now sequence count]
      | records => map (bump now) records
      end
    else recordsOf sequence ps.
Proof.
  unfold sequentialStep, recordsOf.
  destruct (2 <=? count)%Z; [|reflexivity].
  rewrite existsb_filter.
  destruct (filter (isSequential sequence) ps) as [|p r] eqn:E; simpl.
  - rewrite filter_app, E. simpl.
    rewrite isSequential_new, String.eqb_refl. reflexivity.
  - rewrite filter_map_same
      by (intros x; destruct (isSequential sequence x) eqn:Ex;
          [rewrite isSequential_bump|]; exact Ex).
    rewrite E. simpl.
    assert (Hp : isSequential sequence p = true).
    { assert (In p (filter (isSequential sequence) ps))
        by (rewrite E; now left).
      apply filter_In in H. apply H. }
    rewrite Hp. f_equal.
    apply map_ext_in. intros x Hx.
    assert (Hx' : In x (filter (isSequential sequence) ps))
      by (rewrite E; now right).
    apply filter_In in Hx'. destruct Hx' as [_ ->]. reflexivity.
Qed.

(** One turn of the loop, seen at another signature. *)
Lemma sequentialStep_frame now ps sequence sequence' count :
  sequence <> sequence' ->
  recordsOf sequence (sequentialStep now ps (sequence', count))
  = recordsOf sequence ps.
Proof.
  intros N. unfold sequentialStep, recordsOf.
  destruct (2 <=? count)%Z; [|reflexivity].
  destruct (existsb (isSequential sequence') ps).
  - rewrite filter_map_same
      by (intros x; destruct (isSequential sequence' x);
          [apply isSequential_bump | reflexivity]).
    apply map_id_on. intros x Hx. apply filter_In in Hx.
    destruct (isSequential sequence' x) eqn:Ex; [|reflexivity].
    rewrite (isSequential_other sequence sequence' x N Ex) in Hx.
    destruct Hx; discriminate.
  - rewrite filter_app. simpl. rewrite isSequential_new.
    assert (E : String.eqb sequence' sequence = false)
      by (apply String.eqb_neq; congruence).
    rewrite E. apply app_nil_r.
Qed.

Lemma sequentialStep_local now ps1 ps2 sequence count :
  recordsOf sequence ps1 = recordsOf sequence ps2 ->
  recordsOf sequence (sequentialStep now ps1 (sequence, count))
  = recordsOf sequence (sequentialStep now ps2 (sequence, count)).
Proof. intros E. rewrite !sequentialStep_own, E. reflexivity. Qed.

(** The loop over the table, seen at a signature. *)
Lemma sequentialLoop_own now table ps sequence count :
  NoDup (JsMap.keys table) -> JsMap.get sequence table = Some count ->
  recordsOf sequence (fold_left (sequentialStep now) table ps)
  = recordsOf sequence (sequentialStep now ps (sequence, count)).
Proof.
  intros D H.
  apply (JsMapFacts.loop_own _ _ _ recordsOf (sequentialStep now)).
  - intros; apply sequentialStep_frame; assumption.
  - intros; apply sequentialStep_local; assumption.
  - exact D.
  - apply JsMapFacts.get_in. exact H.
Qed.

Lemma sequentialLoop_other now (table : JsMap.t Z) ps sequence :
  ~ In sequence (JsMap.keys table) ->
  recordsOf sequence (fold_left (sequentialStep now) table ps)
  = recordsOf sequence ps.
Proof.
  apply (JsMapFacts.loop_other _ _ _ recordsOf (sequentialStep now)).
  intros; apply sequentialStep_frame; assumption.
Qed.

Lemma sequentialLoop_unique now table ps :
  NoDup (JsMap.keys table) -> uniqueSignatures ps ->
  uniqueSignatures (fold_left (sequentialStep now) table ps).
Proof.
  intros D U sequence. specialize (U sequence).
  destruct (in_dec string_dec sequence (JsMap.keys table)) as [Hin|Hout].
  - destruct (JsMap.get sequence table) as [count|] eqn:G.
    + rewrite (sequentialLoop_own now table ps sequence count D G).
      rewrite sequentialStep_own.
      destruct (2 <=? count)%Z; [|exact U].
      destruct (recordsOf sequence ps) as [|p r]; [simpl; lia|].
      rewrite length_map. exact U.
    + exfalso. clear - Hin G. induction table as [|[k v] r IH];
        simpl in *; [tauto|].
      destruct (String.eqb sequence k) eqn:E; [discriminate|].
      apply String.eqb_neq in E. destruct Hin as [C|C]; [congruence|].
      exact (IH C G).
  - rewrite sequentialLoop_other by exact Hout. exact U.
Qed.

(** *** The other two miners leave the sequential records alone *)

Lemma recordsOf_update sequence (touched : InteractionPattern -> bool)
  (f : InteractionPattern -> InteractionPattern) ps :
  (forall p, touched p = true ->
             PatternType_eqb (p_type p) SEQUENTIAL = false) ->
  (forall p, p_type (f p) = p_type p) ->
  recordsOf sequence (map (fun p => if touched p then f p else p) ps)
  = recordsOf sequence ps.
Proof.
  intros Ht Hf. unfold recordsOf.
  assert (Hs : forall p, touched p = true ->
                         forall q, p_type q = p_type p ->
                                   isSequential sequence q = false).
  { intros p Hp q Hq. unfold isSequential. rewrite Hq, (Ht p Hp).
    reflexivity. }
  rewrite filter_map_same.
  - apply map_id_on. intros x Hx. apply filter_In in Hx.
    destruct (touched x) eqn:E; [|reflexivity].
    rewrite (Hs x E x eq_refl) in Hx. destruct Hx; discriminate.
  - intros x. destruct (touched x) eqn:E; [|reflexivity].
    rewrite (Hs x E x eq_refl). apply (Hs x E). apply Hf.
Qed.

Lemma recordsOf_push sequence ps p :
  PatternType_eqb (p_type p) SEQUENTIAL = false ->
  recordsOf sequence (ps ++ [p]) = recordsOf sequence ps.
Proof.
  intros H. unfold recordsOf. rewrite filter_app. simpl.
  unfold isSequential. rewrite H. apply app_nil_r.
Qed.

Lemma isTemporal_type timeRange p :
  isTemporal timeRange p = true ->
  PatternType_eqb (p_type p) SEQUENTIAL = false.
Proof.
  unfold isTemporal. intros H. apply andb_true_iff in H.
  destruct H as [H _]. destruct (p_type p); try discriminate; reflexivity.
Qed.

Lemma isFrequency_type itemType item p :
  isFrequency itemType item p = true ->
  PatternType_eqb (p_type p) SEQUENTIAL = false.
Proof.
  unfold isFrequency. intros H. apply andb_true_iff in H.
  destruct H as [H _]. apply andb_true_iff in H. destruct H as [H _].
  destruct (p_type p); try discriminate; reflexivity.
Qed.

Lemma fold_keeps {A B C} (view : A -> C) (step : A -> B -> A) (l : list B)
  (a : A) :
  (forall a b, view (step a b) = view a) ->
  view (fold_left step l a) = view a.
Proof.
  intros H. revert a. induction l as [|b r IH]; simpl; intros a;
    [reflexivity|].
  rewrite IH. apply H.
Qed.

Lemma fold_invariant {A B} (P : A -> Prop) (step : A -> B -> A) (l : list B)
  (a : A) :
  (forall a b, P a -> P (step a b)) -> P a -> P (fold_left step l a).
Proof.
  intros H. revert a. induction l as [|b r IH]; simpl; intros a Pa;
    [exact Pa|].
  apply IH, H, Pa.
Qed.

Section Miners.
Variable getHours : Z -> Z.

Lemma temporalStep_records sequence now userMessages ps entry :
  recordsOf sequence (temporalStep getHours now userMessages ps entry)
  = recordsOf sequence ps.
Proof.
  unfold temporalStep. destruct entry as [hourNum count].
  destruct (3 <=? count)%Z; [|reflexivity].
  destruct (existsb _ ps).
  - apply recordsOf_update; [apply isTemporal_type | reflexivity].
  - apply recordsOf_push. reflexivity.
Qed.

Lemma intentionStep_records sequence now userMessages ps entry :
  recordsOf sequence (intentionStep now userMessages ps entry)
  = recordsOf sequence ps.
Proof.
  unfold intentionStep. destruct entry as [intention count].
  destruct (_ && _); [|reflexivity].
  destruct (existsb _ ps).
  - apply (recordsOf_update sequence (isFrequency "intention" intention));
      [apply isFrequency_type | reflexivity].
  - apply recordsOf_push. reflexivity.
Qed.

Lemma entityStep_records sequence now userMessages ps entry :
  recordsOf sequence (entityStep now userMessages ps entry)
  = recordsOf sequence ps.
Proof.
  unfold entityStep. destruct entry as [entityKey count].
  destruct (2 <=? count)%Z; [|reflexivity]. cbv zeta.
  destruct (existsb _ ps).
  - apply (recordsOf_update sequence (isFrequency "entity" entityKey));
      [apply isFrequency_type | reflexivity].
  - apply recordsOf_push. reflexivity.
Qed.

Lemma detectTemporal_records sequence now t :
  recordsOf sequence (patterns (detectTemporalPatterns getHours now t))
  = recordsOf sequence (patterns t).
Proof.
  unfold detectTemporalPatterns.
  destruct (_ <? 5); [reflexivity|]. destruct (_ <? 5); [reflexivity|].
  cbn [patterns]. apply (fold_keeps (recordsOf sequence)).
  intros; apply temporalStep_records.
Qed.

Lemma detectFrequency_records sequence now t :
  recordsOf sequence (patterns (detectFrequencyPatterns now t))
  = recordsOf sequence (patterns t).
Proof.
  unfold detectFrequencyPatterns. cbv zeta.
  destruct (_ <? 3); [reflexivity|]. cbn [patterns].
  rewrite (fold_keeps (recordsOf sequence))
    by (intros; apply entityStep_records).
  apply (fold_keeps (recordsOf sequence)).
  intros; apply intentionStep_records.
Qed.

Lemma detectTemporal_history now t :
  interactionHistory (detectTemporalPatterns getHours now t)
  = interactionHistory t.
Proof.
  unfold detectTemporalPatterns.
  destruct (_ <? 5); [reflexivity|]. destruct (_ <? 5); reflexivity.
Qed.

Lemma detectFrequency_history now t :
  interactionHistory (detectFrequencyPatterns now t) = interactionHistory t.
Proof.
  unfold detectFrequencyPatterns. cbv zeta. destruct (_ <? 3); reflexivity.
Qed.

Lemma detectSequential_history now t :
  interactionHistory (detectSequentialPatterns now t) = interactionHistory t.
Proof.
  unfold detectSequentialPatterns.
  destruct (_ <? 3); [reflexivity|]. destruct (_ <? 3); reflexivity.
Qed.

Lemma analyze_history now t :
  interactionHistory (analyzePatterns getHours now t) = interactionHistory t.
Proof.
  unfold analyzePatterns.
  rewrite detectFrequency_history, detectTemporal_history.
  apply detectSequential_history.
Qed.

Lemma analyze_records sequence now t :
  recordsOf sequence (patterns (analyzePatterns getHours now t))
  = recordsOf sequence (patterns (detectSequentialPatterns now t)).
Proof.
  unfold analyzePatterns.
  rewrite detectFrequency_records. apply detectTemporal_records.
Qed.

(** *** The confidence of every record follows its occurrences *)

Lemma kept_update (touched : InteractionPattern -> bool)
  (f : InteractionPattern -> InteractionPattern) ps :
  (forall p, p_confidence (f p) = confidenceOf (p_occurrences (f p))) ->
  confidenceKept ps ->
  confidenceKept (map (fun p => if touched p then f p else p) ps).
Proof.
  intros Hf K. unfold confidenceKept in *. rewrite Forall_map.
  eapply Forall_impl; [|exact K]. intros p Hp. cbv beta.
  destruct (touched p); [apply Hf | exact Hp].
Qed.

Lemma kept_push ps p :
  p_confidence p = confidenceOf (p_occurrences p) ->
  confidenceKept ps -> confidenceKept (ps ++ [p]).
Proof.
  intros Hp K. apply Forall_app. split; [exact K|]. constructor; auto.
Qed.

Lemma sequentialStep_kept now ps entry :
  confidenceKept ps -> confidenceKept (sequentialStep now ps entry).
Proof.
  unfold sequentialStep. destruct entry as [sequence count]. intros K.
  destruct (2 <=? count)%Z; [|exact K].
  destruct (existsb _ ps).
  - apply kept_update; [reflexivity | exact K].
  - apply kept_push; [reflexivity | exact K].
Qed.

Lemma temporalStep_kept now userMessages ps entry :
  confidenceKept ps ->
  confidenceKept (temporalStep getHours now userMessages ps entry).
Proof.
  unfold temporalStep. destruct entry as [hourNum count]. intros K.
  destruct (3 <=? count)%Z; [|exact K].
  destruct (existsb _ ps).
  - apply kept_update; [reflexivity | exact K].
  - apply kept_push; [reflexivity | exact K].
Qed.

Lemma intentionStep_kept now userMessages ps entry :
  confidenceKept ps -> confidenceKept (intentionStep now userMessages ps entry).
Proof.
  unfold intentionStep. destruct entry as [intention count]. intros K.
  destruct (_ && _); [|exact K].
  destruct (existsb _ ps).
  - apply (kept_update (isFrequency "intention" intention));
      [reflexivity | exact K].
  - apply kept_push; [reflexivity | exact K].
Qed.

Lemma entityStep_kept now userMessages ps entry :
  confidenceKept ps -> confidenceKept (entityStep now userMessages ps entry).
Proof.
  unfold entityStep. destruct entry as [entityKey count]. intros K.
  destruct (2 <=? count)%Z; [|exact K]. cbv zeta.
  destruct (existsb _ ps).
  - apply (kept_update (isFrequency "entity" entityKey));
      [reflexivity | exact K].
  - apply kept_push; [reflexivity | exact K].
Qed.

Lemma analyze_kept now t :
  confidenceKept (patterns t) ->
  confidenceKept (patterns (analyzePatterns getHours now t)).
Proof.
  intros K. unfold analyzePatterns.
  assert (K1 : confidenceKept (patterns (detectSequentialPatterns now t))).
  { unfold detectSequentialPatterns.
    destruct (_ <? 3); [exact K|]. destruct (_ <? 3); [exact K|].
    cbn [patterns]. apply fold_invariant; [|exact K].
    intros; apply sequentialStep_kept; assumption. }
  set (t1 := detectSequentialPatterns now t) in *.
  assert (K2 : confidenceKept
                 (patterns (detectTemporalPatterns getHours now t1))).
  { unfold detectTemporalPatterns.
    destruct (_ <? 5); [exact K1|]. destruct (_ <? 5); [exact K1|].
    cbn [patterns]. apply fold_invariant; [|exact K1].
    intros; apply temporalStep_kept; assumption. }
  set (t2 := detectTemporalPatterns getHours now t1) in *.
  unfold detectFrequencyPatterns. cbv zeta.
  destruct (_ <? 3); [exact K2|]. cbn [patterns].
  apply fold_invariant; [intros; apply entityStep_kept; assumption|].
  apply fold_invariant; [intros; apply intentionStep_kept; assumption|].
  exact K2.
Qed.

Lemma detectSequential_unique now t :
  uniqueSignatures (patterns t) ->
  uniqueSignatures (patterns (detectSequentialPatterns now t)).
Proof.
  intros U. unfold detectSequentialPatterns.
  destruct (_ <? 3); [exact U|]. destruct (_ <? 3); [exact U|].
  cbn [patterns]. apply sequentialLoop_unique; [|exact U].
  apply sequences_nodup.
Qed.

Lemma analyze_unique now t :
  uniqueSignatures (patterns t) ->
  uniqueSignatures (patterns (analyzePatterns getHours now t)).
Proof.
  intros U sequence. rewrite analyze_records.
  apply detectSequential_unique. exact U.
Qed.

(** *** The states of a tracker *)

Inductive reachable : Tracker -> Prop :=
| reach_init : reachable init
| reach_message now message t :
    reachable t -> reachable (trackMessage getHours now message t)
| reach_event event t : reachable t -> reachable (trackEvent event t)
| reach_reset t : reachable t -> reachable (resetPatterns t).

Lemma reachable_invariant t :
  reachable t ->
  uniqueSignatures (patterns t) /\ confidenceKept (patterns t).
Proof.
  induction 1 as [|now message t _ [U K]|event t _ [U K]|t _ [U K]].
  - split; [intros sequence; simpl; lia | constructor].
  - unfold trackMessage. split;
      [apply analyze_unique | apply analyze_kept]; assumption.
  - split; assumption.
  - split; [intros sequence; simpl; lia | constructor].
Qed.

(** The sequential records of a signature after [trackMessage], when the
    table of the new history counts the signature [count] times. *)
Lemma trackMessage_records now message t sequence :
  let t' := trackMessage getHours now message t in
  let userMessages := filter isUserMessage (interactionHistory t') in
  2 <= timesObserved userMessages sequence ->
  recordsOf sequence (patterns t')
  = match recordsOf sequence (patterns t) with
    | [] => [newSequential now sequence
               (Z.of_nat (timesCounted userMessages sequence))]
    | records => map (bump now) records
    end.
Proof.
  cbv zeta. unfold trackMessage.
  set (event := {| ev_timestamp := m_timestamp message |}).
  rewrite analyze_history, analyze_records.
  set (t1 := trackEvent event t).
  assert (P : patterns t1 = patterns t) by reflexivity.
  rewrite <- P.
  set (userMessages := filter isUserMessage (interactionHistory t1)).
  intros H2.
  pose proof (observed_length userMessages sequence H2) as L.
  pose proof (observed_counted userMessages sequence) as C.
  assert (L' : 3 <= List.length (interactionHistory t1)).
  { eapply Nat.le_trans; [exact L|]. apply filter_length_le. }
  unfold detectSequentialPatterns. fold userMessages.
  destruct (List.length (interactionHistory t1) <? 3) eqn:G1;
    [apply Nat.ltb_lt in G1; lia|].
  destruct (List.length userMessages <? 3) eqn:G2;
    [apply Nat.ltb_lt in G2; lia|].
  cbn [patterns].
  rewrite (sequentialLoop_own now (intentionSequences userMessages)
             (patterns t1) sequence
             (Z.of_nat (timesCounted userMessages sequence))
             (sequences_nodup userMessages)
             (sequences_get userMessages sequence ltac:(lia))).
  rewrite sequentialStep_own.
  destruct (2 <=? Z.of_nat (timesCounted userMessages sequence))%Z eqn:G3;
    [reflexivity | apply Z.leb_gt in G3; lia].
Qed.

End Miners.

(** A conversation: a greeting, a question, a greeting. *)
Definition says (type : IntentionType) (timestamp : Z) : EnhancedMessage :=
  {| m_content := "..."; m_sender := user; m_timestamp := timestamp;
     m_detectedIntentions := None;
     m_primaryIntention :=
       Some {| i_type := type; i_confidence := 0.9%Q;
               i_relatedEntities := None; i_metadata := None |};
     m_entities := None |}.

Definition utcHours (timestamp : Z) : Z := ((timestamp / 3600000) mod 24)%Z.

Definition threeTurns : Tracker :=
  trackMessage utcHours 3 (says GREETING 3)
    (trackMessage utcHours 2 (says QUESTION_FACTUAL 2)
       (trackMessage utcHours 1 (says GREETING 1) init)).

Definition greetingThenQuestion : string :=
  ("greeting" ++ arrow ++ "question_factual")%string.

End PatternFacts.

(** The sequential records, step by step.  When the history after
    [trackMessage] shows a 2-step sequence of intention types twice or more,
    the call creates one sequential record for the sequence if none exists,
    with the occurrences counted over the history, and else adds 1 to the
    occurrences of the one record that exists, whether the message has
    brought a new observation of the sequence or not; in every state of the
    tracker no two sequential records share a sequence signature; and the
    confidence of a record is min(0.5 + 0.1 * occurrences, 0.9) of the
    occurrences that the record holds. *)
Theorem sequential_records_step (getHours : Z -> Z) (now : Z)
  (message : EnhancedMessage) (t : InteractionPatternTracker.Tracker)
  (sequence : string) :
  PatternFacts.reachable getHours t ->
  let t' := InteractionPatternTracker.trackMessage getHours now message t in
  let userMessages :=
    filter InteractionPatternTracker.isUserMessage
      (InteractionPatternTracker.interactionHistory t') in
  2 <= PatternFacts.timesObserved userMessages sequence ->
  let count := Z.of_nat (PatternFacts.timesCounted userMessages sequence) in
  (PatternFacts.recordsOf sequence (InteractionPatternTracker.patterns t) = []
   -> exists p,
        PatternFacts.recordsOf sequence (InteractionPatternTracker.patterns t')
        = [p]
        /\ InteractionPatternTracker.p_occurrences p = count
        /\ InteractionPatternTracker.p_confidence p
           = Js.Math_min (0.5 + inject_Z count * 0.1)%Q 0.9%Q)
  /\ (forall p,
        In p (PatternFacts.recordsOf sequence
                (InteractionPatternTracker.patterns t)) ->
        PatternFacts.recordsOf sequence (InteractionPatternTracker.patterns t)
        = [p]
        /\ exists p',
             PatternFacts.recordsOf sequence
               (InteractionPatternTracker.patterns t') = [p']
             /\ InteractionPatternTracker.p_occurrences p'
                = (InteractionPatternTracker.p_occurrences p + 1)%Z
             /\ InteractionPatternTracker.p_confidence p'
                = Js.Math_min
                    (0.5 + inject_Z
                             (InteractionPatternTracker.p_occurrences p + 1)
                           * 0.1)%Q 0.9%Q)
  /\ PatternFacts.uniqueSignatures (InteractionPatternTracker.patterns t)
  /\ PatternFacts.uniqueSignatures (InteractionPatternTracker.patterns t')
  /\ (forall p,
        In p (InteractionPatternTracker.patterns t') ->
        InteractionPatternTracker.p_confidence p
        = Js.Math_min
            (0.5 + inject_Z (InteractionPatternTracker.p_occurrences p) * 0.1)%Q
            0.9%Q).
Proof.
  intros R. cbv zeta. intros H2.
  pose proof (PatternFacts.reachable_invariant getHours t R) as [U K].
  pose proof (PatternFacts.reachable_invariant getHours _
                (PatternFacts.reach_message getHours now message t R))
    as [U' K'].
  pose proof (PatternFacts.trackMessage_records getHours now message t
                sequence H2) as E.
  cbv zeta in E.
  split; [|split; [|split; [exact U|split; [exact U'|]]]].
  - intros E0. rewrite E0 in E. eexists. split; [exact E|].
    split; reflexivity.
  - intros p Hp. specialize (U sequence).
    destruct (PatternFacts.recordsOf sequence
                (InteractionPatternTracker.patterns t)) as [|q [|q' r]] eqn:E0;
      [destruct Hp | | simpl in U; lia].
    destruct Hp as [->|[]]. split; [reflexivity|].
    eexists. split; [exact E|]. split; reflexivity.
  - intros p Hp. unfold PatternFacts.confidenceKept in K'.
    rewrite Forall_forall in K'. exact (K' p Hp).
Qed.

(** After a greeting, a question and a greeting, a second question is the
    second observation of the sequence greeting, question: the tracker had
    no record of it and now has one, with 2 occurrences. *)
Lemma sequential_records_step_witness :
  exists p,
    PatternFacts.recordsOf PatternFacts.greetingThenQuestion
      (InteractionPatternTracker.patterns
         (InteractionPatternTracker.trackMessage PatternFacts.utcHours 4
            (PatternFacts.says QUESTION_FACTUAL 4) PatternFacts.threeTurns))
    = [p]
    /\ InteractionPatternTracker.p_occurrences p = 2%Z
    /\ InteractionPatternTracker.p_confidence p
       = Js.Math_min (0.5 + inject_Z 2 * 0.1)%Q 0.9%Q.
Proof.
  assert (R : PatternFacts.reachable PatternFacts.utcHours
                PatternFacts.threeTurns)
    by (repeat constructor).
  assert (H2 : 2 <= PatternFacts.timesObserved
                      (filter InteractionPatternTracker.isUserMessage
                         (InteractionPatternTracker.interactionHistory
                            (InteractionPatternTracker.trackMessage
                               PatternFacts.utcHours 4
                               (PatternFacts.says QUESTION_FACTUAL 4)
                               PatternFacts.threeTurns)))
                      PatternFacts.greetingThenQuestion)
    by (vm_compute; lia).
  destruct (sequential_records_step PatternFacts.utcHours 4
              (PatternFacts.says QUESTION_FACTUAL 4) PatternFacts.threeTurns
              PatternFacts.greetingThenQuestion R H2) as (Hnew & _).
  apply Hnew. vm_compute. reflexivity.
Defined.

(** C5, the defect.  The occurrences of a sequential record are not the
    number of times that the sequence has been observed.  After a greeting,
    a question, a greeting and a question the sequence greeting, question
    has been observed twice and its record holds 2 occurrences, with the
    confidence 0.7.  Two more messages of the user, a word of thanks and a
    farewell, bring no new observation of the sequence, yet each of them
    adds 1 to the occurrences: the record ends with 4 occurrences and the
    confidence 0.9, where min(0.5 + 0.1 * count, 0.9) is 0.7 for the two
    observations. *)
Theorem C5_occurrences_drift :
  let observed t :=
    PatternFacts.timesObserved
      (filter InteractionPatternTracker.isUserMessage
         (InteractionPatternTracker.interactionHistory t))
      PatternFacts.greetingThenQuestion in
  let records t :=
    PatternFacts.recordsOf PatternFacts.greetingThenQuestion
      (InteractionPatternTracker.patterns t) in
  let t4 :=
    InteractionPatternTracker.trackMessage PatternFacts.utcHours 4
      (PatternFacts.says QUESTION_FACTUAL 4) PatternFacts.threeTurns in
  let t5 :=
    InteractionPatternTracker.trackMessage PatternFacts.utcHours 5
      (PatternFacts.says GRATITUDE 5) t4 in
  let t6 :=
    InteractionPatternTracker.trackMessage PatternFacts.utcHours 6
      (PatternFacts.says FAREWELL 6) t5 in
  (observed t4 = 2
   /\ exists p,
        records t4 = [p]
        /\ InteractionPatternTracker.p_occurrences p = 2%Z
        /\ (InteractionPatternTracker.p_confidence p == 0.7)%Q)
  /\ (observed t5 = 2
      /\ exists p,
           records t5 = [p]
           /\ InteractionPatternTracker.p_occurrences p = 3%Z
           /\ (InteractionPatternTracker.p_confidence p == 0.8)%Q)
  /\ (observed t6 = 2
      /\ exists p,
           records t6 = [p]
           /\ InteractionPatternTracker.p_occurrences p = 4%Z
           /\ (InteractionPatternTracker.p_confidence p == 0.9)%Q
           /\ ~ (InteractionPatternTracker.p_confidence p
                 == Js.Math_min
                      (0.5 + inject_Z (Z.of_nat (observed t6)) * 0.1) 0.9)%Q).
Proof.
  cbv zeta.
  split; [|split]; (split; [vm_compute; reflexivity|]); eexists;
    (split; [vm_compute; reflexivity|]);
    (split; [vm_compute; reflexivity|]).
  - vm_compute. reflexivity.
  - vm_compute. reflexivity.
  - split; [vm_compute; reflexivity|]. vm_compute. discriminate.
Qed.

(** ** Regular expressions: where a match starts and ends *)

Module RegExpFacts.
Import RegExp.

(** The least number of characters of a match. *)
Fixpoint minlen (r : regex) : nat :=
  match r with
  | Set_ _ => 1
  | Seq a b => minlen a + minlen b
  | Alt a b => Nat.min (minlen a) (minlen b)
  | Group _ a => minlen a
  | Eps | Star _ | Bound | Bol | Eol => 0
  end.

(** [c'] is a position of the subject at or after [c]. *)
Definition reaches (c c' : cursor) : Prop :=
  exists consumed,
    rest c = consumed ++ rest c' /\ pos c' = pos c + List.length consumed.

Lemma reaches_refl c : reaches c c.
Proof. exists []. simpl. split; [reflexivity | lia]. Qed.

Lemma reaches_trans c1 c2 c3 : reaches c1 c2 -> reaches c2 c3 -> reaches c1 c3.
Proof.
  intros (l1 & E1 & P1) (l2 & E2 & P2). exists (l1 ++ l2).
  rewrite E1, E2, app_assoc, length_app. split; [reflexivity | lia].
Qed.

Lemma reaches_pos c c' : reaches c c' -> pos c <= pos c'.
Proof. intros (l & _ & P). lia. Qed.

(** The positions of a subject of [n] characters. *)
Definition within (n : nat) (c : cursor) : Prop :=
  pos c + List.length (rest c) = n.

Lemma reaches_within n c c' : reaches c c' -> within n c -> within n c'.
Proof.
  unfold within. intros (l & E & P) W. rewrite E, length_app in W. lia.
Qed.

(** A match hands to its continuation a position that it reaches, at
    least [minlen] characters further. *)
Definition advances (n : nat)
  (run : cursor -> captures ->
         (cursor -> captures -> option result) -> option result) : Prop :=
  forall c caps k res,
    run c caps k = Some res ->
    exists c' caps',
      reaches c c' /\ pos c + n <= pos c' /\ k c' caps' = Some res.

Lemma star_loop_advances body clear k fuel c caps res :
  advances 0 body ->
  star_loop body clear k fuel c caps = Some res ->
  exists c' caps', reaches c c' /\ k c' caps' = Some res.
Proof.
  intros Hb. revert c caps.
  induction fuel as [|fuel IH]; intros c caps H; simpl in H.
  - exists c, caps. split; [apply reaches_refl | exact H].
  - destruct (body c (clear caps) _) as [res'|] eqn:E.
    + injection H as ->. apply Hb in E.
      destruct E as (c1 & caps1 & R1 & _ & K1).
      destruct (pos c1 =? pos c); [discriminate|].
      apply IH in K1. destruct K1 as (c2 & caps2 & R2 & K2).
      exists c2, caps2. split; [eapply reaches_trans; eassumption | exact K2].
    + exists c, caps. split; [apply reaches_refl | exact H].
Qed.

Lemma advances_weaken n run : advances n run -> advances 0 run.
Proof.
  intros H c caps k res E. apply H in E.
  destruct E as (c' & caps' & R & _ & K). exists c', caps'.
  pose proof (reaches_pos c c' R).
  split; [exact R | split; [lia | exact K]].
Qed.

Lemma m_advances ic r : advances (minlen r) (m ic r).
Proof.
  induction r as [|atoms|a IHa b IHb|a IHa b IHb|a IHa| | | |n a IHa];
    intros c caps k res H; cbn [m] in H; cbn [minlen].
  - exists c, caps. split; [apply reaches_refl | split; [lia | exact H]].
  - destruct (rest c) as [|x rest'] eqn:E; [discriminate|].
    destruct (class_has ic atoms x); [|discriminate].
    eexists. exists caps. split; [|split; [|exact H]].
    + exists [x]. simpl. split; [exact E | lia].
    + simpl. lia.
  - apply IHa in H. destruct H as (c1 & caps1 & R1 & P1 & H).
    apply IHb in H. destruct H as (c2 & caps2 & R2 & P2 & H).
    exists c2, caps2.
    split; [eapply reaches_trans; eassumption | split; [lia | exact H]].
  - destruct (m ic a c caps k) as [res'|] eqn:E.
    + injection H as ->. apply IHa in E.
      destruct E as (c1 & caps1 & R1 & P1 & K1). exists c1, caps1.
      split; [exact R1 | split; [lia | exact K1]].
    + apply IHb in H. destruct H as (c1 & caps1 & R1 & P1 & K1).
      exists c1, caps1. split; [exact R1 | split; [lia | exact K1]].
  - apply star_loop_advances in H; [|eapply advances_weaken; exact IHa].
    destruct H as (c1 & caps1 & R1 & K1). exists c1, caps1.
    split; [exact R1 | split; [|exact K1]].
    apply reaches_pos in R1. lia.
  - destruct (at_boundary c); [|discriminate].
    exists c, caps. split; [apply reaches_refl | split; [lia | exact H]].
  - destruct (prev c); [discriminate|].
    exists c, caps. split; [apply reaches_refl | split; [lia | exact H]].
  - destruct (rest c); [|discriminate].
    exists c, caps. split; [apply reaches_refl | split; [lia | exact H]].
  - apply IHa in H. destruct H as (c1 & caps1 & R1 & P1 & K1).
    eexists. eexists. split; [exact R1 | split; [exact P1 | exact K1]].
Qed.

(** The span of a match found from the position [c] of a subject of [n]
    characters. *)
Definition spans (re : RegExp.t) (n : nat) (c : cursor) (f : found) : Prop :=
  pos c <= index f /\ index f + minlen (ast re) <= last f /\ last f <= n
  /\ within n (stop f).

Lemma match_at_spans re n c f :
  within n c -> match_at re c = Some f -> spans re n c f.
Proof.
  unfold match_at. intros W H.
  destruct (m _ _ c [] _) as [[c' caps']|] eqn:E; [|discriminate].
  injection H as <-. apply m_advances in E.
  destruct E as (c1 & caps1 & R & P & [= -> ->]).
  pose proof (reaches_within n c c' R W) as W'.
  unfold spans, last. simpl. repeat split; try lia; try exact W'.
  unfold within in W'. lia.
Qed.

Lemma search_spans re n p l i f :
  within n {| prev := p; rest := l; pos := i |} ->
  search re p l i = Some f ->
  spans re n {| prev := p; rest := l; pos := i |} f.
Proof.
  revert p i. induction l as [|a l IH]; intros p i W H; simpl in H.
  - destruct (match_at re _) as [f'|] eqn:E; [|discriminate].
    injection H as ->. eapply match_at_spans; eassumption.
  - destruct (match_at re _) as [f'|] eqn:E.
    + injection H as ->. eapply match_at_spans; eassumption.
    + apply IH in H.
      * unfold spans in *. simpl in *. intuition lia.
      * unfold within in *. simpl in *. lia.
Qed.

(** The matches of the loop over [exec]: each one starts within the
    subject, holds a character at least, and ends within the subject. *)
Definition span_ok (n : nat) (f : found) : Prop :=
  index f < last f /\ last f <= n.

Lemma exec_loop_spans fuel re n c fs :
  within n c -> exec_loop fuel re c = Some fs -> Forall (span_ok n) fs.
Proof.
  revert c fs. induction fuel as [|fuel IH]; intros c fs W H; simpl in H;
    [discriminate|].
  destruct (search re (prev c) (rest c) (pos c)) as [f|] eqn:E.
  - destruct (last f =? index f) eqn:Z; [discriminate|].
    destruct (exec_loop fuel re (stop f)) as [fs'|] eqn:E'; [|discriminate].
    injection H as <-.
    apply (search_spans re n) in E; [|destruct c; exact W].
    destruct E as (P1 & P2 & P3 & W'). apply Nat.eqb_neq in Z.
    constructor; [unfold span_ok; lia|].
    eapply IH; eassumption.
  - injection H as <-. constructor.
Qed.

(** The loop ends for an expression that matches no empty string. *)
Lemma exec_loop_total fuel re n c :
  1 <= minlen (ast re) -> within n c -> n - pos c < fuel ->
  exists fs, exec_loop fuel re c = Some fs.
Proof.
  intros M. revert c. induction fuel as [|fuel IH]; intros c W F; [lia|].
  simpl. destruct (search re (prev c) (rest c) (pos c)) as [f|] eqn:E.
  - apply (search_spans re n) in E; [|destruct c; exact W].
    destruct E as (P1 & P2 & P3 & W'). simpl in P1.
    destruct (last f =? index f) eqn:Z; [apply Nat.eqb_eq in Z; lia|].
    destruct (IH (stop f) W') as (fs & ->); [unfold last in *; lia|].
    eexists; reflexivity.
  - eexists; reflexivity.
Qed.

Lemma length_list_ascii (s : string) :
  List.length (list_ascii_of_string s) = String.length s.
Proof. induction s as [|a s IH]; simpl; [reflexivity | now rewrite IH]. Qed.

Lemma start_within (text : string) :
  within (String.length text) (start_of text).
Proof. unfold within, start_of. simpl. apply length_list_ascii. Qed.

Lemma exec_all_spans re text fs :
  exec_all re text = Some fs -> Forall (span_ok (String.length text)) fs.
Proof. apply exec_loop_spans. apply start_within. Qed.

Lemma exec_all_total re text :
  1 <= minlen (ast re) -> exists fs, exec_all re text = Some fs.
Proof.
  intros M. apply (exec_loop_total _ re (String.length text)); auto.
  - apply start_within.
  - simpl. lia.
Qed.

End RegExpFacts.

(** ** The entity recognizer *)

Module EntityRecognizerFacts.
Import RegExp EntityRecognizer.

(** *** The spans of the candidates *)

(** The span of an entity lies in a text of [n] characters and holds a
    character at least. *)
Definition span (n : nat) (e : Entity) : Prop :=
  exists s t,
    e_startIndex e = Some s /\ e_endIndex e = Some t
    /\ (0 <= s < t)%Z /\ (t <= Z.of_nat n)%Z.

Lemma candidate_span n ty value f confidence :
  RegExpFacts.span_ok n f -> span n (candidate ty value f confidence).
Proof.
  intros [H1 H2]. exists (Z.of_nat (index f)), (Z.of_nat (last f)).
  simpl. repeat split; lia.
Qed.

Lemma stamp_span n now e : span n e -> span n (stamp now e).
Proof. intros (s & t & H). exists s, t. exact H. Qed.

Lemma forEach_total {A S} (P : S -> Prop) (body : A -> S -> option S)
  (l : list A) (s : S) :
  (forall a, In a l -> forall s, P s -> exists s', body a s = Some s' /\ P s') ->
  P s -> exists s', forEach body l s = Some s' /\ P s'.
Proof.
  revert s. induction l as [|a r IH]; simpl; intros s H Ps.
  - exists s. auto.
  - destruct (H a (or_introl eq_refl) s Ps) as (s1 & -> & P1).
    apply IH; [|exact P1]. intros b Hb. apply H. now right.
Qed.

(** No pattern of the tables matches the empty string. *)
Definition nonempty (re : RegExp.t) : bool :=
  1 <=? RegExpFacts.minlen (ast re).

Lemma patterns_nonempty :
  forallb (fun tp => forallb nonempty (snd tp)) entityPatterns = true.
Proof. vm_compute. reflexivity. Qed.

Lemma items_nonempty :
  forallb (fun tl => forallb (fun item => nonempty (itemRegex item)) (snd tl))
    entityLists = true.
Proof. vm_compute. reflexivity. Qed.

Lemma patternPass_total n text ty pattern entities :
  n = String.length text -> nonempty pattern = true ->
  Forall (span n) entities ->
  exists entities',
    patternPass text ty pattern entities = Some entities'
    /\ Forall (span n) entities'.
Proof.
  intros -> M F. unfold patternPass.
  destruct (RegExpFacts.exec_all_total
              (mk (source pattern) false (ast pattern)) text)
    as (fs & E); [apply Nat.leb_le; exact M|].
  rewrite E. eexists. split; [reflexivity|].
  apply Forall_app. split; [exact F|].
  apply RegExpFacts.exec_all_spans in E.
  rewrite Forall_map. eapply Forall_impl; [|exact E].
  intros f Hf. apply candidate_span. exact Hf.
Qed.

Lemma firstPass_total text entities :
  Forall (span (String.length text)) entities ->
  exists entities',
    firstPass text entities = Some entities'
    /\ Forall (span (String.length text)) entities'.
Proof.
  unfold firstPass. pose proof patterns_nonempty as N.
  rewrite forallb_forall in N.
  apply forEach_total. intros tp Htp es Fes.
  apply forEach_total; [|exact Fes]. intros pattern Hp es' Fes'.
  apply patternPass_total; [reflexivity | | exact Fes'].
  specialize (N tp Htp). rewrite forallb_forall in N. apply N, Hp.
Qed.

Lemma pushes_span {A} n (step : list Entity -> A -> list Entity)
  (made : A -> Entity) (fs : list A) entities :
  (forall es f, step es f = es \/ step es f = es ++ [made f]) ->
  Forall (fun f => span n (made f)) fs ->
  Forall (span n) entities ->
  Forall (span n) (fold_left step fs entities).
Proof.
  intros Hs. revert entities.
  induction fs as [|f r IH]; simpl; intros entities Ff Fe; [exact Fe|].
  inversion Ff; subst. apply IH; [assumption|].
  destruct (Hs entities f) as [->| ->]; [exact Fe|].
  apply Forall_app. split; [exact Fe | constructor; auto].
Qed.

Lemma itemPass_total n text ty item entities :
  n = String.length text -> nonempty (itemRegex item) = true ->
  Forall (span n) entities ->
  exists entities',
    itemPass text ty item entities = Some entities'
    /\ Forall (span n) entities'.
Proof.
  intros -> M F. unfold itemPass.
  destruct (RegExpFacts.exec_all_total (itemRegex item) text) as (fs & E);
    [apply Nat.leb_le; exact M|].
  rewrite E. eexists. split; [reflexivity|].
  apply RegExpFacts.exec_all_spans in E.
  apply (pushes_span _ _
           (fun f => candidate ty (matched text f) f 0.9%Q)); [| |exact F].
  - intros es f. unfold pushUnlessOverlap.
    destruct (existsb _ es); auto.
  - eapply Forall_impl; [|exact E]. intros f Hf.
    apply candidate_span. exact Hf.
Qed.

Lemma secondPass_total text entities :
  Forall (span (String.length text)) entities ->
  exists entities',
    secondPass text entities = Some entities'
    /\ Forall (span (String.length text)) entities'.
Proof.
  unfold secondPass. pose proof items_nonempty as N.
  rewrite forallb_forall in N.
  apply forEach_total. intros tl Htl es Fes.
  apply forEach_total; [|exact Fes]. intros item Hi es' Fes'.
  apply itemPass_total; [reflexivity | | exact Fes'].
  specialize (N tl Htl). rewrite forallb_forall in N. apply N, Hi.
Qed.

Lemma extractConcepts_total text entities :
  Forall (span (String.length text)) entities ->
  exists entities',
    extractConcepts text entities = Some entities'
    /\ Forall (span (String.length text)) entities'.
Proof.
  intros F. unfold extractConcepts.
  destruct (RegExpFacts.exec_all_total conceptRegex text) as (fs & E);
    [vm_compute; lia|].
  rewrite E. eexists. split; [reflexivity|].
  apply RegExpFacts.exec_all_spans in E.
  apply (pushes_span _ _
           (fun f => candidate CONCEPT (matched text f) f 0.6%Q));
    [| |exact F].
  - intros es f. destruct (existsb _ es); auto.
  - eapply Forall_impl; [|exact E]. intros f Hf.
    apply candidate_span. exact Hf.
Qed.

(** The three passes end, and every candidate has its span in the text. *)
Lemma candidates_total text :
  exists entities,
    candidates text = Some entities
    /\ Forall (span (String.length text)) entities.
Proof.
  unfold candidates.
  destruct (firstPass_total text [] (Forall_nil _)) as (es1 & -> & F1).
  destruct (secondPass_total text es1 F1) as (es2 & -> & F2).
  apply extractConcepts_total. exact F2.
Qed.

(** *** The scan of the sorted candidates *)

Definition spanLength (e : Entity) : Z := (endIndex0 e - startIndex0 e)%Z.

(** [x] outranks [w]: a higher confidence, or the same confidence and a
    longer span. *)
Definition outranks (x w : Entity) : Prop :=
  (e_confidence w < e_confidence x)%Q
  \/ ((e_confidence x == e_confidence w)%Q
      /\ (spanLength w < spanLength x)%Z).

(** [x] starts within the span of [y]. *)
Definition startsWithin (y x : Entity) : Prop :=
  (startIndex0 y <= startIndex0 x < endIndex0 y)%Z.

(** A run of the scan: one entity, and then entities each of which starts
    within the span of an entity of the run before it. *)
Inductive chained : list Entity -> Prop :=
| chained_first x : chained [x]
| chained_next run y x :
    chained run -> In y run -> startsWithin y x -> chained (run ++ [x]).

(** The entity kept for a run: one of the run that none of the run
    outranks. *)
Definition winner (run : list Entity) (w : Entity) : Prop :=
  In w run /\ forall x, In x run -> ~ outranks x w.

Lemma winner_first x : winner [x] x.
Proof.
  split; [now left|]. intros y [<-|[]] [H|[_ H]]; [lra | lia].
Qed.

Lemma resolveLoop_runs (rest seen : list Entity) (current : Entity) :
  chained seen -> winner seen current ->
  exists runs,
    List.concat runs = seen ++ rest
    /\ Forall chained runs
    /\ Forall2 winner runs (resolveLoop current rest).
Proof.
  revert seen current.
  induction rest as [|next rest IH]; intros seen current C [Win Wbest].
  - exists [seen]. simpl. rewrite !app_nil_r.
    split; [reflexivity|]. split; repeat constructor; assumption.
  - cbn [resolveLoop].
    destruct ((startIndex0 current <=? startIndex0 next)%Z
              && (endIndex0 current >? startIndex0 next)%Z) eqn:O.
    + apply andb_true_iff in O. destruct O as [O1 O2].
      apply Z.leb_le in O1. apply Z.gtb_lt in O2.
      assert (C' : chained (seen ++ [next])).
      { apply (chained_next seen current next C Win).
        unfold startsWithin. lia. }
      assert (Step : forall current',
                winner (seen ++ [next]) current' ->
                exists runs,
                  List.concat runs = seen ++ next :: rest
                  /\ Forall chained runs
                  /\ Forall2 winner runs (resolveLoop current' rest)).
      { intros current' W'.
        destruct (IH (seen ++ [next]) current' C' W') as (runs & E & H).
        exists runs. rewrite E, <- app_assoc. split; [reflexivity | exact H]. }
      destruct (negb (Qle_bool (e_confidence next) (e_confidence current)))
        eqn:G1.
      * apply negb_true_iff, ApplicabilityFacts.Qle_bool_false in G1.
        apply Step. split; [apply in_or_app; simpl; auto|].
        intros x Hx. apply in_app_or in Hx.
        destruct Hx as [Hx|[<-|[]]].
        -- specialize (Wbest x Hx). unfold outranks in *.
           intros [H|[H _]]; apply Wbest; [left; lra | left; lra].
        -- intros [H|[_ H]]; [lra | lia].
      * apply negb_false_iff, Qle_bool_iff in G1.
        destruct (Qeq_bool (e_confidence next) (e_confidence current)
                  && (endIndex0 next - startIndex0 next
                      >? endIndex0 current - startIndex0 current)%Z) eqn:G2.
        -- apply andb_true_iff in G2. destruct G2 as [G2 G3].
           apply Qeq_bool_iff in G2. apply Z.gtb_lt in G3.
           apply Step. split; [apply in_or_app; simpl; auto|].
           intros x Hx. apply in_app_or in Hx.
           destruct Hx as [Hx|[<-|[]]].
           ++ specialize (Wbest x Hx). unfold outranks, spanLength in *.
              intros [H|[H1 H2]]; apply Wbest; [left; lra|].
              right. split; [lra | lia].
           ++ intros [H|[_ H]]; [lra | lia].
        -- apply Step. split; [apply in_or_app; auto|].
           intros x Hx. apply in_app_or in Hx.
           destruct Hx as [Hx|[<-|[]]]; [apply Wbest; exact Hx|].
           unfold outranks, spanLength. intros [H|[H1 H2]]; [lra|].
           apply andb_false_iff in G2. destruct G2 as [G2|G2].
           ++ apply Qeq_bool_neq in G2. apply G2. exact H1.
           ++ rewrite Z.gtb_ltb in G2. apply Z.ltb_ge in G2. lia.
    + destruct (IH [next] next (chained_first next) (winner_first next))
        as (runs & E & Hc & Hw).
      exists (seen :: runs). simpl. rewrite E.
      split; [reflexivity|].
      split; constructor; try assumption. split; assumption.
Qed.

(** The entities that the scan returns do not overlap: each one ends where
    the next ones start, or before. *)
Definition endsBefore (a b : Entity) : Prop :=
  (endIndex0 a <= startIndex0 b)%Z.

Definition startsBefore (a b : Entity) : Prop :=
  (startIndex0 a <= startIndex0 b)%Z.

Lemma resolveLoop_disjoint (rest : list Entity) (current : Entity) :
  StronglySorted startsBefore rest ->
  Forall (startsBefore current) rest ->
  StronglySorted endsBefore (resolveLoop current rest)
  /\ Forall (fun e => e = current \/ In e rest) (resolveLoop current rest).
Proof.
  revert current.
  induction rest as [|next rest IH]; intros current S F; cbn [resolveLoop].
  - split; repeat constructor.
  - inversion S as [|? ? S' Fn]; subst. inversion F as [|? ? F1 F']; subst.
    assert (Keep : forall current',
              (current' = current \/ current' = next) ->
              StronglySorted endsBefore (resolveLoop current' rest)
              /\ Forall (fun e => e = current \/ In e (next :: rest))
                   (resolveLoop current' rest)).
    { intros current' Hc.
      destruct (IH current' S') as [H1 H2].
      - destruct Hc as [->| ->]; assumption.
      - split; [exact H1|]. eapply Forall_impl; [|exact H2].
        intros e [->|He]; [destruct Hc as [->| ->]|]; simpl; auto. }
    destruct ((startIndex0 current <=? startIndex0 next)%Z
              && (endIndex0 current >? startIndex0 next)%Z) eqn:O.
    + destruct (negb (Qle_bool (e_confidence next) (e_confidence current)));
        [apply Keep; auto|].
      destruct (Qeq_bool (e_confidence next) (e_confidence current)
                && (endIndex0 next - startIndex0 next
                    >? endIndex0 current - startIndex0 current)%Z);
        apply Keep; auto.
    + destruct (IH next S' Fn) as [H1 H2].
      split.
      * constructor; [exact H1|].
        eapply Forall_impl; [|exact H2]. intros e He.
        assert (Hs : (startIndex0 next <= startIndex0 e)%Z).
        { destruct He as [->|He]; [lia|].
          rewrite Forall_forall in Fn. exact (Fn e He). }
        unfold endsBefore, startsBefore in *.
        apply andb_false_iff in O. destruct O as [O|O].
        -- apply Z.leb_gt in O. lia.
        -- rewrite Z.gtb_ltb in O. apply Z.ltb_ge in O. lia.
      * constructor; [now left|].
        eapply Forall_impl; [|exact H2].
        intros e [->|He]; simpl; auto.
Qed.

Lemma sortByStart_sorted (entities : list Entity) :
  StronglySorted startsBefore (sortByStart entities).
Proof.
  unfold sortByStart. apply Sorted_StronglySorted.
  - intros a b c. unfold startsBefore. lia.
  - eapply Sorted_ind with (P := fun l => Sorted startsBefore l);
      [constructor | |
       apply (SortFacts.sort_sorted _
                (fun a b => (startIndex0 a <=? startIndex0 b)%Z))].
    + intros a l _ IH Hhd. constructor; [exact IH|].
      destruct Hhd as [|b l Hab]; constructor.
      unfold startsBefore. apply Z.leb_le. exact Hab.
    + intros x y H. apply Z.leb_gt in H. apply Z.leb_le. lia.
Qed.

Lemma sortByStart_in (entities : list Entity) (e : Entity) :
  In e (sortByStart entities) <-> In e entities.
Proof. unfold sortByStart. apply SortFacts.sort_in. Qed.

(** The entity returned for a run: the winner, with the time stamps of the
    recognition when [resolveOverlappingEntities] adds them. *)
Definition returnedFor (now : Z) (run : list Entity) (e : Entity) : Prop :=
  exists w, winner run w /\ (e = w \/ e = stamp now w).

(** What [resolveOverlappingEntities] returns. *)
Lemma resolve_spec (now : Z) (n : nat) (entities : list Entity) :
  Forall (span n) entities ->
  let result := resolveOverlappingEntities now entities in
  Forall (span n) result
  /\ StronglySorted endsBefore result
  /\ exists runs,
       List.concat runs = sortByStart entities
       /\ Forall chained runs
       /\ Forall2 (returnedFor now) runs result.
Proof.
  intros F. cbv zeta. unfold resolveOverlappingEntities.
  destruct (List.length entities <=? 1) eqn:L.
  - apply Nat.leb_le in L. destruct entities as [|x [|y r]]; simpl in L;
      [| |lia].
    + split; [constructor|]. split; [constructor|].
      exists []. repeat split; constructor.
    + split; [exact F|]. split; [repeat constructor|].
      exists [[x]]. split; [reflexivity|].
      split; repeat constructor.
      exists x. split; [apply winner_first | now left].
  - pose proof (sortByStart_sorted entities) as S.
    assert (Hin : forall e, In e (sortByStart entities) -> In e entities)
      by (intros e; apply sortByStart_in).
    destruct (sortByStart entities) as [|first rest] eqn:E.
    + split; [constructor|]. split; [constructor|].
      exists []. repeat split; constructor.
    + inversion S as [|? ? S' F']; subst.
      destruct (resolveLoop_disjoint rest first S' F') as [D Hsub].
      destruct (resolveLoop_runs rest [first] first (chained_first first)
                  (winner_first first)) as (runs & Ec & Hc & Hw).
      split; [|split].
      * rewrite Forall_map. eapply Forall_impl; [|exact Hsub].
        intros e He. apply stamp_span.
        rewrite Forall_forall in F. apply F, Hin.
        destruct He as [->|He]; simpl; auto.
      * clear - D. induction D as [|a l D IH Fa]; simpl; constructor;
          [exact IH|].
        rewrite Forall_map. exact Fa.
      * exists runs. split; [exact Ec|]. split; [exact Hc|].
        clear - Hw. induction Hw as [|run w runs ws Hrw Hw IH]; simpl;
          constructor; [|exact IH].
        exists w. split; [exact Hrw | now right].
Qed.

(** *** The matches and the candidates *)

(** The matches of the first pass, each as the entity that the pass builds
    for it: the pass has no test, so they are its candidates. *)
Definition patternMatches (text : string) : option (list Entity) :=
  firstPass text [].

(** The matches of the second pass: what the expressions of the list items
    find in the text, each as the entity that the pass builds for it when
    it keeps it. *)
Definition itemMatches (text : string) (ty : EntityType) (item : string)
  (matches : list Entity) : option (list Entity) :=
  match exec_all (itemRegex item) text with
  | Some fs =>
      Some (matches
            ++ map (fun f => candidate ty (matched text f) f 0.9%Q) fs)
  | None => None
  end.

Definition listMatches (text : string) : option (list Entity) :=
  forEach
    (fun tl matches => forEach (itemMatches text (fst tl)) (snd tl) matches)
    entityLists [].

(** The matches of the third pass. *)
Definition conceptMatches (text : string) : option (list Entity) :=
  match exec_all conceptRegex text with
  | Some fs =>
      Some (map (fun f => candidate CONCEPT (matched text f) f 0.6%Q) fs)
  | None => None
  end.

(** The test of the second and third passes, read on the entity of the
    match: [m] starts within the span of [c], or ends within it. *)
Definition overlapped (m c : Entity) : Prop :=
  (startIndex0 c <= startIndex0 m < endIndex0 c)%Z
  \/ (startIndex0 c < endIndex0 m <= endIndex0 c)%Z.

(** No entity of [later] starts or ends within the span of an entity
    collected before it, in [first] or in [later]. *)
Definition unguarded (first later : list Entity) : Prop :=
  forall before m after,
    later = before ++ m :: after ->
    forall c, In c (first ++ before) -> ~ overlapped m c.

Lemma orZ_some (z : Z) : Js.orZ (Some z) 0 = z.
Proof. unfold Js.orZ. destruct (Z.eqb_spec z 0); congruence. Qed.

Lemma overlapsWith_spec ty value f confidence c :
  overlapsWith f c = true <-> overlapped (candidate ty value f confidence) c.
Proof.
  unfold overlapsWith, overlapped, startIndex0, endIndex0. cbn [candidate
    e_startIndex e_endIndex]. rewrite !orZ_some.
  rewrite orb_true_iff, !andb_true_iff, !Z.leb_le, !Z.ltb_lt. tauto.
Qed.

Lemma overlapsWithConcept_spec n ty value f confidence c :
  span n c ->
  overlapsWithConcept f c = true
  <-> overlapped (candidate ty value f confidence) c.
Proof.
  intros (s & t & Es & Et & _). 
  unfold overlapsWithConcept, overlapped, startIndex0, endIndex0.
  rewrite Es, Et. cbn [candidate e_startIndex e_endIndex].
  rewrite !orZ_some.
  rewrite orb_true_iff, !andb_true_iff, !Z.leb_le, !Z.ltb_lt. tauto.
Qed.

Lemma unguarded_push first later m :
  unguarded first later ->
  (forall c, In c (first ++ later) -> ~ overlapped m c) ->
  unguarded first (later ++ [m]).
Proof.
  intros U Hm before m' after E.
  destruct (exists_last (l := m' :: after)) as (l' & x & E'); [discriminate|].
  rewrite E' in E. rewrite app_assoc in E.
  apply app_inj_tail in E. destruct E as [E <-].
  destruct after as [|a after].
  - destruct l' as [|y l']; [|destruct l'; discriminate].
    simpl in E'. injection E' as <-. rewrite app_nil_r in E. subst later.
    exact Hm.
  - assert (exists after', l' = m' :: after') as (after' & ->).
    { destruct l' as [|y l']; [discriminate|].
      simpl in E'. injection E' as <- _. eauto. }
    exact (U before m' after' E).
Qed.

(** What links the candidates collected so far, [first ++ later], to the
    matches of the first pass, [first], and to the matches found so far by
    the passes that test, [matches]: the later candidates are such matches;
    a match that is not among them starts or ends within the span of a
    candidate; and no later candidate starts or ends within the span of a
    candidate collected before it. *)
Record collected (n : nat) (first matches later : list Entity) : Prop := {
  col_spans : Forall (span n) (first ++ later);
  col_matches : forall m, In m later -> In m matches;
  col_dropped :
    forall m, In m matches ->
      In m later \/ exists c, In c (first ++ later) /\ overlapped m c;
  col_unguarded : unguarded first later
}.

Lemma collected_first n first :
  Forall (span n) first -> collected n first [] [].
Proof.
  intros F. constructor.
  - rewrite app_nil_r. exact F.
  - intros m [].
  - intros m [].
  - intros before m after E. destruct before; discriminate.
Qed.

(** One turn of the loops that test. *)
Lemma collected_step n first matches later
  (test : RegExp.found -> Entity -> bool) (made : RegExp.found -> Entity)
  (f : RegExp.found) :
  (forall c, span n c -> (test f c = true <-> overlapped (made f) c)) ->
  span n (made f) ->
  collected n first matches later ->
  exists later',
    (if existsb (test f) (first ++ later) then first ++ later
     else (first ++ later) ++ [made f]) = first ++ later'
    /\ collected n first (matches ++ [made f]) later'.
Proof.
  intros T Sm [Hs Hm Hd Hu].
  destruct (existsb (test f) (first ++ later)) eqn:X.
  - exists later. split; [reflexivity|]. constructor; [exact Hs | | |exact Hu].
    + intros m Hin. apply in_or_app. left. apply Hm, Hin.
    + intros m Hin. apply in_app_or in Hin. destruct Hin as [Hin|[<-|[]]].
      * apply Hd, Hin.
      * right. apply existsb_exists in X. destruct X as (c & Hc & Tc).
        exists c. split; [exact Hc|]. apply T; [|exact Tc].
        rewrite Forall_forall in Hs. apply Hs, Hc.
  - exists (later ++ [made f]). split; [apply eq_sym, app_assoc|].
    constructor.
    + rewrite app_assoc. apply Forall_app. split; [exact Hs|].
      constructor; [exact Sm | constructor].
    + intros m Hin. apply in_app_or in Hin. apply in_or_app.
      destruct Hin as [Hin|Hin]; [left; apply Hm, Hin | right; exact Hin].
    + intros m Hin. apply in_app_or in Hin. destruct Hin as [Hin|[<-|[]]].
      * destruct (Hd m Hin) as [H|(c & Hc & O)].
        -- left. apply in_or_app. now left.
        -- right. exists c. split; [|exact O].
           rewrite app_assoc. apply in_or_app. now left.
      * left. apply in_or_app. right. now left.
    + apply unguarded_push; [exact Hu|].
      intros c Hc O. apply T in O.
      * assert (E : existsb (test f) (first ++ later) = true)
          by (apply existsb_exists; exists c; auto).
        congruence.
      * rewrite Forall_forall in Hs. apply Hs, Hc.
Qed.

(** The loop over the matches of one expression. *)
Lemma collected_loop n first
  (test : RegExp.found -> Entity -> bool) (made : RegExp.found -> Entity)
  (fs : list RegExp.found) :
  (forall f c, span n c -> (test f c = true <-> overlapped (made f) c)) ->
  Forall (fun f => span n (made f)) fs ->
  forall matches later,
    collected n first matches later ->
    exists later',
      fold_left
        (fun es f => if existsb (test f) es then es else es ++ [made f])
        fs (first ++ later) = first ++ later'
      /\ collected n first (matches ++ map made fs) later'.
Proof.
  intros T. induction fs as [|f fs IH]; intros F matches later C.
  - exists later. simpl. rewrite app_nil_r. auto.
  - inversion F as [|? ? Sf F']; subst.
    destruct (collected_step n first matches later test made f (T f) Sf C)
      as (later1 & E1 & C1).
    destruct (IH F' _ _ C1) as (later' & E' & C').
    exists later'. cbn [fold_left map]. rewrite E1, E'.
    split; [reflexivity|].
    replace (matches ++ made f :: map made fs)
      with ((matches ++ [made f]) ++ map made fs)
      by (rewrite <- app_assoc; reflexivity).
    exact C'.
Qed.

(** Two loops that go together. *)
Lemma forEach_both {A S T} (R : S -> T -> Prop)
  (body1 : A -> S -> option S) (body2 : A -> T -> option T) (l : list A) :
  (forall a, In a l -> forall s t, R s t ->
     exists s' t', body1 a s = Some s' /\ body2 a t = Some t' /\ R s' t') ->
  forall s t, R s t ->
    exists s' t',
      forEach body1 l s = Some s' /\ forEach body2 l t = Some t' /\ R s' t'.
Proof.
  induction l as [|a l IH]; intros H s t Rst; simpl.
  - exists s, t. auto.
  - destruct (H a (or_introl eq_refl) s t Rst) as (s1 & t1 & -> & -> & R1).
    apply IH; [|exact R1]. intros b Hb. apply H. now right.
Qed.

(** The candidates and the matches so far, for the second pass. *)
Definition listed (n : nat) (first entities matches : list Entity) : Prop :=
  exists later, entities = first ++ later /\ collected n first matches later.

Lemma itemPass_collected text ty item first entities matches :
  nonempty (itemRegex item) = true ->
  listed (String.length text) first entities matches ->
  exists entities' matches',
    itemPass text ty item entities = Some entities'
    /\ itemMatches text ty item matches = Some matches'
    /\ listed (String.length text) first entities' matches'.
Proof.
  intros M (later & -> & C). unfold itemPass, itemMatches.
  destruct (RegExpFacts.exec_all_total (itemRegex item) text) as (fs & E);
    [apply Nat.leb_le; exact M|].
  rewrite E. apply RegExpFacts.exec_all_spans in E.
  destruct (collected_loop (String.length text) first overlapsWith
              (fun f => candidate ty (matched text f) f 0.9%Q) fs)
    with (matches := matches) (later := later) as (later' & E' & C').
  - intros f c _. apply overlapsWith_spec.
  - eapply Forall_impl; [|exact E]. intros f Hf. apply candidate_span, Hf.
  - exact C.
  - eexists. eexists. split; [reflexivity|]. split; [reflexivity|].
    exists later'. split; [exact E' | exact C'].
Qed.

Lemma secondPass_collected text first :
  Forall (span (String.length text)) first ->
  exists entities matches later,
    secondPass text first = Some entities
    /\ listMatches text = Some matches
    /\ entities = first ++ later
    /\ collected (String.length text) first matches later.
Proof.
  intros F. unfold secondPass, listMatches.
  pose proof items_nonempty as N. rewrite forallb_forall in N.
  destruct (forEach_both (listed (String.length text) first)
              (fun tl es => forEach (itemPass text (fst tl)) (snd tl) es)
              (fun tl matches =>
                 forEach (itemMatches text (fst tl)) (snd tl) matches)
              entityLists) with (s := first) (t := @nil Entity)
    as (es & ms & E1 & E2 & later & E & C).
  - intros tl Htl es ms L.
    apply (forEach_both (listed (String.length text) first)); [|exact L].
    intros item Hi es' ms' L'. apply itemPass_collected; [|exact L'].
    specialize (N tl Htl). rewrite forallb_forall in N. apply N, Hi.
  - exists []. split; [apply eq_sym, app_nil_r|].
    apply collected_first, F.
  - exists es, ms, later. auto.
Qed.

Lemma extractConcepts_collected text first matches later :
  collected (String.length text) first matches later ->
  exists concepts later',
    extractConcepts text (first ++ later) = Some (first ++ later')
    /\ conceptMatches text = Some concepts
    /\ collected (String.length text) first (matches ++ concepts) later'.
Proof.
  intros C. unfold extractConcepts, conceptMatches.
  destruct (RegExpFacts.exec_all_total conceptRegex text) as (fs & E);
    [vm_compute; lia|].
  rewrite E. apply RegExpFacts.exec_all_spans in E.
  destruct (collected_loop (String.length text) first overlapsWithConcept
              (fun f => candidate CONCEPT (matched text f) f 0.6%Q) fs)
    with (matches := matches) (later := later) as (later' & E' & C').
  - intros f c Sc. eapply overlapsWithConcept_spec, Sc.
  - eapply Forall_impl; [|exact E]. intros f Hf. apply candidate_span, Hf.
  - exact C.
  - eexists. exists later'. rewrite E'. auto.
Qed.

(** The candidates of a text, against its matches. *)
Lemma candidates_collected text :
  exists first matches concepts later,
    patternMatches text = Some first
    /\ listMatches text = Some matches
    /\ conceptMatches text = Some concepts
    /\ candidates text = Some (first ++ later)
    /\ collected (String.length text) first (matches ++ concepts) later.
Proof.
  unfold candidates, patternMatches.
  destruct (firstPass_total text [] (Forall_nil _)) as (first & -> & F1).
  destruct (secondPass_collected text first F1)
    as (es & ms & later & -> & E2 & -> & C).
  destruct (extractConcepts_collected text first ms later C)
    as (concepts & later' & -> & E3 & C').
  exists first, ms, concepts, later'. auto.
Qed.

End EntityRecognizerFacts.

(** C3, as the code has it: for every text, [recognizeEntities] returns;
    every entity that it returns has 0 <= startIndex < endIndex <= the
    length of the text; and no two of them overlap (each ends where the
    later ones start, or before).  Not every match is a candidate.  The
    candidates are the matches of the first pass and, after them, matches
    of the lists and of the concepts; a match of the lists or of the
    concepts that is not among them starts or ends within the span of a
    candidate, whatever the confidences; and none of those that are among
    them starts or ends within the span of a candidate collected before
    it.  The candidates, sorted by start offset, split into consecutive
    runs, each entity of a run after its first starting within the span of
    an entity of the run before it, such that exactly one entity is
    returned for each run, in order: an entity of the run that no entity of
    the run outranks by a higher confidence or, at equal confidence, by a
    longer span. *)
Theorem C3_recognizeEntities (now : Z) (text : string) :
  exists patternMatches listMatches conceptMatches later result,
    EntityRecognizerFacts.patternMatches text = Some patternMatches
    /\ EntityRecognizerFacts.listMatches text = Some listMatches
    /\ EntityRecognizerFacts.conceptMatches text = Some conceptMatches
    /\ EntityRecognizer.candidates text = Some (patternMatches ++ later)
    /\ EntityRecognizer.recognizeEntities now text = Some result
    /\ (forall m, In m later -> In m listMatches \/ In m conceptMatches)
    /\ (forall m,
          In m listMatches \/ In m conceptMatches ->
          In m later
          \/ exists c,
               In c (patternMatches ++ later)
               /\ EntityRecognizerFacts.overlapped m c)
    /\ EntityRecognizerFacts.unguarded patternMatches later
    /\ (forall e, In e result ->
          exists s t,
            e_startIndex e = Some s /\ e_endIndex e = Some t
            /\ (0 <= s < t)%Z /\ (t <= Z.of_nat (String.length text))%Z)
    /\ StronglySorted EntityRecognizerFacts.endsBefore result
    /\ exists runs,
         List.concat runs
         = EntityRecognizer.sortByStart (patternMatches ++ later)
         /\ Forall EntityRecognizerFacts.chained runs
         /\ Forall2 (EntityRecognizerFacts.returnedFor now) runs result.
Proof.
  destruct (EntityRecognizerFacts.candidates_collected text)
    as (first & matches & concepts & later & E1 & E2 & E3 & E & C).
  destruct C as [F Hm Hd Hu].
  exists first, matches, concepts, later,
    (EntityRecognizer.resolveOverlappingEntities now (first ++ later)).
  split; [exact E1|]. split; [exact E2|]. split; [exact E3|].
  split; [exact E|].
  split; [unfold EntityRecognizer.recognizeEntities; rewrite E; reflexivity|].
  split; [intros m Hin; apply in_app_or, Hm, Hin|].
  split; [intros m Hin; apply Hd, in_or_app, Hin|].
  split; [exact Hu|].
  destruct (EntityRecognizerFacts.resolve_spec now (String.length text)
              (first ++ later) F) as (Hspan & Hdisjoint & Hruns).
  split; [|split; [exact Hdisjoint | exact Hruns]].
  intros e He. rewrite Forall_forall in Hspan. exact (Hspan e He).
Qed.

(** C3 as the claim has it fails, in two ways.  In "Windows 10.12.20:30"
    the candidates are the date "10.12.20" (8 to 16), the time "20:30" (14
    to 19) and the product "Windows 10" (0 to 10), all of confidence 0.8.
    The date loses to the product, which is longer; the time does not
    overlap the product and is returned.  So of the two overlapping
    candidates of equal confidence, the date and the time, the shorter one
    is kept and the longer one is not.  In "in Paris" the first pass finds
    the location "in Paris" (0 to 8) with the confidence 0.8, and the
    second pass finds the city of its list, "Paris" (3 to 8), with the
    confidence 0.9; the match of the list starts within the candidate, so
    it is dropped, and the entity of the lower confidence is returned. *)
Lemma C3_counterexample :
  (exists candidates result date time,
     EntityRecognizer.candidates "Windows 10.12.20:30" = Some candidates
     /\ EntityRecognizer.recognizeEntities 0 "Windows 10.12.20:30"
        = Some result
     /\ In date candidates /\ In time candidates
     /\ (e_value date = "10.12.20" /\ e_value time = "20:30")
     /\ (EntityRecognizer.startIndex0 date < EntityRecognizer.endIndex0 time
         /\ EntityRecognizer.startIndex0 time
            < EntityRecognizer.endIndex0 date)%Z
     /\ (e_confidence date == e_confidence time)%Q
     /\ (EntityRecognizerFacts.spanLength time
         < EntityRecognizerFacts.spanLength date)%Z
     /\ In (EntityRecognizer.stamp 0 time) result
     /\ (forall e, In e result -> e_startIndex e <> e_startIndex date))
  /\ (exists location city,
        EntityRecognizerFacts.patternMatches "in Paris" = Some [location]
        /\ EntityRecognizerFacts.listMatches "in Paris" = Some [city]
        /\ EntityRecognizer.recognizeEntities 0 "in Paris" = Some [location]
        /\ (EntityRecognizer.startIndex0 location
            < EntityRecognizer.endIndex0 city
            /\ EntityRecognizer.startIndex0 city
               < EntityRecognizer.endIndex0 location)%Z
        /\ (e_confidence location == 0.8)%Q
        /\ (e_confidence city == 0.9)%Q).
Proof.
  split.
  - eexists. eexists.
    exists (EntityRecognizer.candidate DATE_TIME "10.12.20"
              {| RegExp.index := 8;
                 RegExp.stop :=
                   {| RegExp.prev := Some "0"%char;
                      RegExp.rest := list_ascii_of_string ":30";
                      RegExp.pos := 16 |};
                 RegExp.groups_found := [] |} 0.8%Q).
    exists (EntityRecognizer.candidate DATE_TIME "20:30"
              {| RegExp.index := 14;
                 RegExp.stop :=
                   {| RegExp.prev := Some "0"%char; RegExp.rest := [];
                      RegExp.pos := 19 |};
                 RegExp.groups_found := [] |} 0.8%Q).
    split; [vm_compute; reflexivity|].
    split; [vm_compute; reflexivity|].
    split; [left; reflexivity|].
    split; [right; left; reflexivity|].
    split; [split; reflexivity|].
    split; [vm_compute; split; reflexivity|].
    split; [reflexivity|].
    split; [vm_compute; reflexivity|].
    split; [right; left; reflexivity|].
    intros e [<-|[<-|[]]]; discriminate.
  - eexists. eexists.
    split; [vm_compute; reflexivity|].
    split; [vm_compute; reflexivity|].
    split; [vm_compute; reflexivity|].
    split; [vm_compute; split; reflexivity|].
    split; vm_compute; reflexivity.
Qed.

(* ================================================================= *)
(** * Further properties *)

(** ** Working memory: what a conversation leaves in it *)

Module MemoryFacts.
Import WorkingMemory.

(** The contexts that a working memory goes through. *)
Inductive built : ConversationContext -> Prop :=
| built_init now : built (init now)
| built_add now message c : built c -> built (addMessage now message c)
| built_entity now entity c : built c -> built (focusOnEntity now entity c)
| built_topic now topic c : built c -> built (focusOnTopic now topic c)
| built_reset now c : built c -> built (reset now c).

(** The messages of a conversation, each with the instant at which it is
    added. *)
Definition addAll (events : list (Z * EnhancedMessage))
  (c : ConversationContext) : ConversationContext :=
  fold_left (fun c e => addMessage (fst e) (snd e) c) events c.

Lemma addMessage_messages now message c :
  recentMessages (addMessage now message c)
  = recentMessages (pushMessage message c)
  /\ cs_messageCount (conversationState (addMessage now message c))
     = (cs_messageCount (conversationState c) + 1)%Z.
Proof.
  unfold addMessage.
  destruct (m_entities message) as [[|e r]|];
    destruct (m_detectedIntentions message) as [[|i r']|];
    destruct (Sender_eqb (m_sender message) user); split; reflexivity.
Qed.

Lemma slice_last_push {A} (l : list A) (x : A) :
  (let pushed := Js.slice_last 10 l ++ [x] in
   if 10 <? List.length pushed then tl pushed else pushed)
  = Js.slice_last 10 (l ++ [x]).
Proof.
  cbv zeta. unfold Js.slice_last.
  rewrite !length_app, length_skipn. cbn [List.length].
  destruct (Nat.le_gt_cases (List.length l) 9) as [H|H].
  - replace (List.length l - 10) with 0 by lia.
    replace (List.length l + 1 - 10) with 0 by lia. simpl skipn.
    destruct (10 <? _) eqn:E; [apply Nat.ltb_lt in E; lia | reflexivity].
  - destruct (10 <? _) eqn:E; [|apply Nat.ltb_ge in E; lia].
    replace (List.length l + 1 - 10) with (S (List.length l - 10)) by lia.
    rewrite (skipn_app (S _)).
    replace (S (List.length l - 10) - List.length l) with 0 by lia.
    change (skipn 0 [x]) with [x].
    assert (T : skipn (S (List.length l - 10)) l
                = tl (skipn (List.length l - 10) l)).
    { change (S (List.length l - 10)) with (1 + (List.length l - 10)).
      rewrite <- skipn_skipn.
      destruct (skipn (List.length l - 10) l); reflexivity. }
    rewrite T.
    generalize (length_skipn (List.length l - 10) l).
    destruct (skipn (List.length l - 10) l) as [|a r]; cbn [List.length];
      [lia | reflexivity].
Qed.

End MemoryFacts.

(** X1: the buffer of recent messages is a queue.  After any number of messages
    added to a fresh working memory, the buffer holds the last ten of them,
    oldest first, and the message count is their number. *)
Theorem memory_keeps_last_ten_messages
  (now0 : Z) (events : list (Z * EnhancedMessage)) :
  let c := MemoryFacts.addAll events (WorkingMemory.init now0) in
  recentMessages c = Js.slice_last 10 (map snd events)
  /\ cs_messageCount (conversationState c) = Z.of_nat (List.length events).
Proof.
  cbv zeta. unfold MemoryFacts.addAll.
  induction events as [|[now message] events IH] using rev_ind.
  - split; reflexivity.
  - rewrite fold_left_app, map_app, length_app. cbn [fold_left map fst snd].
    destruct IH as [IHm IHc].
    destruct (MemoryFacts.addMessage_messages now message
                (fold_left (fun c e => WorkingMemory.addMessage (fst e) (snd e) c)
                   events (WorkingMemory.init now0))) as [Hm Hc].
    split.
    + rewrite Hm. unfold WorkingMemory.pushMessage.
      cbn [recentMessages]. rewrite IHm.
      apply (MemoryFacts.slice_last_push (map snd events) message).
    + rewrite Hc, IHc. cbn [List.length]. lia.
Qed.

(** ** Lists: the first elements of a sorted list *)

Module RankFacts.

Section Rank.
Variable A : Type.
Variable le : A -> A -> bool.
Hypothesis le_total : forall x y, le x y = false -> le y x = true.
Hypothesis le_trans :
  forall x y z, le x y = true -> le y z = true -> le x z = true.

Let R (u v : A) : Prop := le u v = true.

Lemma sort_strongly (l : list A) : StronglySorted R (Js.sort le l).
Proof.
  apply Sorted_StronglySorted.
  - intros x y z. apply le_trans.
  - apply SortFacts.sort_sorted. exact le_total.
Qed.

Lemma strongly_app (l1 l2 : list A) :
  StronglySorted R (l1 ++ l2) ->
  StronglySorted R l1
  /\ forall x y, In x l1 -> In y l2 -> R x y.
Proof.
  induction l1 as [|a l1 IH]; simpl; intros H.
  - split; [constructor | tauto].
  - inversion H as [|? ? Hs Hf]; subst.
    destruct (IH Hs) as [S1 B]. split.
    + constructor; [exact S1|].
      apply Forall_app in Hf. tauto.
    + intros x y [<-|Hx] Hy.
      * rewrite Forall_forall in Hf. apply Hf. apply in_or_app. tauto.
      * apply B; assumption.
Qed.

(** The first [k] elements of the sorted list: they are sorted, and what
    the cut leaves out comes after each of them in the order. *)
Lemma top_split (k : nat) (l : list A) :
  let top := Js.slice_to k (Js.sort le l) in
  List.length top <= k
  /\ StronglySorted R top
  /\ exists rest,
       Permutation l (top ++ rest)
       /\ forall x y, In x top -> In y rest -> R x y.
Proof.
  cbv zeta. unfold Js.slice_to.
  pose proof (sort_strongly l) as S.
  rewrite <- (firstn_skipn k (Js.sort le l)) in S.
  destruct (strongly_app _ _ S) as [S1 B].
  split; [apply firstn_le_length|]. split; [exact S1|].
  exists (skipn k (Js.sort le l)). split; [|exact B].
  rewrite firstn_skipn. apply SortFacts.sort_perm.
Qed.

End Rank.

Lemma strongly_weaken {A} (R R' : A -> A -> Prop) (l : list A) :
  (forall a b, R a b -> R' a b) ->
  StronglySorted R l -> StronglySorted R' l.
Proof.
  intros W. induction 1 as [|a l S IH F]; constructor; [exact IH|].
  revert F. apply Forall_impl. apply W.
Qed.

End RankFacts.

(** ** Working memory: entities, topics and attention *)

Module FocusFacts.
Import WorkingMemory.

(** *** The entity map *)

Definition expired (now : Z) (e : Entity) : bool :=
  (now - Js.orZ (e_lastMentionedAt e) 0 >? entityExpirationTime)%Z.

Lemma get_absent {V} (m : JsMap.t V) (k : string) :
  JsMap.get k m = None -> ~ In k (JsMap.keys m).
Proof.
  induction m as [|[k' v'] r IH]; simpl; [tauto|].
  destruct (String.eqb k k') eqn:E; [discriminate|].
  apply String.eqb_neq in E. intros H [C|C]; [congruence | exact (IH H C)].
Qed.

Lemma delete_nodup {V} (m : JsMap.t V) (k : string) :
  NoDup (JsMap.keys m) -> NoDup (JsMap.keys (JsMap.delete k m)).
Proof.
  induction m as [|[k' v'] r IH]; simpl; intros D; [constructor|].
  inversion D as [|? ? N D']; subst.
  destruct (String.eqb k k'); [exact (IH D')|].
  simpl. constructor; [|exact (IH D')].
  intros C. apply N. clear - C.
  induction r as [|[k0 v0] r IH]; simpl in *; [tauto|].
  destruct (String.eqb k k0); simpl in *; tauto.
Qed.

(** What [cleanupExpiredEntities] leaves at a key. *)
Lemma cleanup_keeps (now : Z) (m : JsMap.t Entity) (k : string) :
  NoDup (JsMap.keys m) ->
  JsMap.get k (cleanupExpiredEntities now m)
  = match JsMap.get k m with
    | Some e => if expired now e then None else Some e
    | None => None
    end.
Proof.
  intros D. unfold cleanupExpiredEntities.
  set (step := fun (acc : JsMap.t Entity) (kv : string * Entity) =>
                 if (now - Js.orZ (e_lastMentionedAt (snd kv)) 0
                     >? entityExpirationTime)%Z
                 then JsMap.delete (fst kv) acc else acc).
  assert (frame : forall s k1 k2 v, k1 <> k2 ->
            JsMap.get k1 (step s (k2, v)) = JsMap.get k1 s).
  { intros s k1 k2 v N. unfold step; simpl.
    destruct (_ >? _)%Z; [apply JsMapFacts.get_delete_neq; exact N|reflexivity]. }
  assert (local : forall s1 s2 k1 v,
            JsMap.get k1 s1 = JsMap.get k1 s2 ->
            JsMap.get k1 (step s1 (k1, v)) = JsMap.get k1 (step s2 (k1, v))).
  { intros s1 s2 k1 v E. unfold step; simpl.
    destruct (_ >? _)%Z; [|exact E]. now rewrite !JsMapFacts.get_delete_eq. }
  destruct (JsMap.get k m) as [e|] eqn:G.
  - rewrite (JsMapFacts.loop_own _ _ _ (fun k s => JsMap.get k s) step
               frame local m m k e D (JsMapFacts.get_in _ m k e G)).
    unfold step, expired; simpl.
    destruct (_ >? _)%Z; [apply JsMapFacts.get_delete_eq | exact G].
  - rewrite (JsMapFacts.loop_other _ _ _ (fun k s => JsMap.get k s) step
               frame m m k (get_absent m k G)).
    exact G.
Qed.

Lemma cleanup_nodup (now : Z) (m : JsMap.t Entity) :
  NoDup (JsMap.keys m) -> NoDup (JsMap.keys (cleanupExpiredEntities now m)).
Proof.
  unfold cleanupExpiredEntities.
  assert (K : forall (l acc : JsMap.t Entity),
            NoDup (JsMap.keys acc) ->
            NoDup (JsMap.keys
                     (fold_left
                        (fun acc kv =>
                           if (now - Js.orZ (e_lastMentionedAt (snd kv)) 0
                               >? entityExpirationTime)%Z
                           then JsMap.delete (fst kv) acc else acc)
                        l acc))).
  { induction l as [|kv l IH]; simpl; intros acc D; [exact D|].
    apply IH. destruct (_ >? _)%Z; [apply delete_nodup|]; exact D. }
  apply K.
Qed.

Lemma updateEntity_nodup (now : Z) (m : JsMap.t Entity) (e : Entity) :
  NoDup (JsMap.keys m) -> NoDup (JsMap.keys (updateEntity now m e)).
Proof.
  intros D. unfold updateEntity.
  destruct (JsMap.get (entityKey e) m); apply PatternFacts.set_nodup; exact D.
Qed.

Lemma updateEntity_other (now : Z) (m : JsMap.t Entity) (e : Entity)
  (k : string) :
  entityKey e <> k ->
  JsMap.get k (updateEntity now m e) = JsMap.get k m.
Proof.
  intros N. unfold updateEntity.
  destruct (JsMap.get (entityKey e) m);
    apply JsMapFacts.get_set_neq; congruence.
Qed.

(** The entity at the key of [e] once [e] has been seen at [now]. *)
Definition seenAt (now : Z) (m : JsMap.t Entity) (k : string) : Prop :=
  exists y, JsMap.get k m = Some y /\ e_lastMentionedAt y = Some now.

Lemma updateEntity_seen (now : Z) (m : JsMap.t Entity) (e : Entity) :
  seenAt now (updateEntity now m e) (entityKey e).
Proof.
  unfold seenAt, updateEntity.
  destruct (JsMap.get (entityKey e) m); eexists;
    (split; [apply JsMapFacts.get_set_eq | reflexivity]).
Qed.

Lemma updateEntity_keeps_seen (now : Z) (m : JsMap.t Entity) (e : Entity)
  (k : string) :
  seenAt now m k -> seenAt now (updateEntity now m e) k.
Proof.
  intros S. destruct (string_dec (entityKey e) k) as [<-|N].
  - apply updateEntity_seen.
  - unfold seenAt. rewrite updateEntity_other by exact N. exact S.
Qed.

Lemma updateAll_seen (now : Z) (es : list Entity) (m : JsMap.t Entity)
  (x : Entity) :
  In x es -> seenAt now (fold_left (updateEntity now) es m) (entityKey x).
Proof.
  assert (K : forall es m k, seenAt now m k ->
                seenAt now (fold_left (updateEntity now) es m) k).
  { clear. induction es as [|e es IH]; simpl; intros m k S; [exact S|].
    apply IH, updateEntity_keeps_seen, S. }
  revert m. induction es as [|e es IH]; simpl; intros m H; [tauto|].
  destruct H as [->|H]; [|apply IH; exact H].
  apply K, updateEntity_seen.
Qed.

Lemma updateAll_other (now : Z) (es : list Entity) (m : JsMap.t Entity)
  (k : string) :
  (forall x, In x es -> entityKey x <> k) ->
  JsMap.get k (fold_left (updateEntity now) es m) = JsMap.get k m.
Proof.
  revert m. induction es as [|e es IH]; simpl; intros m N; [reflexivity|].
  rewrite IH by (intros x Hx; apply N; tauto).
  apply updateEntity_other, N. tauto.
Qed.

Lemma updateAll_nodup (now : Z) (es : list Entity) (m : JsMap.t Entity) :
  NoDup (JsMap.keys m) ->
  NoDup (JsMap.keys (fold_left (updateEntity now) es m)).
Proof.
  revert m. induction es as [|e es IH]; simpl; intros m D; [exact D|].
  apply IH, updateEntity_nodup, D.
Qed.

(** The entity map of [addMessage]. *)
Lemma addMessage_entityMap (now : Z) (message : EnhancedMessage)
  (c : ConversationContext) :
  entityMap (addMessage now message c)
  = match m_entities message with
    | Some (e :: r) =>
        cleanupExpiredEntities now
          (fold_left (updateEntity now) (e :: r) (entityMap c))
    | _ => entityMap c
    end.
Proof.
  unfold addMessage.
  destruct (m_entities message) as [[|e r]|];
    destruct (m_detectedIntentions message) as [[|i r']|];
    destruct (Sender_eqb (m_sender message) user); reflexivity.
Qed.

Lemma focusOnEntity_entityMap_nodup (now : Z) (entity : Entity)
  (c : ConversationContext) :
  NoDup (JsMap.keys (entityMap c)) ->
  NoDup (JsMap.keys (entityMap (focusOnEntity now entity c))).
Proof.
  intros D. unfold focusOnEntity. cbn [refreshFocusState entityMap set_entityMap].
  destruct (JsMap.get (entityKey entity) (entityMap c));
    apply PatternFacts.set_nodup; exact D.
Qed.

(** The keys of the entity map of a working memory are distinct. *)
Lemma built_nodup (c : ConversationContext) :
  MemoryFacts.built c -> NoDup (JsMap.keys (entityMap c)).
Proof.
  induction 1 as [now|now message c _ IH|now entity c _ IH|now topic c _ IH
                  |now c _ IH].
  - constructor.
  - rewrite addMessage_entityMap.
    destruct (m_entities message) as [[|e r]|]; try exact IH.
    apply cleanup_nodup, updateAll_nodup, IH.
  - apply focusOnEntity_entityMap_nodup, IH.
  - exact IH.
  - constructor.
Qed.

(** *** The topics *)

Lemma addTopics_nodup (es : list Entity) (topics : list string) :
  NoDup topics ->
  NoDup (fold_left
           (fun acc topicEntity =>
              if string_in (e_value topicEntity) acc then acc
              else acc ++ [e_value topicEntity])
           es topics).
Proof.
  revert topics. induction es as [|e es IH]; simpl; intros topics D;
    [exact D|].
  apply IH. unfold string_in.
  destruct (existsb (String.eqb (e_value e)) topics) eqn:E; [exact D|].
  apply NoDup_app; [exact D | repeat constructor; simpl; tauto|].
  intros x Hx [E'|[]]. subst x.
  assert (T : existsb (String.eqb (e_value e)) topics = true).
  { apply existsb_exists. exists (e_value e). split; [exact Hx|].
    apply String.eqb_refl. }
  congruence.
Qed.

Lemma skipn_nodup {A} (n : nat) (l : list A) : NoDup l -> NoDup (skipn n l).
Proof.
  revert l. induction n as [|n IH]; intros [|a l] D; simpl; auto.
  inversion D; subst. apply IH. assumption.
Qed.

Lemma updateTopics_nodup (message : EnhancedMessage) (c : ConversationContext) :
  NoDup (cs_activeTopics (conversationState c)) ->
  NoDup (cs_activeTopics (conversationState (updateTopics message c))).
Proof.
  intros D. unfold updateTopics.
  cbn [set_activeTopics conversationState cs_activeTopics].
  match goal with
  | |- NoDup (if _ then Js.slice_last 5 ?t else _) =>
      assert (T : NoDup t) by (apply addTopics_nodup; exact D)
  end.
  destruct (5 <? _); [apply skipn_nodup|]; exact T.
Qed.

Lemma addMessage_topics (now : Z) (message : EnhancedMessage)
  (c : ConversationContext) :
  let c' := addMessage now message c in
  (NoDup (cs_activeTopics (conversationState c)) ->
   NoDup (cs_activeTopics (conversationState c')))
  /\ f_activeTopics (currentFocus c') = cs_activeTopics (conversationState c').
Proof.
  cbv zeta. unfold addMessage.
  set (c1 := pushMessage message c).
  set (c2 := match m_entities message with
             | Some (e :: rest) => updateEntities now (e :: rest) c1
             | _ => c1 end).
  set (c3 := match m_detectedIntentions message with
             | Some (i :: rest) => updateIntentions (i :: rest) c2
             | _ => c2 end).
  assert (E3 : cs_activeTopics (conversationState c3)
               = cs_activeTopics (conversationState c)).
  { unfold c3, c2, c1.
    destruct (m_entities message) as [[|e r]|];
      destruct (m_detectedIntentions message) as [[|i r']|]; reflexivity. }
  split.
  - intros D. rewrite <- E3 in D.
    pose proof (updateTopics_nodup message c3 D) as T.
    destruct (Sender_eqb (m_sender message) user); exact T.
  - destruct (Sender_eqb (m_sender message) user); reflexivity.
Qed.

Lemma focusOnTopic_topics (now : Z) (topic : string) (c : ConversationContext) :
  cs_activeTopics (conversationState (focusOnTopic now topic c))
  = filter (fun t => negb (String.eqb t topic))
      (cs_activeTopics (conversationState c)) ++ [topic].
Proof. reflexivity. Qed.

Lemma filter_nodup {A} (f : A -> bool) (l : list A) :
  NoDup l -> NoDup (filter f l).
Proof.
  induction 1 as [|a l N D IH]; simpl; [constructor|].
  destruct (f a); [|exact IH]. constructor; [|exact IH].
  intros C. apply N. apply filter_In in C. tauto.
Qed.

(** The filter of [focusOnTopic] keeps a list that does not hold the
    topic. *)
Lemma filter_others (topic : string) (l : list string) :
  ~ In topic l -> filter (fun t => negb (String.eqb t topic)) l = l.
Proof.
  induction l as [|x l IH]; simpl; intros N; [reflexivity|].
  destruct (String.eqb_spec x topic) as [->|_]; [tauto|].
  simpl. rewrite IH; [reflexivity | tauto].
Qed.

(** *** The priorities *)

Definition unitPriority (p : Q) : Prop := (0 < p /\ p <= 1)%Q.

Lemma rankPriority_unit (i len : nat) : i < len -> unitPriority (rankPriority i len).
Proof.
  intros H. unfold unitPriority, rankPriority.
  assert (L : (0 < inject_Z (Z.of_nat len))%Q).
  { change 0%Q with (inject_Z 0). rewrite <- Zlt_Qlt. lia. }
  assert (I : (0 <= inject_Z (Z.of_nat i))%Q).
  { change 0%Q with (inject_Z 0). rewrite <- Zle_Qle. lia. }
  assert (IL : (inject_Z (Z.of_nat i) < inject_Z (Z.of_nat len))%Q).
  { rewrite <- Zlt_Qlt. lia. }
  assert (D1 : (inject_Z (Z.of_nat i) / inject_Z (Z.of_nat len) < 1)%Q).
  { apply Qlt_shift_div_r; [exact L|]. lra. }
  assert (D0 : (0 <= inject_Z (Z.of_nat i) / inject_Z (Z.of_nat len))%Q).
  { apply Qle_shift_div_l; [exact L|]. lra. }
  split; lra.
Qed.

Lemma setPriorities_unit (keys : list string) (i len : nat)
  (priorities : JsMap.t Q) :
  i + List.length keys <= len ->
  (forall k p, JsMap.get k priorities = Some p -> unitPriority p) ->
  forall k p,
    JsMap.get k (setPriorities keys i len priorities) = Some p ->
    unitPriority p.
Proof.
  revert i priorities. induction keys as [|key keys IH]; simpl;
    intros i priorities L U k p G; [exact (U k p G)|].
  apply (IH (S i) (JsMap.set key (rankPriority i len) priorities)
            ltac:(lia)) with (k := k); [|exact G].
  intros k' p' G'. destruct (string_dec k' key) as [->|N].
  - rewrite JsMapFacts.get_set_eq in G'. injection G' as <-.
    apply rankPriority_unit. lia.
  - rewrite JsMapFacts.get_set_neq in G' by exact N. exact (U k' p' G').
Qed.

(** A message that names one topic. *)
Definition healthTopic : Entity :=
  {| e_type := TOPIC; e_value := "health"; e_normalizedValue := None;
     e_startIndex := Some 0%Z; e_endIndex := Some 6%Z;
     e_confidence := 0.9%Q; e_attributes := None;
     e_firstMentionedAt := None; e_lastMentionedAt := None;
     e_mentionCount := None |}.

Definition healthMessage : EnhancedMessage :=
  {| m_content := "health"; m_sender := user; m_timestamp := 5%Z;
     m_detectedIntentions := None; m_primaryIntention := None;
     m_entities := Some [healthTopic] |}.

End FocusFacts.

(** X2: the engagement level.  A message of the system leaves the level as it
    is.  A message of the user sets it to a number between 0 and 1, at most
    0.05 below and at most 0.25 above the level that is read, up to these
    two bounds; a level that is missing or 0 is read as 0.5, so after a
    level of 0 the next level is 0.45 at least. *)
Theorem memory_engagement_level
  (now : Z) (message : EnhancedMessage) (c : ConversationContext) :
  let stored c := cs_userEngagementLevel (conversationState c) in
  let read := Js.orQ (stored c) 0.5 in
  let c' := WorkingMemory.addMessage now message c in
  match m_sender message with
  | system => stored c' = stored c
  | user =>
      exists level,
        stored c' = Some level
        /\ (0 <= level <= 1)%Q
        /\ (Qmin 1 (read - 0.05) <= level <= Qmax 0 (read + 0.25))%Q
        /\ (forall q, stored c = Some q -> (q == 0)%Q -> (0.45 <= level)%Q)
  end.
Proof.
  cbv zeta. unfold WorkingMemory.addMessage.
  set (c1 := WorkingMemory.pushMessage message c).
  set (c2 := match m_entities message with
             | Some (e :: rest) => WorkingMemory.updateEntities now (e :: rest) c1
             | _ => c1 end).
  set (c3 := match m_detectedIntentions message with
             | Some (i :: rest) => WorkingMemory.updateIntentions (i :: rest) c2
             | _ => c2 end).
  set (c4 := WorkingMemory.updateTopics message c3).
  assert (E4 : cs_userEngagementLevel (conversationState c4)
               = cs_userEngagementLevel (conversationState c)).
  { unfold c4, c3, c2, c1.
    destruct (m_entities message) as [[|e r]|];
      destruct (m_detectedIntentions message) as [[|i r']|]; reflexivity. }
  destruct (m_sender message); cbn [Sender_eqb].
  - unfold WorkingMemory.updateEngagementLevel, WorkingMemory.refreshFocusState.
    cbn [conversationState cs_userEngagementLevel]. rewrite E4.
    set (read := Js.orQ (cs_userEngagementLevel (conversationState c)) 0.5).
    match goal with
    | |- exists level, Some (Js.Math_max 0 (Js.Math_min 1 (read + ?a)%Q))
                       = Some level /\ _ =>
        set (adjustment := a)
    end.
    assert (A : (-0.05 <= adjustment <= 0.25)%Q).
    { unfold adjustment.
      destruct (100 <? _); [|destruct (50 <? _); [|destruct (_ <? 10)]];
        destruct (Js.includes _ _);
        (destruct (m_primaryIntention message) as [p|];
         [destruct (_ || _)|]); split; lra. }
    exists (Js.Math_max 0 (Js.Math_min 1 (read + adjustment)%Q)).
    unfold Js.Math_max, Js.Math_min.
    split; [reflexivity|].
    pose proof (Q.min_spec 1 (read + adjustment)) as M1.
    pose proof (Q.max_spec 0 (Qmin 1 (read + adjustment))) as M2.
    pose proof (Q.min_spec 1 (read - 0.05)) as M3.
    pose proof (Q.max_spec 0 (read + 0.25)) as M4.
    split; [|split; [|intros q S Z0]].
    + destruct M1 as [[? ?]|[? ?]], M2 as [[? ?]|[? ?]]; split; lra.
    + destruct M1 as [[? ?]|[? ?]], M2 as [[? ?]|[? ?]],
        M3 as [[? ?]|[? ?]], M4 as [[? ?]|[? ?]]; split; lra.
    + assert (R : (read == 0.5)%Q).
      { unfold read. rewrite S. unfold Js.orQ.
        rewrite (proj2 (Qeq_bool_iff q 0) Z0). reflexivity. }
      destruct M1 as [[? ?]|[? ?]], M2 as [[? ?]|[? ?]]; lra.
  - unfold WorkingMemory.refreshFocusState.
    cbn [conversationState cs_userEngagementLevel]. exact E4.
Qed.

(** X3: the entities of a message.  When a message that names entities is added
    at [now], each of its entities is in the entity map afterwards, last
    mentioned at [now]; an entity of another key stays as it was if it was
    last mentioned within the thirty minutes before [now] and is removed if
    not; so no entity of the map is older than thirty minutes. *)
Theorem memory_entities_after_message
  (now : Z) (message : EnhancedMessage) (c : ConversationContext)
  (e : Entity) (r : list Entity) :
  MemoryFacts.built c ->
  m_entities message = Some (e :: r) ->
  let m' := entityMap (WorkingMemory.addMessage now message c) in
  (forall x, In x (e :: r) ->
     exists y, JsMap.get (WorkingMemory.entityKey x) m' = Some y
               /\ e_lastMentionedAt y = Some now)
  /\ (forall k,
        (forall x, In x (e :: r) -> WorkingMemory.entityKey x <> k) ->
        JsMap.get k m'
        = match JsMap.get k (entityMap c) with
          | Some y => if FocusFacts.expired now y then None else Some y
          | None => None
          end)
  /\ (forall k y,
        JsMap.get k m' = Some y ->
        (now - Js.orZ (e_lastMentionedAt y) 0 <= 30 * 60 * 1000)%Z).
Proof.
  intros B E. cbv zeta. rewrite FocusFacts.addMessage_entityMap, E.
  pose proof (FocusFacts.updateAll_nodup now (e :: r) (entityMap c)
                (FocusFacts.built_nodup c B)) as D.
  split; [|split].
  - intros x Hx.
    destruct (FocusFacts.updateAll_seen now (e :: r) (entityMap c) x Hx)
      as (y & G & L).
    exists y. split; [|exact L].
    rewrite FocusFacts.cleanup_keeps by exact D. rewrite G.
    unfold FocusFacts.expired. rewrite L.
    replace (now - Js.orZ (Some now) 0)%Z with 0%Z; [reflexivity|].
    unfold Js.orZ. destruct (now =? 0)%Z eqn:Z0; [|lia].
    apply Z.eqb_eq in Z0. lia.
  - intros k N.
    rewrite FocusFacts.cleanup_keeps by exact D.
    rewrite FocusFacts.updateAll_other by exact N. reflexivity.
  - intros k y G.
    rewrite FocusFacts.cleanup_keeps in G by exact D.
    destruct (JsMap.get k _) as [y'|]; [|discriminate].
    destruct (FocusFacts.expired now y') eqn:X; [discriminate|].
    injection G as <-. unfold FocusFacts.expired in X.
    unfold WorkingMemory.entityExpirationTime in X.
    rewrite Z.gtb_ltb in X. apply Z.ltb_ge in X. exact X.
Qed.

Lemma memory_entities_after_message_witness :
  exists y,
    JsMap.get "topic:health"
      (entityMap
         (WorkingMemory.addMessage 5 FocusFacts.healthMessage
            (WorkingMemory.init 0)))
    = Some y
    /\ e_lastMentionedAt y = Some 5%Z.
Proof.
  refine (proj1 (memory_entities_after_message 5 FocusFacts.healthMessage
                   (WorkingMemory.init 0) FocusFacts.healthTopic []
                   (MemoryFacts.built_init 0) eq_refl)
            FocusFacts.healthTopic _).
  left. reflexivity.
Defined.

(** X4: the active topics.  In every context that a working memory goes
    through the active topics are distinct and the focus state holds the
    same topics as the conversation state; and a focus on a topic puts it
    last and keeps the other topics in their order: a topic that is not
    active is put after the active ones, and an active topic is taken from
    its place, the topics before it and the topics after it staying as they
    are. *)
Theorem memory_topics_distinct (c : ConversationContext) :
  MemoryFacts.built c ->
  NoDup (cs_activeTopics (conversationState c))
  /\ f_activeTopics (currentFocus c) = cs_activeTopics (conversationState c)
  /\ forall now topic,
       (~ In topic (cs_activeTopics (conversationState c)) ->
        cs_activeTopics
          (conversationState (WorkingMemory.focusOnTopic now topic c))
        = cs_activeTopics (conversationState c) ++ [topic])
       /\ (forall before after,
             cs_activeTopics (conversationState c)
             = before ++ topic :: after ->
             cs_activeTopics
               (conversationState (WorkingMemory.focusOnTopic now topic c))
             = before ++ after ++ [topic]).
Proof.
  intros B.
  assert (I : NoDup (cs_activeTopics (conversationState c))
              /\ f_activeTopics (currentFocus c)
                 = cs_activeTopics (conversationState c)).
  { induction B as [now|now message c _ [D M]|now entity c _ [D M]
                    |now topic c _ [D M]|now c _ _].
    - split; [constructor | reflexivity].
    - destruct (FocusFacts.addMessage_topics now message c) as [K E].
      split; [exact (K D) | exact E].
    - split; [exact D | reflexivity].
    - split; [|reflexivity].
      rewrite FocusFacts.focusOnTopic_topics.
      apply NoDup_app; [apply FocusFacts.filter_nodup; exact D
                       | repeat constructor; simpl; tauto|].
      intros x Hx [E'|[]]. subst x. apply filter_In in Hx.
      destruct Hx as [_ Hx]. rewrite String.eqb_refl in Hx. discriminate.
    - split; [constructor | reflexivity]. }
  destruct I as [D M]. split; [exact D|]. split; [exact M|].
  intros now topic. rewrite FocusFacts.focusOnTopic_topics. split.
  - intros N. rewrite (FocusFacts.filter_others topic _ N). reflexivity.
  - intros before after E. rewrite E in D |- *.
    apply NoDup_remove in D. destruct D as [_ D].
    rewrite filter_app. cbn [filter]. rewrite String.eqb_refl. cbn [negb].
    rewrite <- filter_app, (FocusFacts.filter_others topic _ D).
    rewrite <- app_assoc. reflexivity.
Qed.

Lemma memory_topics_distinct_witness :
  NoDup (cs_activeTopics
           (conversationState
              (WorkingMemory.focusOnTopic 2 "AI"
                 (WorkingMemory.focusOnTopic 1 "AI" (WorkingMemory.init 0))))).
Proof.
  exact (proj1 (memory_topics_distinct _
                  (MemoryFacts.built_topic 2 "AI" _
                     (MemoryFacts.built_topic 1 "AI" _
                        (MemoryFacts.built_init 0))))).
Defined.

(** X5: the active entities of the focus state: ten at most, taken from the
    entity map, in the descending order of their activity score (10000 for
    each mention, less the milliseconds since the last mention); no entity
    that is left out has a higher score than one that is listed. *)
Theorem memory_active_entities (now : Z) (c : ConversationContext) :
  let score := WorkingMemory.activityScore now in
  let active := WorkingMemory.getActiveEntities now c in
  List.length active <= 10
  /\ StronglySorted (fun a b => (score b <= score a)%Z) active
  /\ exists rest,
       Permutation (JsMap.values (entityMap c)) (active ++ rest)
       /\ forall x y, In x active -> In y rest -> (score y <= score x)%Z.
Proof.
  cbv zeta. unfold WorkingMemory.getActiveEntities.
  set (le := fun a b : Entity =>
               (WorkingMemory.activityScore now b
                <=? WorkingMemory.activityScore now a)%Z).
  destruct (RankFacts.top_split Entity le) with (k := 10)
    (l := JsMap.values (entityMap c)) as (L & S & rest & P & B).
  - intros x y H. unfold le in *. apply Z.leb_gt in H. apply Z.leb_le. lia.
  - intros x y z H1 H2. unfold le in *.
    apply Z.leb_le in H1, H2. apply Z.leb_le. lia.
  - split; [exact L|]. split.
    + eapply RankFacts.strongly_weaken; [|exact S].
      intros a b H. apply Z.leb_le. exact H.
    + exists rest. split; [exact P|].
      intros x y Hx Hy. apply Z.leb_le. exact (B x y Hx Hy).
Qed.

(** X6: the attention priorities: every priority that the focus state records,
    for an entity, an intention or a topic, is above 0 and at most 1. *)
Theorem memory_attention_priorities
  (now : Z) (c : ConversationContext) (k : string) (p : Q) :
  JsMap.get k (WorkingMemory.calculateAttentionPriorities now c) = Some p ->
  (0 < p /\ p <= 1)%Q.
Proof.
  unfold WorkingMemory.calculateAttentionPriorities. cbv zeta.
  intros G.
  refine (FocusFacts.setPriorities_unit _ 0 _ _ _ _ k p G);
    [rewrite length_map; lia|].
  intros k2 p2 G2.
  refine (FocusFacts.setPriorities_unit _ 0 _ _ _ _ k2 p2 G2);
    [rewrite length_map; lia|].
  intros k1 p1 G1.
  refine (FocusFacts.setPriorities_unit _ 0 _ _ _ _ k1 p1 G1);
    [rewrite length_map; lia|].
  intros k0 p0 G0. discriminate.
Qed.

Lemma memory_attention_priorities_witness :
  JsMap.get "topic:AI"
    (WorkingMemory.calculateAttentionPriorities 1
       (WorkingMemory.focusOnTopic 1 "AI" (WorkingMemory.init 0)))
  = Some 1%Q
  /\ (0 < 1 /\ 1 <= 1)%Q.
Proof.
  split; [reflexivity|].
  refine (memory_attention_priorities 1
            (WorkingMemory.focusOnTopic 1 "AI" (WorkingMemory.init 0))
            "topic:AI" 1%Q _).
  reflexivity.
Defined.

(** ** The intention detector: the primary intention *)

Module PrimaryFacts.
Import IntentionDetector.

(** An intention that overrides the others: a command or a request of an
    action whose confidence is above 0.7. *)
Definition strongAction (i : Intention) : bool :=
  is_action (i_type i) && negb (Qle_bool (i_confidence i) 0.7).

(** A question whose confidence is above 0.8. *)
Definition strongQuestion (i : Intention) : bool :=
  is_question i && negb (Qle_bool (i_confidence i) 0.8).

(** One turn of the loop of [identifyPrimaryIntention]. *)
Definition choose (primary intention : Intention) : Intention :=
  let primary1 :=
    if is_action (i_type intention)
       && negb (Qle_bool (i_confidence intention) 0.7)
       && negb (is_action (i_type primary))
    then intention else primary in
  if is_question intention
     && negb (Qle_bool (i_confidence intention) 0.8)
     && negb (is_action (i_type primary1))
     && negb (Js.startsWith (intentionName (i_type primary1)) "question_")
  then intention else primary1.

Lemma identify_fold (first : Intention) (others : list Intention) :
  identifyPrimaryIntention (first :: others)
  = fold_left choose (first :: others) first.
Proof. reflexivity. Qed.

Lemma choose_cases (primary intention : Intention) :
  choose primary intention = primary \/ choose primary intention = intention.
Proof.
  unfold choose.
  destruct (_ && _ && negb (is_action (i_type primary)));
    destruct (_ && _ && _ && _); tauto.
Qed.

Lemma choose_action (primary intention : Intention) :
  is_action (i_type primary) = true -> choose primary intention = primary.
Proof.
  intros A. unfold choose. rewrite A. cbn [negb].
  rewrite !andb_false_r. rewrite A. cbn [negb].
  rewrite !andb_false_r. reflexivity.
Qed.

Lemma choose_strong (primary intention : Intention) :
  strongAction intention = true ->
  is_action (i_type (choose primary intention)) = true.
Proof.
  unfold strongAction. intros S. apply andb_prop in S. destruct S as [A C].
  destruct (is_action (i_type primary)) eqn:P.
  - rewrite choose_action by exact P. exact P.
  - unfold choose. rewrite A, C, P. cbn [andb negb]. rewrite A.
    cbn [negb]. rewrite !andb_false_r. exact A.
Qed.

Lemma choose_weak (primary intention : Intention) :
  strongAction intention = false -> strongQuestion intention = false ->
  choose primary intention = primary.
Proof.
  unfold strongAction, strongQuestion, choose. intros A Q.
  rewrite A. cbn [andb]. rewrite Q. reflexivity.
Qed.

Lemma fold_in (l : list Intention) (primary : Intention) :
  fold_left choose l primary = primary
  \/ In (fold_left choose l primary) l.
Proof.
  revert primary. induction l as [|i l IH]; simpl; intros primary; [tauto|].
  destruct (IH (choose primary i)) as [E|H]; [|tauto].
  rewrite E. destruct (choose_cases primary i) as [->| ->]; tauto.
Qed.

Lemma fold_action (l : list Intention) (primary : Intention) :
  is_action (i_type primary) = true -> fold_left choose l primary = primary.
Proof.
  revert primary. induction l as [|i l IH]; simpl; intros primary A;
    [reflexivity|].
  rewrite choose_action by exact A. apply IH. exact A.
Qed.

Lemma fold_strong (l : list Intention) (primary : Intention) :
  existsb strongAction l = true ->
  is_action (i_type (fold_left choose l primary)) = true.
Proof.
  revert primary. induction l as [|i l IH]; simpl; intros primary E;
    [discriminate|].
  destruct (strongAction i) eqn:S.
  - rewrite fold_action; apply choose_strong; exact S.
  - apply IH. exact E.
Qed.

Lemma fold_weak (l : list Intention) (primary : Intention) :
  existsb strongAction l = false -> existsb strongQuestion l = false ->
  fold_left choose l primary = primary.
Proof.
  revert primary. induction l as [|i l IH]; simpl; intros primary A Q;
    [reflexivity|].
  apply orb_false_elim in A, Q. destruct A as [A1 A2], Q as [Q1 Q2].
  rewrite choose_weak by assumption. apply IH; assumption.
Qed.

End PrimaryFacts.

(** X7: the primary intention.  For a list of intentions that is not empty it is
    one of them.  When the list holds a command or a request of an action
    whose confidence is above 0.7, the primary intention is a command or a
    request of an action, whatever the confidence of the others; when the
    first intention is one, it is the primary intention; and when the list
    holds neither such an intention nor a question whose confidence is
    above 0.8, the primary intention is the first one. *)
Theorem primary_intention_choice (first : Intention) (others : list Intention) :
  let intentions := first :: others in
  let primary := IntentionDetector.identifyPrimaryIntention intentions in
  In primary intentions
  /\ (existsb PrimaryFacts.strongAction intentions = true ->
      IntentionDetector.is_action (i_type primary) = true)
  /\ (IntentionDetector.is_action (i_type first) = true -> primary = first)
  /\ (existsb PrimaryFacts.strongAction intentions = false ->
      existsb PrimaryFacts.strongQuestion intentions = false ->
      primary = first).
Proof.
  cbv zeta. rewrite PrimaryFacts.identify_fold.
  split; [|split; [|split]].
  - destruct (PrimaryFacts.fold_in (first :: others) first) as [E|H];
      [rewrite E; left; reflexivity | exact H].
  - apply PrimaryFacts.fold_strong.
  - apply PrimaryFacts.fold_action.
  - apply PrimaryFacts.fold_weak.
Qed.

(** X8: a text that ends with a question mark is taken as a question: the
    intentions detected for it hold a factual question, a question of
    opinion or a question of clarification. *)
Theorem question_mark_gives_question
  (text : string) (entities : option (list Entity)) :
  Js.endsWithChar text "?" = true ->
  exists i,
    In i (IntentionDetector.detectIntentions text entities)
    /\ IntentionDetector.is_question i = true.
Proof.
  intros Q.
  set (pass2 := IntentionDetector.keywordPass (Js.trim (Js.toLowerCase text))
                  entities (IntentionDetector.patternIntentions text entities)).
  assert (H : exists i,
            In i (IntentionDetector.questionMark text entities pass2)
            /\ IntentionDetector.is_question i = true).
  { unfold IntentionDetector.questionMark. rewrite Q. cbn [andb].
    destruct (existsb IntentionDetector.is_question pass2) eqn:E;
      cbn [negb].
    - apply existsb_exists in E. exact E.
    - eexists. split; [apply in_or_app; right; left; reflexivity|].
      reflexivity. }
  destruct H as (i & Hi & Qi). exists i. split; [|exact Qi].
  apply IntentionDetectorFacts.detectIntentions_in. fold pass2.
  unfold IntentionDetector.fallback.
  destruct (IntentionDetector.questionMark text entities pass2);
    [destruct Hi | exact Hi].
Qed.

Lemma question_mark_gives_question_witness :
  exists i,
    In i (IntentionDetector.detectIntentions "Really?" None)
    /\ IntentionDetector.is_question i = true.
Proof.
  apply (question_mark_gives_question "Really?" None). reflexivity.
Defined.

(** ** The entity recognizer: when two entities are the same *)

Module SameEntityFacts.
Import EntityRecognizer.

Lemma normalizeEntity_type (e : Entity) :
  e_type (normalizeEntity e) = e_type e.
Proof.
  unfold normalizeEntity. destruct (e_normalizedValue e) as [[|c s]|];
    reflexivity.
Qed.

(** The normalized value that [normalizeEntity] computes. *)
Definition normalForm (e : Entity) : string :=
  match e_type e with
  | PERSON => removeFirst titleRegex (Js.trim (Js.toLowerCase (e_value e)))
  | _ => Js.trim (Js.toLowerCase (e_value e))
  end.

Lemma normalizeEntity_cases (e : Entity) :
  normalizeEntity e = e
  \/ normalizeEntity e = withNormalizedValue e (normalForm e).
Proof.
  unfold normalizeEntity. destruct (e_normalizedValue e) as [[|c s]|]; auto.
Qed.

Lemma normalizeEntity_normal (e : Entity) :
  normalizeEntity (withNormalizedValue e (normalForm e))
  = withNormalizedValue e (normalForm e).
Proof.
  unfold normalizeEntity. cbn [withNormalizedValue e_normalizedValue].
  destruct (normalForm e) as [|c s] eqn:V; [|reflexivity].
  change (withNormalizedValue (withNormalizedValue e "") (normalForm e)
          = withNormalizedValue e "").
  rewrite V. reflexivity.
Qed.

Lemma normalizeEntity_idempotent (e : Entity) :
  normalizeEntity (normalizeEntity e) = normalizeEntity e.
Proof.
  destruct (normalizeEntity_cases e) as [E|E].
  - rewrite E. exact E.
  - rewrite E. apply normalizeEntity_normal.
Qed.

Lemma sameString_refl (a : option string) : sameString a a = true.
Proof. destruct a; simpl; [apply String.eqb_refl | reflexivity]. Qed.

Lemma sameString_sym (a b : option string) : sameString a b = sameString b a.
Proof. destruct a, b; simpl; try reflexivity. apply String.eqb_sym. Qed.

Lemma sameString_trans (a b c : option string) :
  sameString a b = true -> sameString b c = true -> sameString a c = true.
Proof.
  destruct a, b, c; simpl; try discriminate; try reflexivity.
  intros H1 H2. apply String.eqb_eq in H1, H2. subst. apply String.eqb_refl.
Qed.

Lemma isSameEntity_spec (a b : Entity) :
  isSameEntity a b
  = EntityType_eqb (e_type a) (e_type b)
    && sameString (e_normalizedValue (normalizeEntity a))
         (e_normalizedValue (normalizeEntity b)).
Proof.
  unfold isSameEntity. destruct (EntityType_eqb _ _); reflexivity.
Qed.

End SameEntityFacts.

(** X9: the relation [isSameEntity].  [normalizeEntity] is idempotent, and an
    entity is the same as its normal form; [isSameEntity] is reflexive,
    symmetric and transitive. *)
Theorem same_entity_equivalence :
  (forall e,
     EntityRecognizer.normalizeEntity (EntityRecognizer.normalizeEntity e)
     = EntityRecognizer.normalizeEntity e)
  /\ (forall e,
        EntityRecognizer.isSameEntity e (EntityRecognizer.normalizeEntity e)
        = true)
  /\ (forall e, EntityRecognizer.isSameEntity e e = true)
  /\ (forall a b,
        EntityRecognizer.isSameEntity a b = EntityRecognizer.isSameEntity b a)
  /\ (forall a b c,
        EntityRecognizer.isSameEntity a b = true ->
        EntityRecognizer.isSameEntity b c = true ->
        EntityRecognizer.isSameEntity a c = true).
Proof.
  split; [exact SameEntityFacts.normalizeEntity_idempotent|].
  split; [|split; [|split]].
  - intros e. rewrite SameEntityFacts.isSameEntity_spec.
    rewrite SameEntityFacts.normalizeEntity_type.
    rewrite SameEntityFacts.normalizeEntity_idempotent.
    unfold EntityType_eqb. rewrite String.eqb_refl.
    apply SameEntityFacts.sameString_refl.
  - intros e. rewrite SameEntityFacts.isSameEntity_spec.
    unfold EntityType_eqb. rewrite String.eqb_refl.
    apply SameEntityFacts.sameString_refl.
  - intros a b. rewrite !SameEntityFacts.isSameEntity_spec.
    unfold EntityType_eqb. rewrite String.eqb_sym. f_equal.
    apply SameEntityFacts.sameString_sym.
  - intros a b c. rewrite !SameEntityFacts.isSameEntity_spec.
    unfold EntityType_eqb. intros H1 H2.
    apply andb_prop in H1, H2. destruct H1 as [T1 S1], H2 as [T2 S2].
    apply String.eqb_eq in T1, T2. rewrite T1, T2, String.eqb_refl.
    exact (SameEntityFacts.sameString_trans _ _ _ S1 S2).
Qed.

(** ** The pattern tracker: history and confidence *)

Module TrackerFacts.
Import InteractionPatternTracker.

Lemma trackEvent_history (event : InteractionEvent) (t : Tracker) :
  List.length (interactionHistory t) <= 100 ->
  interactionHistory (trackEvent event t)
  = Js.slice_last 100 (interactionHistory t ++ [event])
  /\ List.length (interactionHistory (trackEvent event t)) <= 100.
Proof.
  intros L. unfold trackEvent, maxHistorySize, Js.slice_last.
  cbn [interactionHistory]. rewrite length_app. cbn [List.length].
  destruct (100 <? List.length (interactionHistory t) + 1) eqn:E.
  - apply Nat.ltb_lt in E.
    replace (List.length (interactionHistory t) + 1 - 100) with 1 by lia.
    destruct (interactionHistory t ++ [event]) as [|a r] eqn:P.
    + destruct (interactionHistory t); discriminate.
    + split; [reflexivity|].
      assert (List.length (a :: r) = List.length (interactionHistory t) + 1)
        by (rewrite <- P, length_app; reflexivity).
      simpl in *. lia.
  - apply Nat.ltb_ge in E.
    replace (List.length (interactionHistory t) + 1 - 100) with 0 by lia.
    split; [reflexivity|]. rewrite length_app. simpl. lia.
Qed.

(** Every record has been seen twice at least. *)
Definition seenTwice (ps : list InteractionPattern) : Prop :=
  Forall (fun p => (2 <= p_occurrences p)%Z) ps.

Lemma twice_update (touched : InteractionPattern -> bool)
  (f : InteractionPattern -> InteractionPattern) ps :
  (forall p, (2 <= p_occurrences p)%Z -> (2 <= p_occurrences (f p))%Z) ->
  seenTwice ps ->
  seenTwice (map (fun p => if touched p then f p else p) ps).
Proof.
  intros Hf K. unfold seenTwice in *. rewrite Forall_map.
  eapply Forall_impl; [|exact K]. intros p Hp. cbv beta.
  destruct (touched p); [apply Hf; exact Hp | exact Hp].
Qed.

Lemma twice_push ps p :
  (2 <= p_occurrences p)%Z -> seenTwice ps -> seenTwice (ps ++ [p]).
Proof.
  intros Hp K. apply Forall_app. split; [exact K|]. constructor; auto.
Qed.

Lemma sequentialStep_twice now ps entry :
  seenTwice ps -> seenTwice (sequentialStep now ps entry).
Proof.
  unfold sequentialStep. destruct entry as [sequence count]. intros K.
  destruct (2 <=? count)%Z eqn:G; [|exact K]. apply Z.leb_le in G.
  destruct (existsb _ ps).
  - apply twice_update; [|exact K]. intros p Hp. simpl. lia.
  - apply twice_push; [exact G | exact K].
Qed.

Section Miners.
Variable getHours : Z -> Z.

Lemma temporalStep_twice now userMessages ps entry :
  seenTwice ps -> seenTwice (temporalStep getHours now userMessages ps entry).
Proof.
  unfold temporalStep. destruct entry as [hourNum count]. intros K.
  destruct (3 <=? count)%Z eqn:G; [|exact K]. apply Z.leb_le in G.
  destruct (existsb _ ps).
  - apply twice_update; [|exact K]. intros p Hp. simpl. lia.
  - apply twice_push; [simpl; lia | exact K].
Qed.

Lemma intentionStep_twice now userMessages ps entry :
  seenTwice ps -> seenTwice (intentionStep now userMessages ps entry).
Proof.
  unfold intentionStep. destruct entry as [intention count]. intros K.
  destruct (_ && _) eqn:G; [|exact K].
  apply andb_prop in G. destruct G as [G _]. apply Z.leb_le in G.
  destruct (existsb _ ps).
  - apply (twice_update (isFrequency "intention" intention)); [|exact K].
    intros p Hp. simpl. lia.
  - apply twice_push; [simpl; lia | exact K].
Qed.

Lemma entityStep_twice now userMessages ps entry :
  seenTwice ps -> seenTwice (entityStep now userMessages ps entry).
Proof.
  unfold entityStep. destruct entry as [entityKey count]. intros K.
  destruct (2 <=? count)%Z eqn:G; [|exact K]. apply Z.leb_le in G.
  cbv zeta. destruct (existsb _ ps).
  - apply (twice_update (isFrequency "entity" entityKey)); [|exact K].
    intros p Hp. simpl. lia.
  - apply twice_push; [simpl; lia | exact K].
Qed.

Lemma analyze_twice now t :
  seenTwice (patterns t) ->
  seenTwice (patterns (analyzePatterns getHours now t)).
Proof.
  intros K. unfold analyzePatterns.
  assert (K1 : seenTwice (patterns (detectSequentialPatterns now t))).
  { unfold detectSequentialPatterns.
    destruct (_ <? 3); [exact K|]. destruct (_ <? 3); [exact K|].
    cbn [patterns]. apply PatternFacts.fold_invariant; [|exact K].
    intros; apply sequentialStep_twice; assumption. }
  set (t1 := detectSequentialPatterns now t) in *.
  assert (K2 : seenTwice (patterns (detectTemporalPatterns getHours now t1))).
  { unfold detectTemporalPatterns.
    destruct (_ <? 5); [exact K1|]. destruct (_ <? 5); [exact K1|].
    cbn [patterns]. apply PatternFacts.fold_invariant; [|exact K1].
    intros; apply temporalStep_twice; assumption. }
  set (t2 := detectTemporalPatterns getHours now t1) in *.
  unfold detectFrequencyPatterns. cbv zeta.
  destruct (_ <? 3); [exact K2|]. cbn [patterns].
  apply PatternFacts.fold_invariant;
    [intros; apply entityStep_twice; assumption|].
  apply PatternFacts.fold_invariant;
    [intros; apply intentionStep_twice; assumption|].
  exact K2.
Qed.

Lemma reachable_bounds t :
  PatternFacts.reachable getHours t ->
  List.length (interactionHistory t) <= 100 /\ seenTwice (patterns t).
Proof.
  induction 1 as [|now message t _ [L K]|event t _ [L K]|t _ [L K]].
  - split; [simpl; lia | constructor].
  - unfold trackMessage. split.
    + rewrite PatternFacts.analyze_history.
      apply trackEvent_history. exact L.
    + apply analyze_twice. exact K.
  - split; [apply trackEvent_history; exact L | exact K].
  - split; [exact L | constructor].
Qed.

End Miners.

Lemma confidenceOf_range (count : Z) :
  (2 <= count)%Z -> (0.7 <= confidenceOf count /\ confidenceOf count <= 0.9)%Q.
Proof.
  intros H. unfold confidenceOf, Js.Math_min.
  assert (C : (2 <= inject_Z count)%Q).
  { change 2%Q with (inject_Z 2). rewrite <- Zle_Qle. exact H. }
  destruct (Q.min_spec (0.5 + inject_Z count * 0.1) 0.9) as [[? E]|[? E]];
    rewrite E; split; lra.
Qed.

End TrackerFacts.

(** X10: the history of the tracker is a queue of a hundred events.  In every
    state of the tracker the history holds a hundred events at most, and
    [trackEvent] leaves in it the last hundred of the events that it held
    and the new one; [trackMessage] does the same with the event of the
    message. *)
Theorem tracker_history_bounded
  (getHours : Z -> Z) (t : InteractionPatternTracker.Tracker) :
  PatternFacts.reachable getHours t ->
  List.length (InteractionPatternTracker.interactionHistory t) <= 100
  /\ (forall event,
        InteractionPatternTracker.interactionHistory
          (InteractionPatternTracker.trackEvent event t)
        = Js.slice_last 100
            (InteractionPatternTracker.interactionHistory t ++ [event]))
  /\ (forall now message,
        exists event,
          InteractionPatternTracker.ev_timestamp event = m_timestamp message
          /\ InteractionPatternTracker.d_message
               (InteractionPatternTracker.ev_data event) = message
          /\ InteractionPatternTracker.interactionHistory
               (InteractionPatternTracker.trackMessage getHours now message t)
             = Js.slice_last 100
                 (InteractionPatternTracker.interactionHistory t ++ [event])).
Proof.
  intros R. destruct (TrackerFacts.reachable_bounds getHours t R) as [L _].
  split; [exact L|]. split.
  - intros event. apply TrackerFacts.trackEvent_history. exact L.
  - intros now message. eexists. split; [|split].
    3: { unfold InteractionPatternTracker.trackMessage.
         rewrite PatternFacts.analyze_history.
         apply TrackerFacts.trackEvent_history. exact L. }
    + reflexivity.
    + reflexivity.
Qed.

Lemma tracker_history_bounded_witness :
  List.length
    (InteractionPatternTracker.interactionHistory PatternFacts.threeTurns)
  <= 100.
Proof.
  refine (proj1 (tracker_history_bounded PatternFacts.utcHours
                   PatternFacts.threeTurns _)).
  unfold PatternFacts.threeTurns. repeat constructor.
Defined.

(** X11: the confidence of the patterns.  In every state of the tracker each
    pattern has been counted twice at least and its confidence, which is
    min(0.5 + 0.1 * occurrences, 0.9), lies between 0.7 and 0.9; so
    [getHighConfidencePatterns] with its default threshold of 0.7 returns
    every pattern. *)
Theorem tracker_confidence_range
  (getHours : Z -> Z) (t : InteractionPatternTracker.Tracker) :
  PatternFacts.reachable getHours t ->
  (forall p,
     In p (InteractionPatternTracker.patterns t) ->
     (2 <= InteractionPatternTracker.p_occurrences p)%Z
     /\ (0.7 <= InteractionPatternTracker.p_confidence p
         /\ InteractionPatternTracker.p_confidence p <= 0.9)%Q)
  /\ InteractionPatternTracker.getHighConfidencePatterns 0.7 t
     = InteractionPatternTracker.getPatterns t.
Proof.
  intros R.
  destruct (TrackerFacts.reachable_bounds getHours t R) as [_ K].
  destruct (PatternFacts.reachable_invariant getHours t R) as [_ C].
  assert (A : forall p,
            In p (InteractionPatternTracker.patterns t) ->
            (2 <= InteractionPatternTracker.p_occurrences p)%Z
            /\ (0.7 <= InteractionPatternTracker.p_confidence p
                /\ InteractionPatternTracker.p_confidence p <= 0.9)%Q).
  { intros p Hp. unfold TrackerFacts.seenTwice in K.
    unfold PatternFacts.confidenceKept in C.
    rewrite Forall_forall in K, C.
    split; [exact (K p Hp)|]. rewrite (C p Hp).
    apply TrackerFacts.confidenceOf_range. exact (K p Hp). }
  split; [exact A|].
  unfold InteractionPatternTracker.getHighConfidencePatterns,
    InteractionPatternTracker.getPatterns.
  apply forallb_filter_id. apply forallb_forall. intros p Hp.
  apply Qle_bool_iff. apply A. exact Hp.
Qed.

Lemma tracker_confidence_range_witness :
  InteractionPatternTracker.getHighConfidencePatterns 0.7
    (InteractionPatternTracker.trackMessage PatternFacts.utcHours 4
       (PatternFacts.says QUESTION_FACTUAL 4) PatternFacts.threeTurns)
  = InteractionPatternTracker.getPatterns
      (InteractionPatternTracker.trackMessage PatternFacts.utcHours 4
         (PatternFacts.says QUESTION_FACTUAL 4) PatternFacts.threeTurns).
Proof.
  refine (proj2 (tracker_confidence_range PatternFacts.utcHours _ _)).
  unfold PatternFacts.threeTurns. repeat constructor.
Defined.

(** X12: [resetPatterns] forgets the patterns and keeps the history.  The next
    message brings back a record for every 2-step sequence that the kept
    history and the message show twice or more, counted over the whole
    history: the one record of the sequence is a new one whose occurrences
    are that count. *)
Theorem reset_keeps_history
  (getHours : Z -> Z) (now : Z) (message : EnhancedMessage)
  (t : InteractionPatternTracker.Tracker) (sequence : string) :
  let t0 := InteractionPatternTracker.resetPatterns t in
  let t' := InteractionPatternTracker.trackMessage getHours now message t0 in
  let userMessages :=
    filter InteractionPatternTracker.isUserMessage
      (InteractionPatternTracker.interactionHistory t') in
  2 <= PatternFacts.timesObserved userMessages sequence ->
  InteractionPatternTracker.patterns t0 = []
  /\ InteractionPatternTracker.interactionHistory t0
     = InteractionPatternTracker.interactionHistory t
  /\ PatternFacts.recordsOf sequence (InteractionPatternTracker.patterns t')
     = [InteractionPatternTracker.newSequential now sequence
          (Z.of_nat (PatternFacts.timesCounted userMessages sequence))].
Proof.
  cbv zeta. intros H. split; [reflexivity|]. split; [reflexivity|].
  rewrite (PatternFacts.trackMessage_records getHours now message
             (InteractionPatternTracker.resetPatterns t) sequence H).
  reflexivity.
Qed.

Lemma reset_keeps_history_witness :
  PatternFacts.recordsOf PatternFacts.greetingThenQuestion
    (InteractionPatternTracker.patterns
       (InteractionPatternTracker.trackMessage PatternFacts.utcHours 4
          (PatternFacts.says QUESTION_FACTUAL 4)
          (InteractionPatternTracker.resetPatterns PatternFacts.threeTurns)))
  = [InteractionPatternTracker.newSequential 4
       PatternFacts.greetingThenQuestion 2].
Proof.
  refine (proj2 (proj2 (reset_keeps_history PatternFacts.utcHours 4
                          (PatternFacts.says QUESTION_FACTUAL 4)
                          PatternFacts.threeTurns
                          PatternFacts.greetingThenQuestion _))).
  vm_compute. lia.
Defined.

(** ** The intention recognizer *)

Module RecognizerFacts.
Import IntentionRecognizer.

(** *** The primary intention *)

(** The score that the comparator of [getPrimaryIntention] orders by. *)
Definition primaryScore (i : UserIntention) : Q :=
  (ui_confidence i * 0.7 + inject_Z (ui_lastDetected i) * 0.3)%Q.

Lemma inject_Z_sub (a b : Z) : (inject_Z (a - b) == inject_Z a - inject_Z b)%Q.
Proof.
  unfold Z.sub. rewrite inject_Z_plus, inject_Z_opp. reflexivity.
Qed.

Lemma byConfidenceAndRecency_spec (a b : UserIntention) :
  byConfidenceAndRecency a b = true <-> (primaryScore b <= primaryScore a)%Q.
Proof.
  unfold byConfidenceAndRecency, primaryScore. cbv zeta.
  rewrite Qle_bool_iff, inject_Z_sub. split; intros H; lra.
Qed.

Lemma byConfidenceAndRecency_total (x y : UserIntention) :
  byConfidenceAndRecency x y = false -> byConfidenceAndRecency y x = true.
Proof.
  intros H. apply byConfidenceAndRecency_spec.
  destruct (Qlt_le_dec (primaryScore x) (primaryScore y)) as [L|L].
  - apply Qlt_le_weak. exact L.
  - apply byConfidenceAndRecency_spec in L. congruence.
Qed.

Lemma byConfidenceAndRecency_trans (x y z : UserIntention) :
  byConfidenceAndRecency x y = true -> byConfidenceAndRecency y z = true ->
  byConfidenceAndRecency x z = true.
Proof.
  rewrite !byConfidenceAndRecency_spec. intros H1 H2. lra.
Qed.

(** *** What is recognized in a message *)

Lemma patterns_in_pairs :
  Forall (fun tp => List.length (snd tp) = 2) intentionPatterns.
Proof. repeat constructor. Qed.

(** The confidence of an intention that one or two patterns of its type
    have recognized, and that of the fallback. *)
Definition recognizedConfidence (q : Q) : Prop :=
  (q == 0.3 \/ q == 0.6 \/ q == 0.7)%Q.

Lemma extracted_spec (now : Z) (message : Message) (context : Context)
  (i : UserIntention) :
  In i (extractIntentionsFromMessage now message context) ->
  recognizedConfidence (ui_confidence i)
  /\ ui_status i = "active"
  /\ ui_firstDetected i = now /\ ui_lastDetected i = now.
Proof.
  unfold extractIntentionsFromMessage.
  destruct (msg_content message) as [content|fields]; [|intros []].
  match goal with
  | |- In i (match ?l with [] => _ | _ :: _ => _ end) -> _ =>
      set (intentions := l)
  end.
  assert (K : forall j, In j intentions ->
            recognizedConfidence (ui_confidence j)
            /\ ui_status j = "active"
            /\ ui_firstDetected j = now /\ ui_lastDetected j = now).
  { intros j Hj. unfold intentions in Hj. apply in_flat_map in Hj.
    destruct Hj as (tp & Htp & Hj).
    pose proof patterns_in_pairs as P. rewrite Forall_forall in P.
    specialize (P tp Htp).
    pose proof (filter_length_le
                  (fun pattern => RegExp.test pattern content) (snd tp)) as L.
    rewrite P in L.
    destruct (filter _ (snd tp)) as [|p1 [|p2 [|p3 r]]]; simpl in L;
      [destruct Hj | | | lia];
      destruct Hj as [<-|[]]; (split; [|repeat split]);
      unfold recognizedConfidence; cbn [ui_confidence];
      [right; left | right; right]; vm_compute; reflexivity. }
  destruct intentions as [|j r] eqn:E.
  - intros [<-|[]]. split; [left; reflexivity | repeat split].
  - intros H. exact (K i H).
Qed.

Lemma extracted_nonempty (now : Z) (content : string) (message : Message)
  (context : Context) :
  msg_content message = Text content ->
  extractIntentionsFromMessage now message context <> [].
Proof.
  intros E. unfold extractIntentionsFromMessage. rewrite E.
  destruct (flat_map _ intentionPatterns); discriminate.
Qed.

(** *** The states of a recognizer *)

Inductive reached : State -> Prop :=
| reached_init : reached init
| reached_message now message context s :
    reached s -> reached (snd (recognizeIntentions now message context s))
| reached_load context s : reached s -> reached (loadFromContext context s)
| reached_reset s : reached s -> reached (reset s).

(** Each active intention is kept under its identifier. *)
Definition keyed (m : JsMap.t UserIntention) : Prop :=
  Forall (fun kv => ui_id (snd kv) = fst kv) m.

Lemma keyed_get (m : JsMap.t UserIntention) (k : string) (v : UserIntention) :
  keyed m -> JsMap.get k m = Some v -> ui_id v = k.
Proof.
  intros K G. apply JsMapFacts.get_in in G.
  unfold keyed in K. rewrite Forall_forall in K. exact (K (k, v) G).
Qed.

Lemma keyed_set (m : JsMap.t UserIntention) (k : string) (v : UserIntention) :
  ui_id v = k -> keyed m -> keyed (JsMap.set k v m).
Proof.
  intros E. unfold keyed. induction 1 as [|[k' v'] r H K IH]; simpl.
  - repeat constructor. exact E.
  - destruct (String.eqb k k'); constructor; auto.
Qed.

Lemma keyed_delete (m : JsMap.t UserIntention) (k : string) :
  keyed m -> keyed (JsMap.delete k m).
Proof.
  unfold keyed. induction 1 as [|[k' v'] r H K IH]; simpl; [constructor|].
  destruct (String.eqb k k'); [exact IH | constructor; auto].
Qed.

Lemma updateIntention_keyed (now : Z) (s : State) (i : UserIntention) :
  keyed (activeIntentions s) ->
  keyed (activeIntentions (updateIntention now s i)).
Proof.
  intros K. unfold updateIntention.
  destruct (JsMap.get (ui_id i) (activeIntentions s)) as [x|] eqn:G;
    cbn [activeIntentions ui_id]; apply keyed_set; try exact K;
    reflexivity.
Qed.

Lemma updateAll_keyed (now : Z) (l : list UserIntention) (s : State) :
  keyed (activeIntentions s) ->
  keyed (activeIntentions (fold_left (updateIntention now) l s)).
Proof.
  revert s. induction l as [|i l IH]; simpl; intros s K; [exact K|].
  apply IH, updateIntention_keyed, K.
Qed.

Lemma lifespans_keyed (now : Z) (s : State) :
  keyed (activeIntentions s) ->
  keyed (activeIntentions (updateIntentionLifespans now s)).
Proof.
  intros K. unfold updateIntentionLifespans. cbn [activeIntentions].
  assert (G : forall l m, keyed l -> keyed m ->
                          keyed (fold_left (lifespanStep now) l m)).
  { induction l as [|[k v] l IH]; simpl; intros m Kl Km; [exact Km|].
    inversion Kl as [|? ? E Kl']; subst. simpl in E.
    apply IH; [exact Kl'|].
    destruct (_ >? tenMinutes)%Z; [apply keyed_delete; exact Km|].
    destruct (_ >? fiveMinutes)%Z; [|exact Km].
    apply keyed_set; [exact E | exact Km]. }
  apply G; exact K.
Qed.

Lemma reached_keyed (s : State) : reached s -> keyed (activeIntentions s).
Proof.
  induction 1 as [|now message context s _ IH|context s _ IH|s _ IH].
  - constructor.
  - unfold recognizeIntentions.
    destruct (negb _); [exact IH|]. cbn [snd].
    apply updateAll_keyed, lifespans_keyed, IH.
  - unfold loadFromContext.
    apply (PatternFacts.fold_invariant (fun s => keyed (activeIntentions s)));
      [|exact IH].
    intros a b Ka. destruct (String.eqb (ui_status b) "active");
      cbn [activeIntentions]; [apply keyed_set; [reflexivity | exact Ka]
                              | exact Ka].
  - constructor.
Qed.

(** The intention at the identifier of [i] once [i] has been recognized at
    [now]. *)
Definition activeAt (now : Z) (s : State) (i : UserIntention) : Prop :=
  exists j,
    JsMap.get (ui_id i) (activeIntentions s) = Some j
    /\ In j (getActiveIntentions s)
    /\ ui_id j = ui_id i
    /\ ui_lastDetected j = now
    /\ (ui_confidence i <= ui_confidence j)%Q.

Lemma get_active (s : State) (k : string) (j : UserIntention) :
  JsMap.get k (activeIntentions s) = Some j -> ui_status j = "active" ->
  In j (getActiveIntentions s).
Proof.
  intros G A. unfold getActiveIntentions. apply filter_In. split.
  - apply JsMapFacts.get_in in G. unfold JsMap.values.
    apply in_map_iff. exists (k, j). auto.
  - rewrite A. reflexivity.
Qed.

Lemma updateIntention_active (now : Z) (s : State) (i : UserIntention) :
  keyed (activeIntentions s) -> ui_status i = "active" ->
  activeAt now (updateIntention now s i) i.
Proof.
  intros K A. unfold activeAt.
  assert (H : exists j,
            JsMap.get (ui_id i) (activeIntentions (updateIntention now s i))
            = Some j
            /\ ui_status j = "active"
            /\ ui_id j = ui_id i
            /\ ui_lastDetected j = now
            /\ (ui_confidence i <= ui_confidence j)%Q).
  { unfold updateIntention.
    destruct (JsMap.get (ui_id i) (activeIntentions s)) as [x|] eqn:G;
      cbn [activeIntentions ui_id].
    - rewrite (keyed_get _ _ _ K G). eexists.
      split; [apply JsMapFacts.get_set_eq|].
      cbn [ui_id ui_lastDetected ui_confidence ui_status]. rewrite A.
      split; [reflexivity|]. split; [reflexivity|].
      split; [reflexivity|]. apply Q.le_max_r.
    - eexists. split; [apply JsMapFacts.get_set_eq|].
      cbn [ui_id ui_lastDetected ui_confidence ui_status]. rewrite A.
      split; [reflexivity|]. split; [reflexivity|].
      split; [reflexivity|]. apply Qle_refl. }
  destruct H as (j & G & St & R). exists j. split; [exact G|].
  split; [exact (get_active _ _ _ G St) | exact R].
Qed.

Lemma updateIntention_keeps_active (now : Z) (s : State)
  (i i' : UserIntention) :
  keyed (activeIntentions s) -> ui_status i' = "active" ->
  activeAt now s i -> activeAt now (updateIntention now s i') i.
Proof.
  intros K A (j & G & Act & Ej & L & C).
  destruct (string_dec (ui_id i') (ui_id i)) as [E|N].
  - destruct (updateIntention_active now s i' K A) as (j' & G' & Act' & R').
    rewrite E in G'. exists j'. split; [exact G'|]. split; [exact Act'|].
    destruct R' as (Ej' & L' & C'). split; [congruence|].
    split; [exact L'|].
    revert C'. unfold updateIntention in G'. rewrite E, G in G'.
    cbn [activeIntentions ui_id] in G'. rewrite Ej in G'.
    rewrite JsMapFacts.get_set_eq in G'. injection G' as <-.
    cbn [ui_confidence]. intros _.
    eapply Qle_trans; [exact C | apply Q.le_max_l].
  - assert (G' : JsMap.get (ui_id i)
                   (activeIntentions (updateIntention now s i')) = Some j).
    { unfold updateIntention.
      destruct (JsMap.get (ui_id i') (activeIntentions s)) as [x|] eqn:Gx;
        cbn [activeIntentions ui_id].
      - rewrite (keyed_get _ _ _ K Gx).
        rewrite JsMapFacts.get_set_neq by congruence. exact G.
      - rewrite JsMapFacts.get_set_neq by congruence. exact G. }
    exists j. split; [exact G'|]. split; [|auto].
    apply (get_active _ _ _ G').
    unfold getActiveIntentions in Act. apply filter_In in Act.
    destruct Act as [_ Act]. apply String.eqb_eq in Act. exact Act.
Qed.

Lemma updateAll_active (now : Z) (l : list UserIntention) (s : State)
  (i : UserIntention) :
  keyed (activeIntentions s) ->
  Forall (fun i' => ui_status i' = "active") l -> In i l ->
  activeAt now (fold_left (updateIntention now) l s) i.
Proof.
  assert (Keep : forall l s, keyed (activeIntentions s) ->
                   Forall (fun i' => ui_status i' = "active") l ->
                   activeAt now s i ->
                   activeAt now (fold_left (updateIntention now) l s) i).
  { clear. induction l as [|i' l IH]; simpl; intros s K F A; [exact A|].
    inversion F; subst.
    apply IH; [apply updateIntention_keyed; exact K | assumption|].
    apply updateIntention_keeps_active; assumption. }
  revert s. induction l as [|i' l IH]; simpl; intros s K F H; [tauto|].
  inversion F; subst. destruct H as [->|H].
  - apply Keep; [apply updateIntention_keyed; exact K | assumption|].
    apply updateIntention_active; assumption.
  - apply IH; [apply updateIntention_keyed; exact K | assumption | exact H].
Qed.

(** A recognizer that has seen nothing, and a message of the user. *)
Definition userText (content : string) (timestamp : Z) : Message :=
  {| msg_id := "m"; msg_role := Some "user"; msg_sender := "user";
     msg_content := Text content; msg_timestamp := timestamp |}.

Definition noContext : Context :=
  {| ctx_entities := []; ctx_userIntentions := [];
     ctx_conversationState := None; ctx_environmentalFactors := [];
     ctx_userPreferences := []; ctx_recentMessages := [];
     ctx_conversationId := "c" |}.

End RecognizerFacts.

(** X13: the primary intention of the recognizer.  There is none exactly when no
    intention is active; else it is an active intention whose score, 0.7 of
    the confidence and 0.3 of the instant of the last detection in
    milliseconds, is the highest.  So between intentions whose confidence
    lies between 0 and 1 recency decides: no active intention was detected
    three milliseconds or more after the primary one. *)
Theorem recognizer_primary_intention (s : IntentionRecognizer.State) :
  let active := IntentionRecognizer.getActiveIntentions s in
  match IntentionRecognizer.getPrimaryIntention s with
  | None => active = []
  | Some primary =>
      In primary active
      /\ (forall x, In x active ->
            (RecognizerFacts.primaryScore x
             <= RecognizerFacts.primaryScore primary)%Q)
      /\ (forall x, In x active ->
            (0 <= ui_confidence x)%Q -> (ui_confidence primary <= 1)%Q ->
            (ui_lastDetected x <= ui_lastDetected primary + 2)%Z)
  end.
Proof.
  cbv zeta. unfold IntentionRecognizer.getPrimaryIntention.
  destruct (IntentionRecognizer.getActiveIntentions s) as [|a r] eqn:A;
    [reflexivity|].
  set (active := a :: r).
  pose proof (RankFacts.sort_strongly UserIntention
                IntentionRecognizer.byConfidenceAndRecency
                RecognizerFacts.byConfidenceAndRecency_total
                RecognizerFacts.byConfidenceAndRecency_trans active) as S.
  pose proof (SortFacts.sort_in UserIntention
                IntentionRecognizer.byConfidenceAndRecency active) as I.
  destruct (Js.sort IntentionRecognizer.byConfidenceAndRecency active)
    as [|p rest] eqn:E.
  - exfalso. apply (proj2 (I a)). left. reflexivity.
  - cbn [hd_error].
    assert (M : forall x, In x active ->
              (RecognizerFacts.primaryScore x
               <= RecognizerFacts.primaryScore p)%Q).
    { intros x Hx. apply I in Hx. destruct Hx as [<-|Hx]; [apply Qle_refl|].
      inversion S as [|? ? _ F]; subst. rewrite Forall_forall in F.
      apply RecognizerFacts.byConfidenceAndRecency_spec. exact (F x Hx). }
    split; [apply I; left; reflexivity|]. split; [exact M|].
    intros x Hx C0 C1. specialize (M x Hx).
    unfold RecognizerFacts.primaryScore in M.
    assert (D : (inject_Z (ui_lastDetected x)
                 < inject_Z (ui_lastDetected p + 3))%Q).
    { rewrite inject_Z_plus. change (inject_Z 3) with 3%Q. lra. }
    rewrite <- Zlt_Qlt in D. lia.
Qed.

(** X14: what the recognizer finds in a text of the user.  It recognizes one
    intention at least; the confidence of each is 0.3 for the fallback, 0.6
    or 0.7, so the cap of 0.9 is never reached; and after the call each
    recognized intention is among the active intentions under its
    identifier, detected at the instant of the call, with a confidence that
    is not below the recognized one. *)
Theorem recognized_intentions_are_active
  (now : Z) (message : Message) (context : Context)
  (s : IntentionRecognizer.State) (content : string) :
  RecognizerFacts.reached s ->
  msg_role message = Some "user" ->
  msg_content message = Text content ->
  let result :=
    IntentionRecognizer.recognizeIntentions now message context s in
  fst result <> []
  /\ forall i,
       In i (fst result) ->
       RecognizerFacts.recognizedConfidence (ui_confidence i)
       /\ exists j,
            JsMap.get (ui_id i)
              (IntentionRecognizer.activeIntentions (snd result)) = Some j
            /\ In j (IntentionRecognizer.getActiveIntentions (snd result))
            /\ ui_id j = ui_id i
            /\ ui_lastDetected j = now
            /\ (ui_confidence i <= ui_confidence j)%Q.
Proof.
  intros R Role Content. cbv zeta.
  unfold IntentionRecognizer.recognizeIntentions. rewrite Role.
  cbn [String.eqb Ascii.eqb Bool.eqb negb fst snd].
  split; [exact (RecognizerFacts.extracted_nonempty now content message
                   context Content)|].
  intros i Hi.
  split; [exact (proj1 (RecognizerFacts.extracted_spec now message context
                          i Hi))|].
  apply RecognizerFacts.updateAll_active; [| |exact Hi].
  - apply RecognizerFacts.lifespans_keyed, RecognizerFacts.reached_keyed, R.
  - apply Forall_forall. intros i' Hi'.
    exact (proj1 (proj2 (RecognizerFacts.extracted_spec now message context
                           i' Hi'))).
Qed.

Lemma recognized_intentions_are_active_witness :
  exists i,
    In i (fst (IntentionRecognizer.recognizeIntentions 7
                 (RecognizerFacts.userText "what is a monad" 7)
                 RecognizerFacts.noContext IntentionRecognizer.init))
    /\ ui_type i = "information_request"
    /\ RecognizerFacts.recognizedConfidence (ui_confidence i).
Proof.
  eexists. split; [left; reflexivity|]. split; [reflexivity|].
  refine (proj1 (proj2 (recognized_intentions_are_active 7
                          (RecognizerFacts.userText "what is a monad" 7)
                          RecognizerFacts.noContext IntentionRecognizer.init
                          "what is a monad" RecognizerFacts.reached_init
                          eq_refl eq_refl) _ _)).
  left. reflexivity.
Defined.

(** ** The entity tracker *)

Module TrackingFacts.
Import EntityTracker.

(** The states that a tracker goes through. *)
Inductive tracked : State -> Prop :=
| tracked_init now : tracked (init now)
| tracked_message now message s updated s' :
    tracked s -> processMessage now message s = Some (updated, s') ->
    tracked s'
| tracked_update now entityUpdate s :
    tracked s -> tracked (updateEntity now s entityUpdate)
| tracked_load now context s :
    tracked s -> tracked (loadFromContext now context s)
| tracked_reset now s : tracked s -> tracked (reset now s).

(** *** Lookups *)

Lemma has_set {V} (m : JsMap.t V) (k k' : string) (v : V) :
  JsMap.has k (JsMap.set k' v m) = String.eqb k k' || JsMap.has k m.
Proof.
  unfold JsMap.has. destruct (String.eqb k k') eqn:E.
  - apply String.eqb_eq in E. subst. rewrite JsMapFacts.get_set_eq.
    reflexivity.
  - apply String.eqb_neq in E. rewrite JsMapFacts.get_set_neq by exact E.
    reflexivity.
Qed.

Lemma has_delete {V} (m : JsMap.t V) (k k' : string) :
  JsMap.has k (JsMap.delete k' m) = negb (String.eqb k k') && JsMap.has k m.
Proof.
  unfold JsMap.has. destruct (String.eqb k k') eqn:E.
  - apply String.eqb_eq in E. subst. rewrite JsMapFacts.get_delete_eq.
    reflexivity.
  - apply String.eqb_neq in E. rewrite JsMapFacts.get_delete_neq by exact E.
    reflexivity.
Qed.

(** *** The invariant of the two maps *)

Record sound (s : State) : Prop := mkSound {
  sound_keys : NoDup (JsMap.keys (entityLifespan s));
  sound_ids :
    forall k e, JsMap.get k (entities s) = Some e -> te_id e = k;
  sound_agree :
    forall k, JsMap.has k (entities s) = JsMap.has k (entityLifespan s);
  sound_positive :
    forall k l, JsMap.get k (entityLifespan s) = Some l -> (0 < l)%Q
}.

Lemma init_sound (now : Z) : sound (init now).
Proof.
  constructor; simpl; try discriminate; try reflexivity. constructor.
Qed.

Lemma updateEntity_sound (now : Z) (s : State) (u : EntityUpdate) :
  sound s -> sound (updateEntity now s u).
Proof.
  intros [D I A P]. unfold updateEntity.
  destruct (JsMap.get (u_id u) (entities s)) as [x|] eqn:G.
  - pose proof (I _ _ G) as Ex.
    unfold updateEntityLifespan. cbn [entities entityLifespan te_id].
    rewrite Ex. constructor; cbn [entities entityLifespan].
    + apply PatternFacts.set_nodup. exact D.
    + intros k e Ge. destruct (string_dec k (u_id u)) as [->|N].
      * rewrite JsMapFacts.get_set_eq in Ge. injection Ge as <-. reflexivity.
      * rewrite JsMapFacts.get_set_neq in Ge by exact N. exact (I k e Ge).
    + intros k. rewrite !has_set, A. reflexivity.
    + intros k l Gl. destruct (string_dec k (u_id u)) as [->|N].
      * rewrite JsMapFacts.get_set_eq in Gl. injection Gl as <-.
        unfold Js.Math_min, Js.orQ.
        destruct (JsMap.get (u_id u) (entityLifespan s)) as [l0|] eqn:G0.
        -- pose proof (P _ _ G0) as P0.
           destruct (Qeq_bool l0 0);
             apply Q.min_glb_lt; lra.
        -- apply Q.min_glb_lt; lra.
      * rewrite JsMapFacts.get_set_neq in Gl by exact N. exact (P k l Gl).
  - constructor; cbn [entities entityLifespan te_id].
    + apply PatternFacts.set_nodup. exact D.
    + intros k e Ge. destruct (string_dec k (u_id u)) as [->|N].
      * rewrite JsMapFacts.get_set_eq in Ge. injection Ge as <-. reflexivity.
      * rewrite JsMapFacts.get_set_neq in Ge by exact N. exact (I k e Ge).
    + intros k. rewrite !has_set, A. reflexivity.
    + intros k l Gl. destruct (string_dec k (u_id u)) as [->|N].
      * rewrite JsMapFacts.get_set_eq in Gl. injection Gl as <-. lra.
      * rewrite JsMapFacts.get_set_neq in Gl by exact N. exact (P k l Gl).
Qed.

Lemma updateAll_sound (now : Z) (us : list EntityUpdate) (s : State) :
  sound s -> sound (fold_left (updateEntity now) us s).
Proof.
  revert s. induction us as [|u us IH]; simpl; intros s S; [exact S|].
  apply IH, updateEntity_sound, S.
Qed.

Lemma cleanupStep_sound (now : Z) (s : State) (entry : string * Q) :
  sound s -> sound (cleanupStep now s entry).
Proof.
  intros [D I A P]. unfold cleanupStep. destruct entry as [id lifespan].
  destruct (JsMap.get id (entities s)) as [x|] eqn:G.
  - match goal with
    | |- sound (if Qle_bool ?n 0 then _ else _) =>
        assert (L : Qle_bool n 0 = false -> (0 < n)%Q)
          by (intros F; apply Qnot_le_lt; intros C;
              apply Qle_bool_iff in C; congruence);
        destruct (Qle_bool n 0)
    end; constructor; cbn [entities entityLifespan].
    + apply FocusFacts.delete_nodup. exact D.
    + intros k e Ge. destruct (string_dec k id) as [->|N].
      * rewrite JsMapFacts.get_delete_eq in Ge. discriminate.
      * rewrite JsMapFacts.get_delete_neq in Ge by exact N. exact (I k e Ge).
    + intros k. rewrite !has_delete, A. reflexivity.
    + intros k l Gl. destruct (string_dec k id) as [->|N].
      * rewrite JsMapFacts.get_delete_eq in Gl. discriminate.
      * rewrite JsMapFacts.get_delete_neq in Gl by exact N. exact (P k l Gl).
    + apply PatternFacts.set_nodup. exact D.
    + intros k e Ge. destruct (string_dec k id) as [->|N].
      * rewrite JsMapFacts.get_set_eq in Ge. injection Ge as <-.
        exact (I _ _ G).
      * rewrite JsMapFacts.get_set_neq in Ge by exact N. exact (I k e Ge).
    + intros k. rewrite !has_set, A. reflexivity.
    + intros k l Gl. destruct (string_dec k id) as [->|N].
      * rewrite JsMapFacts.get_set_eq in Gl. injection Gl as <-.
        apply L. reflexivity.
      * rewrite JsMapFacts.get_set_neq in Gl by exact N. exact (P k l Gl).
  - constructor; cbn [entities entityLifespan].
    + apply FocusFacts.delete_nodup. exact D.
    + exact I.
    + intros k. rewrite has_delete, <- A.
      destruct (String.eqb k id) eqn:E; [|reflexivity].
      apply String.eqb_eq in E. subst. unfold JsMap.has. rewrite G.
      reflexivity.
    + intros k l Gl. destruct (string_dec k id) as [->|N].
      * rewrite JsMapFacts.get_delete_eq in Gl. discriminate.
      * rewrite JsMapFacts.get_delete_neq in Gl by exact N. exact (P k l Gl).
Qed.

Lemma cleanup_sound (now : Z) (s : State) :
  sound s -> sound (cleanupStaleEntities now s).
Proof.
  intros S. unfold cleanupStaleEntities.
  destruct (_ <? 60000)%Z; [exact S|].
  apply PatternFacts.fold_invariant;
    [intros; apply cleanupStep_sound; assumption|].
  destruct S as [D I A P]. constructor; assumption.
Qed.

Lemma processMessage_sound (now : Z) (message : Message) (s : State)
  (updated : list EntityUpdate) (s' : State) :
  processMessage now message s = Some (updated, s') -> sound s -> sound s'.
Proof.
  unfold processMessage. intros E S.
  destruct (extractEntitiesFromMessage now message); [|discriminate].
  injection E as _ <-. apply updateAll_sound, cleanup_sound, S.
Qed.

Lemma loadFromContext_sound (now : Z) (context : Context) (s : State) :
  sound s -> sound (loadFromContext now context s).
Proof.
  unfold loadFromContext. apply PatternFacts.fold_invariant.
  clear s. intros s entity [D I A P].
  constructor; cbn [entities entityLifespan].
  - apply PatternFacts.set_nodup. exact D.
  - intros k e Ge. destruct (string_dec k (te_id entity)) as [->|N].
    + rewrite JsMapFacts.get_set_eq in Ge. injection Ge as <-. reflexivity.
    + rewrite JsMapFacts.get_set_neq in Ge by exact N. exact (I k e Ge).
  - intros k. rewrite !has_set, A. reflexivity.
  - intros k l Gl. destruct (string_dec k (te_id entity)) as [->|N].
    + rewrite JsMapFacts.get_set_eq in Gl. injection Gl as <-.
      change 0%Q with (inject_Z 0). rewrite <- Zlt_Qlt. lia.
    + rewrite JsMapFacts.get_set_neq in Gl by exact N. exact (P k l Gl).
Qed.

Lemma tracked_sound (s : State) : tracked s -> sound s.
Proof.
  induction 1 as [now|now message s updated s' _ IH E|now u s _ IH
                  |now context s _ IH|now s _ IH].
  - apply init_sound.
  - exact (processMessage_sound now message s updated s' E IH).
  - apply updateEntity_sound, IH.
  - apply loadFromContext_sound, IH.
  - apply init_sound.
Qed.

(** *** What a call of [processMessage] does to one entity *)






(** The entity at the identifier of an update once the update has been
    applied at [now], and its lifespan. *)
Definition trackedAt (now : Z) (s : State) (id : string) : Prop :=
  exists e l,
    JsMap.get id (entities s) = Some e
    /\ te_id e = id /\ te_lastMentioned e = now
    /\ JsMap.get id (entityLifespan s) = Some l /\ (1 <= l)%Q.

Lemma updateEntity_tracked (now : Z) (s : State) (u : EntityUpdate) :
  sound s -> trackedAt now (updateEntity now s u) (u_id u).
Proof.
  intros S. unfold trackedAt, updateEntity.
  destruct (JsMap.get (u_id u) (entities s)) as [x|] eqn:Gx.
  - unfold updateEntityLifespan. cbn [entities entityLifespan te_id].
    rewrite (sound_ids s S _ _ Gx). eexists. eexists.
    split; [apply JsMapFacts.get_set_eq|]. split; [reflexivity|].
    split; [reflexivity|]. split; [apply JsMapFacts.get_set_eq|].
    unfold Js.Math_min, Js.orQ.
    destruct (JsMap.get (u_id u) (entityLifespan s)) as [l0|] eqn:G0.
    + pose proof (sound_positive s S _ _ G0) as P0.
      destruct (Qeq_bool l0 0); apply Q.min_glb; lra.
    + apply Q.min_glb; lra.
  - cbn [entities entityLifespan te_id]. eexists. eexists.
    split; [apply JsMapFacts.get_set_eq|]. split; [reflexivity|].
    split; [reflexivity|]. split; [apply JsMapFacts.get_set_eq|]. lra.
Qed.

Lemma updateEntity_keeps_tracked (now : Z) (s : State) (u : EntityUpdate)
  (id : string) :
  sound s -> trackedAt now s id -> trackedAt now (updateEntity now s u) id.
Proof.
  intros S (e & l & G & Ei & L & Gl & Ll).
  destruct (string_dec (u_id u) id) as [<-|N].
  - apply updateEntity_tracked. exact S.
  - exists e, l. unfold updateEntity.
    destruct (JsMap.get (u_id u) (entities s)) as [x|] eqn:Gx.
    + unfold updateEntityLifespan. cbn [entities entityLifespan te_id].
      rewrite (sound_ids s S _ _ Gx).
      rewrite !JsMapFacts.get_set_neq by congruence. auto.
    + cbn [entities entityLifespan te_id].
      rewrite !JsMapFacts.get_set_neq by congruence. auto.
Qed.

Lemma updateAll_tracked (now : Z) (us : list EntityUpdate) (s : State)
  (u : EntityUpdate) :
  sound s -> In u us ->
  trackedAt now (fold_left (updateEntity now) us s) (u_id u).
Proof.
  assert (Keep : forall us s id, sound s -> trackedAt now s id ->
                   trackedAt now (fold_left (updateEntity now) us s) id).
  { clear. induction us as [|u' us IH]; simpl; intros s id S T; [exact T|].
    apply IH; [apply updateEntity_sound; exact S|].
    apply updateEntity_keeps_tracked; assumption. }
  revert s. induction us as [|u' us IH]; simpl; intros s S H; [tauto|].
  destruct H as [->|H].
  - apply Keep; [apply updateEntity_sound; exact S|].
    apply updateEntity_tracked. exact S.
  - apply IH; [apply updateEntity_sound; exact S | exact H].
Qed.

Lemma tracked_in_context (now : Z) (s : State) (id : string) :
  trackedAt now s id ->
  exists e,
    JsMap.get id (entities s) = Some e
    /\ te_id e = id /\ te_lastMentioned e = now
    /\ In e (getEntitiesForContext s).
Proof.
  intros (e & l & G & Ei & L & Gl & Ll). exists e.
  split; [exact G|]. split; [exact Ei|]. split; [exact L|].
  unfold getEntitiesForContext. apply filter_In. split.
  - unfold getAllEntities, JsMap.values. apply in_map_iff.
    exists (id, e). split; [reflexivity|]. apply JsMapFacts.get_in, G.
  - rewrite Ei, Gl. unfold Js.orQ.
    destruct (Qeq_bool l 0) eqn:Z0.
    + apply Qeq_bool_iff in Z0. lra.
    + apply Qle_bool_iff. lra.
Qed.

(** *** The extraction *)

Lemma extract_total (now : Z) (message : Message) :
  exists us,
    extractEntitiesFromMessage now message = Some us
    /\ Forall (fun u => u_salience u = Some 0.7%Q) us
    /\ (forall fields, msg_content message = Structured fields -> us = []).
Proof.
  unfold extractEntitiesFromMessage.
  destruct (msg_content message) as [text|fields].
  - destruct (RegExpFacts.exec_all_total entityPattern (Js.toLowerCase text))
      as (fs & ->); [vm_compute; lia|].
    eexists. split; [reflexivity|]. split; [|discriminate].
    apply Forall_map. apply Forall_forall. reflexivity.
  - exists []. split; [reflexivity|]. split; [constructor | reflexivity].
Qed.

(** A message that names an entity between braces. *)
Definition rocqMessage : Message :=
  {| msg_id := "m"; msg_role := Some "user"; msg_sender := "user";
     msg_content := Text "tell me about {topic:rocq}";
     msg_timestamp := 0 |}.

End TrackingFacts.

(** X15: the two maps of the entity tracker.  In every state of the tracker an
    entity is kept under its own identifier, the entities and the lifespans
    have the same keys, and every lifespan is above 0. *)
Theorem tracker_maps_agree (s : EntityTracker.State) :
  TrackingFacts.tracked s ->
  (forall k e,
     JsMap.get k (EntityTracker.entities s) = Some e -> te_id e = k)
  /\ (forall k,
        JsMap.has k (EntityTracker.entities s)
        = JsMap.has k (EntityTracker.entityLifespan s))
  /\ (forall k l,
        JsMap.get k (EntityTracker.entityLifespan s) = Some l -> (0 < l)%Q).
Proof.
  intros T. destruct (TrackingFacts.tracked_sound s T) as [D I A P].
  split; [exact I|]. split; [exact A | exact P].
Qed.

Lemma tracker_maps_agree_witness :
  JsMap.has "topic_rocq" (EntityTracker.entities EntityTrackerFacts.seen)
  = JsMap.has "topic_rocq"
      (EntityTracker.entityLifespan EntityTrackerFacts.seen).
Proof.
  exact (proj1 (proj2 (tracker_maps_agree EntityTrackerFacts.seen
                         (TrackingFacts.tracked_update 0 _ _
                            (TrackingFacts.tracked_init 0))))
           "topic_rocq").
Defined.

(** X16: [processMessage] of the entity tracker returns for every message.  It
    extracts nothing from a content that is not a text; each entity that it
    extracts is tracked afterwards under its identifier, last mentioned at
    the instant of the call, and is among the entities that the tracker
    gives for the context. *)
Theorem tracker_process_message
  (now : Z) (message : Message) (s : EntityTracker.State) :
  TrackingFacts.tracked s ->
  exists updated s',
    EntityTracker.processMessage now message s = Some (updated, s')
    /\ (forall fields,
          msg_content message = Structured fields -> updated = [])
    /\ forall u,
         In u updated ->
         exists e,
           JsMap.get (EntityTracker.u_id u) (EntityTracker.entities s')
           = Some e
           /\ te_id e = EntityTracker.u_id u
           /\ te_lastMentioned e = now
           /\ In e (EntityTracker.getEntitiesForContext s').
Proof.
  intros T. unfold EntityTracker.processMessage.
  destruct (TrackingFacts.extract_total now message) as (us & -> & _ & St).
  eexists. eexists. split; [reflexivity|]. split; [exact St|].
  intros u Hu. apply TrackingFacts.tracked_in_context.
  apply TrackingFacts.updateAll_tracked; [|exact Hu].
  apply TrackingFacts.cleanup_sound, TrackingFacts.tracked_sound, T.
Qed.

Lemma tracker_process_message_witness :
  exists updated s',
    EntityTracker.processMessage 0 TrackingFacts.rocqMessage
      (EntityTracker.init 0) = Some (updated, s')
    /\ (forall fields,
          msg_content TrackingFacts.rocqMessage = Structured fields ->
          updated = [])
    /\ forall u,
         In u updated ->
         exists e,
           JsMap.get (EntityTracker.u_id u) (EntityTracker.entities s')
           = Some e
           /\ te_id e = EntityTracker.u_id u
           /\ te_lastMentioned e = 0%Z
           /\ In e (EntityTracker.getEntitiesForContext s').
Proof.
  exact (tracker_process_message 0 TrackingFacts.rocqMessage
           (EntityTracker.init 0) (TrackingFacts.tracked_init 0)).
Defined.



(** ** The values: relevance *)

Module RelevanceFacts.
Import ContextualValueApplicability.

Definition byScore (store : Enhancements) (context : Context)
  (a b : CoreValue) : bool :=
  Qle_bool (getApplicabilityScore store b context)
           (getApplicabilityScore store a context).

Lemma byScore_total store context (x y : CoreValue) :
  byScore store context x y = false -> byScore store context y x = true.
Proof.
  unfold byScore. intros H. apply ApplicabilityFacts.Qle_bool_false in H.
  apply Qle_bool_iff. lra.
Qed.

Lemma byScore_trans store context (x y z : CoreValue) :
  byScore store context x y = true -> byScore store context y z = true ->
  byScore store context x z = true.
Proof.
  unfold byScore. rewrite !Qle_bool_iff. intros; lra.
Qed.

(** The score of a manifestation is 0.2 at least and 1 at most. *)
Lemma scoreManifestationMatch_bounds (manifestation : ValueManifestation)
  (context : Context) :
  (0.2 <= scoreManifestationMatch manifestation context <= 1)%Q.
Proof.
  unfold scoreManifestationMatch. cbv zeta.
  repeat match goal with
         | |- context [if ?b then _ else _] => destruct b
         end; split; lra.
Qed.

Lemma scoreManifestations_floor (value : CoreValue) (context : Context) :
  (0.2 <= scoreManifestations value context)%Q.
Proof.
  unfold scoreManifestations.
  destruct (v_manifestations value) as [|m r]; simpl; [lra|].
  eapply Qle_trans; [|apply ApplicabilityFacts.maxOf_ge_first].
  apply scoreManifestationMatch_bounds.
Qed.

Lemma important_relevant (store : Enhancements) (value : CoreValue)
  (context : Context) :
  (0.7 <= v_importance value)%Q -> isRelevant store value context = true.
Proof.
  intros I. apply ApplicabilityFacts.isRelevant_spec.
  unfold getApplicabilityScore. cbv zeta.
  pose proof (scoreManifestations_floor value context) as M.
  pose proof (ApplicabilityFacts.applyEnhancements_bounds store (v_id value)
                context) as [E _].
  set (score := (v_importance value * 0.5
                 + scoreManifestations value context * 0.3
                 + applyEnhancements store (v_id value) context * 0.2)%Q).
  assert (S : (0.31 <= score)%Q) by (unfold score; lra).
  unfold Js.Math_max, Js.Math_min.
  destruct (Q.min_spec 1 score) as [[? Hm]|[? Hm]],
    (Q.max_spec 0 (Qmin 1 score)) as [[? Hx]|[? Hx]]; lra.
Qed.

Lemma filter_all {A} (f : A -> bool) (l : list A) :
  (forall x, In x l -> f x = true) -> filter f l = l.
Proof.
  intros H. apply forallb_filter_id. apply forallb_forall. exact H.
Qed.

(** *** The enhancements of a value *)

Lemma enhance_other (enhancements : list ApplicabilityEnhancement)
  (store : Enhancements) (valueId : string) :
  (forall e, In e enhancements -> ae_valueId e <> valueId) ->
  JsMap.get valueId (enhance enhancements store) = JsMap.get valueId store.
Proof.
  unfold enhance. revert store.
  induction enhancements as [|e es IH]; simpl; intros store N; [reflexivity|].
  rewrite IH by (intros; apply N; tauto).
  assert (Ne : valueId <> ae_valueId e)
    by (intros C; apply (N e); [tauto | congruence]).
  destruct (JsMap.has (ae_valueId e) store).
  - destruct (JsMap.get (ae_valueId e) store);
      [apply JsMapFacts.get_set_neq; exact Ne | reflexivity].
  - rewrite JsMapFacts.get_set_eq.
    rewrite JsMapFacts.get_set_neq by exact Ne.
    apply JsMapFacts.get_set_neq; exact Ne.
Qed.

End RelevanceFacts.

(** X18: the relevant values.  [getRelevantValues] returns the values of the list
    whose score is above 0.3, each as often as the list holds it, in the
    descending order of the scores. *)
Theorem relevant_values_ranked
  (store : ContextualValueApplicability.Enhancements) (context : Context)
  (values : list CoreValue) :
  let score v :=
    ContextualValueApplicability.getApplicabilityScore store v context in
  let result :=
    ContextualValueApplicability.getRelevantValues store context values in
  Permutation result
    (filter (fun v => ContextualValueApplicability.isRelevant store v context)
       values)
  /\ StronglySorted (fun a b => (score b <= score a)%Q) result
  /\ (forall v, In v result <-> In v values /\ (0.3 < score v)%Q).
Proof.
  cbv zeta. unfold ContextualValueApplicability.getRelevantValues.
  fold (RelevanceFacts.byScore store context).
  set (relevant :=
         filter (fun v => ContextualValueApplicability.isRelevant store v
                            context) values).
  split; [symmetry; apply SortFacts.sort_perm|]. split.
  - eapply RankFacts.strongly_weaken;
      [|apply (RankFacts.sort_strongly CoreValue
                 (RelevanceFacts.byScore store context)
                 (RelevanceFacts.byScore_total store context)
                 (RelevanceFacts.byScore_trans store context))].
    intros a b H. apply Qle_bool_iff. exact H.
  - intros v. rewrite SortFacts.sort_in. unfold relevant.
    rewrite filter_In, ApplicabilityFacts.isRelevant_spec. tauto.
Qed.

(** X19: the core values are always relevant.  A value whose importance is 0.7
    at least is relevant in every context, whatever the enhancements; the
    six core values are such values, so [getRelevantValues] keeps all of
    them, in some order. *)
Theorem core_values_always_relevant
  (store : ContextualValueApplicability.Enhancements) (context : Context) :
  (forall value,
     (0.7 <= v_importance value)%Q ->
     ContextualValueApplicability.isRelevant store value context = true)
  /\ Permutation CoreValues.coreValues
       (ContextualValueApplicability.getRelevantValues store context
          CoreValues.coreValues).
Proof.
  split; [intros value; apply RelevanceFacts.important_relevant|].
  unfold ContextualValueApplicability.getRelevantValues.
  rewrite RelevanceFacts.filter_all; [apply SortFacts.sort_perm|].
  intros value H. apply RelevanceFacts.important_relevant.
  unfold CoreValues.coreValues in H. simpl in H.
  repeat (destruct H as [<-|H]; [simpl; lra|]). destruct H.
Qed.

(** X20: the enhancements are kept by value.  After [resetEnhancements] of a
    value its enhancement effect is 0 in every context and that of every
    other value is as before; and [enhance] with enhancements of other
    values leaves the effect of a value as it is. *)
Theorem enhancements_by_value
  (store : ContextualValueApplicability.Enhancements) (valueId : string)
  (context : Context) :
  ContextualValueApplicability.applyEnhancements
    (ContextualValueApplicability.resetEnhancements valueId store)
    valueId context = 0%Q
  /\ (forall other,
        other <> valueId ->
        ContextualValueApplicability.applyEnhancements
          (ContextualValueApplicability.resetEnhancements valueId store)
          other context
        = ContextualValueApplicability.applyEnhancements store other context)
  /\ (forall enhancements,
        (forall e, In e enhancements -> ae_valueId e <> valueId) ->
        ContextualValueApplicability.applyEnhancements
          (ContextualValueApplicability.enhance enhancements store)
          valueId context
        = ContextualValueApplicability.applyEnhancements store valueId
            context).
Proof.
  unfold ContextualValueApplicability.applyEnhancements,
    ContextualValueApplicability.resetEnhancements.
  split; [|split].
  - rewrite JsMapFacts.get_delete_eq. reflexivity.
  - intros other N. rewrite JsMapFacts.get_delete_neq by exact N.
    reflexivity.
  - intros enhancements N. rewrite RelevanceFacts.enhance_other by exact N.
    reflexivity.
Qed.

(** ** The values: priorities and tensions *)

Module PriorityFacts.
Import ValueHierarchy.

(** The context map that the hierarchy keeps for an ordered pair of
    values. *)
Definition pairMap (s : State) (value1Id value2Id : string)
  : option ContextMap :=
  match JsMap.get value1Id (customPriorities s) with
  | Some value1Map => JsMap.get value2Id value1Map
  | None => None
  end.

Lemma priority_of_pair (s : State) (value1Id value2Id : string)
  (context : Context) :
  getCustomPriorityInContext s value1Id value2Id context
  = match pairMap s value1Id value2Id with
    | Some contextMap =>
        match firstMatching context contextMap with
        | Some factor => factor
        | None =>
            match contextMapGet None contextMap with
            | Some factor => factor
            | None => 0%Q
            end
        end
    | None => 0%Q
    end.
Proof.
  unfold getCustomPriorityInContext, pairMap.
  destruct (JsMap.get value1Id (customPriorities s)); reflexivity.
Qed.

Lemma pairMap_set (s s' : State) (value1Id value2Id : string)
  (priorityFactor : Q) (contextPattern : option (JsMap.t json)) :
  setCustomPriority value1Id value2Id priorityFactor contextPattern s
  = Some s' ->
  pairMap s' value1Id value2Id
  = Some (contextMapSet contextPattern priorityFactor
            (match pairMap s value1Id value2Id with
             | Some m => m
             | None => []
             end))
  /\ forall a b,
       (a <> value1Id \/ b <> value2Id) -> pairMap s' a b = pairMap s a b.
Proof.
  unfold setCustomPriority. destruct (_ || _); [discriminate|].
  intros [= <-]. unfold pairMap. cbn [customPriorities]. split.
  - rewrite !JsMapFacts.get_set_eq.
    destruct (JsMap.get value1Id (customPriorities s)); reflexivity.
  - intros a b N. destruct (string_dec a value1Id) as [->|Na].
    + rewrite JsMapFacts.get_set_eq.
      assert (Nb : b <> value2Id) by (destruct N; congruence).
      rewrite JsMapFacts.get_set_neq by exact Nb.
      destruct (JsMap.get value1Id (customPriorities s)); reflexivity.
    + rewrite JsMapFacts.get_set_neq by exact Na. reflexivity.
Qed.

(** *** The winner of a conflict *)

Lemma resolveConflict_one (s : State) (a b : CoreValue) (context : Context) :
  resolveConflict s a b context = a \/ resolveConflict s a b context = b.
Proof.
  unfold resolveConflict. cbv zeta.
  repeat match goal with
         | |- context [if ?c then _ else _] => destruct c
         end; tauto.
Qed.

Lemma winner_in (s : State) (context : Context) (others : list CoreValue)
  (first : CoreValue) :
  In (fold_left (fun currentWinner value =>
                   resolveConflict s currentWinner value context)
        others first)
     (first :: others).
Proof.
  revert first. induction others as [|v r IH]; simpl; intros first; [tauto|].
  destruct (IH (resolveConflict s first v context)) as [E|H]; [|tauto].
  rewrite <- E. destruct (resolveConflict_one s first v context) as [->| ->];
    tauto.
Qed.

(** *** The applicability of a value *)

Lemma relevance_bounds (manifestation : ValueManifestation)
  (context : Context) :
  (0 <= getManifestationContextRelevance manifestation context <= 1)%Q.
Proof.
  unfold getManifestationContextRelevance. cbv zeta.
  repeat match goal with
         | |- context [if ?b then _ else _] => destruct b
         end; split; lra.
Qed.

Lemma applicability_bounds (value : CoreValue) (context : Context) :
  (0.5 <= getValueApplicability value context <= 1)%Q.
Proof.
  unfold getValueApplicability.
  apply (PatternFacts.fold_invariant (fun a => (0.5 <= a <= 1)%Q));
    [|lra].
  intros a m [A0 A1].
  pose proof (relevance_bounds m context) as [R0 R1].
  destruct (negb _); [|tauto].
  unfold Js.Math_max.
  destruct (Q.max_spec a
              (0.5 + getManifestationContextRelevance m context * 0.5))
    as [[? E]|[? E]]; rewrite E; split; lra.
Qed.

(** *** The tensions *)

Lemma Qabs_swap (x y : Q) : (Qabs (x - y) == Qabs (y - x))%Q.
Proof.
  rewrite <- (Qabs_opp (x - y)).
  apply Qabs_wd. ring.
Qed.

Lemma Qabs_lt_swap (x y bound : Q) :
  Qabs_lt (x - y) bound = Qabs_lt (y - x) bound.
Proof.
  unfold Qabs_lt. f_equal.
  destruct (Qle_bool bound (Qabs (x - y))) eqn:E1;
    destruct (Qle_bool bound (Qabs (y - x))) eqn:E2; try reflexivity.
  - apply Qle_bool_iff in E1. rewrite Qabs_swap in E1.
    apply Qle_bool_iff in E1. congruence.
  - apply Qle_bool_iff in E2. rewrite Qabs_swap in E2.
    apply Qle_bool_iff in E2. congruence.
Qed.

Lemma Qabs_gt_swap (x y bound : Q) :
  Qabs_gt (x - y) bound = Qabs_gt (y - x) bound.
Proof.
  unfold Qabs_gt. f_equal.
  destruct (Qle_bool (Qabs (x - y)) bound) eqn:E1;
    destruct (Qle_bool (Qabs (y - x)) bound) eqn:E2; try reflexivity.
  - apply Qle_bool_iff in E1. rewrite Qabs_swap in E1.
    apply Qle_bool_iff in E1. congruence.
  - apply Qle_bool_iff in E2. rewrite Qabs_swap in E2.
    apply Qle_bool_iff in E2. congruence.
Qed.

Definition differ (m1 m2 : ValueManifestation) : bool :=
  String.eqb (vm_context m1) (vm_context m2)
  && negb (String.eqb (vm_behavior m1) (vm_behavior m2)).

Lemma differ_swap (m1 m2 : ValueManifestation) : differ m1 m2 = differ m2 m1.
Proof.
  unfold differ.
  rewrite (String.eqb_sym (vm_context m1)), (String.eqb_sym (vm_behavior m1)).
  reflexivity.
Qed.

Lemma overlap_swap (l1 l2 : list ValueManifestation) :
  existsb (fun m1 => existsb (fun m2 => differ m1 m2) l2) l1
  = existsb (fun m2 => existsb (fun m1 => differ m2 m1) l1) l2.
Proof.
  destruct (existsb (fun m1 => existsb (fun m2 => differ m1 m2) l2) l1)
    eqn:E1; symmetry.
  - apply existsb_exists in E1. destruct E1 as (m1 & H1 & E1).
    apply existsb_exists in E1. destruct E1 as (m2 & H2 & E).
    apply existsb_exists. exists m2. split; [exact H2|].
    apply existsb_exists. exists m1. split; [exact H1|].
    rewrite differ_swap. exact E.
  - destruct (existsb (fun m2 => existsb (fun m1 => differ m2 m1) l1) l2)
      eqn:E2; [|reflexivity].
    apply existsb_exists in E2. destruct E2 as (m2 & H2 & E2).
    apply existsb_exists in E2. destruct E2 as (m1 & H1 & E).
    assert (T : existsb (fun m1 => existsb (fun m2 => differ m1 m2) l2) l1
                = true).
    { apply existsb_exists. exists m1. split; [exact H1|].
      apply existsb_exists. exists m2. split; [exact H2|].
      rewrite differ_swap. exact E. }
    congruence.
Qed.

Lemma detectTensionType_swap (a b : CoreValue) (context : Context) :
  detectTensionType a b context = detectTensionType b a context.
Proof.
  unfold detectTensionType. cbv zeta.
  rewrite (Qabs_lt_swap (getValueApplicability a context)),
    (Qabs_gt_swap (v_importance a)).
  assert (O : existsb
                (fun m1 =>
                   existsb
                     (fun m2 =>
                        String.eqb (vm_context m1) (vm_context m2)
                        && negb (String.eqb (vm_behavior m1)
                                   (vm_behavior m2)))
                     (v_manifestations b))
                (v_manifestations a)
              = existsb
                  (fun m1 =>
                     existsb
                       (fun m2 =>
                          String.eqb (vm_context m1) (vm_context m2)
                          && negb (String.eqb (vm_behavior m1)
                                     (vm_behavior m2)))
                       (v_manifestations a))
                  (v_manifestations b))
    by exact (overlap_swap (v_manifestations a) (v_manifestations b)).
  rewrite O.
  rewrite (andb_comm (negb (Qle_bool (getValueApplicability a context) 0.7))).
  reflexivity.
Qed.

(** The number of pairs of a list of [n] elements. *)
Fixpoint pairs (n : nat) : nat :=
  match n with
  | 0 => 0
  | S n' => n' + pairs n'
  end.

Lemma tensions_length (values : list CoreValue) (context : Context) :
  List.length (identifyValueTensions values context)
  <= pairs (List.length values).
Proof.
  induction values as [|v r IH]; simpl; [lia|].
  rewrite length_app.
  assert (L : forall l,
            List.length
              (flat_map
                 (fun value2 =>
                    match detectTensionType v value2 context with
                    | Some tensionType =>
                        [ {| vt_valueId1 := v_id v;
                             vt_valueId2 := v_id value2;
                             vt_tensionType := tensionType;
                             vt_contextElements :=
                               getRelevantContextElements v value2 context |} ]
                    | None => []
                    end) l)
            <= List.length l).
  { induction l as [|x l IHl]; simpl; [lia|].
    rewrite length_app.
    destruct (detectTensionType v x context); simpl; lia. }
  specialize (L r). lia.
Qed.

Lemma tensions_pairs (values : list CoreValue) (context : Context)
  (t : ValueTension) :
  In t (identifyValueTensions values context) ->
  exists before value1 between value2 after,
    values = before ++ value1 :: between ++ value2 :: after
    /\ vt_valueId1 t = v_id value1 /\ vt_valueId2 t = v_id value2
    /\ detectTensionType value1 value2 context = Some (vt_tensionType t).
Proof.
  induction values as [|v r IH]; simpl; [tauto|].
  intros H. apply in_app_or in H. destruct H as [H|H].
  - apply in_flat_map in H. destruct H as (value2 & Hr & H).
    destruct (detectTensionType v value2 context) as [ty|] eqn:E;
      [|destruct H].
    destruct H as [<-|[]].
    apply in_split in Hr. destruct Hr as (between & after & ->).
    exists [], v, between, value2, after. simpl. auto.
  - destruct (IH H) as (before & v1 & between & v2 & after & -> & R).
    exists (v :: before), v1, between, v2, after. simpl. auto.
Qed.

End PriorityFacts.

(** X21: custom priorities.  [setCustomPriority] fails exactly when the
    hierarchy does not know one of the two values.  When it sets the first
    priority of an ordered pair, the pair has that priority in the contexts
    that match the pattern, in all contexts for a priority without a
    pattern, and 0 elsewhere; and the priority of every other ordered pair,
    the reverse pair among them, is as before. *)
Theorem custom_priority_lookup
  (s : ValueHierarchy.State) (value1Id value2Id : string)
  (priorityFactor : Q) (contextPattern : option (JsMap.t json)) :
  match ValueHierarchy.setCustomPriority value1Id value2Id priorityFactor
          contextPattern s with
  | None =>
      JsMap.has value1Id (ValueHierarchy.values s) = false
      \/ JsMap.has value2Id (ValueHierarchy.values s) = false
  | Some s' =>
      JsMap.has value1Id (ValueHierarchy.values s) = true
      /\ JsMap.has value2Id (ValueHierarchy.values s) = true
      /\ (PriorityFacts.pairMap s value1Id value2Id = None ->
          forall context,
            ValueHierarchy.getCustomPriorityInContext s' value1Id value2Id
              context
            = match contextPattern with
              | None => priorityFactor
              | Some pattern =>
                  if ValueHierarchy.matchesContextPattern context pattern
                  then priorityFactor else 0%Q
              end)
      /\ (forall a b context,
            a <> value1Id \/ b <> value2Id ->
            ValueHierarchy.getCustomPriorityInContext s' a b context
            = ValueHierarchy.getCustomPriorityInContext s a b context)
  end.
Proof.
  destruct (ValueHierarchy.setCustomPriority value1Id value2Id priorityFactor
              contextPattern s) as [s'|] eqn:E.
  - destruct (PriorityFacts.pairMap_set s s' _ _ _ _ E) as [P F].
    unfold ValueHierarchy.setCustomPriority in E.
    destruct (JsMap.has value1Id (ValueHierarchy.values s));
      destruct (JsMap.has value2Id (ValueHierarchy.values s));
      try discriminate.
    split; [reflexivity|]. split; [reflexivity|]. split.
    + intros N context. rewrite PriorityFacts.priority_of_pair, P, N.
      destruct contextPattern as [pattern|]; simpl.
      * destruct (ValueHierarchy.matchesContextPattern context pattern);
          reflexivity.
      * reflexivity.
    + intros a b context N. rewrite !PriorityFacts.priority_of_pair.
      rewrite (F a b N). reflexivity.
  - unfold ValueHierarchy.setCustomPriority in E.
    destruct (JsMap.has value1Id (ValueHierarchy.values s));
      destruct (JsMap.has value2Id (ValueHierarchy.values s));
      try discriminate; tauto.
Qed.

(** X22: the priority value.  [getPriorityValue] fails exactly on the empty
    list; on any other list it returns one of the values of the list, and
    the value itself for a list of one value. *)
Theorem priority_value_member
  (s : ValueHierarchy.State) (values : list CoreValue) (context : Context) :
  match ValueHierarchy.getPriorityValue s values context with
  | None => values = []
  | Some winner =>
      In winner values
      /\ (forall only, values = [only] -> winner = only)
  end.
Proof.
  unfold ValueHierarchy.getPriorityValue.
  destruct values as [|first others]; [reflexivity|]. split.
  - apply PriorityFacts.winner_in.
  - intros only [= -> ->]. reflexivity.
Qed.

(** X23: the applicability that the hierarchy computes for a value lies between
    0.5 and 1 in every context, so the applicabilities of two values differ
    by 0.5 at most. *)
Theorem hierarchy_applicability_range
  (a b : CoreValue) (context : Context) :
  (0.5 <= ValueHierarchy.getValueApplicability a context <= 1)%Q
  /\ (Qabs (ValueHierarchy.getValueApplicability a context
            - ValueHierarchy.getValueApplicability b context) <= 0.5)%Q.
Proof.
  pose proof (PriorityFacts.applicability_bounds a context) as [A0 A1].
  pose proof (PriorityFacts.applicability_bounds b context) as [B0 B1].
  split; [split; assumption|].
  apply Qabs_case; intros; lra.
Qed.

(** X24: the tensions between values.  The kind of tension between two values
    does not depend on their order; [identifyValueTensions] reports at most
    one tension for each pair of positions of the list, between the value
    at the earlier position and the value at the later one. *)
Theorem value_tensions_symmetric
  (values : list CoreValue) (context : Context) :
  (forall a b,
     ValueHierarchy.detectTensionType a b context
     = ValueHierarchy.detectTensionType b a context)
  /\ List.length (ValueHierarchy.identifyValueTensions values context)
     <= PriorityFacts.pairs (List.length values)
  /\ (forall t,
        In t (ValueHierarchy.identifyValueTensions values context) ->
        exists before value1 between value2 after,
          values = before ++ value1 :: between ++ value2 :: after
          /\ ValueHierarchy.vt_valueId1 t = v_id value1
          /\ ValueHierarchy.vt_valueId2 t = v_id value2
          /\ ValueHierarchy.detectTensionType value1 value2 context
             = Some (ValueHierarchy.vt_tensionType t)).
Proof.
  split; [intros a b; apply PriorityFacts.detectTensionType_swap|].
  split; [apply PriorityFacts.tensions_length|].
  intros t. apply PriorityFacts.tensions_pairs.
Qed.

(** ** The understanding framework *)

Module FrameworkFacts.
Import EnhancedUnderstandingFramework.

Lemma recognize_total (now : Z) (text : string) :
  exists entities,
    EntityRecognizer.recognizeEntities now text = Some entities.
Proof.
  unfold EntityRecognizer.recognizeEntities.
  destruct (EntityRecognizerFacts.candidates_total text) as (es & -> & _).
  eexists. reflexivity.
Qed.

Lemma primary_detected (text : string) (entities : option (list Entity)) :
  In (IntentionDetector.identifyPrimaryIntention
        (IntentionDetector.detectIntentions text entities))
     (IntentionDetector.detectIntentions text entities).
Proof.
  pose proof (IntentionDetectorFacts.detectIntentions_nonempty text entities)
    as N.
  destruct (IntentionDetector.detectIntentions text entities)
    as [|first others]; [congruence|].
  rewrite PrimaryFacts.identify_fold.
  destruct (PrimaryFacts.fold_in (first :: others) first) as [E|H];
    [rewrite E; left; reflexivity | exact H].
Qed.

End FrameworkFacts.

(** X25: the framework processes every message.  [processUserMessage] returns
    for every text: the message that it returns carries the text, its
    primary intention is one of its detected intentions, and the working
    memory has counted one message more.  [processSystemMessage] returns
    for every text as well, with the one intention of a system message, and
    leaves the pattern tracker as it is. *)
Theorem framework_processes_every_message
  (getHours : Z -> Z) (now : Z) (text : string)
  (fw : EnhancedUnderstandingFramework.Framework) :
  (exists message fw',
     EnhancedUnderstandingFramework.processUserMessage getHours now text fw
     = Some (message, fw')
     /\ m_content message = text /\ m_sender message = user
     /\ (exists intentions primary,
           m_detectedIntentions message = Some intentions
           /\ m_primaryIntention message = Some primary
           /\ In primary intentions)
     /\ cs_messageCount
          (conversationState
             (EnhancedUnderstandingFramework.workingMemory fw'))
        = (cs_messageCount
             (conversationState
                (EnhancedUnderstandingFramework.workingMemory fw)) + 1)%Z)
  /\ (exists message fw',
        EnhancedUnderstandingFramework.processSystemMessage now text fw
        = Some (message, fw')
        /\ m_content message = text /\ m_sender message = system
        /\ (exists primary,
              m_detectedIntentions message = Some [primary]
              /\ m_primaryIntention message = Some primary
              /\ i_type primary = SYSTEM_INFORM)
        /\ EnhancedUnderstandingFramework.patternTracker fw'
           = EnhancedUnderstandingFramework.patternTracker fw).
Proof.
  destruct (FrameworkFacts.recognize_total now text) as (entities & E).
  split.
  - unfold EnhancedUnderstandingFramework.processUserMessage. rewrite E.
    eexists. eexists. split; [reflexivity|].
    cbn [m_content m_sender m_detectedIntentions m_primaryIntention
         EnhancedUnderstandingFramework.workingMemory].
    split; [reflexivity|]. split; [reflexivity|]. split.
    + eexists. eexists. split; [reflexivity|]. split; [reflexivity|].
      apply FrameworkFacts.primary_detected.
    + apply MemoryFacts.addMessage_messages.
  - unfold EnhancedUnderstandingFramework.processSystemMessage. rewrite E.
    eexists. eexists. split; [reflexivity|].
    cbn [m_content m_sender m_detectedIntentions m_primaryIntention
         EnhancedUnderstandingFramework.patternTracker].
    split; [reflexivity|]. split; [reflexivity|]. split; [|reflexivity].
    eexists. split; [reflexivity|]. split; reflexivity.
Qed.

(** ** The contextual understanding capacity *)

Module CapacityFacts.
Import ContextualUnderstandingCapacity.

(** The states that a capacity goes through. *)
Inductive lived : State -> Prop :=
| lived_init now : lived (init now)
| lived_message now message context s output s' :
    lived s -> processMessage now message context s = Some (output, s') ->
    lived s'
| lived_reset now s : lived s -> lived (reset now s).

(** The bounds of a conversation state. *)
Record bounded (st : ConversationState) : Prop := mkBounded {
  bounded_messages : List.length (recentMessages st) <= 10;
  bounded_topics : List.length (activeTopics st) <= 5;
  bounded_distinct : NoDup (activeTopics st);
  bounded_sentiment : (-1 <= recentSentiment st <= 1)%Q;
  bounded_turns : (0 <= turnCount st)%Z
}.

Lemma addRecentMessage_length (message : Message) (st : ConversationState) :
  List.length (recentMessages st) <= 10 ->
  List.length (recentMessages (addRecentMessage message st)) <= 10.
Proof.
  intros L. unfold addRecentMessage. cbn [recentMessages].
  rewrite length_app. cbn [List.length].
  destruct (10 <=? List.length (recentMessages st)) eqn:E.
  - apply Nat.leb_le in E.
    destruct (recentMessages st) as [|a l]; cbn [List.length tl] in *; lia.
  - apply Nat.leb_gt in E. lia.
Qed.

Lemma updateSentiment_range (content : string) (st : ConversationState) :
  (-1 <= recentSentiment (updateSentiment content st) <= 1)%Q.
Proof.
  unfold updateSentiment. cbn [recentSentiment].
  unfold Js.Math_max, Js.Math_min.
  match goal with
  | |- (_ <= Qmax _ (Qmin 1 ?b) <= _)%Q =>
      destruct (Q.min_spec 1 b) as [[? Hm]|[? Hm]],
        (Q.max_spec (-1) (Qmin 1 b)) as [[? Hx]|[? Hx]]
  end; split; lra.
Qed.

Lemma pushTopics_nodup (topics acc : list string) :
  NoDup acc ->
  NoDup (fold_left
           (fun acc topic =>
              if existsb (String.eqb topic) acc then acc else acc ++ [topic])
           topics acc).
Proof.
  revert acc. induction topics as [|t topics IH]; simpl; intros acc D;
    [exact D|].
  apply IH. destruct (existsb (String.eqb t) acc) eqn:E; [exact D|].
  apply NoDup_app; [exact D | repeat constructor; simpl; tauto|].
  intros x Hx [E'|[]]. subst x.
  assert (T : existsb (String.eqb t) acc = true).
  { apply existsb_exists. exists t. split; [exact Hx|].
    apply String.eqb_refl. }
  congruence.
Qed.

Lemma extractAndUpdateTopics_bounds (content : string)
  (st : ConversationState) :
  NoDup (activeTopics st) ->
  List.length (activeTopics (extractAndUpdateTopics content st)) <= 5
  /\ NoDup (activeTopics (extractAndUpdateTopics content st)).
Proof.
  intros D. unfold extractAndUpdateTopics. cbv zeta. cbn [activeTopics].
  match goal with
  | |- context [fold_left ?f ?l ?a] =>
      pose proof (pushTopics_nodup l a D) as N; set (topics := fold_left f l a) in *
  end.
  destruct (5 <? List.length topics) eqn:E.
  - split; [rewrite length_skipn; lia | apply FocusFacts.skipn_nodup, N].
  - apply Nat.ltb_ge in E. split; [exact E | exact N].
Qed.

Lemma updateConversationState_bounded (now : Z) (message : Message)
  (st : ConversationState) :
  bounded st -> bounded (updateConversationState now message st).
Proof.
  intros [M T D S C]. unfold updateConversationState. cbv zeta.
  pose proof (addRecentMessage_length message st M) as M1.
  destruct (msg_content message) as [content|fields].
  - destruct (extractAndUpdateTopics_bounds content
                (updateSentiment content (addRecentMessage message st)) D)
      as [T3 D3].
    constructor.
    + exact M1.
    + exact T3.
    + exact D3.
    + exact (updateSentiment_range content (addRecentMessage message st)).
    + change (0 <= turnCount st + 1)%Z. lia.
  - constructor.
    + exact M1.
    + exact T.
    + exact D.
    + exact S.
    + change (0 <= turnCount st + 1)%Z. lia.
Qed.

Lemma init_bounded (now : Z) : bounded (initializeConversationState now).
Proof.
  constructor; simpl; try lia; [constructor | split; lra].
Qed.

Lemma processMessage_total (now : Z) (message : Message) (context : Context)
  (s : State) :
  exists output s',
    processMessage now message context s = Some (output, s')
    /\ conversationState s'
       = updateConversationState now message (conversationState s)
    /\ o_conversationState output = conversationState s'.
Proof.
  unfold processMessage, EntityTracker.processMessage.
  destruct (TrackingFacts.extract_total now message) as (us & -> & _).
  destruct (IntentionRecognizer.recognizeIntentions _ _ _ _) as [found recognizer].
  eexists. eexists. split; [reflexivity|]. split; reflexivity.
Qed.

Lemma lived_bounded (s : State) : lived s -> bounded (conversationState s).
Proof.
  induction 1 as [now|now message context s output s' _ IH E|now s _ IH].
  - apply init_bounded.
  - destruct (processMessage_total now message context s)
      as (o & s1 & E1 & C & _).
    rewrite E in E1. injection E1 as _ <-. rewrite C.
    apply updateConversationState_bounded, IH.
  - apply init_bounded.
Qed.

End CapacityFacts.

(** X26: the conversation state of the capacity.  [processMessage] of the
    capacity returns for every message and hands out the conversation state
    that it keeps; it counts one turn more, stamps the state with the
    instant of the call and puts the message last among the recent
    messages.  In every state of the capacity the recent messages are ten at
    most, the active topics five at most and distinct, and the sentiment
    lies between -1 and 1. *)
Theorem capacity_state_bounded
  (now : Z) (message : Message) (context : Context)
  (s : ContextualUnderstandingCapacity.State) :
  CapacityFacts.lived s ->
  let st := ContextualUnderstandingCapacity.conversationState in
  (List.length (ContextualUnderstandingCapacity.recentMessages (st s)) <= 10
   /\ List.length (ContextualUnderstandingCapacity.activeTopics (st s)) <= 5
   /\ NoDup (ContextualUnderstandingCapacity.activeTopics (st s))
   /\ (-1 <= ContextualUnderstandingCapacity.recentSentiment (st s) <= 1)%Q)
  /\ exists output s',
       ContextualUnderstandingCapacity.processMessage now message context s
       = Some (output, s')
       /\ ContextualUnderstandingCapacity.o_conversationState output = st s'
       /\ ContextualUnderstandingCapacity.turnCount (st s')
          = (ContextualUnderstandingCapacity.turnCount (st s) + 1)%Z
       /\ ContextualUnderstandingCapacity.lastUpdateTimestamp (st s') = now
       /\ exists earlier,
            ContextualUnderstandingCapacity.recentMessages (st s')
            = earlier ++ [message].
Proof.
  intros L. cbv zeta.
  destruct (CapacityFacts.lived_bounded s L) as [M T D S C].
  split; [repeat split; try assumption; apply S|].
  destruct (CapacityFacts.processMessage_total now message context s)
    as (output & s' & E & Cs & O).
  exists output, s'. split; [exact E|]. split; [exact O|].
  rewrite Cs.
  unfold ContextualUnderstandingCapacity.updateConversationState.
  cbv zeta.
  destruct (msg_content message) as [content|fields];
    cbn [ContextualUnderstandingCapacity.turnCount
         ContextualUnderstandingCapacity.lastUpdateTimestamp
         ContextualUnderstandingCapacity.recentMessages
         ContextualUnderstandingCapacity.extractAndUpdateTopics
         ContextualUnderstandingCapacity.updateSentiment
         ContextualUnderstandingCapacity.addRecentMessage];
    (split; [reflexivity|]; split; [reflexivity|]; eexists; reflexivity).
Qed.

Lemma capacity_state_bounded_witness :
  exists output s',
    ContextualUnderstandingCapacity.processMessage 0
      TrackingFacts.rocqMessage RecognizerFacts.noContext
      (ContextualUnderstandingCapacity.init 0) = Some (output, s')
    /\ ContextualUnderstandingCapacity.turnCount
         (ContextualUnderstandingCapacity.conversationState s')
       = 1%Z.
Proof.
  destruct (capacity_state_bounded 0 TrackingFacts.rocqMessage
              RecognizerFacts.noContext
              (ContextualUnderstandingCapacity.init 0)
              (CapacityFacts.lived_init 0))
    as (_ & output & s' & E & _ & T & _).
  exists output, s'. split; [exact E | exact T].
Defined.

(** ** The entity tracker: salient entities and lifespans *)

(** X27: the salient entities: as many as the limit at most, taken from the
    tracked entities, in the descending order of their salience; no entity
    that is left out is more salient than one that is listed. *)
Theorem tracker_salient_entities (limit : nat) (s : EntityTracker.State) :
  let salient := EntityTracker.getSalientEntities limit s in
  List.length salient <= limit
  /\ StronglySorted (fun a b => (te_salience b <= te_salience a)%Q) salient
  /\ exists rest,
       Permutation (EntityTracker.getAllEntities s) (salient ++ rest)
       /\ forall x y,
            In x salient -> In y rest -> (te_salience y <= te_salience x)%Q.
Proof.
  cbv zeta. unfold EntityTracker.getSalientEntities.
  set (le := fun a b : TrackedEntity =>
               Qle_bool (te_salience b) (te_salience a)).
  destruct (RankFacts.top_split TrackedEntity le) with (k := limit)
    (l := EntityTracker.getAllEntities s) as (L & S & rest & P & B).
  - intros x y H. unfold le in *.
    apply ApplicabilityFacts.Qle_bool_false in H. apply Qle_bool_iff. lra.
  - intros x y z. unfold le. rewrite !Qle_bool_iff. intros; lra.
  - split; [exact L|]. split.
    + eapply RankFacts.strongly_weaken; [|exact S].
      intros a b H. apply Qle_bool_iff. exact H.
    + exists rest. split; [exact P|].
      intros x y Hx Hy. apply Qle_bool_iff. exact (B x y Hx Hy).
Qed.

Module LifespanFacts.
Import EntityTracker.

(** The states of a tracker whose clock does not go back: [run now s] says
    that [s] is a state of the tracker at the instant [now]. *)
Inductive run : Z -> State -> Prop :=
| run_init now : run now (init now)
| run_message now now' message s updated s' :
    run now s -> (now <= now')%Z ->
    processMessage now' message s = Some (updated, s') ->
    run now' s'
| run_update now now' entityUpdate s :
    run now s -> (now <= now')%Z ->
    run now' (updateEntity now' s entityUpdate)
| run_load now now' context s :
    run now s -> (now <= now')%Z ->
    Forall (fun e => (te_lastMentioned e <= now')%Z) (ctx_entities context) ->
    run now' (loadFromContext now' context s)
| run_reset now now' s :
    run now s -> (now <= now')%Z -> run now' (reset now' s).

(** No entity was last mentioned after [now], and no lifespan is above
    10. *)
Definition timely (now : Z) (m : JsMap.t TrackedEntity) : Prop :=
  forall k e, JsMap.get k m = Some e -> (te_lastMentioned e <= now)%Z.

Definition capped (m : JsMap.t Q) : Prop :=
  Forall (fun kl => (snd kl <= 10)%Q) m.

Lemma capped_get (m : JsMap.t Q) (k : string) (l : Q) :
  capped m -> JsMap.get k m = Some l -> (l <= 10)%Q.
Proof.
  intros C G. apply JsMapFacts.get_in in G.
  unfold capped in C. rewrite Forall_forall in C. exact (C (k, l) G).
Qed.

Lemma capped_set (m : JsMap.t Q) (k : string) (l : Q) :
  (l <= 10)%Q -> capped m -> capped (JsMap.set k l m).
Proof.
  intros L. unfold capped. induction 1 as [|[k' l'] r H C IH]; simpl.
  - repeat constructor. exact L.
  - destruct (String.eqb k k'); constructor; auto.
Qed.

Lemma capped_delete (m : JsMap.t Q) (k : string) :
  capped m -> capped (JsMap.delete k m).
Proof.
  unfold capped. induction 1 as [|[k' l'] r H C IH]; simpl; [constructor|].
  destruct (String.eqb k k'); [exact IH | constructor; auto].
Qed.

Lemma timely_set (now : Z) (m : JsMap.t TrackedEntity) (k : string)
  (e : TrackedEntity) :
  (te_lastMentioned e <= now)%Z -> timely now m ->
  timely now (JsMap.set k e m).
Proof.
  intros L T k' e' G. destruct (string_dec k' k) as [->|N].
  - rewrite JsMapFacts.get_set_eq in G. injection G as <-. exact L.
  - rewrite JsMapFacts.get_set_neq in G by exact N. exact (T k' e' G).
Qed.

Lemma timely_delete (now : Z) (m : JsMap.t TrackedEntity) (k : string) :
  timely now m -> timely now (JsMap.delete k m).
Proof.
  intros T k' e' G. destruct (string_dec k' k) as [->|N].
  - rewrite JsMapFacts.get_delete_eq in G. discriminate.
  - rewrite JsMapFacts.get_delete_neq in G by exact N. exact (T k' e' G).
Qed.

Lemma timely_later (now now' : Z) (m : JsMap.t TrackedEntity) :
  (now <= now')%Z -> timely now m -> timely now' m.
Proof. intros L T k e G. specialize (T k e G). lia. Qed.

Definition kept (now : Z) (s : State) : Prop :=
  timely now (entities s) /\ capped (entityLifespan s).

Lemma updateEntity_kept (now : Z) (s : State) (u : EntityUpdate) :
  kept now s -> kept now (updateEntity now s u).
Proof.
  intros [T C]. unfold updateEntity.
  destruct (JsMap.get (u_id u) (entities s)) as [x|].
  - unfold updateEntityLifespan. cbn [entities entityLifespan]. split.
    + apply timely_set; [simpl; lia | exact T].
    + apply capped_set; [apply Q.le_min_l | exact C].
  - cbn [entities entityLifespan]. split.
    + apply timely_set; [simpl; lia | exact T].
    + apply capped_set; [lra | exact C].
Qed.

Lemma cleanupStep_kept (now : Z) (s : State) (entry : string * Q) :
  (snd entry <= 10)%Q -> kept now s -> kept now (cleanupStep now s entry).
Proof.
  intros L [T C]. unfold cleanupStep. destruct entry as [id lifespan].
  simpl in L.
  destruct (JsMap.get id (entities s)) as [x|] eqn:G.
  - pose proof (T _ _ G) as Tx.
    destruct (Qle_bool _ 0); cbn [entities entityLifespan]; split.
    + apply timely_delete, T.
    + apply capped_delete, C.
    + apply timely_set; [exact Tx | exact T].
    + apply capped_set; [|exact C].
      assert (D : (0 <= inject_Z (now - te_lastMentioned x)
                        / inject_Z (10 * 60 * 1000))%Q).
      { apply Qle_shift_div_l; [reflexivity|].
        rewrite Qmult_0_l. change 0%Q with (inject_Z 0).
        rewrite <- Zle_Qle. lia. }
      lra.
  - cbn [entities entityLifespan]. split; [exact T|].
    apply capped_delete, C.
Qed.

Lemma cleanup_kept (now : Z) (s : State) :
  kept now s -> kept now (cleanupStaleEntities now s).
Proof.
  intros [T C]. unfold cleanupStaleEntities.
  destruct (_ <? 60000)%Z; [split; assumption|].
  assert (G : forall l s0, capped l -> kept now s0 ->
                kept now (fold_left (cleanupStep now) l s0)).
  { induction l as [|kl l IH]; simpl; intros s0 Cl K; [exact K|].
    inversion Cl; subst. apply IH; [assumption|].
    apply cleanupStep_kept; assumption. }
  apply G; [exact C | split; assumption].
Qed.

Lemma loadFromContext_kept (now : Z) (context : Context) (s : State) :
  Forall (fun e => (te_lastMentioned e <= now)%Z) (ctx_entities context) ->
  kept now s -> kept now (loadFromContext now context s).
Proof.
  unfold loadFromContext. revert s.
  induction (ctx_entities context) as [|e es IH]; cbn [fold_left];
    intros s F K; [exact K|].
  inversion F as [|? ? Le F']; subst. apply IH; [exact F'|].
  destruct K as [T C]. cbn [entities entityLifespan]. split.
  - apply timely_set; [exact Le | exact T].
  - apply capped_set; [|exact C].
    change 10%Q with (inject_Z 10). rewrite <- Zle_Qle.
    match goal with
    | |- context [Z.min 9 (?a / ?b)] =>
        assert (0 <= a / b)%Z by (apply Z.div_pos; lia)
    end.
    lia.
Qed.

Lemma run_kept (now : Z) (s : State) : run now s -> kept now s.
Proof.
  induction 1 as [now|now now' message s updated s' _ IH L E
                  |now now' u s _ IH L|now now' context s _ IH L F
                  |now now' s _ IH L].
  - split; [intros k e G; discriminate | constructor].
  - unfold processMessage in E.
    destruct (extractEntitiesFromMessage now' message) as [us|];
      [|discriminate].
    injection E as _ <-.
    apply (PatternFacts.fold_invariant (kept now'));
      [intros; apply updateEntity_kept; assumption|].
    apply cleanup_kept. destruct IH as [T C].
    split; [exact (timely_later now now' _ L T) | exact C].
  - apply updateEntity_kept. destruct IH as [T C].
    split; [exact (timely_later now now' _ L T) | exact C].
  - apply loadFromContext_kept; [exact F|]. destruct IH as [T C].
    split; [exact (timely_later now now' _ L T) | exact C].
  - split; [intros k e G; discriminate | constructor].
Qed.

Lemma run_tracked (now : Z) (s : State) : run now s -> TrackingFacts.tracked s.
Proof.
  induction 1 as [now|now now' message s updated s' _ IH L E
                  |now now' u s _ IH L|now now' context s _ IH L F
                  |now now' s _ IH L].
  - apply TrackingFacts.tracked_init.
  - exact (TrackingFacts.tracked_message now' message s updated s' IH E).
  - apply TrackingFacts.tracked_update, IH.
  - apply TrackingFacts.tracked_load, IH.
  - apply TrackingFacts.tracked_reset, IH.
Qed.

End LifespanFacts.

(** X28: the lifespans.  While the clock of the tracker does not go back and the
    contexts that it loads hold no entity mentioned in the future, every
    lifespan is above 0 and at most 10, and no tracked entity was last
    mentioned after the present instant. *)
Theorem tracker_lifespans_bounded (now : Z) (s : EntityTracker.State) :
  LifespanFacts.run now s ->
  (forall k l,
     JsMap.get k (EntityTracker.entityLifespan s) = Some l ->
     (0 < l /\ l <= 10)%Q)
  /\ (forall k e,
        JsMap.get k (EntityTracker.entities s) = Some e ->
        (te_lastMentioned e <= now)%Z).
Proof.
  intros R. destruct (LifespanFacts.run_kept now s R) as [T C].
  pose proof (TrackingFacts.tracked_sound s (LifespanFacts.run_tracked now s R))
    as [_ _ _ P].
  split; [|exact T].
  intros k l G. split; [exact (P k l G)|].
  exact (LifespanFacts.capped_get _ k l C G).
Qed.

Lemma tracker_lifespans_bounded_witness :
  JsMap.get "topic_rocq"
    (EntityTracker.entityLifespan EntityTrackerFacts.seen) = Some 1%Q
  /\ (0 < 1 /\ 1 <= 10)%Q.
Proof.
  split; [reflexivity|].
  refine (proj1 (tracker_lifespans_bounded 0 EntityTrackerFacts.seen _)
            "topic_rocq" 1%Q _); [|reflexivity].
  apply (LifespanFacts.run_update 0 0); [apply LifespanFacts.run_init | lia].
Defined.

(** ** The entity recognizer: what the entities carry *)

Module StampFacts.
Import RegExp EntityRecognizer.

(** A candidate as a pass makes it: no normalized value, no time stamp, no
    mention count, and the confidence of its pass. *)
Definition raw (e : Entity) : Prop :=
  e_normalizedValue e = None
  /\ e_firstMentionedAt e = None /\ e_lastMentionedAt e = None
  /\ e_mentionCount e = None
  /\ (e_confidence e = 0.8%Q \/ e_confidence e = 0.9%Q
      \/ e_confidence e = 0.6%Q).

Lemma candidate_raw ty value f confidence :
  confidence = 0.8%Q \/ confidence = 0.9%Q \/ confidence = 0.6%Q ->
  raw (candidate ty value f confidence).
Proof. intros H. repeat split; exact H. Qed.

Lemma forEach_keeps {A S} (P : S -> Prop) (body : A -> S -> option S)
  (l : list A) (s s' : S) :
  (forall a s s', body a s = Some s' -> P s -> P s') ->
  forEach body l s = Some s' -> P s -> P s'.
Proof.
  intros H. revert s. induction l as [|a r IH]; simpl; intros s E Ps.
  - injection E as <-. exact Ps.
  - destruct (body a s) as [s1|] eqn:B; [|discriminate].
    apply (IH s1 E). exact (H a s s1 B Ps).
Qed.

Lemma pushes_raw {A} (step : list Entity -> A -> list Entity)
  (made : A -> Entity) (fs : list A) (entities : list Entity) :
  (forall es f, step es f = es \/ step es f = es ++ [made f]) ->
  (forall f, raw (made f)) ->
  Forall raw entities -> Forall raw (fold_left step fs entities).
Proof.
  intros Hs Hm. revert entities.
  induction fs as [|f r IH]; simpl; intros entities Fe; [exact Fe|].
  apply IH. destruct (Hs entities f) as [->| ->]; [exact Fe|].
  apply Forall_app. split; [exact Fe | constructor; auto].
Qed.

Lemma candidates_raw (text : string) (entities : list Entity) :
  candidates text = Some entities -> Forall raw entities.
Proof.
  unfold candidates. intros E.
  destruct (firstPass text []) as [es1|] eqn:E1; [|discriminate].
  destruct (secondPass text es1) as [es2|] eqn:E2; [|discriminate].
  assert (F1 : Forall raw es1).
  { unfold firstPass in E1.
    refine (forEach_keeps (Forall raw) _ _ _ _ _ E1 (Forall_nil _)).
    intros tp s s' B. refine (forEach_keeps (Forall raw) _ _ _ _ _ B).
    clear. intros pattern s s' B Fs. unfold patternPass in B.
    destruct (exec_all _ text) as [fs|]; [|discriminate].
    injection B as <-. apply Forall_app. split; [exact Fs|].
    apply Forall_map, Forall_forall. intros f _.
    apply candidate_raw. tauto. }
  assert (F2 : Forall raw es2).
  { unfold secondPass in E2.
    refine (forEach_keeps (Forall raw) _ _ _ _ _ E2 F1).
    intros tl s s' B. refine (forEach_keeps (Forall raw) _ _ _ _ _ B).
    clear. intros item s s' B Fs. unfold itemPass in B.
    destruct (exec_all _ text) as [fs|]; [|discriminate].
    injection B as <-.
    apply (pushes_raw _ (fun f => candidate (fst tl) (matched text f) f
                                    0.9%Q)); [| |exact Fs].
    - intros es f. unfold pushUnlessOverlap.
      destruct (existsb _ es); auto.
    - intros f. apply candidate_raw. tauto. }
  unfold extractConcepts in E.
  destruct (exec_all conceptRegex text) as [fs|]; [|discriminate].
  injection E as <-.
  apply (pushes_raw _ (fun f => candidate CONCEPT (matched text f) f 0.6%Q));
    [| |exact F2].
  - intros es f. destruct (existsb _ es); auto.
  - intros f. apply candidate_raw. tauto.
Qed.

Lemma resolveLoop_in (current : Entity) (sorted : list Entity) (w : Entity) :
  In w (resolveLoop current sorted) -> In w (current :: sorted).
Proof.
  revert current. induction sorted as [|next rest IH]; simpl; intros current H.
  - exact H.
  - destruct (_ && _).
    + destruct (negb _); [right; apply IH; exact H|].
      destruct (_ && _); [right; apply IH; exact H|].
      destruct (IH _ H) as [E|R]; auto.
    + destruct H as [E|H]; [auto|]. right. apply IH. exact H.
Qed.

Lemma resolveLoop_nonempty (current : Entity) (sorted : list Entity) :
  resolveLoop current sorted <> [].
Proof.
  revert current. induction sorted as [|next rest IH]; simpl; intros current.
  - discriminate.
  - destruct (_ && _); [|discriminate].
    destruct (negb _); [apply IH|]. destruct (_ && _); apply IH.
Qed.

End StampFacts.

(** X29: what the recognized entities carry.  Every entity that
    [recognizeEntities] returns has the confidence of its pass, 0.8, 0.9 or
    0.6, and no normalized value.  When the passes find two candidates or
    more, each returned entity is stamped: first and last mentioned at the
    instant of the call, with a mention count of 1; when they find one
    candidate or none, the candidates are returned as they are, without
    time stamps and without a mention count. *)
Theorem recognized_entities_stamps (now : Z) (text : string) :
  exists candidates entities,
    EntityRecognizer.candidates text = Some candidates
    /\ EntityRecognizer.recognizeEntities now text = Some entities
    /\ (forall e,
          In e entities ->
          e_normalizedValue e = None
          /\ (e_confidence e = 0.8%Q \/ e_confidence e = 0.9%Q
              \/ e_confidence e = 0.6%Q))
    /\ (List.length candidates <= 1 ->
        entities = candidates
        /\ forall e,
             In e entities ->
             e_firstMentionedAt e = None /\ e_lastMentionedAt e = None
             /\ e_mentionCount e = None)
    /\ (2 <= List.length candidates ->
        entities <> []
        /\ forall e,
             In e entities ->
             e_firstMentionedAt e = Some now /\ e_lastMentionedAt e = Some now
             /\ e_mentionCount e = Some 1%Z).
Proof.
  destruct (EntityRecognizerFacts.candidates_total text) as (cs & E & _).
  pose proof (StampFacts.candidates_raw text cs E) as R.
  rewrite Forall_forall in R.
  exists cs, (EntityRecognizer.resolveOverlappingEntities now cs).
  split; [exact E|].
  split; [unfold EntityRecognizer.recognizeEntities; rewrite E; reflexivity|].
  unfold EntityRecognizer.resolveOverlappingEntities.
  destruct (List.length cs <=? 1) eqn:L.
  - apply Nat.leb_le in L. split; [|split].
    + intros e He. destruct (R e He) as (N & _ & _ & _ & C). auto.
    + intros _. split; [reflexivity|].
      intros e He. destruct (R e He) as (_ & F1 & F2 & F3 & _). auto.
    + intros H. lia.
  - apply Nat.leb_gt in L.
    pose proof (SortFacts.sort_in Entity
                  (fun a b => (EntityRecognizer.startIndex0 a
                               <=? EntityRecognizer.startIndex0 b)%Z) cs)
      as I.
    pose proof (SortFacts.sort_length Entity
                  (fun a b => (EntityRecognizer.startIndex0 a
                               <=? EntityRecognizer.startIndex0 b)%Z) cs)
      as Len.
    unfold EntityRecognizer.sortByStart.
    destruct (Js.sort _ cs) as [|first rest] eqn:S;
      [simpl in Len; lia|].
    split; [|split].
    + intros e He. apply in_map_iff in He. destruct He as (w & <- & Hw).
      apply StampFacts.resolveLoop_in in Hw. apply I in Hw.
      destruct (R w Hw) as (N & _ & _ & _ & C). auto.
    + intros H. lia.
    + intros _. split.
      * pose proof (StampFacts.resolveLoop_nonempty first rest) as NE.
        destruct (EntityRecognizer.resolveLoop first rest);
          [congruence | discriminate].
      * intros e He. apply in_map_iff in He. destruct He as (w & <- & _).
        repeat split.
Qed.
